(* ===== verification/_CoqProject ===== *)
-Q . S2P
Prelude.v
CStd.v
CStdFacts.v
Store.v
Dict.v
Probe.v
DictFacts.v
DictOps.v
DictSpec.v
Murmur.v
Dlink.v
DlinkSpec.v
Balloc.v
BallocFacts.v
BallocOps.v
BallocSpec.v
Heaps.v
Timestr.v
TimestrSpec.v
Conf.v
ConfSpec.v
Tree.v
TreeFacts.v
TreeBal.v
TreeSpec.v
TreeDelete.v
TreeThms.v
Buf.v
Term.v
Kilo.v
KiloFacts.v
KiloEdit.v
KiloUi.v
KiloHl.v
KiloSpec.v
Linenoise.v
LinenoiseFacts.v
LinenoiseOps.v
LinenoiseSpec.v
List.v
ListSpec.v
Str.v
StrSpec.v
Atomicio.v
Proc.v
ProcSpec.v
Shell.v
ShellHints.v
ShellSpec.v
ShellHintsSpec.v
Vfs.v
Pkg.v
ObjList.v
PkgSpec.v
Watch.v
WatchSpec.v
Fuse.v
Threads.v
ThreadsSpec.v
Barrier.v
Hooks.v
Modules.v
Api.v
Debugger.v
World.v
Unix.v
Main.v
MainSpec.v
Cell.v
VfsThread.v
VfsThreadSpec.v
ShellThread.v
Terminal.v
LoopSpec.v
Services.v
