(* ===== verification/Prelude.v ===== *)
(** * jailfs: a verification development

    jailfs is a C program that mounts package archives as a file system for
    jails, with a command shell and a text editor of its own.  Its support
    library (src/lsd: dictionary, linked lists, block allocator, trees, strings,
    durations) carries the state that the program (src/src) keeps: the
    configuration is a dictionary, the allocator keeps its slots on linked
    lists.  This library models those parts and the program's shell, line editor
    and text editor, proves them correct where they are, and says exactly how they
    fail where they are not.

    ** Conventions

    A C function is a Rocq function on explicit state that returns an [outcome]
    (below): a value, undefined behaviour with its reason, an exit of the
    program, or [Spin] when the fuel of a loop that is not structural runs out or
    the program waits for a lock that is never given back.
    Pointers are integers with 0 for NULL where the code links objects through
    them (Dlink, Balloc), and options where it only compares them with NULL.
    Unsigned integers are kept at their width with [wrap32]/[wrap64]; signed
    [long] arithmetic goes through [slong], which is stuck on overflow; a
    conversion to [int] is [sint32].  What the operating system answers (calloc,
    mmap, fopen, fprintf, the time) is an argument of the operations.

    ** Files

    - Prelude: outcomes, machine integers, shared list lemmas, hint databases.
    - CStd, CStdFacts: the C library calls of the sources (strtol with base 0,
      [%d] output, strcasecmp, strchr) and their lemmas; [strtol0_fmt_d]
      reads back what [%d] prints.
    - Store: the interface between the configuration and its dictionary: the
      operations (class [StringStore]) and the contract (class [LawfulStore]: a
      representation of a finite map with a bound on its number of updates).
    - Dict (src/lsd/dict.c, dict.h): open addressing with the hash, the probe
      sequence, tombstones, growth, enumeration, release, typed getters.
      Murmur: the other hash function of the same file.
      Probe: the probe sequence ends up as the generator 5i+1 modulo a power of
      two and visits every slot.  DictFacts: the invariant [dict_ok d m] (a
      table represents the map [m]) and lookups.  DictOps: every operation
      against [dict_ok].  DictSpec: the properties, and the instance of
      [LawfulStore].
    - Dlink (src/lsd/dlink.c, dlink.h): doubly linked lists over a store of
      nodes.  DlinkSpec: [dll h l xs] (the list [l] in the store [h] holds the
      sequence [xs]) and the refinement of sequences of operations.
    - Balloc (src/lsd/balloc.c, balloc.h): block heaps; every slot header is a
      dlink node.  BallocFacts: the layout of blocks, the
      invariant [heap_ok] (chains, lists, owners, counters and disjointness of
      all blocks of a heap), and what an operation leaves alone ([keeps],
      [untouched]).  BallocOps: every operation against [heap_ok]; BallocSpec: what
      each operation does to the objects in use.
    - Heaps (balloc.c): all heaps of the program in one memory ([arena]: well-formed, linked, apart);
      the operations on any of them as those of one abstract allocator, on the
      objects in use of all heaps.
    - Timestr (src/lsd/timestr.c), TimestrSpec: durations as text and the round
      trip.
    - Conf (src/src/conf.c): loading line by line, typed getters, writing; for
      any [StringStore].  ConfSpec: files as sequences of items, what loading
      them means, and the round trip through a written file with the
      dictionary itself.

    - Tree (src/lsd/tree.c, tree.h, memory.h): search trees and red-black trees
      over stores of nodes and of values.  TreeFacts: trees as separated shapes
      in the store; TreeBal: insertion and its rotations; TreeDelete: removal;
      TreeSpec: search, neighbours and release; TreeThms: the properties.
    - Buf: arrays with checked accesses, memset, memmove, realloc.  Term: the
      characters and escape sequences of the terminal and the [char] functions.
    - Kilo (src/src/kilo.c): the text of the editor: rows, rendering,
      highlights, editing operations, files.  KiloUi: keys, cursor, screen,
      search and the main loop.  KiloFacts: the invariant of the rows; KiloEdit:
      the editing operations against a text with a position; KiloHl: the scan of
      the syntax; KiloSpec: the properties.
    - Linenoise (src/src/linenoise.c): line editing with completion, hints and
      history.  LinenoiseFacts: the invariant of the edit state and of the
      history; LinenoiseOps: every key against a line with a position;
      LinenoiseSpec: the properties.
    - List (src/lsd/list.c), ListSpec: lists of copied values over the nodes of
      Dlink; the list as a sequence of values.
    - Str (src/lsd/str.c), StrSpec: tokenizers against a reference, the joining of
      parameters, and the changes of strings in place.
    - Atomicio (src/lsd/atomicio.c): complete transfers over any call.
    - Proc (src/src/shell.c, unix.c, main.c): messages and their levels, the
      signal handler, the pid file and the exit, over the configuration's
      dictionary.  ProcSpec: messages can be logged, signals.
    - Shell (src/src/shell.c, shell.h, gc.c): menus, command lines, the prompt and
      the session with its history; ShellHints: completion and hints, the latter
      in a heap of Balloc.  ShellSpec: commands against a table and sessions as
      folds of it; ShellHintsSpec: the callbacks.
    - Vfs (src/src/vfs.c, vfs.h): the entries of the file system's cache.
    - Pkg (src/src/pkg.c, pkg.h, database.c): package handles and their cache, a
      list of Dlink, the import of archives and the lock of the database.
      ObjList: lists of nodes whose data are objects.  PkgSpec: the cache as a
      sequence of handles.
    - Watch (src/src/vfs.c): the watch list, the events of inotify, and the walk over
      the package directories.  WatchSpec: sequences of watches and of encoded events,
      directory trees.
    - Fuse (src/src/vfs.c): the operations of the mounted file system.
    - Threads (src/src/threads.c, threads.h): pools of threads over the lists of copied
      values.  ThreadsSpec: a pool as a queue of identifiers.
    - Barrier (src/src/threads.c, main.c): the start-up of main and of its threads as
      interleaved steps: the lock, the flag and the condition; safety and its end.
    - Hooks (src/src/hooks.c), Modules (src/src/module.c), Api (src/src/api.c): the
      tables of hooks and modules and the messages between threads, with what they do.
    - Debugger (src/src/debugger.c): the search of the symbol table.
    - World (src/src/shell.c, cron.c, gc.c): the state of the whole program, the target of the
      log, the timers, the handler with the exit, and the garbage collection of all parts; an operation of a
      component runs on its part of this state.
    - Unix (src/src/unix.c): the registration of signals, and limits.
    - Main (src/src/main.c, i18n.c, with the starting functions of dlink.c and pkg.c): the
      steps of main in their order and what the event loop runs.  MainSpec: what holds at every
      point of the start ([at_stage]: the configuration, the arena of heaps with their variables, the packages,
      timers, threads, signals, the pid file), and a complete start.  LoopSpec: every event of
      the loop keeps [at_stage]; what ends the program.
      [loop_event] lists what libev and the system do; signals arrive between two timers.
    - Cell (src/src/cell.c): the thread that starts the jailed program.
    - VfsThread (src/src/vfs.c, file-magic.c): the thread of the file system, from its heaps to its
      loop, and its end.  VfsThreadSpec: its start on a started program, and what its end
      leaves behind.
    - Services (src/database.c, vfs.c, unix.c): the loop in which threads wait, the mount by libfuse and its
      end, the restart.
    - ShellThread (src/src/shell.c): the thread of the shell with the heap of its hints, on a
      started program.
    - Terminal (src/src/linenoise.c, kilo.c): raw mode and the size of the terminal, from the
      system or from the terminal's answers, for both editors.

    ** What the theorems show

    Dictionary: any batch of additions is read back (functional, over the
    contract); each operation refines the finite map; a lookup ends exactly
    when an empty slot or the key is there, and additions and deletions of
    different keys reach a table where it never ends; the memory released is
    the memory owned, once.  Lists and allocator: refinement of sequences and
    of the set of objects in use, with separation of objects and zeroed
    memory; exhaustion and garbage collection; with many heaps in one memory, no
    operation on one touches another.  Durations and configuration:
    round trips and functional specifications, and the losses a failing write
    causes.  Trees: insertion refines the insertion in a sorted sequence and
    keeps the balance, search and neighbours, removal; the removal from
    red-black trees reaches a NULL dereference.  Editors: every sequence of
    keys refines the editing of an abstract text with a position, nothing is
    read or written outside of the arrays on the paths of these theorems, and
    the paths that leave the arrays are exhibited; files and histories are read
    back as written.  Tokenizers: equivalence with a reference definition.
    Shell: every command line has the effect that a table gives it, sessions keep
    their invariant or end the program, hints live in their heap; completion in the
    main menu never returns.  Transfers: complete or a prefix, and they end.
    Packages: opening, closing and garbage collection act on a sequence of handles
    with different names; a package that cannot be opened leaves the lock held.
    Watches: events are handled in their order up to the first one that stops the
    loop; the walk ends and opens the files of a regular tree.
    The whole program: main starts every part in its order, with the heaps, timers,
    signals, threads and the pid file that it then has; no thread passes the barrier before main
    is ready, and every interleaving of the start ends; pools are queues of
    identifiers, messages are the objects in use of their heap.  The event loop keeps all of this: no
    timer and no signal gets stuck, collections keep every object of every heap, and it ends exactly at a
    termination signal, at a signal without a handler, or when libev returns to a dying program; the signals QUIT
    and SEGV only set a flag that is not read while a timer is active.  The threads of the
    file system and of the shell start on what main leaves.  Terminal: leaving raw mode gives the
    modes back, and the answers for the size are read back.

    ** Fuel and bounds

    A lookup gets [8 + size] probes, enough by [dict_lookup_terminates]; growth
    doubles a 32-bit size, so 33 rounds suffice; [dict_add_p] nests at most one
    [dict_resize] on a well-formed dictionary, and 40 levels are given; walks
    over blocks get one step more than there are blocks, walks over nodes one
    more than there are nodes; reading a file takes at most one round per
    character and one more; loops over a string get one round more than the
    buffer has characters.  The editors read a finite list of bytes, at least
    one per key, and get one round more than there are bytes.  The walk over
    directories is at most 16 levels deep; a buffer of events takes at most one
    round per byte and one more.  The theorems
    conclude with [Ret], so that the fuel is enough where they apply.

    ** Not modelled

    The vendored sqlite3 is left out, as are Attic (not built), the code under
    CONFIG_MODULES and CONFIG_DEBUG_BALLOC (never defined), and the log messages of
    src/lsd and of the configuration.
    The editors take the size of the terminal as an argument; Terminal models where it comes
    from.  The unused table SignalSet is left out.  Threads interleave in Barrier; elsewhere the operations
    of the components run one after the other (the allocator and the dictionary have no locks of
    their own).  libarchive, libev, libmagic, inotify, flock, open, mmap
    and the thread library answer through arguments of the operations.  Code under #if 0
    is left out (the session of libfuse, the unwinding of the stack).
    The control, scripting and warden sources are empty. *)
From Stdlib Require Import ZArith Lia.
From stdpp Require Export base tactics strings numbers option gmap fin_maps list.

(** ** The outcome of running a piece of C

    [Ret a] is a normal return, [Stuck u] is undefined behaviour (with the
    reason), [Halt c] is the end of the program: a call of [exit] with code [c], or a signal, with 128 added to its number, and [Spin]
    says that the loop fuel ran out, or that the program waits for a lock it holds.
    The theorems conclude with [Ret] where the fuel is enough. *)
Inductive ub : Type :=
  | NullDeref      (** a NULL pointer is dereferenced *)
  | BadPointer     (** a pointer to no live object is dereferenced *)
  | OutOfBounds    (** an access outside of an array *)
  | SignedOverflow (** a signed result that does not fit its type *)
  | DivByZero      (** an integer division by zero *)
  | FailedAssert.  (** an [assert] of the source does not hold *)

Inductive outcome (A : Type) : Type :=
  | Ret (a : A)
  | Stuck (u : ub)
  | Halt (code : Z)
  | Spin.
Arguments Ret {A} a.
Arguments Stuck {A} u.
Arguments Halt {A} code.
Arguments Spin {A}.

#[global] Instance ub_eq_dec : EqDecision ub.
Proof. solve_decision. Defined.
#[global] Instance outcome_eq_dec {A} `{EqDecision A} : EqDecision (outcome A).
Proof. solve_decision. Defined.

Definition obind {A B} (c : outcome A) (f : A → outcome B) : outcome B :=
  match c with
  | Ret a => f a
  | Stuck u => Stuck u
  | Halt c => Halt c
  | Spin => Spin
  end.

Declare Scope jailfs_scope.
Delimit Scope jailfs_scope with jailfs.
(** [let! x := c in k] runs [c] and passes its value to [k]. *)
Notation "'let!' x ':=' c 'in' k" := (obind c (fun x => k))
  (at level 10, x pattern, c at level 100, k at level 200,
   format "'[v' 'let!'  x  ':='  c  'in' '/' k ']'") : jailfs_scope.
Open Scope jailfs_scope.

Lemma bind_ret {A B} (a : A) (f : A → outcome B) : obind (Ret a) f = f a.
Proof. done. Qed.

Lemma bind_Ret_inv {A B} (o : outcome A) (f : A → outcome B) b :
  obind o f = Ret b → ∃ a, o = Ret a ∧ f a = Ret b.
Proof. destruct o; cbn; naive_solver. Qed.

(** A value that must be there: an absent one is undefined behaviour. *)
Definition need {A} (u : ub) (o : option A) : outcome A :=
  match o with Some a => Ret a | None => Stuck u end.

Lemma need_Some {A} u (a : A) : need u (Some a) = Ret a.
Proof. done. Qed.

(** ** Machine integers

    [unsigned] is 32 bits and [unsigned long]/[size_t] 64 bits on the targets
    of the repository; arithmetic on them wraps. *)
Definition wrap32 (z : Z) : Z := z mod 2 ^ 32.
Definition wrap64 (z : Z) : Z := z mod 2 ^ 64.
(** The conversion of a wide integer to [int]. *)
Definition sint32 (z : Z) : Z := (z + 2 ^ 31) mod 2 ^ 32 - 2 ^ 31.

Lemma wrap32_range z : (0 ≤ wrap32 z < 2 ^ 32)%Z.
Proof. apply Z.mod_pos_bound. lia. Qed.
Lemma wrap32_small z : (0 ≤ z < 2 ^ 32)%Z → wrap32 z = z.
Proof. apply Z.mod_small. Qed.
Lemma wrap64_range z : (0 ≤ wrap64 z < 2 ^ 64)%Z.
Proof. apply Z.mod_pos_bound. lia. Qed.
Lemma wrap64_small z : (0 ≤ z < 2 ^ 64)%Z → wrap64 z = z.
Proof. apply Z.mod_small. Qed.
Lemma sint32_small z : (- 2 ^ 31 ≤ z < 2 ^ 31)%Z → sint32 z = z.
Proof. intros. unfold sint32. rewrite Z.mod_small; lia. Qed.
Lemma sint32_range z : (- 2 ^ 31 ≤ sint32 z < 2 ^ 31)%Z.
Proof. unfold sint32. pose proof (Z.mod_pos_bound (z + 2 ^ 31) (2 ^ 32)). lia. Qed.

(** The result of an arithmetic operation on [long]. *)
Definition slong (z : Z) : outcome Z :=
  if ((- 2 ^ 63 <=? z) && (z <? 2 ^ 63))%Z then Ret z else Stuck SignedOverflow.

Lemma slong_ok z : (- 2 ^ 63 ≤ z < 2 ^ 63)%Z → slong z = Ret z.
Proof. intros H. unfold slong. destruct (Z.leb_spec (- 2 ^ 63) z), (Z.ltb_spec z (2 ^ 63)); try lia. done. Qed.

(** ** Automation *)
Create HintDb jailfs.
Create Rewrite HintDb jailfs.
#[export] Hint Resolve wrap32_range wrap64_range sint32_range : jailfs.
#[export] Hint Rewrite @bind_ret @need_Some : jailfs.

(** Run the monad on the values that are known. *)
Ltac run := cbn [obind need]; autorewrite with jailfs in *.
(** Split every equation [let! x := c in k = Ret b] of the context. *)
Ltac inv_ret :=
  repeat match goal with
  | H : obind _ _ = Ret _ |- _ => apply bind_Ret_inv in H as (? & ? & H)
  | H : Ret _ = Ret _ |- _ => injection H as H
  | H : Stuck _ = Ret _ |- _ => discriminate H
  | H : Halt _ = Ret _ |- _ => discriminate H
  | H : Spin = Ret _ |- _ => discriminate H
  end; simplify_eq.

(** ** Generic lemmas *)
Lemma least_nat (P : nat → Prop) `{!∀ n, Decision (P n)} n :
  P n → ∃ n', (n' ≤ n)%nat ∧ P n' ∧ ∀ m, (m < n')%nat → ¬ P m.
Proof.
  induction n as [n IH] using lt_wf_ind. intros Hn.
  destruct (decide (Exists P (seq 0 n))) as [HE|HE].
  { apply Exists_exists in HE as (m & Hm%elem_of_seq & HP).
    destruct (IH m) as (n' & ? & ? & ?); [lia|done|]. exists n'. split; [lia|done]. }
  exists n. split_and!; [lia|done|]. intros m Hm HP. apply HE, Exists_exists.
    exists m. split; [apply elem_of_seq; lia|done].
Qed.

(** A list with one element replaced, split around that element. *)
Lemma list_split_insert {A} (l : list A) i old x :
  l !! i = Some old →
  ∃ a b, l = a ++ old :: b ∧ <[i := x]> l = a ++ x :: b ∧ length a = i.
Proof.
  intros H. exists (take i l), (drop (S i) l).
  pose proof (lookup_lt_Some _ _ _ H). split_and!.
  - by rewrite take_drop_middle.
  - apply insert_take_drop. lia.
  - rewrite length_take. lia.
Qed.

(** A map has at least as many entries as there are different keys in it. *)
Lemma keys_size {K A} `{Countable K} (m : gmap K A) (l : list K) :
  NoDup l → (∀ a, a ∈ l → is_Some (m !! a)) → (length l ≤ size m)%nat.
Proof.
  intros Hnd Hl. rewrite <- size_dom, <- (size_list_to_set (C := gset K)) by done.
  apply subseteq_size. intros a Ha%elem_of_list_to_set. by apply elem_of_dom, Hl.
Qed.
