(* ===== verification/CStd.v ===== *)
(** * The C library functions the sources call

    Strings are Rocq strings (no NUL inside, as for a C string).  [char] is
    signed on the targets.  [strtol] is modelled for base 0, the only base the
    sources use, on a 64-bit [long]; character classes are those of the C
    locale.  [%d]/[%i] printing is [fmt_d]. *)
From S2P Require Import Prelude.
From Stdlib Require Import Ascii.

Local Open Scope Z_scope.

(** ** Characters *)
Definition uchar (c : ascii) : Z := Z.of_N (N_of_ascii c).
(** A [char] converted to [int]: the sign is extended. *)
Definition schar (c : ascii) : Z := if uchar c <? 128 then uchar c else uchar c - 256.

Definition tolower (c : ascii) : ascii :=
  if (65 <=? uchar c) && (uchar c <=? 90) then ascii_of_N (Z.to_N (uchar c + 32)) else c.
Definition isspace (c : ascii) : bool :=
  (uchar c =? 32) || ((9 <=? uchar c) && (uchar c <=? 13)).
Definition islower (c : ascii) : bool := (97 <=? uchar c) && (uchar c <=? 122).

Fixpoint str_map (f : ascii → ascii) (s : string) : string :=
  match s with EmptyString => EmptyString | String c s => String (f c) (str_map f s) end.
(** The first [n] characters. *)
Fixpoint str_take (n : nat) (s : string) : string :=
  match n, s with
  | S n, String c s => String c (str_take n s)
  | _, _ => EmptyString
  end.
Fixpoint str_drop (n : nat) (s : string) : string :=
  match n, s with
  | O, _ => s
  | S n, String _ s => str_drop n s
  | S _, EmptyString => EmptyString
  end.

(** [strcasecmp(s, t) == 0] and [strncasecmp(s, t, n) == 0]. *)
Definition strcaseeq (s t : string) : bool :=
  String.eqb (str_map tolower s) (str_map tolower t).
Definition strncaseeq (n : nat) (s t : string) : bool := strcaseeq (str_take n s) (str_take n t).

(** [strchr(s, c)] as the text before the first [c] and the text after it. *)
Fixpoint str_split (c : ascii) (s : string) : option (string * string) :=
  match s with
  | EmptyString => None
  | String a s =>
      if Ascii.eqb a c then Some (EmptyString, s)
      else match str_split c s with
           | Some (l, r) => Some (String a l, r)
           | None => None
           end
  end.

(** ** strtol, base 0 *)
Definition LONG_MAX : Z := 2 ^ 63 - 1.
Definition LONG_MIN : Z := - 2 ^ 63.

Definition digit_val (c : ascii) : option Z :=
  let u := uchar c in
  if (48 <=? u) && (u <=? 57) then Some (u - 48)
  else if (97 <=? u) && (u <=? 122) then Some (u - 87)
  else if (65 <=? u) && (u <=? 90) then Some (u - 55)
  else None.

(** The digits of [base] at the front: their value on top of [acc], the rest
    of the string and whether there was one. *)
Fixpoint read_digits (base : Z) (s : string) (acc : Z) (any : bool) : Z * string * bool :=
  match s with
  | String c s' =>
      match digit_val c with
      | Some d => if d <? base then read_digits base s' (acc * base + d) true else (acc, s, any)
      | None => (acc, s, any)
      end
  | EmptyString => (acc, s, any)
  end.

Fixpoint skip_space (s : string) : string :=
  match s with
  | String c s' => if isspace c then skip_space s' else s
  | EmptyString => s
  end.

Definition read_sign (s : string) : bool * string :=
  match s with
  | String c s' =>
      if Ascii.eqb c "-"%char then (true, s')
      else if Ascii.eqb c "+"%char then (false, s') else (false, s)
  | EmptyString => (false, s)
  end.

Record strtol_result := StrtolResult {
  sl_val : Z;        (** the value returned *)
  sl_any : bool;     (** [end != str]: some digits were read *)
  sl_rest : string;  (** the string at [end] when [sl_any] *)
  sl_erange : bool   (** [errno == ERANGE] *)
}.

Definition is_x (c : ascii) : bool := Ascii.eqb c "x"%char || Ascii.eqb c "X"%char.

Definition read_prefixed (s : string) : Z * string * bool :=
  match s with
  | String z (String x s') =>
      if Ascii.eqb z "0"%char then
        if is_x x then
          let '(v, r, any) := read_digits 16 s' 0 false in
          if any then (v, r, true) else (0, String x s', true)
        else read_digits 8 s 0 false
      else read_digits 10 s 0 false
  | _ => read_digits 10 s 0 false
  end.

Definition strtol0 (str : string) : strtol_result :=
  let '(neg, s) := read_sign (skip_space str) in
  let '(v, rest, any) := read_prefixed s in
  let w := if (neg : bool) then - v else v in
  if w <? LONG_MIN then StrtolResult LONG_MIN any rest true
  else if LONG_MAX <? w then StrtolResult LONG_MAX any rest true
  else StrtolResult w any rest false.

(** ** Decimal output *)
Definition digit_char (d : Z) : ascii := ascii_of_N (Z.to_N (48 + d)).

Fixpoint dec_go (fuel : nat) (n : Z) (acc : string) : string :=
  match fuel with
  | O => acc
  | S fuel =>
      let acc := String (digit_char (n mod 10)) acc in
      if n / 10 =? 0 then acc else dec_go fuel (n / 10) acc
  end.
Definition fmt_u (n : Z) : string := dec_go (S (Z.to_nat (Z.log2 n))) n EmptyString.
(** [printf("%d")] *)
Definition fmt_d (z : Z) : string :=
  if z <? 0 then String "-"%char (fmt_u (- z)) else fmt_u z.
(** [%x] *)
Definition hex_char (d : Z) : ascii := if d <? 10 then digit_char d else ascii_of_N (Z.to_N (87 + d)).
Fixpoint hex_go (fuel : nat) (n : Z) (acc : string) : string :=
  match fuel with
  | O => acc
  | S fuel =>
      let acc := String (hex_char (n mod 16)) acc in
      if n / 16 =? 0 then acc else hex_go fuel (n / 16) acc
  end.
Definition fmt_x (n : Z) : string := hex_go (S (Z.to_nat (Z.log2 (wrap32 n)))) (wrap32 n) EmptyString.
(** [%02x] *)
Definition fmt_02x (n : Z) : string :=
  let s := fmt_x n in if (String.length s <? 2)%nat then String "0"%char s else s.
(** [%o] *)
Fixpoint oct_go (fuel : nat) (n : Z) (acc : string) : string :=
  match fuel with
  | O => acc
  | S fuel =>
      let acc := String (digit_char (n mod 8)) acc in
      if n / 8 =? 0 then acc else oct_go fuel (n / 8) acc
  end.
Definition fmt_o (n : Z) : string := oct_go (S (Z.to_nat (Z.log2 n))) n EmptyString.
(** [%s] of a pointer. *)
Definition fmt_s (s : option string) : string := default "(null)"%string s.
