(* ===== verification/CStdFacts.v ===== *)
(** * Decimal output and strtol are inverse

    Lemmas on [fmt_d], [strtol0] and on strings that the components share. *)
From S2P Require Import Prelude CStd.
From Stdlib Require Import Ascii.

Local Open Scope Z_scope.

(** ** Strings *)
Lemma app_cons_str c (a b : string) : (String c a ++ b = String c (a ++ b))%string.
Proof. done. Qed.
Lemma app_empty_str (b : string) : (EmptyString ++ b = b)%string.
Proof. done. Qed.
#[export] Hint Rewrite app_cons_str app_empty_str : jailfs.
(** Simplify appended string constructors. *)
Ltac str := repeat (rewrite app_cons_str || rewrite app_empty_str).

Lemma app_assoc_str (a b c : string) : ((a ++ b) ++ c = a ++ (b ++ c))%string.
Proof. induction a as [|x a IH]; str; [done|]. by rewrite IH. Qed.
Lemma app_nil_str (a : string) : (a ++ EmptyString = a)%string.
Proof. induction a as [|x a IH]; str; [done|]. by rewrite IH. Qed.
Lemma length_app_str (a b : string) :
  String.length (a ++ b)%string = (String.length a + String.length b)%nat.
Proof. induction a as [|x a IH]; str; cbn; auto. Qed.
Lemma take_app_str (a b : string) : str_take (String.length a) (a ++ b)%string = a.
Proof. induction a as [|x a IH]; str; cbn; [by destruct b|congruence]. Qed.
Lemma take_all_str n (a : string) : (String.length a ≤ n)%nat → str_take n a = a.
Proof.
  revert n. induction a as [|c a IH]; intros [|n] H; cbn in *; try done; try lia.
  f_equal. apply IH. lia.
Qed.

(** Every character of a string satisfies [P]. *)
Fixpoint str_all (P : ascii → bool) (s : string) : bool :=
  match s with EmptyString => true | String c s => P c && str_all P s end.

Lemma str_all_app P a b : str_all P (a ++ b)%string = str_all P a && str_all P b.
Proof. induction a as [|x a IH]; str; cbn; [done|]. by rewrite IH, andb_assoc. Qed.

Lemma str_split_app c a b :
  str_all (λ x, negb (Ascii.eqb x c)) a = true →
  str_split c (a ++ String c b)%string = Some (a, b).
Proof.
  induction a as [|x a IH]; str; cbn; intros H.
  - by rewrite Ascii.eqb_refl.
  - apply andb_true_iff in H as [Hx Ha]. apply negb_true_iff in Hx. by rewrite Hx, IH.
Qed.

Lemma str_split_none c a :
  str_all (λ x, negb (Ascii.eqb x c)) a = true → str_split c a = None.
Proof.
  induction a as [|x a IH]; cbn; intros H; [done|].
  apply andb_true_iff in H as [Hx Ha]. apply negb_true_iff in Hx. by rewrite Hx, IH.
Qed.

Lemma str_map_app f a b : str_map f (a ++ b)%string = (str_map f a ++ str_map f b)%string.
Proof. induction a as [|x a IH]; str; cbn; [done|]. by rewrite IH. Qed.

Lemma str_map_id f a : str_all (λ x, Ascii.eqb (f x) x) a = true → str_map f a = a.
Proof.
  induction a as [|x a IH]; cbn; [done|]. intros [Hx Ha]%andb_true_iff.
  apply Ascii.eqb_eq in Hx. rewrite Hx. f_equal. auto.
Qed.

Lemma str_all_impl (P Q : ascii → bool) a :
  (∀ c, P c = true → Q c = true) → str_all P a = true → str_all Q a = true.
Proof.
  intros H. induction a as [|c a IH]; cbn; [done|]. intros [Hc Ha]%andb_true_iff.
  by rewrite (H c), IH.
Qed.

(** ** Decimal digits *)
Definition isdigit (c : ascii) : bool := (48 <=? uchar c) && (uchar c <=? 57).

Lemma digit_cases d : 0 ≤ d < 10 →
  d = 0 ∨ d = 1 ∨ d = 2 ∨ d = 3 ∨ d = 4 ∨ d = 5 ∨ d = 6 ∨ d = 7 ∨ d = 8 ∨ d = 9.
Proof. lia. Qed.

Lemma digit_char_ok d :
  0 ≤ d < 10 → isdigit (digit_char d) = true ∧ digit_val (digit_char d) = Some d.
Proof.
  intros H%digit_cases. destruct_or! H; subst d; vm_compute; done.
Qed.

Lemma digit_char_0 d : 0 < d < 10 → Ascii.eqb (digit_char d) "0"%char = false.
Proof.
  intros H. destruct (digit_cases d) as [->|H']; [lia|lia|].
  destruct_or! H'; subst d; vm_compute; done.
Qed.

(** The digits of a number in front of [acc]: what they read as, that they are
    digits without a leading zero, and how many there are. *)
Definition digits_of (n : Z) (ds : string) : Prop :=
  (∀ r a any, read_digits 10 (ds ++ r) a any =
     read_digits 10 r (a * 10 ^ Z.of_nat (String.length ds) + n) true) ∧
  str_all isdigit ds = true ∧
  (∃ c ds', ds = String c ds' ∧ (0 < n → Ascii.eqb c "0"%char = false)) ∧
  (0 < n → 10 ^ (Z.of_nat (String.length ds) - 1) ≤ n).

Lemma digits_one n : 0 ≤ n < 10 → digits_of n (String (digit_char n) EmptyString).
Proof.
  intros Hn. destruct (digit_char_ok n Hn) as [Hd Hv]. split_and!.
  - intros r a any. str. cbn [read_digits String.length]. rewrite Hv.
    destruct (Z.ltb_spec n 10); [|lia]. f_equal; lia.
  - cbn. by rewrite Hd.
  - exists (digit_char n), EmptyString. split; [done|]. intros. apply digit_char_0. lia.
  - intros. cbn. lia.
Qed.

Lemma digits_snoc n ds :
  digits_of (n / 10) ds → 0 < n / 10 → digits_of n (ds ++ String (digit_char (n mod 10)) EmptyString).
Proof.
  intros (Hr & Ha & (c & ds' & -> & Hc) & Hl) Hn. pose proof (Z.mod_pos_bound n 10 ltac:(lia)).
  destruct (digit_char_ok (n mod 10)) as [Hd Hv]; [done|]. pose proof (Z.div_mod n 10 ltac:(lia)).
  split_and!.
  - intros r a any. rewrite app_assoc_str, Hr. str. cbn [read_digits]. rewrite Hv.
    destruct (Z.ltb_spec (n mod 10) 10); [|lia]. f_equal.
    cbn [String.length]. rewrite length_app_str. cbn [String.length].
    replace (Z.of_nat (S (String.length ds' + 1))) with (Z.succ (Z.of_nat (S (String.length ds')))) by lia.
    rewrite Z.pow_succ_r by lia. lia.
  - rewrite str_all_app, Ha. cbn. by rewrite Hd.
  - exists c, (ds' ++ String (digit_char (n mod 10)) EmptyString)%string. split; [done|]. auto.
  - intros _. specialize (Hl Hn). str. cbn [String.length] in *. rewrite length_app_str.
    cbn [String.length]. rewrite <- Nat.add_succ_l.
    replace (Z.of_nat (S (String.length ds') + 1) - 1) with (Z.succ (Z.of_nat (S (String.length ds')) - 1)) by lia.
    rewrite Z.pow_succ_r by lia. lia.
Qed.

Lemma dec_go_ok fuel n acc :
  0 ≤ n < 2 ^ Z.of_nat fuel → (0 < fuel)%nat →
  ∃ ds, dec_go fuel n acc = (ds ++ acc)%string ∧ digits_of n ds.
Proof.
  revert n acc. induction fuel as [|fuel IH]; intros n acc Hn Hf; [lia|].
  cbn [dec_go]. pose proof (Z.div_mod n 10 ltac:(lia)). pose proof (Z.mod_pos_bound n 10 ltac:(lia)).
  destruct (Z.eqb_spec (n / 10) 0) as [E|Hne].
  - exists (String (digit_char (n mod 10)) EmptyString). split; [done|].
    replace (n mod 10) with n by lia. apply digits_one. lia.
  - rewrite Nat2Z.inj_succ, Z.pow_succ_r in Hn by lia.
    destruct (IH (n / 10) (String (digit_char (n mod 10)) acc)) as (ds & -> & Hds).
    + lia.
    + destruct fuel; [cbn in Hn; lia|lia].
    + exists (ds ++ String (digit_char (n mod 10)) EmptyString)%string. rewrite app_assoc_str.
      split; [done|]. apply digits_snoc; [done|lia].
Qed.

Lemma fmt_u_ok n : 0 ≤ n → digits_of n (fmt_u n).
Proof.
  intros Hn. unfold fmt_u. destruct (dec_go_ok (S (Z.to_nat (Z.log2 n))) n EmptyString) as (ds & -> & H);
    [|lia|by rewrite app_nil_str].
  rewrite Nat2Z.inj_succ, Z2Nat.id by apply Z.log2_nonneg.
  destruct (Z.eq_dec n 0) as [->|]; [done|]. pose proof (Z.log2_spec n ltac:(lia)). lia.
Qed.

(** A string that does not go on with a decimal digit. *)
Definition stops10 (r : string) : bool :=
  match r with
  | EmptyString => true
  | String c _ => match digit_val c with Some d => 10 <=? d | None => true end
  end.

Lemma read_stop r a any : stops10 r = true → read_digits 10 r a any = (a, r, any).
Proof.
  destruct r as [|c r]; [done|]. cbn. destruct (digit_val c) as [d|]; [|done]. intros H.
  destruct (Z.ltb_spec d 10); [lia|done].
Qed.

Lemma isdigit_props c :
  isdigit c = true → isspace c = false ∧ Ascii.eqb c "-"%char = false ∧ Ascii.eqb c "+"%char = false ∧
    Ascii.eqb (tolower c) c = true.
Proof.
  destruct c as [[] [] [] [] [] [] [] []]; vm_compute; intros H; try discriminate H;
    by repeat split.
Qed.

Lemma read_prefixed_dec n r :
  0 < n → stops10 r = true → read_prefixed (fmt_u n ++ r) = (n, r, true).
Proof.
  intros Hn Hr. destruct (fmt_u_ok n ltac:(lia)) as (Hrd & _ & (c & ds & E & Hc) & _).
  pose proof (Hrd r 0 false) as H. rewrite (read_stop r), Z.mul_0_l, Z.add_0_l in H by done.
  rewrite E in *. revert H. str. unfold read_prefixed.
  destruct (ds ++ r)%string as [|x s']; intros H; [exact H|]. by rewrite Hc.
Qed.

(** [strtol] reads back what [%d] prints. *)
Lemma strtol0_fmt_d z r :
  - 2 ^ 63 ≤ z < 2 ^ 63 → z ≠ 0 → stops10 r = true →
  strtol0 (fmt_d z ++ r) = StrtolResult z true r false.
Proof.
  intros Hz Hnz Hr. unfold strtol0, fmt_d, LONG_MIN, LONG_MAX.
  destruct (Z.ltb_spec z 0).
  - str. cbn [skip_space]. change (isspace "-"%char) with false. cbn [read_sign].
    change (Ascii.eqb "-"%char "-"%char) with true. cbn match.
    rewrite read_prefixed_dec by (done || lia). rewrite Z.opp_involutive.
    destruct (Z.ltb_spec z (- 2 ^ 63)); [lia|].
    destruct (Z.ltb_spec (2 ^ 63 - 1) z); [lia|done].
  - destruct (fmt_u_ok z ltac:(lia)) as (_ & Ha & (c & ds & E & _) & _).
    assert (isdigit c = true) as Hc by (rewrite E in Ha; cbn in Ha; by apply andb_true_iff in Ha as [? _]).
    destruct (isdigit_props c Hc) as (Hsp & Hm & Hp & _).
    assert (skip_space (fmt_u z ++ r) = (fmt_u z ++ r)%string) as ->.
    { rewrite E. str. cbn [skip_space]. by rewrite Hsp. }
    assert (read_sign (fmt_u z ++ r) = (false, (fmt_u z ++ r)%string)) as ->.
    { rewrite E. str. cbn [read_sign]. by rewrite Hm, Hp. }
    rewrite read_prefixed_dec by (done || lia).
    destruct (Z.ltb_spec z (- 2 ^ 63)); [lia|].
    destruct (Z.ltb_spec (2 ^ 63 - 1) z); [lia|done].
Qed.

(** The characters of [%d] output. *)
Definition decchar (c : ascii) : bool := isdigit c || Ascii.eqb c "-"%char.

Lemma fmt_d_chars z : str_all decchar (fmt_d z) = true.
Proof.
  unfold fmt_d. destruct (Z.ltb_spec z 0).
  - cbn. eapply str_all_impl; [|apply fmt_u_ok; lia]. intros c Hc. unfold decchar. by rewrite Hc.
  - eapply str_all_impl; [|apply fmt_u_ok; lia]. intros c Hc. unfold decchar. by rewrite Hc.
Qed.

(** [%d] of a 32-bit [int] takes at most 11 characters; of a number below
    [10^k], at most [k + 1]. *)
Lemma fmt_d_length z k :
  0 < k → - 10 ^ k < z < 10 ^ k → Z.of_nat (String.length (fmt_d z)) ≤ k + 1.
Proof.
  intros Hk Hz.
  assert (∀ n, 0 ≤ n < 10 ^ k → Z.of_nat (String.length (fmt_u n)) ≤ k) as Hu.
  { intros n Hn. destruct (Z.eq_dec n 0) as [->|]; [change (Z.of_nat (String.length (fmt_u 0))) with 1; lia|].
    destruct (fmt_u_ok n ltac:(lia)) as (_ & _ & _ & Hl). specialize (Hl ltac:(lia)).
    apply Z.le_trans with (Z.succ (Z.of_nat (String.length (fmt_u n)) - 1)); [lia|].
    apply Z.le_succ_l. apply (Z.pow_lt_mono_r_iff 10); lia. }
  unfold fmt_d. destruct (Z.ltb_spec z 0).
  - cbn [String.length]. specialize (Hu (- z) ltac:(lia)). lia.
  - specialize (Hu z ltac:(lia)). lia.
Qed.
