(* ===== verification/Store.v ===== *)
(** * What a string store promises to its clients

    The configuration loader only uses a dictionary through adding, reading and
    removing keys.  [StringStore] is that interface, with the NULL cases of
    lsd/dict.c, and [LawfulStore] its contract: a state [s] represents a finite
    map that at most [n] additions built, and every operation acts on the map.
    The contract is what lsd/dict.c delivers, not what lsd/dict.h says: a
    missing key reads as NULL whatever the default is. *)
From S2P Require Import Prelude.

Local Open Scope Z_scope.

(** The contents of a store: keys with values that may be NULL. *)
Abbreviation smap := (gmap string (option string)).

(** What adding [val] leaves under a key: a NULL value keeps the old one. *)
Definition stored (old : option (option string)) (val : option string) : option string :=
  match val with Some v => Some v | None => mjoin old end.

Class StringStore (S : Type) := {
  st_null : S → bool;
  st_add : S → option string → option string → outcome (Z * S);
  st_get : S → option string → option string → outcome (option string);
  st_del : S → option string → outcome (Z * S)
}.

Class LawfulStore (S : Type) `{StringStore S} := {
  st_capacity : Z;
  st_rep : Z → S → smap → Prop;
  st_null_law n s m : st_rep n s m → st_null s = false;
  st_add_law n s m k v :
    st_rep n s m → n < st_capacity →
    ∃ s', st_add s (Some k) v = Ret (0, s') ∧ st_rep (n + 1) s' (<[k := stored (m !! k) v]> m);
  st_add_nokey n s m v : st_rep n s m → st_add s None v = Ret (-1, s);
  st_get_law n s m k def :
    st_rep n s m → st_get s (Some k) def = Ret (mjoin (m !! k))
}.

Section store.
Context {S : Type} `{LawfulStore S}.

(** A batch of additions, in order. *)
Fixpoint st_adds (s : S) (l : list (string * string)) : outcome S :=
  match l with
  | [] => Ret s
  | (k, v) :: l => let! r := st_add s (Some k) (Some v) in st_adds r.2 l
  end.

(** The map after a batch of additions: the last value of a key wins. *)
Definition put (m : smap) (kv : string * string) : smap :=
  <[kv.1 := Some kv.2]> m.

Lemma st_adds_law n s m l :
  st_rep n s m → n + Z.of_nat (length l) ≤ st_capacity →
  ∃ s', st_adds s l = Ret s' ∧ st_rep (n + Z.of_nat (length l)) s' (foldl put m l).
Proof.
  revert n s m. induction l as [|[k v] l IH]; intros n s m Hr Hn.
  { exists s. cbn. by rewrite Z.add_0_r. }
  cbn [length] in Hn. destruct (st_add_law n s m k (Some v) Hr ltac:(lia)) as (s1 & He & Hr1).
  cbn [st_adds foldl length]. rewrite He. cbn [obind snd].
  destruct (IH (n + 1) s1 _ Hr1 ltac:(lia)) as (s' & -> & Hr'). exists s'. split; [done|].
  replace (n + Z.of_nat (Datatypes.S (length l))) with (n + 1 + Z.of_nat (length l)) by lia.
  done.
Qed.
End store.

(** Reading the map after a batch of additions. *)
Lemma foldl_put_get l key :
  mjoin (foldl put ∅ l !! key) = snd <$> last (filter (λ kv, kv.1 = key) l).
Proof.
  induction l as [|[k v] l IH] using rev_ind; [done|].
  rewrite foldl_snoc, filter_app, filter_cons, filter_nil. unfold put at 1. cbn [fst snd].
  destruct (decide (k = key)) as [->|Hne].
  - by rewrite lookup_insert_eq, last_snoc.
  - by rewrite lookup_insert_ne, app_nil_r.
Qed.
