(* ===== verification/Dict.v ===== *)
(** * The string dictionary (lsd/dict.c, lsd/dict.h)

    An open-addressing hash table from strings to strings with tombstones
    ([DUMMY_PTR]) and Python's perturbed probe sequence.  A table is the list of
    its [keypair]s; [d_table = None] is a NULL [table] pointer.  Pointers to
    dictionaries and strings that the code compares with NULL are options.
    Stored strings are values, so the pointer test [ep->key == key] of
    [dict_lookup] is the case of equal hash and equal contents. *)
From S2P Require Import Prelude CStd.
From Stdlib Require Import Ascii.

Local Open Scope Z_scope.

Definition DICT_MIN_SZ : Z := 8.
Definition PERTURB_SHIFT : Z := 5.
Definition DICT_BIGSZ : Z := 64000.

(** What a [key] field of a slot holds: NULL, [DUMMY_PTR], a live string, or
    the pointer of a string that was already freed (left behind by a failing
    [strdup(val)] in [dict_add_p]). *)
Inductive slot_key : Type :=
  | KNull
  | KDummy
  | KStr (s : string)
  | KFreed.

(** The only non-NULL value [dict_add_p] ever stores in a [blob] field: the
    address of its own parameter [blob], which is dead once it returns. *)
Inductive blob_val : Type := BParamAddr.

Record keypair := Keypair {
  kp_key : slot_key;
  kp_val : option string;
  kp_blob : option blob_val;
  kp_ts : Z;
  kp_hash : Z
}.

Record dict := Dict {
  d_fill : Z;
  d_used : Z;
  d_size : Z;
  d_table : option (list keypair)
}.

#[global] Instance slot_key_eq_dec : EqDecision slot_key.
Proof. solve_decision. Defined.
#[global] Instance blob_val_eq_dec : EqDecision blob_val.
Proof. solve_decision. Defined.
#[global] Instance keypair_eq_dec : EqDecision keypair.
Proof. solve_decision. Defined.
#[global] Instance dict_eq_dec : EqDecision dict.
Proof. solve_decision. Defined.

(** A slot of a calloc'ed table. *)
Definition kp_zero : keypair := Keypair KNull None None 0 0.

Definition set_key (k : slot_key) (kp : keypair) : keypair :=
  Keypair k (kp_val kp) (kp_blob kp) (kp_ts kp) (kp_hash kp).
Definition set_val (v : option string) (kp : keypair) : keypair :=
  Keypair (kp_key kp) v (kp_blob kp) (kp_ts kp) (kp_hash kp).
Definition set_blob (b : option blob_val) (kp : keypair) : keypair :=
  Keypair (kp_key kp) (kp_val kp) b (kp_ts kp) (kp_hash kp).
Definition set_hash_ts (h ts : Z) (kp : keypair) : keypair :=
  Keypair (kp_key kp) (kp_val kp) (kp_blob kp) ts h.

(** Whether the allocations of one call succeed. *)
Record mem := Mem {
  m_struct : bool;      (** calloc of the [dict] itself *)
  m_calloc : Z → bool;  (** calloc of a table of that many slots *)
  m_strdup_key : bool;
  m_strdup_val : bool
}.
Definition mem_ok : mem := Mem true (λ _, true) true true.

(** ** Hashing *)
Definition hash_step (hash : Z) (c : ascii) : Z :=
  let hash := wrap32 (hash + wrap32 (schar c)) in
  let hash := wrap32 (hash + Z.shiftl hash 10) in
  Z.lxor hash (Z.shiftr hash 6).

Fixpoint hash_loop (hash : Z) (key : string) : Z :=
  match key with
  | EmptyString => hash
  | String c key => hash_loop (hash_step hash c) key
  end.

Definition dict_hash_dobbs (key : string) : Z :=
  let hash := hash_loop 0 key in
  let hash := wrap32 (hash + Z.shiftl hash 3) in
  let hash := Z.lxor hash (Z.shiftr hash 11) in
  wrap32 (hash + Z.shiftl hash 15).

Definition dict_hash (key : string) : Z := dict_hash_dobbs key.

(** ** Probing *)

(** [ep->key == key || (ep->hash == hash && ep->key != DUMMY_PTR && !strcmp)] *)
Definition slot_match (kp : keypair) (key : string) (hash : Z) : outcome bool :=
  match kp_key kp with
  | KNull | KDummy => Ret false
  | KStr s => Ret ((kp_hash kp =? hash) && String.eqb s key)
  | KFreed => if kp_hash kp =? hash then Stuck BadPointer else Ret false
  end.

(** The next index of the probe sequence. *)
Definition probe_next (size i perturb : Z) : Z :=
  Z.land (wrap32 (wrap32 (Z.shiftl i 2) + i + perturb + 1)) (wrap32 (size - 1)).

Definition note_free (kp : keypair) (i : nat) (mem_freeslot : option nat) : option nat :=
  match kp_key kp, mem_freeslot with
  | KDummy, None => Some i
  | _, _ => mem_freeslot
  end.

Fixpoint probe_loop (fuel : nat) (tbl : list keypair) (size : Z) (key : string)
    (hash i perturb : Z) (mem_freeslot : option nat) : outcome nat :=
  match fuel with
  | O => Spin
  | S fuel =>
      let i := probe_next size i perturb in
      let n := Z.to_nat i in
      let! ep := need OutOfBounds (tbl !! n) in
      match kp_key ep with
      | KNull => Ret (default n mem_freeslot)
      | _ =>
          let! m := slot_match ep key hash in
          if m then Ret n
          else probe_loop fuel tbl size key hash i
                 (Z.shiftr perturb PERTURB_SHIFT) (note_free ep n mem_freeslot)
      end
  end.

(** Enough iterations for every probe that ends at all
    (see [DictFacts.dict_lookup_fuel]). *)
Definition probe_fuel (size : Z) : nat := 8 + Z.to_nat size.

Definition dict_lookup_fuel (fuel : nat) (tbl : list keypair) (size : Z)
    (key : string) (hash : Z) : outcome nat :=
  let i := Z.land hash (wrap32 (size - 1)) in
  let n := Z.to_nat i in
  let! ep := need OutOfBounds (tbl !! n) in
  match kp_key ep with
  | KNull => Ret n
  | _ =>
      let! m := slot_match ep key hash in
      if m then Ret n
      else probe_loop fuel tbl size key hash i hash (note_free ep n None)
  end.

Definition dict_lookup (d : option dict) (key : option string) (hash : Z)
    : outcome (option nat) :=
  match d, key with
  | Some d, Some key =>
      let! tbl := need NullDeref (d_table d) in
      let! n := dict_lookup_fuel (probe_fuel (d_size d)) tbl (d_size d) key hash in
      Ret (Some n)
  | _, _ => Ret None
  end.

(** ** Insertion and growth *)

(** The key and value fields as [dict_add_p] sets them; [false] when an
    allocation fails and [dict_add_p] returns -1. *)
Definition fill_slot (m : mem) (copy : bool) (key : string) (val : option string)
    (slot : keypair) : bool * keypair :=
  if copy then
    if m_strdup_key m then
      let slot := set_key (KStr key) slot in
      match val with
      | Some v =>
          if m_strdup_val m then (true, set_val (Some v) slot)
          else (false, set_key KFreed (set_val None slot))
      | None => (true, slot)
      end
    else (false, set_key KNull slot)
  else (true, set_val val (set_key (KStr key) slot)).

Definition stamp_slot (blob : bool) (hash ts now : Z) (slot : keypair) : keypair :=
  let slot := if blob then set_blob (Some BParamAddr) slot else slot in
  set_hash_ts hash (if ts =? 0 then now else ts) slot.

Definition set_table (d : dict) (tbl : option (list keypair)) : dict :=
  Dict (d_fill d) (d_used d) (d_size d) tbl.

(** [while (newsize <= factor * d->used) newsize *= 2;]: after 33 rounds a
    32-bit [newsize] is 0 and stays 0. *)
Fixpoint grow (fuel : nat) (newsize target : Z) : outcome Z :=
  match fuel with
  | O => Spin
  | S fuel => if newsize <=? target then grow fuel (wrap32 (newsize * 2)) target
              else Ret newsize
  end.

Definition resize_factor (size : Z) : Z := if DICT_BIGSZ <? size then 2 else 4.

Section resize.
(** [dict_add_p] with the arguments [dict_resize] passes: the dictionary, the
    key, the value and the timestamp ([blob] is NULL and [copy] is 0). *)
Variable readd : option dict → option string → option string → Z →
                 outcome (Z * option dict).

(** Re-insert the live entries of the old table, in order. *)
Fixpoint rehash (old : list keypair) (d : option dict) : outcome (option dict) :=
  match old with
  | [] => Ret d
  | kp :: old =>
      match kp_key kp with
      | KNull | KDummy => rehash old d
      | KStr s =>
          let! r := readd d (Some s) (kp_val kp) (kp_ts kp) in
          rehash old r.2
      | KFreed => Stuck BadPointer
      end
  end.

Definition dict_resize (m : mem) (d : dict) : outcome (Z * option dict) :=
  let target := wrap32 (resize_factor (d_size d) * d_used d) in
  let! newsize := grow 33 (d_size d) target in
  if newsize =? d_size d then Ret (0, Some d)
  else if m_calloc m newsize then
    let! old := need NullDeref (d_table d) in
    let fresh := Dict 0 0 newsize (Some (replicate (Z.to_nat newsize) kp_zero)) in
    let! d := rehash (take (Z.to_nat (d_size d)) old) (Some fresh) in
    Ret (0, d)
  else Ret (-1, Some (set_table d None)).
End resize.

Fixpoint dict_add_p (depth : nat) (m : mem) (now : Z) (d : option dict) (key : option string)
    (val : option string) (blob : bool) (ts : Z) (copy : bool) : outcome (Z * option dict) :=
  match d, key with
  | Some dd, Some k =>
      let hash := dict_hash k in
      let! slot := dict_lookup d key hash in
      match slot with
      | None => Ret (0, d)
      | Some n =>
          let! tbl := need NullDeref (d_table dd) in
          let! kp := need OutOfBounds (tbl !! n) in
          let '(ok, kp) := fill_slot m copy k val kp in
          if negb ok then Ret (-1, Some (set_table dd (Some (<[n := kp]> tbl))))
          else
            let kp := stamp_slot blob hash ts now kp in
            let dd := Dict (wrap32 (d_fill dd + 1)) (wrap32 (d_used dd + 1)) (d_size dd)
                           (Some (<[n := kp]> tbl)) in
            if wrap32 (d_size dd * 2) <=? wrap32 (3 * d_fill dd) then
              match depth with
              | O => Spin
              | S depth =>
                  let! r := dict_resize
                              (λ d k v ts, dict_add_p depth m now d k v false ts false) m dd in
                  if r.1 =? 0 then Ret (0, r.2) else Ret (-1, r.2)
              end
            else Ret (0, Some dd)
      end
  | _, _ => Ret (-1, d)
  end.

(** The nesting of [dict_add_p] and [dict_resize]; one level is enough on a
    well-formed dictionary (see [DictFacts]). *)
Definition resize_depth : nat := 40.

Definition dict_add (m : mem) (now : Z) (d : option dict) (key val : option string) :=
  dict_add_p resize_depth m now d key val false now true.
Definition dict_add_ts (m : mem) (now : Z) (d : option dict) (key val : option string) (ts : Z) :=
  dict_add_p resize_depth m now d key val false ts true.
(** [&ptr] is never NULL, whatever [ptr] is. *)
Definition dict_add_blob (m : mem) (now : Z) (d : option dict) (key : option string) (ptr : Z) :=
  dict_add_p resize_depth m now d key None true now true.
Definition dict_add_blob_ts (m : mem) (now : Z) (d : option dict) (key : option string)
    (ptr ts : Z) :=
  dict_add_p resize_depth m now d key None true ts true.

(** ** Creation and destruction *)
Definition dict_new (m : mem) : option dict :=
  if m_struct m then
    Some (Dict 0 0 DICT_MIN_SZ
            (if m_calloc m DICT_MIN_SZ
             then Some (replicate (Z.to_nat DICT_MIN_SZ) kp_zero) else None))
  else None.

(** The blocks [dict_free] gives back, in order. *)
Inductive block : Type :=
  | BlkKey (slot : nat)
  | BlkVal (slot : nat)
  | BlkTable
  | BlkDict.

Fixpoint free_slots (i : nat) (tbl : list keypair) : outcome (list block) :=
  match tbl with
  | [] => Ret []
  | kp :: tbl =>
      match kp_key kp with
      | KNull | KDummy => free_slots (S i) tbl
      | KStr _ =>
          let! l := free_slots (S i) tbl in
          Ret (BlkKey i :: (if kp_val kp is Some _ then [BlkVal i] else []) ++ l)
      | KFreed => Stuck BadPointer
      end
  end.

Definition dict_free (d : option dict) : outcome (list block) :=
  match d with
  | None => Ret []
  | Some d =>
      let! tbl := need NullDeref (d_table d) in
      let! l := free_slots 0 (take (Z.to_nat (d_size d)) tbl) in
      Ret (l ++ [BlkTable; BlkDict])
  end.

(** ** Lookup and removal *)
Definition dict_get (d : option dict) (key : option string) (defval : option string)
    : outcome (option string) :=
  match d, key with
  | Some dd, Some k =>
      let! kp := dict_lookup d key (dict_hash k) in
      match kp with
      | Some n =>
          let! tbl := need NullDeref (d_table dd) in
          let! kp := need OutOfBounds (tbl !! n) in
          Ret (kp_val kp)
      | None => Ret defval
      end
  | _, _ => Ret defval
  end.

(** The [void *] results of [dict_get_blob]. *)
Inductive blob_result : Type :=
  | GotBlob (b : blob_val)
  | GotDefault (defval : Z).

Definition dict_get_blob (d : option dict) (key : option string) (defval : Z)
    : outcome blob_result :=
  match d, key with
  | Some dd, Some k =>
      let! kp := dict_lookup d key (dict_hash k) in
      match kp with
      | Some n =>
          let! tbl := need NullDeref (d_table dd) in
          let! kp := need OutOfBounds (tbl !! n) in
          Ret (match kp_blob kp with Some b => GotBlob b | None => GotDefault defval end)
      | None => Ret (GotDefault defval)
      end
  | _, _ => Ret (GotDefault defval)
  end.

Definition dict_del (d : option dict) (key : option string) : outcome (Z * option dict) :=
  match d, key with
  | Some dd, Some k =>
      let! kp := dict_lookup d key (dict_hash k) in
      match kp with
      | Some n =>
          let! tbl := need NullDeref (d_table dd) in
          let! kp := need OutOfBounds (tbl !! n) in
          match kp_key kp with
          | KFreed => Stuck BadPointer
          | _ =>
              let kp := set_val None (set_key KDummy kp) in
              Ret (0, Some (Dict (d_fill dd) (wrap32 (d_used dd - 1)) (d_size dd)
                              (Some (<[n := kp]> tbl))))
          end
      | None => Ret (-1, d)
      end
  | _, _ => Ret (-1, d)
  end.

(** ** Enumeration

    [past] is what the slot just behind the table holds when it is read:
    [None] says that reading it faults. *)
Definition slot_at (past : option keypair) (tbl : list keypair) (rank : Z) : outcome keypair :=
  match tbl !! Z.to_nat rank with
  | Some kp => Ret kp
  | None => if rank =? Z.of_nat (length tbl) then need OutOfBounds past else Stuck OutOfBounds
  end.

Definition kp_vacant (kp : keypair) : bool :=
  match kp_key kp with KNull | KDummy => true | _ => false end.

(** The [while] loop of [dict_enumerate]: the slot is read before the bound is
    tested. *)
Fixpoint skip_vacant (fuel : nat) (past : option keypair) (tbl : list keypair) (size rank : Z)
    : outcome Z :=
  match fuel with
  | O => Spin
  | S fuel =>
      let! kp := slot_at past tbl rank in
      if kp_vacant kp && (rank <? size) then skip_vacant fuel past tbl size (rank + 1)
      else Ret rank
  end.

(** The values [*key], [*val] and [*ts] are set to; [*ts] is left alone at the
    end of the table. *)
Record enum_item := EnumItem { en_key : slot_key; en_val : option string; en_ts : Z }.

Definition dict_enumerate (past : option keypair) (d : option dict) (rank : Z) (outs : bool)
    : outcome (Z * option enum_item) :=
  match d with
  | Some d =>
      if negb outs || (rank <? 0) then Ret (-1, None)
      else
        let! tbl := need NullDeref (d_table d) in
        let! rank := skip_vacant (S (Z.to_nat (d_size d))) past tbl (d_size d) rank in
        if d_size d <=? rank then Ret (-1, None)
        else
          let! kp := slot_at past tbl rank in
          Ret (rank + 1, Some (EnumItem (kp_key kp) (kp_val kp) (kp_ts kp)))
  | None => Ret (-1, None)
  end.

(** [fprintf(out, "%s=%s\n", key, val ? val : "UNDEF")] *)
Definition dump_line (key : string) (val : option string) : string :=
  (key ++ "=" ++ default "UNDEF" val ++ String (ascii_of_nat 10) EmptyString)%string.

Fixpoint dump_loop (fuel : nat) (past : option keypair) (fprintf : string → bool)
    (d : option dict) (rank errors : Z) (out : list string) : outcome (Z * list string) :=
  match fuel with
  | O => Spin
  | S fuel =>
      let! r := dict_enumerate past d rank true in
      match r with
      | (rank, Some it) =>
          if rank <? 0 then Ret (errors, out)
          else
            match en_key it with
            | KStr k =>
                let line := dump_line k (en_val it) in
                if fprintf line then dump_loop fuel past fprintf d rank errors (out ++ [line])
                else dump_loop fuel past fprintf d rank (errors + 1) out
            | _ => Stuck BadPointer
            end
      | (rank, None) => Ret (errors, out)
      end
  end.

(** [fprintf] says which writes succeed; the result is the error count and the
    lines written. *)
Definition dict_dump (past : option keypair) (fprintf : string → bool) (d : option dict)
    (out : bool) : outcome (Z * list string) :=
  match d with
  | Some dd => if out then dump_loop (S (Z.to_nat (d_size dd))) past fprintf d 0 0 []
               else Ret (0, [])
  | None => Ret (0, [])
  end.

Definition dict_merge (a b : option dict) (merge_type : Z) : option dict := None.

(** ** Typed accessors *)
Definition dict_getBool (cp : option dict) (key : option string) (def : bool) : outcome bool :=
  let! str := dict_get cp key None in
  Ret (match str with
       | Some str =>
           if strcaseeq str "false" || strcaseeq str "no" then false
           else if strcaseeq str "true" || strcaseeq str "yes" then true
           else def
       | None => def
       end).

Definition dict_getInt (cp : option dict) (key : option string) (def : Z) : outcome Z :=
  let! str := dict_get cp key None in
  Ret (match str with
       | Some str =>
           let r := strtol0 str in
           let val := sint32 (sl_val r) in
           if sl_erange r || ((val =? 0) && negb (sl_any r)) then def else val
       | None => def
       end).

Section getDouble.
(** C doubles and [strtod] ([None]: [errno] was set) as the caller sees them:
    the value, whether it compares equal to 0 and whether any text was used. *)
Context {double : Type} (strtod : string → option (double * bool * bool)).

Definition dict_getDouble (cp : option dict) (key : option string) (def : double)
    : outcome double :=
  let! str := dict_get cp key None in
  Ret (match str with
       | Some str =>
           match strtod str with
           | Some (val, is_zero, any) => if (is_zero : bool) && negb any then def else val
           | None => def
           end
       | None => def
       end).
End getDouble.
