(* ===== verification/Probe.v ===== *)
(** * The probe sequence of lsd/dict.c visits every slot

    Once the perturbation is used up, [dict_lookup] steps through a table of
    size [2^k] by [i := (5 * i + 1) mod 2^k].  This file proves that this map
    has full period, so that any window of [2^k] steps visits every index.
    It contains no model of the program: only the number theory of the loop. *)
From S2P Require Import Prelude.

Local Open Scope Z_scope.

Definition lcg (M i : Z) : Z := (5 * i + 1) mod M.

(** [geo n = 1 + 5 + ... + 5^(n-1)]. *)
Fixpoint geo (n : nat) : Z := match n with O => 0 | S n => 5 * geo n + 1 end.

Lemma geo_closed n : 5 ^ Z.of_nat n = 4 * geo n + 1.
Proof.
  induction n as [|n IH]; [done|].
  rewrite Nat2Z.inj_succ, Z.pow_succ_r, IH by lia. cbn [geo]. lia.
Qed.

Lemma geo_double n : geo (n + n) = geo n * (2 * (2 * geo n + 1)).
Proof.
  pose proof (geo_closed (n + n)) as H. rewrite Nat2Z.inj_add, Z.pow_add_r, geo_closed in H by lia.
  nia.
Qed.

Lemma geo_parity n : ∃ q, geo n = Z.of_nat n + 2 * q.
Proof.
  induction n as [|n [q IH]]; [by exists 0|].
  exists (5 * q + 2 * Z.of_nat n). cbn [geo]. lia.
Qed.

(** An odd factor does not help a power of two to divide. *)
Lemma pow2_divides_odd k a m :
  (2 ^ Z.of_nat k | a * (2 * m + 1)) → (2 ^ Z.of_nat k | a).
Proof.
  revert a. induction k as [|k IH]; intros a [q Hq].
  - exists a. cbn. lia.
  - rewrite Nat2Z.inj_succ, Z.pow_succ_r in * by lia.
    assert (a = 2 * (a / 2)) as Ha.
    { remember (2 ^ Z.of_nat k) as p. clear Heqp IH.
      assert (Z.even (a * (2 * m + 1)) = true) as He by (rewrite Hq, !Z.even_mul; cbn; lia).
      rewrite Z.even_mul, Z.even_add, Z.even_mul in He. cbn in He.
      rewrite orb_false_r in He. apply Z.even_spec in He as [b ->].
      rewrite Z.mul_comm, Z.div_mul by lia. lia. }
    destruct (IH (a / 2)) as [r Hr]; [|exists r; lia].
    exists q. rewrite Ha in Hq. lia.
Qed.

Lemma pow2_divides_geo k n : (2 ^ Z.of_nat k | geo n) → (2 ^ Z.of_nat k | Z.of_nat n).
Proof.
  revert n. induction k as [|k IH]; intros n H.
  - exists (Z.of_nat n). cbn. lia.
  - rewrite Nat2Z.inj_succ, Z.pow_succ_r in * by lia.
    destruct (geo_parity n) as [q Hq].
    assert (∃ e, n = e + e)%nat as [e ->].
    { destruct H as [r Hr]. exists (Nat.div2 n).
      pose proof (Nat.div2_odd n) as Hn. destruct (Nat.odd n); cbn in Hn; lia. }
    rewrite geo_double in H.
    assert (2 ^ Z.of_nat k | geo e) as He.
    { apply pow2_divides_odd with (geo e).
      destruct H as [r Hr]. exists r. lia. }
    apply IH in He as [r Hr]. exists r. lia.
Qed.

Section period.
Variable k : nat.
Let M := 2 ^ Z.of_nat k.

Lemma period_pos : 0 < M.
Proof. unfold M. lia. Qed.
Local Hint Resolve period_pos : core.

Definition lcg_iter (n : nat) (i : Z) : Z := Nat.iter n (lcg M) i.

Lemma lcg_iter_S n i : lcg_iter (S n) i = lcg M (lcg_iter n i).
Proof. done. Qed.

Lemma lcg_iter_add a b i : lcg_iter (a + b) i = lcg_iter a (lcg_iter b i).
Proof. apply Nat.iter_add. Qed.

Lemma lcg_iter_range n i : 0 ≤ i < M → 0 ≤ lcg_iter n i < M.
Proof.
  intros Hi. destruct n; [done|]. rewrite lcg_iter_S. apply Z.mod_pos_bound, period_pos.
Qed.

Lemma lcg_iter_closed n i : 0 ≤ i < M → lcg_iter n i = (5 ^ Z.of_nat n * i + geo n) mod M.
Proof.
  intros Hi. induction n as [|n IH].
  - cbn. rewrite Z.mod_small; lia.
  - rewrite lcg_iter_S, IH, Nat2Z.inj_succ, Z.pow_succ_r by lia. unfold lcg.
    rewrite <- Z.add_mod_idemp_l, <- (Z.mul_mod_idemp_r 5) by (pose proof period_pos; lia).
    rewrite Z.mod_mod by (pose proof period_pos; lia).
    rewrite Z.mul_mod_idemp_r, Z.add_mod_idemp_l by (pose proof period_pos; lia).
    f_equal. cbn [geo]. lia.
Qed.

Lemma lcg_iter_fixed n i : 0 ≤ i < M → lcg_iter n i = i → (M | Z.of_nat n).
Proof.
  intros Hi H. rewrite lcg_iter_closed, geo_closed in H by done.
  apply pow2_divides_geo, pow2_divides_odd with (2 * i).
  exists (((4 * geo n + 1) * i + geo n) / M).
  pose proof (Z.div_mod ((4 * geo n + 1) * i + geo n) M). fold M. pose proof period_pos. lia.
Qed.

Lemma lcg_iter_inj a b i :
  0 ≤ i < M → Z.of_nat a < M → Z.of_nat b < M → lcg_iter a i = lcg_iter b i → a = b.
Proof.
  assert (∀ a b, (a ≤ b)%nat → 0 ≤ i < M → Z.of_nat b < M →
            lcg_iter a i = lcg_iter b i → a = b) as Hle.
  { clear a b. intros a b Hab Hi Hb H.
    replace b with ((b - a) + a)%nat in H by lia. rewrite lcg_iter_add in H.
    symmetry in H. apply lcg_iter_fixed in H as [q Hq]; [|by apply lcg_iter_range].
    assert (q = 0) by nia. lia. }
  intros Hi Ha Hb H. destruct (decide (a ≤ b)%nat); [eauto|].
  symmetry. apply Hle; auto with lia.
Qed.

(** Every index is visited in any [2^k] consecutive steps. *)
Lemma lcg_iter_surj i j :
  0 ≤ i < M → 0 ≤ j < M → ∃ n, (n < Z.to_nat M)%nat ∧ lcg_iter n i = j.
Proof.
  intros Hi Hj.
  set (l := (λ n, lcg_iter n i) <$> seq 0 (Z.to_nat M)).
  set (r := Z.of_nat <$> seq 0 (Z.to_nat M)).
  assert (NoDup l) as Hnd.
  { apply NoDup_fmap_2_strong; [|apply NoDup_seq].
    intros a b Ha%elem_of_seq Hb%elem_of_seq. apply lcg_iter_inj; lia. }
  assert (l ⊆ r) as Hsub.
  { intros x Hx. apply list_elem_of_fmap in Hx as (n & -> & _).
    pose proof (lcg_iter_range n i Hi).
    apply list_elem_of_fmap. exists (Z.to_nat (lcg_iter n i)).
    rewrite elem_of_seq. lia. }
  assert (l ≡ₚ r) as Hp.
  { apply submseteq_length_Permutation.
    - by apply NoDup_submseteq.
    - unfold l, r. by rewrite !length_fmap. }
  assert (j ∈ l) as Hl.
  { rewrite Hp. apply list_elem_of_fmap. exists (Z.to_nat j). rewrite elem_of_seq. lia. }
  apply list_elem_of_fmap in Hl as (n & -> & Hn%elem_of_seq). exists n. split; [lia|done].
Qed.
End period.
