(* ===== verification/DictFacts.v ===== *)
(** * Correctness of the dictionary

    The probe loop is described by the sequence [pidx] of indices it visits;
    [tbl_wf] is the invariant of a table; [dict_ok d m] says that the
    dictionary [d] is well-formed and stores the finite map [m]. *)
From S2P Require Import Prelude Store CStd Dict Probe.

Local Open Scope Z_scope.

(** ** The indices a probe visits *)
Fixpoint pidx (size hash : Z) (n : nat) : Z :=
  match n with
  | O => Z.land hash (wrap32 (size - 1))
  | S n => probe_next size (pidx size hash n) (Z.shiftr hash (PERTURB_SHIFT * Z.of_nat n))
  end.

Lemma pidx_S size hash n :
  pidx size hash (S n) =
  probe_next size (pidx size hash n) (Z.shiftr hash (PERTURB_SHIFT * Z.of_nat n)).
Proof. reflexivity. Qed.

Definition pslot (size hash : Z) (n : nat) : nat := Z.to_nat (pidx size hash n).

Lemma wrap32_mod_pow2 k z : (0 ≤ k ≤ 32) → wrap32 z mod 2 ^ k = z mod 2 ^ k.
Proof.
  intros Hk. unfold wrap32. replace (2 ^ 32) with (2 ^ k * 2 ^ (32 - k)).
  - rewrite Z.rem_mul_r by lia. rewrite Z.add_mod by lia.
    rewrite (Z.mul_comm (2 ^ k)), Z.mod_mul, Z.add_0_r, !Z.mod_mod by lia. done.
  - rewrite <- Z.pow_add_r by lia. f_equal. lia.
Qed.

Lemma land_size k z : (0 ≤ k ≤ 32) → Z.land z (wrap32 (2 ^ k - 1)) = z mod 2 ^ k.
Proof.
  intros Hk. assert (2 ^ k ≤ 2 ^ 32) by (apply Z.pow_le_mono_r; lia).
  rewrite wrap32_small by lia. replace (2 ^ k - 1) with (Z.ones k) by (rewrite Z.ones_equiv; lia).
  apply Z.land_ones. lia.
Qed.

Section sequence.
Variables (k : nat) (hash : Z).
Hypothesis Hk : (k ≤ 32)%nat.
Let size := 2 ^ Z.of_nat k.

Lemma probe_next_mod i p : probe_next size i p = (5 * i + p + 1) mod size.
Proof.
  unfold probe_next, size. rewrite land_size, wrap32_mod_pow2 by lia.
  rewrite <- !Z.add_assoc, <- Z.add_mod_idemp_l by lia.
  rewrite wrap32_mod_pow2, Z.add_mod_idemp_l, Z.shiftl_mul_pow2 by lia. f_equal. lia.
Qed.

Lemma pidx_range n : 0 ≤ pidx size hash n < size.
Proof.
  destruct n; cbn [pidx].
  - unfold size. rewrite land_size by lia. apply Z.mod_pos_bound. lia.
  - rewrite probe_next_mod. apply Z.mod_pos_bound. unfold size. lia.
Qed.

Hypothesis Hhash : 0 ≤ hash < 2 ^ 32.

(** From the seventh step on the perturbation is 0. *)
Lemma pidx_lcg n : pidx size hash (7 + n) = lcg_iter k n (pidx size hash 7).
Proof.
  induction n as [|n IH].
  { rewrite Nat.add_0_r. unfold lcg_iter, Nat.iter, nat_rect. reflexivity. }
  rewrite lcg_iter_S, <- IH. replace (7 + S n)%nat with (S (7 + n)) by lia.
  rewrite pidx_S, probe_next_mod. unfold lcg. fold size.
  replace (Z.shiftr hash (PERTURB_SHIFT * Z.of_nat (7 + n))) with 0; [f_equal; lia|].
  symmetry. rewrite Z.shiftr_div_pow2 by (unfold PERTURB_SHIFT; lia).
  apply Z.div_small. split; [lia|]. apply Z.lt_le_trans with (2 ^ 32); [lia|].
  apply Z.pow_le_mono_r; unfold PERTURB_SHIFT; lia.
Qed.

Lemma pidx_covers j : 0 ≤ j < size → ∃ n, (n < 7 + Z.to_nat size)%nat ∧ pidx size hash n = j.
Proof.
  intros Hj. destruct (lcg_iter_surj k (pidx size hash 7) j) as (n & Hn & Heq).
  - apply pidx_range.
  - done.
  - exists (7 + n)%nat. rewrite pidx_lcg. split; [fold size in Hn; lia|done].
Qed.

Lemma pslot_covers (tbl : list keypair) i :
  length tbl = Z.to_nat size → (i < length tbl)%nat →
  ∃ n, (n < 7 + Z.to_nat size)%nat ∧ pslot size hash n = i.
Proof.
  intros Hlen Hi. destruct (pidx_covers (Z.of_nat i)) as (n & Hn & Heq); [lia|].
  exists n. split; [done|]. unfold pslot. rewrite Heq. lia.
Qed.

Lemma pslot_lookup (tbl : list keypair) n :
  length tbl = Z.to_nat size → ∃ kp, tbl !! pslot size hash n = Some kp.
Proof.
  intros Hlen. apply lookup_lt_is_Some. unfold pslot. pose proof (pidx_range n). lia.
Qed.
End sequence.

(** ** The probe loop as a scan of that sequence *)
Section scan.
Variables (tbl : list keypair) (size : Z) (key : string) (hash : Z).

Fixpoint scan (fuel n : nat) (free : option nat) : outcome nat :=
  match fuel with
  | O => Spin
  | S fuel =>
      let i := pslot size hash n in
      let! ep := need OutOfBounds (tbl !! i) in
      match kp_key ep with
      | KNull => Ret (default i free)
      | _ =>
          let! m := slot_match ep key hash in
          if m then Ret i else scan fuel (S n) (note_free ep i free)
      end
  end.

Lemma probe_loop_scan fuel n free :
  probe_loop fuel tbl size key hash (pidx size hash n)
    (Z.shiftr hash (PERTURB_SHIFT * Z.of_nat n)) free = scan fuel (S n) free.
Proof.
  revert n free. induction fuel as [|fuel IH]; intros n free; [done|].
  cbn [probe_loop scan]. change (pslot size hash (S n)) with
    (Z.to_nat (probe_next size (pidx size hash n) (Z.shiftr hash (PERTURB_SHIFT * Z.of_nat n)))).
  destruct (tbl !! _) as [ep|]; [|done]. cbn [need obind].
  rewrite Z.shiftr_shiftr by (unfold PERTURB_SHIFT; lia).
  replace (PERTURB_SHIFT * Z.of_nat n + PERTURB_SHIFT)
    with (PERTURB_SHIFT * Z.of_nat (S n)) by lia.
  destruct (kp_key ep); [done|..];
    (destruct (slot_match ep key hash) as [[]| | |]; cbn [obind]; try done; exact (IH (S n) _)).
Qed.

Lemma lookup_scan fuel : dict_lookup_fuel fuel tbl size key hash = scan (S fuel) 0 None.
Proof.
  unfold dict_lookup_fuel. cbn [scan]. change (pslot size hash 0) with
    (Z.to_nat (Z.land hash (wrap32 (size - 1)))).
  destruct (tbl !! _) as [ep|]; [|done]. cbn [need obind].
  destruct (kp_key ep); [done|..];
    (destruct (slot_match ep key hash) as [[]| | |]; cbn [obind]; try done;
     rewrite <- probe_loop_scan; cbn [pidx]; by rewrite Z.mul_0_r, Z.shiftr_0_r).
Qed.

(** The slot at step [n] is in use and is not the one looked for. *)
Definition passes (n : nat) : Prop :=
  ∃ kp, tbl !! pslot size hash n = Some kp ∧ kp_key kp ≠ KNull ∧
        slot_match kp key hash = Ret false.

Lemma scan_pass fuel n free :
  passes n → ∃ free', scan (S fuel) n free = scan fuel (S n) free' ∧
    (∀ i, free' = Some i → free = Some i ∨
          (i = pslot size hash n ∧ ∃ kp, tbl !! i = Some kp ∧ kp_key kp = KDummy)).
Proof.
  intros (kp & Hkp & Hn & Hm). exists (note_free kp (pslot size hash n) free).
  cbn [scan]. rewrite Hkp. cbn [need obind]. split.
  - destruct (kp_key kp); [done|..]; rewrite Hm; done.
  - unfold note_free. intros i. destruct (kp_key kp) eqn:E, free; naive_solver.
Qed.

Lemma scan_passes fuel n d free :
  (∀ m, (n ≤ m < n + d)%nat → passes m) →
  ∃ free', scan (d + fuel) n free = scan fuel (n + d) free' ∧
    (∀ i, free' = Some i → free = Some i ∨
          ∃ m kp, (n ≤ m < n + d)%nat ∧ i = pslot size hash m ∧
                  tbl !! i = Some kp ∧ kp_key kp = KDummy).
Proof.
  revert n free. induction d as [|d IH]; intros n free Hp.
  { exists free. rewrite Nat.add_0_r. naive_solver. }
  destruct (scan_pass (d + fuel) n free) as (f1 & H1 & Hf1); [apply Hp; lia|].
  destruct (IH (S n) f1) as (f2 & H2 & Hf2); [intros; apply Hp; lia|].
  exists f2. cbn [Nat.add]. rewrite H1, H2. split; [f_equal; lia|].
  intros i Hi. destruct (Hf2 i Hi) as [Hi1|(m & kp & ? & ?)].
  - destruct (Hf1 i Hi1) as [?|(-> & kp & ? & ?)]; [by left|right].
    exists n, kp. split_and!; [lia|lia|done..].
  - right. exists m, kp. split; [lia|done].
Qed.

Lemma scan_spins fuel n free : (∀ m, (n ≤ m)%nat → passes m) → scan fuel n free = Spin.
Proof.
  intros Hp. destruct (scan_passes 0 n fuel free) as (f & H & _); [intros; apply Hp; lia|].
  by rewrite Nat.add_0_r in H.
Qed.
End scan.

(** ** The invariant of a table *)
Definition holds (tbl : list keypair) (i : nat) (s : string) (v : option string) : Prop :=
  ∃ kp, tbl !! i = Some kp ∧ kp_key kp = KStr s ∧ kp_val kp = v.

(** A probe for [s] gets to slot [i]: it meets neither an empty slot nor [s]
    before. *)
Definition reach (tbl : list keypair) (size : Z) (s : string) (i : nat) : Prop :=
  ∃ n, pslot size (dict_hash s) n = i ∧
    ∀ m, (m < n)%nat → pslot size (dict_hash s) m ≠ i ∧
      ∃ kp, tbl !! pslot size (dict_hash s) m = Some kp ∧
            kp_key kp ≠ KNull ∧ kp_key kp ≠ KStr s.

Definition slot_wf (tbl : list keypair) (size : Z) (i : nat) (kp : keypair) : Prop :=
  match kp_key kp with
  | KStr s => kp_hash kp = dict_hash s ∧ reach tbl size s i
  | KFreed => False
  | KNull | KDummy => kp_val kp = None
  end.

Record tbl_wf (tbl : list keypair) (size : Z) : Prop := {
  wf_length : length tbl = Z.to_nat size;
  wf_slot : ∀ i kp, tbl !! i = Some kp → slot_wf tbl size i kp
}.

Lemma dict_hash_range s : 0 ≤ dict_hash s < 2 ^ 32.
Proof. apply wrap32_range. Qed.
#[export] Hint Resolve dict_hash_range : jailfs.

Lemma slot_match_wf tbl size i kp key :
  slot_wf tbl size i kp →
  slot_match kp key (dict_hash key) = Ret (bool_decide (kp_key kp = KStr key)).
Proof.
  unfold slot_wf, slot_match. destruct (kp_key kp) as [| |s|] eqn:E; intros H.
  - by rewrite bool_decide_eq_false_2.
  - by rewrite bool_decide_eq_false_2.
  - destruct H as [-> _]. f_equal. destruct (String.eqb_spec s key) as [->|Hne].
    + by rewrite Z.eqb_refl, bool_decide_eq_true_2.
    + rewrite andb_false_r, bool_decide_eq_false_2; [done|]. congruence.
  - done.
Qed.

Lemma wf_unique tbl size i j s v w :
  tbl_wf tbl size → holds tbl i s v → holds tbl j s w → i = j.
Proof.
  intros Hwf (kp & Hi & Ki & _) (kq & Hj & Kj & _).
  pose proof (wf_slot _ _ Hwf _ _ Hi) as Si. pose proof (wf_slot _ _ Hwf _ _ Hj) as Sj.
  unfold slot_wf in Si, Sj. rewrite Ki in Si. rewrite Kj in Sj.
  destruct Si as (_ & n & Hn & Bn), Sj as (_ & m & Hm & Bm).
  destruct (Nat.lt_trichotomy n m) as [Hlt|[->|Hlt]]; [|congruence|].
  - destruct (Bm n Hlt) as (_ & k & Hk & _ & Hne). rewrite Hn in Hk. congruence.
  - destruct (Bn m Hlt) as (_ & k & Hk & _ & Hne). rewrite Hm in Hk. congruence.
Qed.

(** ** The map a table stores *)
Definition entry (kp : keypair) : option (string * option string) :=
  match kp_key kp with KStr s => Some (s, kp_val kp) | _ => None end.
Definition entries (tbl : list keypair) : list (string * option string) := omap entry tbl.
Definition tbl_map (tbl : list keypair) : gmap string (option string) :=
  list_to_map (entries tbl).

Lemma elem_of_entries tbl s v : (s, v) ∈ entries tbl ↔ ∃ i, holds tbl i s v.
Proof.
  unfold entries. rewrite list_elem_of_omap. unfold holds, entry. split.
  - intros (kp & Hin & He). apply list_elem_of_lookup in Hin as [i Hi].
    exists i, kp. destruct (kp_key kp); naive_solver.
  - intros (i & kp & Hi & Hk & <-). exists kp. rewrite Hk.
    split; [by eapply list_elem_of_lookup_2|done].
Qed.

Lemma entries_NoDup tbl :
  (∀ i j s v w, holds tbl i s v → holds tbl j s w → i = j) → NoDup (entries tbl).*1.
Proof.
  induction tbl as [|kp tbl IH]; intros Hu; [constructor|].
  assert (NoDup (entries tbl).*1) as Hnd.
  { apply IH. intros i j s v w Hi Hj.
    assert (S i = S j) by (eapply Hu; [exact Hi|exact Hj]). lia. }
  unfold entries in *. cbn [omap list_omap]. unfold entry at 1.
  destruct (kp_key kp) as [| |s|] eqn:E; try done.
  cbn [fmap list_fmap fst]. constructor; [|done].
  intros ([s' v] & -> & Hin)%list_elem_of_fmap. apply elem_of_entries in Hin as [i Hi].
  assert (0%nat = S i) by (eapply (Hu 0%nat (S i)); [by exists kp|exact Hi]). lia.
Qed.

Lemma wf_NoDup tbl size : tbl_wf tbl size → NoDup (entries tbl).*1.
Proof. intros Hwf. apply entries_NoDup. eauto using wf_unique. Qed.

Lemma tbl_map_Some tbl size s v :
  tbl_wf tbl size → tbl_map tbl !! s = Some v ↔ ∃ i, holds tbl i s v.
Proof.
  intros Hwf. rewrite <- elem_of_entries. symmetry.
  apply elem_of_list_to_map. by eapply wf_NoDup.
Qed.

(** ** Lookup *)
Section lookup.
Variables (k : nat) (tbl : list keypair) (key : string).
Hypothesis Hk : (k ≤ 30)%nat.
Let size := 2 ^ Z.of_nat k.
Let hash := dict_hash key.
Hypothesis Hwf : tbl_wf tbl size.

(** The slot at step [n] ends the probe. *)
Definition stops (n : nat) : Prop :=
  ∃ kp, tbl !! pslot size hash n = Some kp ∧ (kp_key kp = KNull ∨ kp_key kp = KStr key).

Lemma passes_or_stops n : passes tbl size key hash n ↔ ¬ stops n.
Proof.
  destruct (pslot_lookup k hash ltac:(lia) tbl n) as [kp Hkp]; [apply Hwf|]. fold size in Hkp.
  pose proof (slot_match_wf _ _ _ _ key (wf_slot _ _ Hwf _ _ Hkp)) as Hm. split.
  - intros (kp' & Hkp' & Hn & Hf) (kp'' & Hkp'' & [?|He]); simplify_eq.
    unfold hash in Hf. rewrite Hm, bool_decide_eq_true_2 in Hf; done.
  - intros Hs. exists kp. split_and!; [done|intros ?; apply Hs; by exists kp; auto|].
    unfold hash. rewrite Hm, bool_decide_eq_false_2; [done|].
    intros ?. apply Hs. by exists kp; auto.
Qed.

#[local] Instance stops_dec n : Decision (stops n).
Proof.
  unfold stops. destruct (tbl !! pslot size hash n) as [kp|] eqn:E.
  - destruct (decide (kp_key kp = KNull ∨ kp_key kp = KStr key)).
    + left. by exists kp.
    + right. intros (? & ? & ?). by simplify_eq.
  - right. by intros (? & ? & ?).
Defined.

(** What a lookup finds: the slot of the key, or else a vacant slot where
    the key can be put; a probe for the key gets there either way. *)
Definition found (i : nat) (kp : keypair) : Prop :=
  tbl !! i = Some kp ∧ reach tbl size key i ∧
  (kp_key kp = KStr key ∨
   (kp_key kp = KNull ∨ kp_key kp = KDummy) ∧ ∀ j v, ¬ holds tbl j key v).

(** The steps before the first visit of [i] are enough for [reach]. *)
Lemma reach_intro n i :
  pslot size hash n = i → (∀ m, (m < n)%nat → ¬ stops m) → reach tbl size key i.
Proof.
  intros Hn Hs.
  destruct (least_nat (λ n, pslot size hash n = i) n Hn) as (n' & Hle & Hn' & Hmin).
  exists n'. split; [done|]. intros m Hm. split; [by apply Hmin|].
  destruct (pslot_lookup k hash ltac:(lia) tbl m) as [kp Hkp]; [apply Hwf|].
  exists kp. fold size hash in Hkp |- *. split; [done|].
  assert (¬ stops m) as Hns by (apply Hs; lia).
  split; intros He; apply Hns; exists kp; auto.
Qed.

Lemma not_held n :
  (∀ m, (m < n)%nat → ¬ stops m) →
  (∃ kp, tbl !! pslot size hash n = Some kp ∧ kp_key kp = KNull) →
  ∀ j v, ¬ holds tbl j key v.
Proof.
  intros Hs (kp & Hkp & Hn) j v (kq & Hj & Kj & _).
  pose proof (wf_slot _ _ Hwf _ _ Hj) as Sj. unfold slot_wf in Sj. rewrite Kj in Sj.
  destruct Sj as (_ & m & Hm & Bm). fold hash in Hm, Bm.
  destruct (Nat.lt_trichotomy m n) as [Hlt|[->|Hlt]].
  - apply (Hs m Hlt). exists kq. rewrite Hm. auto.
  - congruence.
  - destruct (Bm n Hlt) as (_ & kr & Hkr & Hne & _). congruence.
Qed.

Lemma scan_stop n fuel :
  stops n → (n < fuel)%nat → (∀ m, (m < n)%nat → ¬ stops m) →
  ∃ i kp, scan tbl size key hash fuel 0 None = Ret i ∧ found i kp.
Proof.
  intros (kp & Hkp & Hstop) Hfuel Hmin.
  destruct (scan_passes tbl size key hash (fuel - n) 0 n None) as (free & Hscan & Hfree).
  { intros m Hm. apply passes_or_stops, Hmin. lia. }
  replace (n + (fuel - n))%nat with fuel in Hscan by lia. rewrite Hscan.
  destruct (fuel - n)%nat as [|f] eqn:Ef; [lia|]. cbn [scan Nat.add]. rewrite Hkp.
  cbn [need obind].
  pose proof (slot_match_wf _ _ _ _ key (wf_slot _ _ Hwf _ _ Hkp)) as Hm. fold hash in Hm.
  destruct Hstop as [Hnull|Hkey].
  - rewrite Hnull.
    assert (∀ j v, ¬ holds tbl j key v) as Hno by (apply (not_held n); eauto).
    destruct free as [i|]; cbn [default].
    + destruct (Hfree i eq_refl) as [?|(m & kd & Hmn & -> & Hkd & Hd)]; [done|].
      exists (pslot size hash m), kd. split; [done|]. split_and!; [done| |by right; auto].
      apply (reach_intro m); [done|]. intros; apply Hmin; lia.
    + exists (pslot size hash n), kp. split; [done|]. split_and!; [done| |by right; auto].
      by apply (reach_intro n).
  - rewrite Hkey, Hm, bool_decide_eq_true_2 by done. cbn [obind].
    exists (pslot size hash n), kp. split; [done|]. split_and!; [done| |by left].
    by apply (reach_intro n).
Qed.

Lemma stops_bounded :
  (∃ j kp, tbl !! j = Some kp ∧ (kp_key kp = KNull ∨ kp_key kp = KStr key)) →
  ∃ n, (n < 7 + Z.to_nat size)%nat ∧ stops n ∧ ∀ m, (m < n)%nat → ¬ stops m.
Proof.
  intros (j & kp & Hj & Hs).
  destruct (pslot_covers k hash ltac:(lia) (dict_hash_range key) tbl j) as (n & Hn & Hpn).
  { apply Hwf. } { by eapply lookup_lt_Some. }
  destruct (least_nat stops n) as (n' & ? & ? & ?).
  { exists kp. fold size in Hpn. by rewrite Hpn. }
  exists n'. split; [fold size in Hn; lia|done].
Qed.

Lemma lookup_found :
  (∃ j kp, tbl !! j = Some kp ∧ (kp_key kp = KNull ∨ kp_key kp = KStr key)) →
  ∃ i kp, dict_lookup_fuel (probe_fuel size) tbl size key hash = Ret i ∧ found i kp.
Proof.
  intros H. destruct (stops_bounded H) as (n & Hn & Hs & Hmin).
  rewrite lookup_scan. unfold probe_fuel. by apply (scan_stop n); [|lia|].
Qed.

Lemma lookup_spins fuel :
  (∀ j kp, tbl !! j = Some kp → kp_key kp ≠ KNull ∧ kp_key kp ≠ KStr key) →
  dict_lookup_fuel fuel tbl size key hash = Spin.
Proof.
  intros H. rewrite lookup_scan. apply scan_spins. intros m _.
  apply passes_or_stops. intros (kp & Hkp & He). destruct (H _ _ Hkp). tauto.
Qed.
End lookup.

(** ** Writing a slot *)
Section update.
Variables (tbl : list keypair) (size : Z) (i : nat) (old kp : keypair).
Hypothesis Hwf : tbl_wf tbl size.
Hypothesis Hi : tbl !! i = Some old.

Lemma insert_holds_ne j s v :
  j ≠ i → holds (<[i := kp]> tbl) j s v ↔ holds tbl j s v.
Proof. intros Hne. unfold holds. by rewrite list_lookup_insert_ne. Qed.

Lemma insert_holds_eq s v :
  holds (<[i := kp]> tbl) i s v ↔ kp_key kp = KStr s ∧ kp_val kp = v.
Proof.
  unfold holds. rewrite list_lookup_insert_eq by (by eapply lookup_lt_Some). split; [intros (kq & [= ->] & ?); done|by exists kp].
Qed.

(** A slot stays reachable when the slot written becomes neither empty nor
    the key of the probe. *)
Lemma reach_insert s j :
  kp_key kp ≠ KNull → (kp_key kp = KStr s → j = i) → reach tbl size s j →
  reach (<[i := kp]> tbl) size s j.
Proof.
  intros Hn Hs (n & Hpn & Hb). exists n. split; [done|]. intros m Hm.
  destruct (Hb m Hm) as (Hne & kq & Hkq & H1 & H2). split; [done|].
  destruct (decide (pslot size (dict_hash s) m = i)) as [He|].
  - exists kp. rewrite He, list_lookup_insert_eq by (by eapply lookup_lt_Some).
    split_and!; [done|done|]. intros Hkp. apply Hne. rewrite He. symmetry. auto.
  - exists kq. by rewrite list_lookup_insert_ne.
Qed.

Lemma wf_insert :
  kp_key kp ≠ KNull → slot_wf (<[i := kp]> tbl) size i kp →
  (∀ s j v, kp_key kp = KStr s → holds tbl j s v → j = i) →
  tbl_wf (<[i := kp]> tbl) size.
Proof.
  intros Hn Hkp Hu. split; [rewrite length_insert; apply Hwf|].
  intros j kq Hj. destruct (decide (j = i)) as [->|Hne].
  - rewrite list_lookup_insert_eq in Hj by (by eapply lookup_lt_Some). by simplify_eq.
  - rewrite list_lookup_insert_ne in Hj by done.
    pose proof (wf_slot _ _ Hwf _ _ Hj) as Hs. unfold slot_wf in *.
    destruct (kp_key kq) as [| |s|] eqn:E; try done. destruct Hs as [? Hr].
    split; [done|]. apply reach_insert; [done| |done].
    intros He. eapply Hu; [done|]. by exists kq.
Qed.
End update.

(** ** Counting slots *)
Definition live (tbl : list keypair) : Z := Z.of_nat (length (entries tbl)).
Definition occupied (tbl : list keypair) : list keypair :=
  filter (λ kp, kp_key kp ≠ KNull) tbl.
Definition nonnull (tbl : list keypair) : Z := Z.of_nat (length (occupied tbl)).

Lemma entries_app a b : entries (a ++ b) = entries a ++ entries b.
Proof. apply omap_app. Qed.

Lemma entries_cons kp tbl :
  entries (kp :: tbl) = (if entry kp is Some e then [e] else []) ++ entries tbl.
Proof. unfold entries. cbn. by destruct (entry kp). Qed.

Lemma live_insert tbl i old kp :
  tbl !! i = Some old →
  live (<[i := kp]> tbl) + (if entry old is Some _ then 1 else 0) =
  live tbl + (if entry kp is Some _ then 1 else 0).
Proof.
  intros H. destruct (list_split_insert _ _ _ kp H) as (a & b & -> & -> & _).
  unfold live. rewrite !entries_app, !length_app, !entries_cons, !length_app.
  destruct (entry old), (entry kp); cbn [length]; lia.
Qed.

Lemma nonnull_insert tbl i old kp :
  tbl !! i = Some old →
  nonnull (<[i := kp]> tbl) + (if decide (kp_key old = KNull) then 0 else 1) =
  nonnull tbl + (if decide (kp_key kp = KNull) then 0 else 1).
Proof.
  intros H. destruct (list_split_insert _ _ _ kp H) as (a & b & -> & -> & _).
  unfold nonnull, occupied. rewrite !filter_app, !length_app, !filter_cons.
  repeat case_decide; cbn [length]; try done; lia.
Qed.

Lemma nonnull_vacancy tbl :
  nonnull tbl < Z.of_nat (length tbl) → ∃ j kp, tbl !! j = Some kp ∧ kp_key kp = KNull.
Proof.
  induction tbl as [|kp tbl IH]; unfold nonnull, occupied in *; [cbn; lia|].
  rewrite filter_cons. case_decide as Hd; intros H.
  - destruct IH as (j & kq & ? & ?); [cbn in H; lia|]. by exists (S j), kq.
  - exists 0%nat, kp. split; [done|]. by destruct (kp_key kp).
Qed.

(** ** Well-formed dictionaries *)
Record dict_ok (d : dict) (m : gmap string (option string)) : Prop := {
  ok_size : ∃ k : nat, (3 ≤ k ≤ 30)%nat ∧ d_size d = 2 ^ Z.of_nat k;
  ok_table : ∃ tbl, d_table d = Some tbl ∧ tbl_wf tbl (d_size d) ∧ m = tbl_map tbl ∧
                    live tbl ≤ d_used d ∧ nonnull tbl ≤ d_fill d;
  ok_counts : d_used d ≤ d_fill d < d_size d
}.

(** No key was deleted since the table was last rebuilt, and the table is at
    most two thirds full: the state between two calls of [dict_add]. *)
Definition compact (d : dict) : Prop := d_used d = d_fill d ∧ 3 * d_fill d < 2 * d_size d.

Definition mem_good (mm : mem) : Prop :=
  (∀ n, m_calloc mm n = true) ∧ m_strdup_key mm = true ∧ m_strdup_val mm = true.

Lemma ok_pow2 d m : dict_ok d m → 8 ≤ d_size d ≤ 2 ^ 30.
Proof.
  intros [(k & Hk & ->) _ _]. split.
  - apply (Z.pow_le_mono_r 2 3); lia.
  - apply Z.pow_le_mono_r; lia.
Qed.

Lemma compact_room d m : dict_ok d m → compact d → d_fill d + 1 < d_size d.
Proof. intros Hok [? ?]. pose proof (ok_pow2 _ _ Hok). lia. Qed.

(** The lookup of a well-formed dictionary. *)
Lemma ok_lookup d m key :
  dict_ok d m →
  ∃ tbl i kp, d_table d = Some tbl ∧ tbl_wf tbl (d_size d) ∧ m = tbl_map tbl ∧
    live tbl ≤ d_used d ∧ nonnull tbl ≤ d_fill d ∧ tbl !! i = Some kp ∧
    dict_lookup (Some d) (Some key) (dict_hash key) = Ret (Some i) ∧
    reach tbl (d_size d) key i ∧
    (kp_key kp = KStr key ∨
     (kp_key kp = KNull ∨ kp_key kp = KDummy) ∧ ∀ j v, ¬ holds tbl j key v).
Proof.
  intros [(k & Hk & Hsz) (tbl & Ht & Hwf & Hm & Hl & Hn) Hc]. exists tbl.
  destruct (lookup_found k tbl key ltac:(lia)) as (i & kp & Hlk & Hi & Hr & Hcase).
  - by rewrite <- Hsz.
  - destruct (nonnull_vacancy tbl) as (j & kp & ? & ?); [|by exists j, kp; auto].
    rewrite (wf_length _ _ Hwf). lia.
  - rewrite <- Hsz in *. exists i, kp. split_and!; try done.
    unfold dict_lookup. rewrite Ht. cbn [need obind]. by rewrite Hlk.
Qed.

(** The value in the slot a lookup returns. *)
Lemma lookup_val tbl size key i kp :
  tbl_wf tbl size → tbl !! i = Some kp →
  (kp_key kp = KStr key ∨
   (kp_key kp = KNull ∨ kp_key kp = KDummy) ∧ ∀ j v, ¬ holds tbl j key v) →
  kp_val kp = mjoin (tbl_map tbl !! key).
Proof.
  intros Hwf Hi [Hkey|[Hvac Hno]].
  - assert (tbl_map tbl !! key = Some (kp_val kp)) as ->; [|done].
    eapply tbl_map_Some; [done|]. exists i, kp. done.
  - assert (tbl_map tbl !! key = None) as ->.
    { destruct (tbl_map tbl !! key) as [v|] eqn:E; [|done]. exfalso.
      eapply tbl_map_Some in E as [j Hj]; [|done]. by eapply Hno. }
    pose proof (wf_slot _ _ Hwf _ _ Hi) as Hs. unfold slot_wf in Hs.
    destruct Hvac as [E|E]; by rewrite E in Hs.
Qed.

(** Storing [key] in the slot a lookup returned. *)
Lemma tbl_insert tbl size key i old kp :
  tbl_wf tbl size → tbl !! i = Some old → reach tbl size key i →
  (kp_key old = KStr key ∨
   (kp_key old = KNull ∨ kp_key old = KDummy) ∧ ∀ j v, ¬ holds tbl j key v) →
  kp_key kp = KStr key → kp_hash kp = dict_hash key →
  tbl_wf (<[i := kp]> tbl) size ∧
  tbl_map (<[i := kp]> tbl) = <[key := kp_val kp]> (tbl_map tbl).
Proof.
  intros Hwf Hi Hr Hcase Hkey Hhash.
  assert (∀ j v, holds tbl j key v → j = i) as Hu.
  { intros j v Hj. destruct Hcase as [Hk|[_ Hno]]; [|by destruct (Hno j v)].
    eapply wf_unique; [done|done|]. by exists old. }
  assert (tbl_wf (<[i:=kp]> tbl) size) as Hwf'.
  { eapply wf_insert; [done|done|by rewrite Hkey| |].
    - unfold slot_wf. rewrite Hkey. split; [done|].
      eapply reach_insert; [done|by rewrite Hkey|done|done].
    - intros s j v Hs Hj. rewrite Hkey in Hs. simplify_eq. by eapply Hu. }
  split; [done|]. apply map_eq. intros s. apply option_eq. intros v.
  rewrite (tbl_map_Some _ _ _ _ Hwf'). destruct (decide (s = key)) as [->|Hne].
  - rewrite lookup_insert_eq. split.
    + intros [j Hj]. destruct (decide (j = i)) as [->|Hji].
      * apply (insert_holds_eq tbl i old kp Hi) in Hj as [_ ->]. done.
      * apply insert_holds_ne in Hj; [|done]. apply Hu in Hj. done.
    + intros [= <-]. exists i. by apply (insert_holds_eq tbl i old kp Hi).
  - rewrite lookup_insert_ne, (tbl_map_Some _ _ _ _ Hwf) by done.
    split; intros [j Hj]; exists j.
    + destruct (decide (j = i)) as [->|Hji]; [|by apply insert_holds_ne in Hj].
      apply (insert_holds_eq tbl i old kp Hi) in Hj as [Hs _]. congruence.
    + apply insert_holds_ne; [|done]. intros ->. destruct Hj as (kq & Hkq & Hs & _).
      simplify_eq. destruct Hcase as [?|[[?|?] _]]; congruence.
Qed.
