(* ===== verification/DictOps.v ===== *)
(** * The operations of the dictionary refine those of a finite map

    [dict_add], [dict_get] and [dict_del] against [dict_ok d m]; the growth of
    the table; termination of the probe; enumeration and release. *)
From S2P Require Import Prelude Store CStd Dict Probe DictFacts.
From Stdlib Require Import Ascii.

Local Open Scope Z_scope.

(** ** Insertion without growth *)
Section insertion.
Variables (mm : mem) (now ts : Z) (blob copy : bool) (key : string) (val : option string).
Hypothesis Hmem : copy = true → m_strdup_key mm = true ∧ m_strdup_val mm = true.

(** The value that ends up in the slot. *)
Definition new_val (old : option (option string)) : option string :=
  if copy then stored old val else val.

Lemma fill_slot_ok slot :
  ∃ slot', fill_slot mm copy key val slot = (true, slot') ∧
    kp_key slot' = KStr key ∧ kp_val slot' = (if copy then default (kp_val slot) (Some <$> val)
                                              else val).
Proof.
  unfold fill_slot. destruct copy; [|by eexists].
  destruct Hmem as [-> ->]; [done|]. destruct val; by eexists.
Qed.

Lemma ok_insert d m :
  dict_ok d m → d_fill d + 1 < d_size d →
  ∃ dd, dict_ok dd (<[key := new_val (m !! key)]> m) ∧
    d_size dd = d_size d ∧ d_fill dd = d_fill d + 1 ∧ d_used dd = d_used d + 1 ∧
    ∀ depth, dict_add_p depth mm now (Some d) (Some key) val blob ts copy =
      if 2 * d_size d <=? 3 * d_fill dd then
        match depth with
        | O => Spin
        | S depth =>
            let! r := dict_resize (λ d k v ts, dict_add_p depth mm now d k v false ts false)
                        mm dd in
            if r.1 =? 0 then Ret (0, r.2) else Ret (-1, r.2)
        end
      else Ret (0, Some dd).
Proof.
  intros Hok Hroom. pose proof (ok_pow2 _ _ Hok) as Hpow.
  destruct (ok_lookup d m key Hok)
    as (tbl & i & old & Ht & Hwf & Hm & Hlive & Hnn & Hi & Hlk & Hr & Hcase).
  destruct (fill_slot_ok old) as (slot & Hfill & Hkey & Hval).
  set (kp := stamp_slot blob (dict_hash key) ts now slot).
  assert (kp_key kp = KStr key) as Hkkey by (unfold kp, stamp_slot; by destruct blob).
  assert (kp_hash kp = dict_hash key) as Hkhash by (unfold kp, stamp_slot; by destruct blob).
  assert (kp_val kp = new_val (m !! key)) as Hkval.
  { unfold kp, stamp_slot. transitivity (kp_val slot); [by destruct blob|].
    rewrite Hval. unfold new_val, stored. destruct copy; [|done].
    destruct val; cbn; [done|]. rewrite Hm. by eapply lookup_val. }
  destruct (tbl_insert tbl _ key i old kp Hwf Hi Hr Hcase Hkkey Hkhash) as [Hwf' Hmap].
  pose proof (live_insert tbl i old kp Hi) as Hl'.
  pose proof (nonnull_insert tbl i old kp Hi) as Hn'.
  destruct Hok as [Hsz _ Hc].
  exists (Dict (d_fill d + 1) (d_used d + 1) (d_size d) (Some (<[i:=kp]> tbl))).
  split_and!; [|done..|].
  - split; cbn; [done| |lia]. exists (<[i:=kp]> tbl).
    rewrite Hmap, Hkval, <- Hm. split_and!; try done.
    + destruct (entry old), (entry kp); lia.
    + destruct (decide (kp_key old = KNull)), (decide (kp_key kp = KNull)); lia.
  - assert (0 ≤ live tbl) by (unfold live; lia).
    assert (wrap32 (d_fill d + 1) = d_fill d + 1) as E1 by (apply wrap32_small; lia).
    assert (wrap32 (d_used d + 1) = d_used d + 1) as E2 by (apply wrap32_small; lia).
    assert (wrap32 (3 * (d_fill d + 1)) = 3 * (d_fill d + 1)) as E3 by (apply wrap32_small; lia).
    assert (wrap32 (d_size d * 2) = 2 * d_size d) as E4 by (rewrite wrap32_small; lia).
    intros depth. destruct depth; cbn [dict_add_p]; rewrite Hlk; cbn [obind];
      rewrite Ht; cbn [need obind]; rewrite Hi; cbn [need obind]; rewrite Hfill; cbn [negb];
      fold kp; cbn [d_size d_fill]; by rewrite E1, E2, E3, E4.
Qed.
End insertion.

(** ** Growth *)
Lemma grow_ok n (k : nat) fuel t :
  (k + n = 30)%nat → (n < fuel)%nat → 0 ≤ t < 2 ^ 30 →
  ∃ j : nat, (k ≤ j ≤ 30)%nat ∧ grow fuel (2 ^ Z.of_nat k) t = Ret (2 ^ Z.of_nat j) ∧
    t < 2 ^ Z.of_nat j.
Proof.
  revert k fuel. induction n as [|n IH]; intros k [|fuel] Hk Hf Ht; try lia; cbn [grow].
  - replace k with 30%nat by lia. exists 30%nat.
    destruct (Z.leb_spec (2 ^ Z.of_nat 30) t); [lia|]. split_and!; [lia|lia|done|lia].
  - destruct (Z.leb_spec (2 ^ Z.of_nat k) t); [|exists k; split_and!; [lia|lia|done|lia]].
    assert (2 ^ Z.of_nat (S k) ≤ 2 ^ 30) by (apply Z.pow_le_mono_r; lia).
    rewrite Nat2Z.inj_succ, Z.pow_succ_r in * by lia.
    destruct (IH (S k) fuel) as (j & ? & ? & ?); [lia..|].
    rewrite Nat2Z.inj_succ, Z.pow_succ_r in * by lia.
    exists j. rewrite wrap32_small, Z.mul_comm by lia. split; [lia|done].
Qed.

Lemma replicate_zero_wf n size :
  n = Z.to_nat size → tbl_wf (replicate n kp_zero) size ∧
  entries (replicate n kp_zero) = [] ∧ occupied (replicate n kp_zero) = [].
Proof.
  intros ->. split_and!.
  - split; [apply length_replicate|]. by intros i kp [-> _]%lookup_replicate.
  - induction (Z.to_nat size); [done|]. cbn [replicate]. by rewrite entries_cons.
  - unfold occupied. induction (Z.to_nat size); [done|]. cbn [replicate]. by rewrite filter_cons.
Qed.

(** An empty table of [2^k] slots. *)
Lemma ok_empty (k : nat) :
  (3 ≤ k ≤ 30)%nat →
  dict_ok (Dict 0 0 (2 ^ Z.of_nat k)
             (Some (replicate (Z.to_nat (2 ^ Z.of_nat k)) kp_zero))) ∅.
Proof.
  intros Hk. destruct (replicate_zero_wf _ (2 ^ Z.of_nat k) eq_refl) as (Hwf & He & Ho).
  split; cbn [d_size d_table d_used d_fill]; [by exists k| |lia].
  eexists. unfold live, nonnull, tbl_map. rewrite He, Ho. split_and!; done.
Qed.

Section growth.
Variables (mm : mem) (now : Z) (depth : nat).
Let readd := λ d k v ts, dict_add_p depth mm now d k v false ts false.

(** Re-inserting entries that all fit. *)
Lemma rehash_ok old d m :
  dict_ok d m →
  (∀ kp, kp ∈ old → kp_key kp ≠ KFreed) →
  NoDup (entries old).*1 → (∀ s v, (s, v) ∈ entries old → m !! s = None) →
  3 * (d_fill d + live old) < 2 * d_size d →
  ∃ d', rehash readd old (Some d) = Ret (Some d') ∧
    dict_ok d' (list_to_map (entries old) ∪ m) ∧ d_size d' = d_size d ∧
    d_fill d' = d_fill d + live old ∧ d_used d' = d_used d + live old.
Proof.
  revert d m. induction old as [|kp old IH]; intros d m Hok Hfr Hnd Hnew Hroom.
  { exists d. unfold live in *. cbn. rewrite map_empty_union. split_and!; try done; lia. }
  pose proof (Hfr kp ltac:(constructor)) as Hkp. unfold live in *.
  rewrite entries_cons in Hnd, Hnew, Hroom |- *.
  assert (∀ kq, kq ∈ old → kp_key kq ≠ KFreed) by (intros; apply Hfr; by right).
  cbn [rehash]. unfold entry in *. destruct (kp_key kp) as [| |s|] eqn:E; [by eauto..| |done].
  cbn [app length fmap list_fmap fst] in *. apply NoDup_cons in Hnd as [Hs Hnd].
  pose proof (ok_pow2 _ _ Hok).
  destruct (ok_insert mm now (kp_ts kp) false false s (kp_val kp) ltac:(done) d m Hok)
    as (dd & Hokd & Hsz & Hfill & Hused & Hadd); [lia|].
  cbn [new_val] in Hokd. unfold readd at 1. rewrite Hadd.
  destruct (Z.leb_spec (2 * d_size d) (3 * d_fill dd)); [lia|]. cbn [obind snd].
  destruct (IH dd _ Hokd) as (d' & -> & Hok' & ? & ? & ?); [done|done| |lia|].
  { intros s' v' Hin. rewrite lookup_insert_ne; [apply (Hnew s' v'); by right|].
    intros ->. apply Hs, list_elem_of_fmap. by exists (s', v'). }
  exists d'. split_and!; [done| |lia..].
  rewrite list_to_map_cons, <- insert_union_l, insert_union_r; [done|].
  by apply not_elem_of_list_to_map_1.
Qed.

(** [dict_resize] keeps the contents; unless the table already has the size
    it should have, it is rebuilt without tombstones and with room. *)
Lemma resize_ok d m :
  dict_ok d m → d_used d ≤ 2 ^ 27 → (∀ n, m_calloc mm n = true) →
  ∃ d', dict_resize readd mm d = Ret (0, Some d') ∧ dict_ok d' m ∧
    ((d' = d ∧ 2 * d_used d < d_size d) ∨
     (compact d' ∧ d_size d < d_size d' ∧ d_used d' ≤ d_used d)).
Proof.
  intros Hok Hused Hmem. destruct (Hok) as [(k & Hk & Hsz) (tbl & Ht & Hwf & Hm & Hl & Hn) Hc].
  unfold dict_resize, live in *.
  assert (2 * d_used d ≤ resize_factor (d_size d) * d_used d ≤ 2 ^ 29).
  { unfold resize_factor. destruct (_ <? _); lia. }
  rewrite wrap32_small by lia.
  replace (grow 33 (d_size d)) with (grow 33 (2 ^ Z.of_nat k)) by (by rewrite Hsz).
  destruct (grow_ok (30 - k) k 33 (resize_factor (d_size d) * d_used d))
    as (j & Hj & -> & Hlt); [lia..|]. cbn [obind].
  destruct (Z.eqb_spec (2 ^ Z.of_nat j) (d_size d)) as [He|Hne].
  { exists d. split_and!; [done..|left]. split; [done|lia]. }
  rewrite Hmem, Ht. cbn [need obind].
  rewrite take_ge by (rewrite (wf_length _ _ Hwf); lia).
  destruct (rehash_ok tbl _ ∅ (ok_empty j ltac:(lia))) as (d' & -> & Hok' & Hs' & Hf' & Hu').
  - intros kp [i Hi]%list_elem_of_lookup Hfr. pose proof (wf_slot _ _ Hwf _ _ Hi) as Hs.
    unfold slot_wf in Hs. by rewrite Hfr in Hs.
  - by eapply wf_NoDup.
  - intros. apply lookup_empty.
  - unfold live. cbn [d_fill d_size]. lia.
  - cbn [obind]. exists d'. rewrite map_union_empty in Hok'. cbn [d_size d_fill d_used] in *.
    split_and!; [done|by rewrite Hm|right]. unfold live in *.
    assert (2 ^ Z.of_nat k < 2 ^ Z.of_nat j).
    { apply Z.pow_lt_mono_r; [lia|lia|]. destruct (decide (k = j)); [congruence|lia]. }
    split; [split|]; lia.
Qed.
End growth.

(** ** The public operations *)

(** dict_add, dict_add_ts, dict_add_blob and dict_add_blob_ts all refine map
    insertion as long as a vacant slot remains. *)
Lemma add_refines mm now ts blob key val d m :
  dict_ok d m → d_fill d + 1 < d_size d → d_used d < 2 ^ 27 → mem_good mm →
  ∃ d', dict_add_p resize_depth mm now (Some d) (Some key) val blob ts true = Ret (0, Some d') ∧
    dict_ok d' (<[key := stored (m !! key) val]> m) ∧
    (compact d → compact d') ∧ d_size d ≤ d_size d' ∧ d_used d' ≤ d_used d + 1.
Proof.
  intros Hok Hroom Hused (Hcalloc & Hkey & Hval).
  destruct (ok_insert mm now ts blob true key val ltac:(done) d m Hok Hroom)
    as (dd & Hokd & Hsz & Hfill & Huse & ->).
  destruct (Z.leb_spec (2 * d_size d) (3 * d_fill dd)).
  - destruct (resize_ok mm now 39 dd _ Hokd ltac:(lia) Hcalloc) as (d' & Hr & Hok' & Hcase).
    unfold resize_depth. rewrite Hr. cbn [obind fst snd]. exists d'.
    assert (d_used d' ≤ d_used d + 1).
    { destruct Hcase as [[-> _]|(_ & _ & ?)]; lia. }
    split_and!; [done|done| | |done].
    + intros [? ?]. destruct Hcase as [[-> ?]|(? & _)]; [lia|done].
    + destruct Hcase as [[-> _]|(_ & ? & _)]; lia.
  - exists dd. unfold compact. split_and!; [done..| |lia|lia]. lia.
Qed.

Lemma new_ok mm :
  m_struct mm = true → m_calloc mm DICT_MIN_SZ = true →
  ∃ d, dict_new mm = Some d ∧ dict_ok d ∅ ∧ compact d ∧ d_used d = 0.
Proof.
  intros Hs Hc. unfold dict_new. rewrite Hs, Hc. eexists. split; [done|].
  split; [exact (ok_empty 3 ltac:(lia))|]. done.
Qed.

(** [dict_get] reads the map; the default is never used for a missing key. *)
Lemma get_refines d m key defval :
  dict_ok d m → dict_get (Some d) (Some key) defval = Ret (mjoin (m !! key)).
Proof.
  intros Hok. destruct (ok_lookup d m key Hok)
    as (tbl & i & kp & Ht & Hwf & -> & _ & _ & Hi & Hlk & _ & Hcase).
  unfold dict_get. rewrite Hlk. cbn [obind]. rewrite Ht. cbn [need obind]. rewrite Hi.
  cbn [need obind]. by rewrite (lookup_val _ _ _ _ _ Hwf Hi Hcase).
Qed.

(** Overwriting the slot that [dict_lookup] returned by a tombstone. *)
Lemma tbl_delete tbl size key i old kp :
  tbl_wf tbl size → tbl !! i = Some old →
  (kp_key old = KStr key ∨
   (kp_key old = KNull ∨ kp_key old = KDummy) ∧ ∀ j v, ¬ holds tbl j key v) →
  kp_key kp = KDummy → kp_val kp = None →
  tbl_wf (<[i := kp]> tbl) size ∧ tbl_map (<[i := kp]> tbl) = delete key (tbl_map tbl).
Proof.
  intros Hwf Hi Hcase Hkey Hval.
  assert (tbl_wf (<[i:=kp]> tbl) size) as Hwf'.
  { eapply wf_insert; [done|done|by rewrite Hkey| |by rewrite Hkey].
    unfold slot_wf. by rewrite Hkey. }
  split; [done|]. apply map_eq. intros s. apply option_eq. intros v.
  rewrite (tbl_map_Some _ _ _ _ Hwf'), lookup_delete_Some, (tbl_map_Some _ _ _ _ Hwf). split.
  - intros [j Hj]. destruct (decide (j = i)) as [->|Hne].
    { apply (insert_holds_eq tbl i old kp Hi) in Hj as [? _]. congruence. }
    apply insert_holds_ne in Hj; [|done]. split; [|by exists j]. intros <-.
    destruct Hcase as [Ho|[_ Hno]]; [|by eapply Hno].
    apply Hne. eapply wf_unique; [exact Hwf|exact Hj|by exists old].
  - intros [Hne [j Hj]]. exists j. apply insert_holds_ne; [|done]. intros ->.
    destruct Hj as (kq & Hkq & Hs & _). simplify_eq.
    destruct Hcase as [?|[[?|?] _]]; congruence.
Qed.

(** [dict_del]: the table afterwards holds the map without the key, whether it
    was there or not; the counters are those of a successful deletion. *)
Lemma del_refines d m key :
  dict_ok d m →
  ∃ d' tbl, dict_del (Some d) (Some key) = Ret (0, Some d') ∧
    d_table d' = Some tbl ∧ tbl_wf tbl (d_size d) ∧ tbl_map tbl = delete key m ∧
    d_fill d' = d_fill d ∧ d_size d' = d_size d ∧ d_used d' = wrap32 (d_used d - 1) ∧
    (is_Some (m !! key) → dict_ok d' (delete key m)).
Proof.
  intros Hok. pose proof (ok_pow2 _ _ Hok). destruct (ok_lookup d m key Hok)
    as (tbl & i & kp & Ht & Hwf & Hm & Hl & Hn & Hi & Hlk & _ & Hcase).
  set (kq := set_val None (set_key KDummy kp)).
  destruct (tbl_delete tbl _ key i kp kq Hwf Hi Hcase) as [Hwf' Hmap]; [done|done|].
  pose proof (live_insert tbl i kp kq Hi) as Hl'. pose proof (nonnull_insert tbl i kp kq Hi) as Hn'.
  exists (Dict (d_fill d) (wrap32 (d_used d - 1)) (d_size d) (Some (<[i := kq]> tbl))),
    (<[i := kq]> tbl). split_and!.
  - unfold dict_del. rewrite Hlk. cbn [obind]. rewrite Ht. cbn [need obind]. rewrite Hi.
    cbn [need obind]. pose proof (wf_slot _ _ Hwf _ _ Hi) as Hs. unfold slot_wf in Hs.
    destruct (kp_key kp); [done..|tauto].
  - done.
  - done.
  - by rewrite Hmap, Hm.
  - done.
  - done.
  - done.
  - intros [v Hv]. destruct Hcase as [Hkey|[_ Hno]].
    2: { exfalso. rewrite Hm in Hv. eapply tbl_map_Some in Hv as [j Hj]; [|done]. by eapply Hno. }
    destruct Hok as [Hsz _ Hc].
    assert (entry kp = Some (key, kp_val kp)) as He by (unfold entry; by rewrite Hkey).
    rewrite He in Hl'. cbn in Hl'. assert (0 ≤ live (<[i:=kq]> tbl)) by (unfold live; lia).
    split; cbn; [done| |].
    + exists (<[i:=kq]> tbl). rewrite Hmap, Hm. split_and!; [done|done|done| |].
      * rewrite wrap32_small; lia.
      * rewrite decide_False in Hn' by (by rewrite Hkey). rewrite decide_False in Hn' by done. lia.
    + rewrite wrap32_small; lia.
Qed.
