(* ===== verification/DictSpec.v ===== *)
(** * Properties of the string dictionary

    The dictionary implements [Store.LawfulStore]; what enumeration, dumping
    and release do; when a lookup ends and how a dictionary gets to a state in
    which it does not; what a failing allocation leaves behind. *)
From S2P Require Import Prelude Store CStd Dict Probe DictFacts DictOps.
From Stdlib Require Import Ascii.

Local Open Scope Z_scope.

(** ** The dictionary as a store *)
Section instance.
Variables (mm : mem) (now : Z).
Hypothesis Hmem : mem_good mm.

#[local] Instance dict_store : StringStore (option dict) := {
  st_null d := match d with Some _ => false | None => true end;
  st_add d k v := dict_add mm now d k v;
  st_get d k def := dict_get d k def;
  st_del d k := dict_del d k
}.

Definition dict_rep (n : Z) (od : option dict) (m : smap) : Prop :=
  ∃ d, od = Some d ∧ dict_ok d m ∧ compact d ∧ d_used d ≤ n.

#[local] Program Instance dict_lawful : LawfulStore (option dict) := {
  st_capacity := 2 ^ 27;
  st_rep := dict_rep
}.
Next Obligation. by intros n s m (d & -> & _). Qed.
Next Obligation.
  intros n s m k v (d & -> & Hok & Hc & Hu) Hn.
  destruct (add_refines mm now now false k v d m Hok)
    as (d' & He & Hok' & Hc' & _ & Hu'); [by eapply compact_room|lia|done|].
  exists (Some d'). split; [exact He|]. exists d'. split_and!; [done|done|auto|lia].
Qed.
Next Obligation. by intros n s m v (d & -> & _). Qed.
Next Obligation. intros n s m k def (d & -> & Hok & _). by apply get_refines. Qed.

Lemma new_rep : m_struct mm = true → dict_rep 0 (dict_new mm) ∅.
Proof.
  intros Hs. destruct (new_ok mm Hs (proj1 Hmem _)) as (d & Hd & ? & ? & ?).
  exists d. split_and!; [done..|lia].
Qed.
End instance.

(** ** Enumeration *)
Section enumeration.
Variables (past : option keypair) (tbl : list keypair) (size : Z).
Hypothesis Hlen : size = Z.of_nat (length tbl).
Hypothesis Hlive : ∀ i kp, tbl !! i = Some kp → kp_key kp ≠ KFreed.

Lemma slot_at_in r kp : tbl !! r = Some kp → slot_at past tbl (Z.of_nat r) = Ret kp.
Proof. intros H. unfold slot_at. by rewrite Nat2Z.id, H. Qed.

Lemma drop_entries r kp :
  tbl !! r = Some kp →
  entries (drop r tbl) = (if entry kp is Some e then [e] else []) ++ entries (drop (S r) tbl).
Proof. intros H. by rewrite (drop_S _ _ _ H), entries_cons. Qed.

(** The rest of the table from [r] on: nothing but vacant slots, or a first
    live slot. *)
Inductive next_live (r : nat) : Prop :=
  | NoneLeft : entries (drop r tbl) = [] →
      (∀ i kp, (r ≤ i)%nat → tbl !! i = Some kp → kp_vacant kp = true) → next_live r
  | NextAt (i : nat) kp s : (r ≤ i)%nat → tbl !! i = Some kp → kp_key kp = KStr s →
      entries (drop r tbl) = (s, kp_val kp) :: entries (drop (S i) tbl) →
      (∀ j kq, (r ≤ j < i)%nat → tbl !! j = Some kq → kp_vacant kq = true) → next_live r.

Lemma next_live_ex n r : (r + n = length tbl)%nat → next_live r.
Proof.
  revert r. induction n as [|n IH]; intros r Hr.
  { left; [by rewrite drop_ge by lia|]. intros i kp Hi Hk%lookup_lt_Some. lia. }
  destruct (lookup_lt_is_Some_2 tbl r ltac:(lia)) as [kp Hkp].
  destruct (kp_key kp) as [| |s|] eqn:E; [| | |by destruct (Hlive _ _ Hkp)].
  3: { apply (NextAt r r kp s); [done|done|done| |intros; lia].
       rewrite (drop_entries _ _ Hkp). unfold entry. by rewrite E. }
  all: assert (kp_vacant kp = true) as Hv by (unfold kp_vacant; by rewrite E).
  all: assert (entries (drop r tbl) = entries (drop (S r) tbl)) as He
    by (rewrite (drop_entries _ _ Hkp); unfold entry; by rewrite E).
  all: destruct (IH (S r) ltac:(lia)) as [H1 H2|i kq s H1 H2 H3 H4 H5];
    [left; [congruence|]|apply (NextAt r i kq s); [lia|done|done|congruence|]].
  all: intros j kj Hj Hkj; destruct (decide (j = r)) as [->|]; [congruence|].
  all: (eapply (H2 j); [lia|done]) || (eapply (H5 j); [lia|done]).
Qed.

Lemma skip_run n r fuel :
  (r + n ≤ length tbl)%nat →
  (∀ j kq, (r ≤ j < r + n)%nat → tbl !! j = Some kq → kp_vacant kq = true) →
  skip_vacant (n + fuel) past tbl size (Z.of_nat r) =
  skip_vacant fuel past tbl size (Z.of_nat (r + n)).
Proof.
  revert r. induction n as [|n IH]; intros r Hr Hv; [by rewrite Nat.add_0_r|].
  destruct (lookup_lt_is_Some_2 tbl r ltac:(lia)) as [kp Hkp].
  cbn [Nat.add skip_vacant]. rewrite (slot_at_in _ _ Hkp). cbn [obind].
  rewrite (Hv r kp) by (done || lia). destruct (Z.ltb_spec (Z.of_nat r) size); [|lia].
  cbn [andb]. replace (Z.of_nat r + 1) with (Z.of_nat (S r)) by lia.
  rewrite IH; [f_equal; lia|lia|]. intros j kq Hj. apply Hv. lia.
Qed.

(** The scan stops at the next live slot, or reads the slot past the end. *)
Lemma skip_next r fuel :
  (r ≤ length tbl)%nat → (length tbl - r < fuel)%nat →
  (entries (drop r tbl) = [] ∧
     skip_vacant fuel past tbl size (Z.of_nat r) =
       (let! _ := need OutOfBounds past in Ret size)) ∨
  (∃ i kp s, (r ≤ i < length tbl)%nat ∧ tbl !! i = Some kp ∧ kp_key kp = KStr s ∧
     entries (drop r tbl) = (s, kp_val kp) :: entries (drop (S i) tbl) ∧
     skip_vacant fuel past tbl size (Z.of_nat r) = Ret (Z.of_nat i)).
Proof.
  intros Hr Hf. destruct (next_live_ex (length tbl - r) r ltac:(lia))
    as [He Hv|i kp s Hi Hkp Hs He Hv].
  - left. split; [done|].
    replace fuel with ((length tbl - r) + S (fuel - S (length tbl - r)))%nat by lia.
    rewrite skip_run; [|lia|intros j kq ? ?; eapply (Hv j); [lia|done]].
    replace (r + (length tbl - r))%nat with (length tbl) by lia.
    cbn [skip_vacant]. unfold slot_at. rewrite Nat2Z.id, lookup_ge_None_2 by lia.
    rewrite Z.eqb_refl. destruct past as [kp|]; [|done]. cbn [need obind].
    destruct (Z.ltb_spec (Z.of_nat (length tbl)) size); [lia|]. rewrite andb_false_r. by subst.
  - right. exists i, kp, s. pose proof (lookup_lt_Some _ _ _ Hkp).
    split_and!; [lia|lia|done|done|done|].
    replace fuel with ((i - r) + S (fuel - S (i - r)))%nat by lia.
    rewrite skip_run; [|lia|intros j kq ? ?; eapply (Hv j); [lia|done]].
    replace (r + (i - r))%nat with i by lia.
    cbn [skip_vacant]. rewrite (slot_at_in _ _ Hkp). cbn [obind]. unfold kp_vacant. by rewrite Hs.
Qed.
End enumeration.

Lemma wf_no_freed tbl size : tbl_wf tbl size → ∀ i kp, tbl !! i = Some kp → kp_key kp ≠ KFreed.
Proof.
  intros Hwf i kp Hi E. pose proof (wf_slot _ _ Hwf _ _ Hi) as Hs. unfold slot_wf in Hs.
  by rewrite E in Hs.
Qed.

(** The lines [dict_dump] writes. *)
Definition dump_lines (tbl : list keypair) : list string :=
  (λ e, dump_line e.1 e.2) <$> entries tbl.

Section dump.
Variables (d : dict) (tbl : list keypair) (fprintf : string → bool).
Hypothesis Ht : d_table d = Some tbl.
Hypothesis Hwf : tbl_wf tbl (d_size d).
Hypothesis Hsize : 0 ≤ d_size d.

Lemma table_length : d_size d = Z.of_nat (length tbl).
Proof. rewrite (wf_length _ _ Hwf). lia. Qed.

(** One call of [dict_enumerate] at a rank within the table. *)
Lemma enumerate_step past r :
  (r ≤ length tbl)%nat →
  (entries (drop r tbl) = [] ∧
     dict_enumerate past (Some d) (Z.of_nat r) true =
       (let! _ := need OutOfBounds past in Ret (-1, None))) ∨
  (∃ i kp s, (r ≤ i < length tbl)%nat ∧ tbl !! i = Some kp ∧ kp_key kp = KStr s ∧
     entries (drop r tbl) = (s, kp_val kp) :: entries (drop (S i) tbl) ∧
     dict_enumerate past (Some d) (Z.of_nat r) true =
       Ret (Z.of_nat (S i), Some (EnumItem (KStr s) (kp_val kp) (kp_ts kp)))).
Proof.
  intros Hr. pose proof table_length as Hl. unfold dict_enumerate.
  destruct (Z.ltb_spec (Z.of_nat r) 0); [lia|]. cbn [negb orb]. rewrite Ht. cbn [need obind].
  destruct (skip_next past tbl (d_size d) Hl (wf_no_freed _ _ Hwf) r (S (Z.to_nat (d_size d))))
    as [[He ->]|(i & kp & s & Hi & Hkp & Hs & He & ->)]; [lia|lia| |].
  - left. split; [done|]. destruct past; [|done]. cbn [need obind].
    by rewrite Z.leb_refl.
  - right. exists i, kp, s. split_and!; [lia|lia|done..|]. cbn [obind].
    destruct (Z.leb_spec (d_size d) (Z.of_nat i)); [lia|].
    rewrite (slot_at_in past _ _ _ Hkp). cbn [obind]. rewrite Hs. do 2 f_equal. lia.
Qed.

Lemma dump_from past n r fuel errors out :
  (length tbl - r ≤ n)%nat → (r ≤ length tbl)%nat → (n < fuel)%nat →
  dump_loop fuel past fprintf (Some d) (Z.of_nat r) errors out =
  let! _ := need OutOfBounds past in
  let lines := (λ e, dump_line e.1 e.2) <$> entries (drop r tbl) in
  Ret (errors + Z.of_nat (length (filter (λ l, fprintf l = false) lines)),
       out ++ filter (λ l, fprintf l = true) lines).
Proof.
  revert r fuel errors out. induction n as [|n IH]; intros r [|fuel] errors out Hn Hr Hf;
    try lia; cbn [dump_loop];
    (destruct (enumerate_step past r Hr) as [[He ->]|(i & kp & s & Hi & Hkp & Hs & He & ->)];
     [rewrite He; destruct past; [|done]; cbn; by rewrite Z.add_0_r, app_nil_r|]); [lia|].
  cbn [obind en_key en_val]. destruct (Z.ltb_spec (Z.of_nat (S i)) 0); [lia|]. rewrite He.
  cbn [fmap list_fmap fst snd]. rewrite !filter_cons.
  destruct (fprintf (dump_line s (kp_val kp))) eqn:Ef;
    (rewrite IH by lia); (destruct past; [|done]); cbn [need obind];
    repeat (case_decide; try done); cbn [length]; f_equal; f_equal; try lia.
  by rewrite <- app_assoc.
Qed.
End dump.

Lemma dump_refines past fprintf d m :
  dict_ok d m →
  ∃ tbl, d_table d = Some tbl ∧ tbl_map tbl = m ∧ NoDup (entries tbl).*1 ∧
  dict_dump past fprintf (Some d) true =
    let! _ := need OutOfBounds past in
    Ret (Z.of_nat (length (filter (λ l, fprintf l = false) (dump_lines tbl))),
         filter (λ l, fprintf l = true) (dump_lines tbl)).
Proof.
  intros Hok. pose proof (ok_pow2 _ _ Hok) as Hp.
  destruct Hok as [_ (tbl & Ht & Hwf & Hm & _) _]. exists tbl.
  split_and!; [done|done|by eapply wf_NoDup|]. unfold dict_dump.
  rewrite (dump_from d tbl fprintf Ht Hwf ltac:(lia) past (Z.to_nat (d_size d)) 0);
    [done|rewrite (wf_length _ _ Hwf); lia|lia|lia].
Qed.

(** ** Release *)

(** The heap blocks the slots of a table own, numbered from [i]: the key and
    the value of every live slot. *)
Definition owns (i : nat) (tbl : list keypair) (b : block) : Prop :=
  match b with
  | BlkKey j => (i ≤ j)%nat ∧ ∃ kp s, tbl !! (j - i)%nat = Some kp ∧ kp_key kp = KStr s
  | BlkVal j => (i ≤ j)%nat ∧
      ∃ kp s v, tbl !! (j - i)%nat = Some kp ∧ kp_key kp = KStr s ∧ kp_val kp = Some v
  | BlkTable | BlkDict => False
  end.

Lemma owns_cons i kp tbl b :
  owns i (kp :: tbl) b ↔
  (∃ s, kp_key kp = KStr s ∧ (b = BlkKey i ∨ (b = BlkVal i ∧ is_Some (kp_val kp)))) ∨
  owns (S i) tbl b.
Proof.
  assert (∀ j, (i ≤ j)%nat → j = i ∧ (j - i = 0)%nat ∨
            (S i ≤ j)%nat ∧ ((j - i) = S (j - S i))%nat) as Hj by (intros; lia).
  unfold is_Some. destruct b as [j|j| |]; cbn [owns]; [| |naive_solver..]; split.
  - intros [Hle H]. destruct (Hj j Hle) as [[-> E]|[Hlt E]]; rewrite E in H; cbn in H.
    + destruct H as (kq & s & [= ->] & Hs). left. exists s. auto.
    + right. split; [lia|exact H].
  - intros [(s & Hs & [[= ->]|[[=] _]])|[Hlt H]].
    + split; [lia|]. rewrite Nat.sub_diag. by exists kp, s.
    + split; [lia|]. destruct (Hj j ltac:(lia)) as [[-> _]|[_ ->]]; [lia|exact H].
  - intros [Hle H]. destruct (Hj j Hle) as [[-> E]|[Hlt E]]; rewrite E in H; cbn in H.
    + destruct H as (kq & s & v & [= ->] & Hs & Hv). left. exists s. eauto.
    + right. split; [lia|exact H].
  - intros [(s & Hs & [[=]|[[= ->] [v Hv]]])|[Hlt H]].
    + split; [lia|]. rewrite Nat.sub_diag. by exists kp, s, v.
    + split; [lia|]. destruct (Hj j ltac:(lia)) as [[-> _]|[_ ->]]; [lia|exact H].
Qed.

Lemma owns_ge i j tbl : owns i tbl (BlkKey j) ∨ owns i tbl (BlkVal j) → (i ≤ j)%nat.
Proof. by intros [[? _]|[? _]]. Qed.

Lemma free_slots_ok tbl i :
  (∀ kp, kp ∈ tbl → kp_key kp ≠ KFreed) →
  ∃ l, free_slots i tbl = Ret l ∧ NoDup l ∧ ∀ b, b ∈ l ↔ owns i tbl b.
Proof.
  revert i. induction tbl as [|kp tbl IH]; intros i Hl.
  { exists []. split_and!; [done|constructor|]. intros b. rewrite elem_of_nil.
    split; [done|]. destruct b; [intros (_ & ? & ? & ? & _); done
      |intros (_ & ? & ? & ? & ? & _); done|done|done]. }
  destruct (IH (S i)) as (l & He & Hnd & Hin); [intros; apply Hl; by right|].
  pose proof (Hl kp ltac:(constructor)) as Hk.
  cbn [free_slots]. rewrite He. destruct (kp_key kp) as [| |s|] eqn:E; [| | |done].
  1,2: exists l; split_and!; [done|done|]; intros b; rewrite owns_cons, Hin, E;
    split; [tauto|intros [(s & ? & _)|?]; done].
  cbn [obind]. eexists. split; [done|].
  assert (∀ b, b = BlkKey i ∨ b = BlkVal i → b ∉ l) as Hnin.
  { intros b Hb H. apply Hin in H. destruct Hb as [-> | ->];
      [pose proof (owns_ge (S i) i tbl (or_introl H))
      |pose proof (owns_ge (S i) i tbl (or_intror H))]; lia. }
  split.
  - destruct (kp_val kp); cbn [app]; repeat (apply NoDup_cons; split; [|done || idtac]);
      rewrite ?elem_of_cons; auto. intros [?|?]; [done|]. by apply (Hnin (BlkKey i)); [left|].
  - intros b. rewrite owns_cons, E, elem_of_cons, elem_of_app, Hin. unfold is_Some.
    destruct (kp_val kp) as [v|]; rewrite ?list_elem_of_singleton, ?elem_of_nil; split;
      [intros [?|[?|?]]; eauto 8|intros [(? & _ & [?|[? _]])|?]; auto
      |intros [?|[?|?]]; [eauto 8|done|eauto]
      |intros [(? & _ & [?|[_ [? ?]]])|?]; auto; done].
Qed.

(** dict_free gives back every block of the dictionary exactly once. *)
Lemma free_refines d m :
  dict_ok d m →
  ∃ tbl l, d_table d = Some tbl ∧ tbl_map tbl = m ∧
    dict_free (Some d) = Ret (l ++ [BlkTable; BlkDict]) ∧
    NoDup (l ++ [BlkTable; BlkDict]) ∧ ∀ b, b ∈ l ↔ owns 0 tbl b.
Proof.
  intros Hok. pose proof (ok_pow2 _ _ Hok).
  destruct Hok as [_ (tbl & Ht & Hwf & Hm & _) _].
  destruct (free_slots_ok tbl 0) as (l & He & Hnd & Hin).
  { intros kp [i Hi]%list_elem_of_lookup. by eapply wf_no_freed. }
  exists tbl, l. split_and!; [done|done| | |done].
  - unfold dict_free. rewrite Ht. cbn [need obind].
    rewrite take_ge by (rewrite (wf_length _ _ Hwf); lia). by rewrite He.
  - apply NoDup_app. split_and!; [done| |].
    + intros b Hb%Hin Hb'. destruct b; [set_solver..].
    + repeat constructor; set_solver.
Qed.

(** ** Termination of the probe *)
Definition lookup_ends (tbl : list keypair) (key : string) : Prop :=
  ∃ j kp, tbl !! j = Some kp ∧ (kp_key kp = KNull ∨ kp_key kp = KStr key).

#[export] Instance lookup_ends_dec tbl key : Decision (lookup_ends tbl key).
Proof.
  refine (cast_if (decide (Exists (λ kp, kp_key kp = KNull ∨ kp_key kp = KStr key) tbl)));
    unfold lookup_ends.
  - apply Exists_exists in e as (kp & [j Hj]%list_elem_of_lookup & H). eauto.
  - intros (j & kp & Hj & H). apply n, Exists_exists. exists kp.
    split; [by eapply list_elem_of_lookup_2|done].
Defined.

(** Adding a key and deleting it again, for each key of a list. *)
Fixpoint churn (mm : mem) (now : Z) (d : dict) (keys : list string) : outcome dict :=
  match keys with
  | [] => Ret d
  | k :: keys =>
      let! a := dict_add mm now (Some d) (Some k) (Some k) in
      let! r := dict_del a.2 (Some k) in
      match r.2 with Some d => churn mm now d keys | None => Stuck NullDeref end
  end.

Definition churn_keys : list string := ["a"; "b"; "c"; "d"; "e"; "f"; "i"; "ae"]%string.

(** A table of tombstones is well-formed. *)
Lemma tombstones_wf tbl size :
  length tbl = Z.to_nat size → Forall (λ kp, kp_key kp = KDummy ∧ kp_val kp = None) tbl →
  tbl_wf tbl size.
Proof.
  intros Hl Hall. split; [done|]. intros i kp Hi. unfold slot_wf.
  by destruct (proj1 (Forall_lookup _ _) Hall i kp Hi) as [-> ->].
Qed.

(** ** Failing growth *)
Lemma resize_oom mm readd d m :
  dict_ok d m → 2 * d_size d ≤ 3 * d_used d → d_used d ≤ 2 ^ 27 →
  (∀ n, m_calloc mm n = false) →
  dict_resize readd mm d = Ret (-1, Some (set_table d None)).
Proof.
  intros Hok Hfull Hused Hc. pose proof (ok_pow2 _ _ Hok).
  destruct Hok as [(k & Hk & Hsz) _ Hcnt]. unfold dict_resize.
  assert (2 * d_used d ≤ resize_factor (d_size d) * d_used d ≤ 2 ^ 29).
  { unfold resize_factor. destruct (_ <? _); lia. }
  rewrite wrap32_small by lia.
  replace (grow 33 (d_size d)) with (grow 33 (2 ^ Z.of_nat k)) by (by rewrite Hsz).
  destruct (grow_ok (30 - k) k 33 (resize_factor (d_size d) * d_used d))
    as (j & Hj & -> & Hlt); [lia..|]. cbn [obind].
  destruct (Z.eqb_spec (2 ^ Z.of_nat j) (d_size d)); [lia|]. by rewrite Hc.
Qed.

(** ** Properties *)

(** any batch of at most 2^27 [dict_add] calls on a fresh dictionary
    succeeds, and afterwards [dict_get] returns for every key the last value
    added for it, and NULL for a key that was never added. *)
Theorem dict_adds_get (mm : mem) (now : Z) (l : list (string * string)) :
  mem_good mm → m_struct mm = true → Z.of_nat (length l) ≤ 2 ^ 27 →
  ∃ d, @st_adds (option dict) (dict_store mm now) (dict_new mm) l = Ret (Some d) ∧
    ∀ key def, dict_get (Some d) (Some key) def =
      Ret (snd <$> last (filter (λ kv, kv.1 = key) l)).
Proof.
  intros Hm Hs Hl.
  destruct (@st_adds_law (option dict) _ (dict_lawful mm now Hm) 0 _ ∅ l (new_rep mm Hm Hs) Hl)
    as (s & Hd & (d & -> & Hrep & _)).
  exists d. split; [done|]. intros key def. rewrite (get_refines _ _ _ _ Hrep).
  f_equal. apply foldl_put_get.
Qed.

Lemma mem_ok_good : mem_good mem_ok.
Proof. done. Qed.

Lemma dict_adds_get_witness :
  Z.of_nat (length [("k", "1"); ("j", "2"); ("k", "3")]%string) ≤ 2 ^ 27 ∧
  ∃ d, @st_adds (option dict) (dict_store mem_ok 7) (dict_new mem_ok)
         [("k", "1"); ("j", "2"); ("k", "3")]%string = Ret (Some d) ∧
    ∀ key def, dict_get (Some d) (Some key) def =
      Ret (snd <$> last (filter (λ kv, kv.1 = key) [("k", "1"); ("j", "2"); ("k", "3")]%string)).
Proof.
  split; [cbn; lia|]. apply (dict_adds_get mem_ok 7 [("k", "1"); ("j", "2"); ("k", "3")]%string);
    [apply mem_ok_good|reflexivity|cbn; lia].
Defined.

(** The table of a dictionary that is due for growth cannot be allocated. *)
Lemma add_oom (mm : mem) (now : Z) (d : dict) (m : smap) (key : string) (val : option string) :
  dict_ok d m → compact d → 2 * d_size d ≤ 3 * (d_fill d + 1) → d_used d < 2 ^ 27 →
  m_strdup_key mm = true → m_strdup_val mm = true → (∀ n, m_calloc mm n = false) →
  ∃ d', dict_add mm now (Some d) (Some key) val = Ret (-1, Some d') ∧
    (∀ k def, dict_get (Some d') (Some k) def = Stuck NullDeref) ∧
    (∀ k, dict_del (Some d') (Some k) = Stuck NullDeref) ∧
    dict_free (Some d') = Stuck NullDeref.
Proof.
  intros Hok Hc Hfull Hu Hk Hv Hcalloc. pose proof (compact_room _ _ Hok Hc).
  destruct (ok_insert mm now now false true key val ltac:(done) d m Hok)
    as (dd & Hokd & Hsz & Hfill & Huse & Hadd); [lia|].
  destruct Hc as [Hc _]. exists (set_table dd None). split_and!; [|done..].
  unfold dict_add. rewrite Hadd. destruct (Z.leb_spec (2 * d_size d) (3 * d_fill dd)); [|lia].
  unfold resize_depth. by rewrite (resize_oom _ _ _ _ Hokd) by (done || lia).
Qed.


(** The fresh dictionary of the witnesses. *)
Definition dict8 : dict := Dict 0 0 8 (Some (replicate 8 kp_zero)).

Lemma dict8_ok : dict_ok dict8 ∅.
Proof. exact (ok_empty 3 ltac:(lia)). Qed.

(** A dictionary that the next addition makes grow. *)
Definition five_keys : list (string * string) :=
  [("a", "1"); ("b", "2"); ("c", "3"); ("d", "4"); ("e", "5")]%string.
Definition dict_five : dict :=
  match @st_adds (option dict) (dict_store mem_ok 7) (Some dict8) five_keys with
  | Ret (Some d) => d
  | _ => dict8
  end.

Lemma dict_five_ok : dict_ok dict_five (foldl put ∅ five_keys) ∧ compact dict_five.
Proof.
  destruct (@st_adds_law (option dict) _ (dict_lawful mem_ok 7 mem_ok_good) 0 (Some dict8) ∅ five_keys)
    as (s & Hd & (d & -> & Hok & Hc & _));
    [exists dict8; split_and!; [done|apply dict8_ok|done|done]|done|].
  unfold dict_five. by rewrite Hd.
Qed.

(** There is memory for the strings and none for a table. *)
Definition no_table : mem := Mem true (λ _, false) true true.


(** C2: deleting a key that is there removes it and nothing else, and keeps
    the dictionary well-formed (the slot becomes a tombstone, the fill count
    stays).  Deleting a key that is not there reports success as well; the
    contents stay, but the use count is decremented (and wraps to 2^32-1 from
    0).  [dict_get] returns the value stored for the key, before and after; for a
    key that is not there it returns NULL and never the default.  [dict_free] releases
    the key and the value of every live slot, the table and the dictionary, each exactly
    once, and nothing else. *)
Theorem dict_del_removes (d : dict) (m : gmap string (option string)) (key : string) :
  dict_ok d m →
  (∃ d' tbl, dict_del (Some d) (Some key) = Ret (0, Some d') ∧ d_table d' = Some tbl ∧
    tbl_map tbl = delete key m ∧ d_fill d' = d_fill d ∧ d_size d' = d_size d ∧
    (is_Some (m !! key) → dict_ok d' (delete key m) ∧
       ∀ k defval, dict_get (Some d') (Some k) defval = Ret (mjoin (delete key m !! k))) ∧
    (m !! key = None → d_used d' = wrap32 (d_used d - 1))) ∧
  (∀ k defval, dict_get (Some d) (Some k) defval = Ret (mjoin (m !! k)) ∧
     dict_get None (Some k) defval = Ret defval ∧ dict_get (Some d) None defval = Ret defval) ∧
  (∃ tbl l, d_table d = Some tbl ∧ tbl_map tbl = m ∧ dict_free (Some d) = Ret (l ++ [BlkTable; BlkDict]) ∧
    NoDup (l ++ [BlkTable; BlkDict]) ∧ ∀ b, b ∈ l ↔ owns 0 tbl b).
Proof.
  intros Hok. split_and!; [|intros k defval; split_and!; [by apply get_refines|done..]|by apply free_refines].
  destruct (del_refines d m key Hok) as (d' & tbl & ? & ? & _ & ? & ? & ? & ? & Hk).
  exists d', tbl. split_and!; try done. intros Hin. split; [by apply Hk|].
  intros k defval. by apply get_refines, Hk.
Qed.

(** A dictionary with the single key [k]. *)
Definition dict_k : dict :=
  match dict_add mem_ok 7 (Some dict8) (Some "k") (Some "v") with
  | Ret (_, Some d) => d
  | _ => dict8
  end.

Lemma dict_k_ok : dict_ok dict_k {["k" := Some "v"]}.
Proof.
  destruct (add_refines mem_ok 7 7 false "k" (Some "v") dict8 ∅ dict8_ok)
    as (d & Hd & Hok & _); [done|done|done|].
  unfold dict_k, dict_add. rewrite Hd. done.
Qed.

Lemma dict_del_removes_witness :
  (∃ d' tbl, dict_del (Some dict_k) (Some "k") = Ret (0, Some d') ∧ d_table d' = Some tbl ∧
    tbl_map tbl = delete "k" {["k" := Some "v"]} ∧ dict_ok d' (delete "k" {["k" := Some "v"]})) ∧
  (∃ d' tbl, dict_del (Some dict8) (Some "k") = Ret (0, Some d') ∧ d_table d' = Some tbl ∧
    tbl_map tbl = ∅ ∧ d_used d' = wrap32 (d_used dict8 - 1)).
Proof.
  split.
  - destruct (dict_del_removes dict_k {["k" := Some "v"]} "k" dict_k_ok)
      as [(d' & tbl & H1 & H2 & H3 & _ & _ & H4 & _) _].
    exists d', tbl. split_and!; [done|done|done|]. apply H4. by exists (Some "v").
  - destruct (dict_del_removes dict8 ∅ "k" dict8_ok) as [(d' & tbl & H1 & H2 & H3 & _ & _ & _ & H4) _].
    exists d', tbl. split_and!; [done|done|done|]. by apply H4.
Defined.

(** Adding and deleting eight different keys in a fresh dictionary fills it with
    tombstones. *)
Lemma churn_hangs :
  ∃ d tbl, churn mem_ok 7 dict8 churn_keys = Ret d ∧ d_table d = Some tbl ∧
    d_size d = 8 ∧ tbl_map tbl = ∅ ∧
    ∀ fuel key, dict_lookup_fuel fuel tbl (d_size d) key (dict_hash key) = Spin.
Proof.
  eexists _, _. split; [vm_compute; reflexivity|]. split; [reflexivity|].
  split; [reflexivity|]. split; [reflexivity|]. intros fuel key.
  apply (lookup_spins 3); [lia| |].
  - apply tombstones_wf; [reflexivity|]. repeat constructor.
  - intros j kp Hj. do 8 (destruct j as [|j]; [by simplify_eq/=|]). done.
Qed.

(** C3: a lookup in a well-formed table ends if and only if the table has an
    empty slot or holds the key; then [8 + size] probes are enough, and
    otherwise the loop never ends, however long it runs.  Adding and deleting eight
    different keys in a fresh dictionary, every deletion of a key that is there,
    leaves a dictionary without any key in which the lookup of every key runs
    forever: deletion leaves tombstones and the table is not rebuilt as long as few
    keys are in use. *)
Theorem dict_lookup_terminates (k : nat) (tbl : list keypair) (key : string) :
  (k ≤ 30)%nat → tbl_wf tbl (2 ^ Z.of_nat k) →
  (if decide (lookup_ends tbl key)
   then ∃ i, dict_lookup_fuel (probe_fuel (2 ^ Z.of_nat k)) tbl (2 ^ Z.of_nat k) key
               (dict_hash key) = Ret i ∧ (i < length tbl)%nat
   else ∀ fuel, dict_lookup_fuel fuel tbl (2 ^ Z.of_nat k) key (dict_hash key) = Spin) ∧
  (∃ d tbl, churn mem_ok 7 dict8 churn_keys = Ret d ∧ d_table d = Some tbl ∧
    d_size d = 8 ∧ tbl_map tbl = ∅ ∧
    ∀ fuel key, dict_lookup_fuel fuel tbl (d_size d) key (dict_hash key) = Spin).
Proof.
  intros Hk Hwf. split; [|exact churn_hangs]. destruct (decide (lookup_ends tbl key)) as [Hends|Hno].
  - destruct (lookup_found k tbl key Hk Hwf Hends) as (i & kp & Hl & Hi & _).
    exists i. split; [done|by eapply lookup_lt_Some].
  - intros fuel. apply lookup_spins; [done|done|]. intros j kp Hj.
    split; intros He; apply Hno; exists j, kp; auto.
Qed.

Lemma dict_lookup_terminates_witness :
  (lookup_ends (replicate 8 kp_zero) "k") ∧
  if decide (lookup_ends (replicate 8 kp_zero) "k")
  then ∃ i, dict_lookup_fuel (probe_fuel (2 ^ Z.of_nat 3)) (replicate 8 kp_zero)
              (2 ^ Z.of_nat 3) "k" (dict_hash "k") = Ret i ∧
            (i < length (replicate 8 kp_zero))%nat
  else ∀ fuel, dict_lookup_fuel fuel (replicate 8 kp_zero) (2 ^ Z.of_nat 3) "k"
                 (dict_hash "k") = Spin.
Proof.
  split; [exists 0%nat, kp_zero; split; [reflexivity|by left]|].
  refine (proj1 (dict_lookup_terminates 3 (replicate 8 kp_zero) "k" _ _)); [lia|].
  by apply replicate_zero_wf.
Defined.

(** C4: [dict_dump] writes one [key=value] line for every key that is stored
    (UNDEF for a NULL value), each key once, and returns how many of the writes
    failed, provided that the memory just behind the table may be read: it always
    reads the slot behind the end of the table, and when that read faults, so does
    every dump. *)
Theorem dict_dump_lists (past : keypair) (fprintf : string → bool) (d : dict) (m : smap) :
  dict_ok d m →
  (∃ l : list (string * option string), NoDup l.*1 ∧ list_to_map l = m ∧
    dict_dump (Some past) fprintf (Some d) true =
      Ret (Z.of_nat (length (filter (λ e, fprintf (dump_line e.1 e.2) = false) l)),
           filter (λ s, fprintf s = true) ((λ e, dump_line e.1 e.2) <$> l))) ∧
  dict_dump None fprintf (Some d) true = Stuck OutOfBounds.
Proof.
  intros Hok. split; [|by destruct (dump_refines None fprintf d m Hok) as (tbl & _ & _ & _ & ->)].
  destruct (dump_refines (Some past) fprintf d m Hok) as (tbl & _ & Hm & Hnd & ->).
  exists (entries tbl). split_and!; [done|done|]. cbn [need obind]. do 3 f_equal.
  unfold dump_lines. clear Hm Hnd. induction (entries tbl) as [|e l IH]; [done|].
  cbn [fmap list_fmap]. rewrite !filter_cons. case_decide; cbn [length]; auto.
Qed.

Lemma dict_dump_lists_witness :
  (∃ l : list (string * option string), NoDup l.*1 ∧
    list_to_map l = ({["k" := Some "v"]} : smap) ∧
    dict_dump (Some kp_zero) (λ _, true) (Some dict_k) true =
      Ret (Z.of_nat (length (filter (λ e, (λ _, true) (dump_line e.1 e.2) = false) l)),
           filter (λ s, (λ _, true) s = true) ((λ e, dump_line e.1 e.2) <$> l))) ∧
  dict_dump None (λ _, true) (Some dict_k) true = Stuck OutOfBounds.
Proof. apply (dict_dump_lists kp_zero (λ _, true) dict_k). apply dict_k_ok. Defined.

