(* ===== verification/Murmur.v ===== *)
(** * The second hash function of the dictionary (lsd/dict.c)

    It is compiled but not chosen.  The characters of the key are unsigned bytes, a word is
    little-endian, and the arithmetic is that of a 32-bit [unsigned]. *)
From S2P Require Import Prelude CStd.
From Stdlib Require Import Ascii.

Local Open Scope Z_scope.

Definition M : Z := 0x5bd1e995.
Definition SEED : Z := 0x0badcafe.

Definition mul32 (a b : Z) : Z := wrap32 (a * b).
Definition le32 (a b c d : Z) : Z := a + Z.shiftl b 8 + Z.shiftl c 16 + Z.shiftl d 24.

(** One round of the [while] loop. *)
Definition murmur_mix (h k : Z) : Z :=
  let k := mul32 k M in
  let k := Z.lxor k (Z.shiftr k 24) in
  let k := mul32 k M in
  Z.lxor (mul32 h M) k.
(** The [switch], on the up to three bytes that are left. *)
Definition murmur_tail (h : Z) (data : list Z) : Z :=
  match data with
  | [a; b; c] => mul32 (Z.lxor (Z.lxor (Z.lxor h (Z.shiftl c 16)) (Z.shiftl b 8)) a) M
  | [a; b] => mul32 (Z.lxor (Z.lxor h (Z.shiftl b 8)) a) M
  | [a] => mul32 (Z.lxor h a) M
  | _ => h
  end.
Fixpoint murmur_loop (h : Z) (data : list Z) : Z :=
  match data with
  | a :: b :: c :: d :: data => murmur_loop (murmur_mix h (le32 a b c d)) data
  | _ => murmur_tail h data
  end.
Definition murmur_end (h : Z) : Z :=
  let h := Z.lxor h (Z.shiftr h 13) in
  let h := mul32 h M in
  Z.lxor h (Z.shiftr h 15).

(** Keys are shorter than 2^31. *)
Definition dict_hash_murmur (key : list ascii) : Z :=
  murmur_end (murmur_loop (Z.lxor SEED (Z.of_nat (length key))) ((λ c, Z.of_nat (nat_of_ascii c)) <$> key)).

(** ** The result is an [unsigned] *)
Definition u32 (x : Z) : Prop := 0 ≤ x < 2 ^ 32.

Lemma u32_lxor x y : u32 x → u32 y → u32 (Z.lxor x y).
Proof.
  intros [Hx Hx'] [Hy Hy']. split; [by apply Z.lxor_nonneg|].
  destruct (Z.eq_dec (Z.lxor x y) 0) as [->|Hnz]; [done|].
  pose proof (proj2 (Z.lxor_nonneg x y) ltac:(tauto)). apply Z.log2_lt_pow2; [lia|].
  eapply Z.le_lt_trans; [by apply Z.log2_lxor|].
  assert (∀ z, 0 ≤ z < 2 ^ 32 → Z.log2 z < 32) as Hlog.
  { intros z Hz. destruct (Z.eq_dec z 0) as [->|]; [done|]. apply Z.log2_lt_pow2; lia. }
  apply Z.max_lub_lt; by apply Hlog.
Qed.
Lemma u32_mul a b : u32 (mul32 a b).
Proof. unfold u32, mul32, wrap32. apply Z.mod_pos_bound. lia. Qed.
Lemma u32_shiftr x n : u32 x → 0 ≤ n → u32 (Z.shiftr x n).
Proof.
  intros [Hx Hx'] Hn. split; [by apply Z.shiftr_nonneg|]. rewrite Z.shiftr_div_pow2 by done.
  apply Z.le_lt_trans with x; [|done]. apply Z.div_le_upper_bound; [apply Z.pow_pos_nonneg; lia|].
  pose proof (Z.pow_pos_nonneg 2 n). nia.
Qed.
Create HintDb u32.
#[export] Hint Resolve u32_lxor u32_mul : u32.

Lemma murmur_mix_u32 h k : u32 (murmur_mix h k).
Proof. unfold murmur_mix. auto with u32. Qed.

Definition bytes (data : list Z) : Prop := Forall (λ x, 0 ≤ x < 256) data.

Lemma u32_byte x n : 0 ≤ x < 256 → 0 ≤ n ≤ 16 → u32 (Z.shiftl x n).
Proof.
  intros Hx Hn. unfold u32. rewrite Z.shiftl_mul_pow2 by lia.
  assert (0 < 2 ^ n ≤ 2 ^ 16) by (split; [apply Z.pow_pos_nonneg; lia|apply Z.pow_le_mono_r; lia]). nia.
Qed.

Lemma murmur_tail_u32 h data : u32 h → bytes data → u32 (murmur_tail h data).
Proof.
  intros Hh Hd. destruct data as [|a [|b [|c [|d data]]]]; cbn [murmur_tail]; auto with u32.
Qed.

(** The keys of the table are below 2^32, as the lookup assumes. *)
Theorem murmur_u32 key : Z.of_nat (length key) < 2 ^ 31 → 0 ≤ dict_hash_murmur key < 2 ^ 32.
Proof.
  intros Hl. unfold dict_hash_murmur, murmur_end. set (data := _ <$> key).
  assert (bytes data) as Hd.
  { apply Forall_fmap, Forall_forall. intros c _. cbn. pose proof (nat_ascii_bounded c). lia. }
  assert (u32 (Z.lxor SEED (Z.of_nat (length key)))) as H0 by (apply u32_lxor; [done|unfold u32; lia]).
  generalize dependent (Z.lxor SEED (Z.of_nat (length key))). clearbody data. clear key Hl.
  assert (∀ n data h, (length data < n)%nat → bytes data → u32 h → u32 (murmur_loop h data)) as Hloop.
  { clear. induction n as [|n IH]; intros data h Hn Hd Hh; [lia|].
    destruct data as [|a [|b [|c [|d data]]]]; cbn [murmur_loop]; try by apply murmur_tail_u32.
    apply IH; [cbn [length] in Hn; lia| |apply murmur_mix_u32].
    unfold bytes in Hd. by rewrite !Forall_cons in Hd; destruct Hd as (_ & _ & _ & _ & ?). }
  intros h Hh. change (u32 (Z.lxor (mul32 (Z.lxor (murmur_loop h data) (Z.shiftr (murmur_loop h data) 13)) M)
    (Z.shiftr (mul32 (Z.lxor (murmur_loop h data) (Z.shiftr (murmur_loop h data) 13)) M) 15))).
  apply u32_lxor; [apply u32_mul|]. apply u32_shiftr; [apply u32_mul|lia].
Qed.

Lemma murmur_u32_witness : 0 ≤ dict_hash_murmur ["j"; "a"; "i"; "l"; "f"; "s"; "."]%char < 2 ^ 32.
Proof. apply murmur_u32. by vm_compute. Defined.

Example murmur_words : dict_hash_murmur ["j"; "a"; "i"; "l"; "f"; "s"; "."]%char = 2684011953.
Proof. reflexivity. Qed.
Example murmur_empty : dict_hash_murmur [] = 3079285190.
Proof. reflexivity. Qed.
