(* ===== verification/Dlink.v ===== *)
(** * Doubly linked lists (lsd/dlink.c, lsd/dlink.h)

    Nodes live in a store from addresses to [dlink_node]s; address 0 is NULL.
    List heads are records passed and returned by value; a list pointer the
    code compares with NULL is an option.  The nodes themselves are allocated
    by the block allocator (Balloc.v). *)
From S2P Require Import Prelude.

Local Open Scope Z_scope.

Record dlink_node := DNode { dn_data : Z; dn_next : Z; dn_prev : Z }.
Record dlink_list := DList { dl_head : Z; dl_tail : Z; dl_length : Z }.

#[global] Instance dlink_node_eq_dec : EqDecision dlink_node.
Proof. solve_decision. Defined.
#[global] Instance dlink_list_eq_dec : EqDecision dlink_list.
Proof. solve_decision. Defined.

(** The dlink nodes in memory, by address. *)
Abbreviation nodes := (gmap Z dlink_node).

Definition dl_empty : dlink_list := DList 0 0 0.

(** ** Memory accesses *)
Definition load (h : nodes) (p : Z) : outcome dlink_node :=
  if p =? 0 then Stuck NullDeref else need BadPointer (h !! p).

Definition store_data (h : nodes) (p v : Z) : outcome nodes :=
  let! n := load h p in Ret (<[p := DNode v (dn_next n) (dn_prev n)]> h).
Definition store_next (h : nodes) (p v : Z) : outcome nodes :=
  let! n := load h p in Ret (<[p := DNode (dn_data n) v (dn_prev n)]> h).
Definition store_prev (h : nodes) (p v : Z) : outcome nodes :=
  let! n := load h p in Ret (<[p := DNode (dn_data n) (dn_next n) v]> h).

(** [list->length++] and [list->length--] on an [unsigned long]. *)
Definition longer (l : dlink_list) : dlink_list :=
  DList (dl_head l) (dl_tail l) (wrap64 (dl_length l + 1)).
Definition shorter (l : dlink_list) : dlink_list :=
  DList (dl_head l) (dl_tail l) (wrap64 (dl_length l - 1)).
Definition set_head (v : Z) (l : dlink_list) : dlink_list := DList v (dl_tail l) (dl_length l).
Definition set_tail (v : Z) (l : dlink_list) : dlink_list := DList (dl_head l) v (dl_length l).

(** ** Insertion *)

(** The old first node gets the predecessor [m]; an empty list gets a tail. *)
Definition link_head (h : nodes) (m : Z) (l : dlink_list) : outcome (nodes * dlink_list) :=
  if negb (dl_head l =? 0) then
    let! h := store_prev h (dl_head l) m in Ret (h, l)
  else Ret (h, if dl_tail l =? 0 then set_tail m l else l).

Definition dlink_add (h : nodes) (data m : Z) (l : dlink_list) : outcome (nodes * dlink_list) :=
  let! h := store_data h m data in
  let! h := store_next h m (dl_head l) in
  let! h := store_prev h m 0 in
  let! hl := link_head h m l in
  Ret (hl.1, longer (set_head m hl.2)).

Definition dlink_add_before (h : nodes) (b data m : Z) (l : dlink_list)
    : outcome (nodes * dlink_list) :=
  if b =? dl_head l then dlink_add h data m l
  else
    let! h := store_data h m data in
    let! nb := load h b in
    let! h := store_next h (dn_prev nb) m in
    let! nb := load h b in
    let! h := store_prev h m (dn_prev nb) in
    let! h := store_prev h b m in
    let! h := store_next h m b in
    Ret (h, longer l).

Definition dlink_add_tail (h : nodes) (data m : Z) (l : dlink_list)
    : outcome (nodes * dlink_list) :=
  let! h := store_data h m data in
  let! h := store_next h m 0 in
  let! h := store_prev h m (dl_tail l) in
  let! hl :=
    if dl_head l =? 0 then Ret (h, set_head m l)
    else if negb (dl_tail l =? 0) then
      let! h := store_next h (dl_tail l) m in Ret (h, l)
    else Ret (h, l) in
  Ret (hl.1, longer (set_tail m hl.2)).

(** ** Removal *)

(** The successor [next] of a node gets the predecessor [prev], or the list gets
    a new tail. *)
Definition fix_succ (h : nodes) (prev next : Z) (l : dlink_list) : outcome (nodes * dlink_list) :=
  if next =? 0 then Ret (h, set_tail prev l)
  else let! h := store_prev h next prev in Ret (h, l).

(** The predecessor [prev] of a node gets the successor [next], or the list
    gets a new head. *)
Definition fix_pred (h : nodes) (prev next : Z) (l : dlink_list) : outcome (nodes * dlink_list) :=
  if prev =? 0 then Ret (h, set_head next l)
  else let! h := store_next h prev next in Ret (h, l).

(** The predecessor is redirected first, and [m] is read again for the
    successor. *)
Definition dlink_delete (h : nodes) (m : Z) (l : dlink_list) : outcome (nodes * dlink_list) :=
  let! n := load h m in
  let! hl := fix_pred h (dn_prev n) (dn_next n) l in
  let! n := load hl.1 m in
  let! hl := fix_succ hl.1 (dn_prev n) (dn_next n) hl.2 in
  Ret (hl.1, shorter hl.2).

(** DLINK_FOREACH with an early return; [fuel] bounds the nodes visited. *)
Fixpoint find_from (fuel : nat) (h : nodes) (data ptr : Z) : outcome Z :=
  match fuel with
  | O => Spin
  | S fuel =>
      if ptr =? 0 then Ret 0
      else
        let! n := load h ptr in
        if dn_data n =? data then Ret ptr else find_from fuel h data (dn_next n)
  end.

Definition dlink_find (fuel : nat) (h : nodes) (data : Z) (l : dlink_list) : outcome Z :=
  find_from fuel h data (dl_head l).

(** Unlinking as [dlink_find_delete] and [dlink_move] do it: the successor
    first. *)
Definition unlink (h : nodes) (m : Z) (l : dlink_list) : outcome (nodes * dlink_list) :=
  let! n := load h m in
  let! hl := fix_succ h (dn_prev n) (dn_next n) l in
  let! n := load hl.1 m in
  fix_pred hl.1 (dn_prev n) (dn_next n) hl.2.

Definition dlink_find_delete (fuel : nat) (h : nodes) (data : Z) (l : dlink_list)
    : outcome (Z * nodes * dlink_list) :=
  let! ptr := find_from fuel h data (dl_head l) in
  if ptr =? 0 then Ret (0, h, l)
  else
    let! hl := unlink h ptr l in
    let! h := store_prev hl.1 ptr 0 in
    let! h := store_next h ptr 0 in
    Ret (ptr, h, shorter hl.2).

(** The [int] result of an [unsigned long] length. *)
Definition dlink_length (l : dlink_list) : Z := sint32 (dl_length l).

(** [oldlist] and [newlist] are different lists. *)
Definition dlink_move (h : nodes) (m : Z) (oldlist newlist : option dlink_list)
    : outcome (nodes * option dlink_list * option dlink_list) :=
  match oldlist, newlist with
  | Some old, Some new =>
      if m =? 0 then Ret (h, oldlist, newlist)
      else
        let! hl := unlink h m old in
        let '(h, old) := hl in
        let! h := store_prev h m 0 in
        let! h := store_next h m (dl_head new) in
        let! hn := link_head h m new in
        Ret (hn.1, Some (shorter old), Some (longer (set_head m hn.2)))
  | _, _ => Ret (h, oldlist, newlist)
  end.
