(* ===== verification/DlinkSpec.v ===== *)
(** * The linked lists implement sequences

    [dll h l xs]: the list head [l] and the nodes of [h] it leads to hold the
    sequence [xs] of (node address, data) pairs.  Every operation of
    lsd/dlink.c is the corresponding operation on sequences and touches no
    other node. *)
From S2P Require Import Prelude Dlink.

Local Open Scope Z_scope.

(** ** Segments *)

(** The nodes [xs] linked both ways, the first one's [prev] being [p] and the
    last one's [next] being [q]. *)
Fixpoint lseg (h : nodes) (p : Z) (xs : list (Z * Z)) (q : Z) : Prop :=
  match xs with
  | [] => True
  | (a, d) :: xs =>
      a ≠ 0 ∧ h !! a = Some (DNode d (hd q xs.*1) p) ∧ lseg h a xs q
  end.

(** The address of the last node, [p] if there is none. *)
Definition lastp (p : Z) (xs : list (Z * Z)) : Z := default p (last xs.*1).

Record dll (h : nodes) (l : dlink_list) (xs : list (Z * Z)) : Prop := {
  dll_seg : lseg h 0 xs 0;
  dll_nodup : NoDup xs.*1;
  dll_hd : dl_head l = hd 0 xs.*1;
  dll_tl : dl_tail l = lastp 0 xs;
  dll_len : dl_length l = Z.of_nat (length xs)
}.

(** Outside of the addresses [A] nothing changes. *)
Definition frame (A : list Z) (h h' : nodes) : Prop := ∀ a, a ∉ A → h' !! a = h !! a.

Lemma lastp_cons p a d xs : lastp p ((a, d) :: xs) = lastp a xs.
Proof. unfold lastp. rewrite fmap_cons, last_cons. by destruct (last xs.*1). Qed.

Lemma lastp_app p xs ys : lastp p (xs ++ ys) = lastp (lastp p xs) ys.
Proof.
  revert p. induction xs as [|[a d] xs IH]; intros p; [done|].
  cbn [app]. by rewrite !lastp_cons, IH.
Qed.

Lemma hd_app_fst q (xs ys : list (Z * Z)) : hd q (xs ++ ys).*1 = hd (hd q ys.*1) xs.*1.
Proof. by destruct xs as [|[a d] xs]. Qed.

Lemma lseg_app h p xs ys q :
  lseg h p (xs ++ ys) q ↔ lseg h p xs (hd q ys.*1) ∧ lseg h (lastp p xs) ys q.
Proof.
  revert p. induction xs as [|[a d] xs IH]; intros p; [cbn; tauto|].
  cbn [app lseg]. rewrite lastp_cons, IH, hd_app_fst. tauto.
Qed.

Lemma lseg_ext h h' p xs q :
  lseg h p xs q → (∀ a, a ∈ xs.*1 → h' !! a = h !! a) → lseg h' p xs q.
Proof.
  revert p. induction xs as [|[a d] xs IH]; intros p Hs Hf; [done|].
  destruct Hs as (Ha & Hn & Hs). cbn in Hf. split_and!; [done| |].
  - rewrite Hf by left. done.
  - apply IH; [done|]. intros b Hb. apply Hf. by right.
Qed.

Lemma lseg_frame h h' p xs q A :
  lseg h p xs q → frame A h h' → (∀ a, a ∈ xs.*1 → a ∉ A) → lseg h' p xs q.
Proof. intros Hs Hf Hd. eapply lseg_ext; [exact Hs|]. intros a Ha. apply Hf. auto. Qed.

Lemma dll_ext h h' l xs :
  dll h l xs → (∀ a, a ∈ xs.*1 → h' !! a = h !! a) → dll h' l xs.
Proof. intros [Hs ? ? ? ?] Hf. split; try done. by eapply lseg_ext. Qed.

Lemma frame_insert h a n : frame [a] h (<[a := n]> h).
Proof. intros b Hb. apply lookup_insert_ne. set_solver. Qed.

Lemma frame_trans A B h1 h2 h3 :
  frame A h1 h2 → frame B h2 h3 → frame (A ++ B) h1 h3.
Proof. intros H1 H2 a Ha. rewrite H2, H1; set_solver. Qed.

Lemma frame_mono A B h h' : frame A h h' → (∀ a, a ∈ A → a ∈ B) → frame B h h'.
Proof. intros H Hs a Ha. apply H. auto. Qed.

Lemma lastp_elem p xs : xs ≠ [] → lastp p xs ∈ xs.*1.
Proof.
  intros H. unfold lastp. destruct (last xs.*1) as [b|] eqn:E; cbn.
  - by apply last_Some_elem_of in E.
  - apply last_None in E. by destruct xs.
Qed.

Lemma lseg_nonzero h p xs q a : lseg h p xs q → a ∈ xs.*1 → a ≠ 0 ∧ is_Some (h !! a).
Proof.
  revert p. induction xs as [|[b d] xs IH]; intros p Hs Ha; [set_solver|].
  destruct Hs as (? & Hn & ?). cbn in Ha. apply elem_of_cons in Ha as [->|Ha]; eauto.
Qed.

Lemma lseg_size h p xs q : lseg h p xs q → NoDup xs.*1 → (length xs ≤ size h)%nat.
Proof.
  intros Hs Hnd. rewrite <- (length_fmap fst). apply keys_size; [done|].
  intros a Ha. by eapply lseg_nonzero.
Qed.

(** Redirecting the last [next] of a segment. *)
Lemma set_next_last h p xs q q' :
  lseg h p xs q → NoDup xs.*1 → xs ≠ [] →
  ∃ h', store_next h (lastp p xs) q' = Ret h' ∧ lseg h' p xs q' ∧ frame [lastp p xs] h h'.
Proof.
  intros Hs Hnd Hne. destruct xs as [|x xs] using rev_ind; [done|clear IHxs].
  destruct x as [a d]. rewrite lastp_app, lastp_cons. cbn.
  apply lseg_app in Hs as [Hs (Ha & Hn & _)]. cbn in Hn, Hs.
  unfold store_next, load. destruct (Z.eqb_spec a 0); [done|]. rewrite Hn. cbn.
  eexists. split; [done|]. split; [|apply frame_insert].
  rewrite fmap_app in Hnd. apply NoDup_app in Hnd as (_ & Hd & _).
  apply lseg_app. split.
  - eapply lseg_frame; [exact Hs|apply frame_insert|]. intros b Hb. specialize (Hd b Hb).
    set_solver.
  - cbn. rewrite lookup_insert_eq. done.
Qed.

(** Redirecting the first [prev] of a segment. *)
Lemma set_prev_first h p p' a d xs q :
  lseg h p ((a, d) :: xs) q → NoDup ((a, d) :: xs).*1 →
  ∃ h', store_prev h a p' = Ret h' ∧ lseg h' p' ((a, d) :: xs) q ∧ frame [a] h h'.
Proof.
  intros (Ha & Hn & Hs) Hnd. unfold store_prev, load. destruct (Z.eqb_spec a 0); [done|].
  rewrite Hn. cbn. eexists. split; [done|]. split; [|apply frame_insert].
  cbn in Hnd. apply NoDup_cons in Hnd as [Hna _]. rewrite lookup_insert_eq. split_and!; [done..|].
  eapply lseg_frame; [exact Hs|apply frame_insert|]. set_solver.
Qed.

(** Writing a field of a node that is known. *)
Lemma load_some h a n : a ≠ 0 → h !! a = Some n → load h a = Ret n.
Proof. intros Ha Hn. unfold load. destruct (Z.eqb_spec a 0); [done|]. by rewrite Hn. Qed.

Lemma store_data_some h a n v :
  a ≠ 0 → h !! a = Some n → store_data h a v = Ret (<[a := DNode v (dn_next n) (dn_prev n)]> h).
Proof. intros. unfold store_data. by erewrite load_some. Qed.
Lemma store_next_some h a n v :
  a ≠ 0 → h !! a = Some n → store_next h a v = Ret (<[a := DNode (dn_data n) v (dn_prev n)]> h).
Proof. intros. unfold store_next. by erewrite load_some. Qed.
Lemma store_prev_some h a n v :
  a ≠ 0 → h !! a = Some n → store_prev h a v = Ret (<[a := DNode (dn_data n) (dn_next n) v]> h).
Proof. intros. unfold store_prev. by erewrite load_some. Qed.

(** Filling in all fields of a node. *)
Lemma fill_node {B} h m d nx pv (k : nodes → outcome B) :
  m ≠ 0 → is_Some (h !! m) →
  obind (store_data h m d) (λ h, obind (store_next h m nx) (λ h, obind (store_prev h m pv) k)) =
  k (<[m := DNode d nx pv]> h).
Proof.
  intros Hm [n Hn]. rewrite (store_data_some _ _ _ _ Hm Hn). cbn [obind].
  erewrite store_next_some; [|done|apply lookup_insert_eq]. cbn [obind].
  erewrite store_prev_some; [|done|apply lookup_insert_eq]. cbn [obind dn_data dn_next dn_prev].
  by rewrite !insert_insert_eq.
Qed.

(** ** Unlinking *)
Lemma fix_succ_ok h p p' post l :
  lseg h p post 0 → NoDup post.*1 → dl_tail l = lastp p post →
  ∃ h' l', fix_succ h p' (hd 0 post.*1) l = Ret (h', l') ∧ lseg h' p' post 0 ∧
    frame post.*1 h h' ∧ dl_head l' = dl_head l ∧ dl_tail l' = lastp p' post ∧
    dl_length l' = dl_length l.
Proof.
  intros Hs Hnd Ht. unfold fix_succ. destruct post as [|[b e] post].
  { exists h, (set_tail p' l). cbn. done. }
  destruct (set_prev_first _ p p' _ _ _ _ Hs Hnd) as (h' & Hst & Hs' & Hf).
  destruct Hs as (Hb & _). cbn [fmap list_fmap fst hd]. destruct (Z.eqb_spec b 0); [done|].
  rewrite Hst. cbn [obind]. exists h', l. split_and!; try done.
  - eapply frame_mono; [done|]. set_solver.
  - by rewrite Ht, !lastp_cons.
Qed.

Lemma fix_pred_ok h pre q q' l :
  lseg h 0 pre q → NoDup pre.*1 → dl_head l = hd q pre.*1 →
  ∃ h' l', fix_pred h (lastp 0 pre) q' l = Ret (h', l') ∧ lseg h' 0 pre q' ∧
    frame pre.*1 h h' ∧ dl_head l' = hd q' pre.*1 ∧ dl_tail l' = dl_tail l ∧
    dl_length l' = dl_length l.
Proof.
  intros Hs Hnd Hh. unfold fix_pred. destruct (decide (pre = [])) as [->|Hne].
  { exists h, (set_head q' l). done. }
  destruct (set_next_last _ _ _ _ q' Hs Hnd Hne) as (h' & Hst & Hs' & Hf).
  pose proof (lastp_elem 0 pre Hne) as Hin.
  destruct (lseg_nonzero _ _ _ _ _ Hs Hin) as [Hnz _].
  destruct (Z.eqb_spec (lastp 0 pre) 0); [done|]. rewrite Hst. cbn [obind].
  exists h', l. split_and!; try done.
  - eapply frame_mono; [done|]. set_solver.
  - by destruct pre.
Qed.

(** The position of a node in a list, with its neighbours. *)
Lemma dll_split h l pre m d post :
  dll h l (pre ++ (m, d) :: post) →
  lseg h 0 pre m ∧ m ≠ 0 ∧ h !! m = Some (DNode d (hd 0 post.*1) (lastp 0 pre)) ∧
  lseg h m post 0 ∧ NoDup (pre ++ post).*1 ∧ m ∉ pre.*1 ∧ m ∉ post.*1 ∧
  NoDup pre.*1 ∧ NoDup post.*1 ∧ (∀ a, a ∈ pre.*1 → a ∉ post.*1) ∧
  dl_head l = hd m pre.*1 ∧ dl_tail l = lastp m post.
Proof.
  intros [Hs Hnd Hh Ht _]. apply lseg_app in Hs as (Hpre & Hm & Hn & Hpost).
  rewrite fmap_app in Hnd. cbn in Hnd. apply NoDup_app in Hnd as (Hp & Hd & Hq).
  apply NoDup_cons in Hq as [Hmq Hq].
  assert (m ∉ pre.*1) as Hmp by (intros H; apply Hd in H; set_solver).
  assert (∀ a, a ∈ pre.*1 → a ∉ post.*1) as Hdisj by (intros a Ha%Hd; set_solver).
  split_and!; try done.
  - rewrite fmap_app. by apply NoDup_app.
  - by rewrite Hh, hd_app_fst.
  - by rewrite Ht, lastp_app, lastp_cons.
Qed.

Lemma unlink_ok h l pre m d post :
  dll h l (pre ++ (m, d) :: post) →
  ∃ h' l', unlink h m l = Ret (h', l') ∧ lseg h' 0 (pre ++ post) 0 ∧
    frame (pre ++ post).*1 h h' ∧ dl_head l' = hd 0 (pre ++ post).*1 ∧
    dl_tail l' = lastp 0 (pre ++ post) ∧ dl_length l' = dl_length l.
Proof.
  intros Hl. destruct (dll_split _ _ _ _ _ _ Hl)
    as (Hpre & Hm & Hn & Hpost & Hnd & Hmp & Hmq & Hndp & Hndq & Hdisj & Hh & Ht).
  destruct (fix_succ_ok h m (lastp 0 pre) post l Hpost Hndq Ht)
    as (h1 & l1 & E1 & Hpost1 & Hf1 & Hh1 & Ht1 & Hlen1).
  assert (h1 !! m = h !! m) as Hm1 by (by apply Hf1).
  destruct (fix_pred_ok h1 pre m (hd 0 post.*1) l1) as (h2 & l2 & E2 & Hpre2 & Hf2 & Hh2 & Ht2 & Hlen2).
  - eapply lseg_frame; [exact Hpre|exact Hf1|done].
  - done.
  - by rewrite Hh1.
  - exists h2, l2. unfold unlink. rewrite (load_some _ _ _ Hm Hn). cbn [obind dn_prev dn_next].
    rewrite E1. cbn [obind fst snd]. rewrite (load_some _ _ _ Hm (eq_trans Hm1 Hn)).
    cbn [obind dn_prev dn_next]. split_and!.
    + done.
    + apply lseg_app. split; [done|]. eapply lseg_frame; [exact Hpost1|exact Hf2|].
      intros a Ha Hb. by apply (Hdisj a).
    + eapply frame_mono; [eapply frame_trans; [exact Hf1|exact Hf2]|].
      intros a. rewrite fmap_app. set_solver.
    + by rewrite Hh2, hd_app_fst.
    + by rewrite Ht2, Ht1, lastp_app.
    + congruence.
Qed.

Lemma delete_ok h l pre m d post :
  dll h l (pre ++ (m, d) :: post) → dl_length l < 2 ^ 64 →
  ∃ h' l', dlink_delete h m l = Ret (h', l') ∧ dll h' l' (pre ++ post) ∧
    h' !! m = h !! m ∧ frame (pre ++ post).*1 h h'.
Proof.
  intros Hl Hsmall. destruct (dll_split _ _ _ _ _ _ Hl)
    as (Hpre & Hm & Hn & Hpost & Hnd & Hmp & Hmq & Hndp & Hndq & Hdisj & Hh & Ht).
  destruct (fix_pred_ok h pre m (hd 0 post.*1) l Hpre Hndp Hh)
    as (h1 & l1 & E1 & Hpre1 & Hf1 & Hh1 & Ht1 & Hlen1).
  assert (h1 !! m = h !! m) as Hm1 by (by apply Hf1).
  destruct (fix_succ_ok h1 m (lastp 0 pre) post l1) as (h2 & l2 & E2 & Hpost2 & Hf2 & Hh2 & Ht2 & Hlen2).
  - eapply lseg_frame; [exact Hpost|exact Hf1|]. intros a Ha Hb. by apply (Hdisj a).
  - done.
  - by rewrite Ht1.
  - exists h2, (shorter l2). unfold dlink_delete. rewrite (load_some _ _ _ Hm Hn).
    cbn [obind dn_prev dn_next]. rewrite E1. cbn [obind fst snd].
    rewrite (load_some _ _ _ Hm (eq_trans Hm1 Hn)). cbn [obind dn_prev dn_next].
    rewrite E2. cbn [obind fst snd]. split_and!; [done| | |].
    + split; cbn [shorter dl_head dl_tail dl_length]; [|done| | |].
      * apply lseg_app. split; [|done]. eapply lseg_frame; [exact Hpre1|exact Hf2|done].
      * by rewrite Hh2, Hh1, hd_app_fst.
      * by rewrite Ht2, lastp_app.
      * rewrite Hlen2, Hlen1, (dll_len _ _ _ Hl) in *. rewrite !length_app in *. cbn [length] in *.
        rewrite wrap64_small; lia.
    + rewrite Hf2; [done|]. set_solver.
    + eapply frame_mono; [eapply frame_trans; [exact Hf1|exact Hf2]|].
      intros a. rewrite fmap_app. set_solver.
Qed.

(** ** Insertion at the head *)
Lemma link_head_ok h m d l xs :
  lseg h 0 xs 0 → NoDup xs.*1 → dl_head l = hd 0 xs.*1 → dl_tail l = lastp 0 xs → m ≠ 0 →
  h !! m = Some (DNode d (dl_head l) 0) → m ∉ xs.*1 →
  ∃ h' l', link_head h m l = Ret (h', l') ∧ lseg h' 0 ((m, d) :: xs) 0 ∧ frame xs.*1 h h' ∧
    dl_tail l' = lastp 0 ((m, d) :: xs) ∧ dl_length l' = dl_length l.
Proof.
  intros Hs Hnd Hh Ht Hm Hn Hmx. unfold link_head. rewrite lastp_cons. destruct xs as [|[b e] xs].
  { cbn in *. rewrite Hh, Ht. cbn. exists h, (set_tail m l).
    split_and!; try done. by rewrite Hn, Hh. }
  destruct (set_prev_first _ 0 m _ _ _ _ Hs Hnd) as (h' & Hst & Hs' & Hf).
  destruct Hs as (Hb & _). cbn in Hh. rewrite Hh. destruct (Z.eqb_spec b 0); [done|]. cbn [negb].
  rewrite Hst. cbn [obind]. exists h', l. split_and!; try done.
  - cbn [lseg]. split_and!; [done| |apply Hs'..]. rewrite Hf, Hn, Hh; [done|]. set_solver.
  - eapply frame_mono; [done|]. set_solver.
  - by rewrite Ht, !lastp_cons.
Qed.

Lemma add_ok h l xs d m :
  dll h l xs → m ≠ 0 → is_Some (h !! m) → m ∉ xs.*1 → dl_length l + 1 < 2 ^ 64 →
  ∃ h' l', dlink_add h d m l = Ret (h', l') ∧ dll h' l' ((m, d) :: xs) ∧
    frame (m :: xs.*1) h h'.
Proof.
  intros [Hs Hnd Hh Ht Hlen] Hm Hn Hmx Hsmall. unfold dlink_add.
  rewrite (fill_node h m d (dl_head l) 0 (λ h, let! hl := link_head h m l in
    Ret (hl.1, longer (set_head m hl.2)))) by done.
  destruct (link_head_ok (<[m:=DNode d (dl_head l) 0]> h) m d l xs)
    as (h' & l' & -> & Hs' & Hf & Ht' & Hlen'); try done.
  { eapply lseg_frame; [exact Hs|apply frame_insert|]. set_solver. }
  { apply lookup_insert_eq. }
  cbn [obind fst snd]. exists h', (longer (set_head m l')). split_and!; [done| |].
  - split; cbn [longer set_head dl_head dl_tail dl_length]; [done| |done|done|].
    + cbn. by apply NoDup_cons.
    + rewrite Hlen', wrap64_small by lia. cbn [length]. lia.
  - eapply frame_mono; [eapply frame_trans; [apply frame_insert|exact Hf]|]. set_solver.
Qed.

(** ** Insertion at the tail and in the middle *)
Lemma add_tail_ok h l xs d m :
  dll h l xs → m ≠ 0 → is_Some (h !! m) → m ∉ xs.*1 → dl_length l + 1 < 2 ^ 64 →
  ∃ h' l', dlink_add_tail h d m l = Ret (h', l') ∧ dll h' l' (xs ++ [(m, d)]) ∧
    frame (m :: xs.*1) h h'.
Proof.
  intros [Hs Hnd Hh Ht Hlen] Hm Hn Hmx Hsmall. unfold dlink_add_tail.
  rewrite (fill_node h m d 0 (dl_tail l)) by done.
  set (h1 := <[m:=DNode d 0 (dl_tail l)]> h).
  assert (h1 !! m = Some (DNode d 0 (lastp 0 xs))) as Hm1
    by (unfold h1; rewrite lookup_insert_eq; by rewrite Ht).
  assert (lseg h1 0 xs 0) as Hs1.
  { eapply lseg_frame; [exact Hs|apply frame_insert|]. set_solver. }
  assert (∃ h' l1, (if dl_head l =? 0 then Ret (h1, set_head m l)
      else if negb (dl_tail l =? 0) then let! h := store_next h1 (dl_tail l) m in Ret (h, l)
      else Ret (h1, l)) = Ret (h', l1) ∧ lseg h' 0 xs m ∧ frame xs.*1 h1 h' ∧
      dl_head l1 = hd m xs.*1 ∧ dl_length l1 = dl_length l) as (h' & l1 & -> & Hs' & Hf & Hh' & Hlen').
  { destruct (decide (xs = [])) as [->|Hne].
    { rewrite Hh. exists h1, (set_head m l). done. }
    destruct (lseg_nonzero _ _ _ _ _ Hs (lastp_elem 0 xs Hne)) as [Hnz _].
    destruct (set_next_last _ _ _ _ m Hs1 Hnd Hne) as (h' & Hst & Hs' & Hf).
    assert (dl_head l ≠ 0).
    { rewrite Hh. destruct xs as [|[a e] xs]; [done|]. by destruct Hs. }
    destruct (Z.eqb_spec (dl_head l) 0); [done|]. rewrite Ht.
    destruct (Z.eqb_spec (lastp 0 xs) 0); [done|]. cbn [negb]. rewrite Hst. cbn [obind].
    exists h', l. split_and!; try done.
    - eapply frame_mono; [done|]. intros a ->%list_elem_of_singleton. by apply lastp_elem.
    - rewrite Hh. by destruct xs. }
  cbn [obind fst snd]. exists h', (longer (set_tail m l1)). split_and!; [done| |].
  - split; cbn [longer set_tail dl_head dl_tail dl_length].
    + apply lseg_app. split; [done|]. cbn. split_and!; [done| |done]. rewrite Hf; done.
    + rewrite fmap_app. apply NoDup_app. split_and!; [done| |apply NoDup_singleton]. set_solver.
    + by rewrite Hh', hd_app_fst.
    + by rewrite lastp_app, lastp_cons.
    + rewrite Hlen', length_app, wrap64_small by lia. cbn [length]. lia.
  - eapply frame_mono; [eapply frame_trans; [apply frame_insert|exact Hf]|]. set_solver.
Qed.

(** The sequence after [m] was linked in front of [b]. *)
Lemma dll_middle h l l' pre b e post m d :
  dll h l (pre ++ (b, e) :: post) → pre ≠ [] → m ∉ (pre ++ (b, e) :: post).*1 → m ≠ 0 →
  dl_length l + 1 < 2 ^ 64 → l' = longer l →
  ∀ h', lseg h' 0 pre m → h' !! m = Some (DNode d b (lastp 0 pre)) →
    h' !! b = Some (DNode e (hd 0 post.*1) m) → lseg h' b post 0 →
    dll h' l' (pre ++ (m, d) :: (b, e) :: post).
Proof.
  intros Hl Hne Hmx Hm Hsmall -> h' Hpre Hhm Hhb Hpost.
  destruct Hl as [Hs Hnd Hh Ht Hlen]. apply lseg_app in Hs as (_ & Hb & _ & _).
  split; cbn [longer dl_head dl_tail dl_length].
  - apply lseg_app. done.
  - rewrite fmap_app in Hnd, Hmx |- *. cbn in Hmx |- *.
    apply NoDup_app in Hnd as (? & Hd & ?). apply NoDup_app.
    rewrite not_elem_of_app in Hmx. destruct Hmx as [Hmp Hmq]. split_and!; [done| |].
    + intros a Ha. rewrite elem_of_cons. intros [->|Hin]; [done|]. by apply (Hd a).
    + by apply NoDup_cons.
  - rewrite hd_app_fst, Hh, hd_app_fst. by destruct pre.
  - by rewrite Ht, !lastp_app, !lastp_cons.
  - rewrite Hlen in *. rewrite !length_app in *. cbn [length] in *. rewrite wrap64_small; lia.
Qed.

Lemma add_before_ok h l pre b e post d m :
  dll h l (pre ++ (b, e) :: post) → m ≠ 0 → is_Some (h !! m) →
  m ∉ (pre ++ (b, e) :: post).*1 → dl_length l + 1 < 2 ^ 64 →
  ∃ h' l', dlink_add_before h b d m l = Ret (h', l') ∧
    dll h' l' (pre ++ (m, d) :: (b, e) :: post) ∧ frame (m :: (pre ++ (b, e) :: post).*1) h h'.
Proof.
  intros Hl Hm [nm Hn] Hmx Hsmall. destruct (dll_split _ _ _ _ _ _ Hl)
    as (Hpre & Hb & Hnb & Hpost & Hnd & Hbp & Hbq & Hndp & Hndq & Hdisj & Hh & Ht).
  destruct (decide (pre = [])) as [->|Hne].
  { unfold dlink_add_before. rewrite Hh. cbn [fmap list_fmap hd]. rewrite Z.eqb_refl.
    cbn [app]. by apply add_ok. }
  pose proof (dll_middle h l (longer l) pre b e post m d Hl Hne Hmx Hm Hsmall eq_refl) as Hdone.
  rewrite fmap_app, not_elem_of_app in Hmx. cbn in Hmx. rewrite not_elem_of_cons in Hmx.
  destruct Hmx as (Hmp & Hmb & Hmq).
  assert (hd b pre.*1 ∈ pre.*1) as Hin by (destruct pre as [|[a ?] ?]; [done|cbn; left]).
  pose proof (lastp_elem 0 pre Hne) as Hlast.
  assert (lastp 0 pre ≠ b ∧ lastp 0 pre ≠ m) as [Hlb Hlm] by (split; intros E; by rewrite E in Hlast).
  unfold dlink_add_before. rewrite Hh. destruct (Z.eqb_spec b (hd b pre.*1)) as [E|_];
    [by rewrite <- E in Hin|].
  rewrite (store_data_some _ _ _ _ Hm Hn). cbn [obind]. set (h1 := <[m:=_]> h).
  assert (h1 !! b = h !! b) as Hb1 by (unfold h1; by rewrite lookup_insert_ne).
  rewrite (load_some h1 b _ Hb (eq_trans Hb1 Hnb)). cbn [obind dn_prev].
  assert (frame [m] h h1) as Hf1 by apply frame_insert.
  destruct (set_next_last h1 0 pre b m) as (h2 & -> & Hpre2 & Hf2); [|done|done|].
  { eapply lseg_frame; [exact Hpre|exact Hf1|]. intros a Ha ->%list_elem_of_singleton. done. }
  cbn [obind]. assert (h2 !! b = h1 !! b) as Hb2
    by (apply Hf2; by rewrite list_elem_of_singleton).
  assert (h2 !! m = h1 !! m) as Hm2 by (apply Hf2; by rewrite list_elem_of_singleton).
  unfold h1 in Hm2. rewrite lookup_insert_eq in Hm2.
  rewrite (load_some h2 b _ Hb (eq_trans Hb2 (eq_trans Hb1 Hnb))). cbn [obind dn_prev].
  rewrite (store_prev_some _ _ _ _ Hm Hm2). cbn [obind dn_data dn_next].
  erewrite store_prev_some; [|done|by rewrite lookup_insert_ne, Hb2, Hb1 by done].
  cbn [obind dn_data dn_next].
  erewrite store_next_some; [|done|by rewrite lookup_insert_ne, lookup_insert_eq by done].
  cbn [obind dn_data dn_prev]. set (h3 := <[m:=_]> _).
  assert (frame [m; b] h2 h3) as Hf3.
  { unfold h3. intros a [? [? _]%not_elem_of_cons]%not_elem_of_cons. by rewrite !lookup_insert_ne. }
  assert (frame ([m] ++ [lastp 0 pre] ++ [m; b]) h h3) as Hf
    by (eapply frame_trans; [exact Hf1|eapply frame_trans; [exact Hf2|exact Hf3]]).
  exists h3, (longer l). split_and!; [done| |].
  - apply Hdone.
    + eapply lseg_frame; [exact Hpre2|exact Hf3|].
      intros a Ha [-> | ->%list_elem_of_singleton]%elem_of_cons; done.
    + unfold h3. by rewrite lookup_insert_eq.
    + unfold h3. by rewrite lookup_insert_ne, lookup_insert_eq by done.
    + eapply lseg_frame; [exact Hpost|exact Hf|]. cbn. intros a Ha.
      rewrite !not_elem_of_cons. split_and!; try (by intros ->); [|apply not_elem_of_nil].
      intros ->. by apply (Hdisj (lastp 0 pre)).
  - eapply frame_mono; [exact Hf|]. intros a. rewrite fmap_app. cbn.
    rewrite !elem_of_cons, elem_of_nil, elem_of_app, elem_of_cons.
    intros [-> | [-> | [-> | [-> | ?]]]]; auto; done.
Qed.

(** ** Searching *)
Lemma find_from_ok h p xs data fuel :
  lseg h p xs 0 → (length xs < fuel)%nat →
  find_from fuel h data (hd 0 xs.*1) =
    Ret (default 0 (fst <$> head (filter (λ x, x.2 = data) xs))).
Proof.
  revert p fuel. induction xs as [|[a d] xs IH]; intros p [|fuel] Hs Hf; cbn in Hf; try lia.
  { done. }
  destruct Hs as (Ha & Hn & Hs). cbn [find_from fmap list_fmap fst hd].
  destruct (Z.eqb_spec a 0); [done|]. rewrite (load_some _ _ _ Ha Hn).
  cbn [obind dn_data dn_next]. rewrite filter_cons. cbn [snd].
  destruct (Z.eqb_spec d data) as [->|Hne].
  - by rewrite decide_True.
  - rewrite decide_False by done. apply (IH a); [done|lia].
Qed.

Lemma filter_none d (xs : list (Z * Z)) :
  Forall (λ x, x.2 ≠ d) xs → filter (λ x, x.2 = d) xs = [].
Proof. induction 1; [done|]. by rewrite filter_cons, decide_False. Qed.

Lemma find_from_first h pre m d post fuel :
  lseg h 0 (pre ++ (m, d) :: post) 0 → Forall (λ x, x.2 ≠ d) pre →
  (length (pre ++ (m, d) :: post) < fuel)%nat →
  find_from fuel h d (hd 0 (pre ++ (m, d) :: post).*1) = Ret m.
Proof.
  intros Hs Hpre Hf. rewrite (find_from_ok h 0 _ _ _ Hs Hf).
  by rewrite filter_app, filter_none, filter_cons, decide_True.
Qed.

Lemma find_from_none h xs d fuel :
  lseg h 0 xs 0 → Forall (λ x, x.2 ≠ d) xs → (length xs < fuel)%nat →
  find_from fuel h d (hd 0 xs.*1) = Ret 0.
Proof. intros Hs Hx Hf. by rewrite (find_from_ok h 0 _ _ _ Hs Hf), filter_none. Qed.

Lemma find_delete_ok h l pre m d post fuel :
  dll h l (pre ++ (m, d) :: post) → Forall (λ x, x.2 ≠ d) pre →
  (length (pre ++ (m, d) :: post) < fuel)%nat → dl_length l < 2 ^ 64 →
  ∃ h' l', dlink_find_delete fuel h d l = Ret (m, h', l') ∧ dll h' l' (pre ++ post) ∧
    h' !! m = Some (DNode d 0 0) ∧ frame (pre ++ (m, d) :: post).*1 h h'.
Proof.
  intros Hl Hpre Hf Hsmall.
  destruct (dll_split _ _ _ _ _ _ Hl)
    as (_ & Hm & Hn & _ & Hnd & Hmp & Hmq & _ & _ & _ & _ & _).
  destruct (unlink_ok _ _ _ _ _ _ Hl) as (h1 & l1 & E1 & Hs1 & Hf1 & Hh1 & Ht1 & Hlen1).
  assert (m ∉ (pre ++ post).*1) as Hmx by (rewrite fmap_app, not_elem_of_app; done).
  assert (h1 !! m = Some _) as Hn1 by (rewrite Hf1 by done; exact Hn).
  unfold dlink_find_delete. rewrite (dll_hd _ _ _ Hl), find_from_first by (done || apply Hl).
  cbn [obind]. destruct (Z.eqb_spec m 0); [done|].
  rewrite E1. cbn [obind fst snd]. rewrite (store_prev_some _ _ _ _ Hm Hn1). cbn [obind].
  erewrite store_next_some; [|done|apply lookup_insert_eq].
  cbn [obind dn_data dn_next dn_prev]. rewrite insert_insert_eq.
  assert (frame [m] h1 (<[m:=DNode d 0 0]> h1)) as Hf2 by apply frame_insert.
  eexists _, (shorter l1). split_and!; [done| |apply lookup_insert_eq|].
  - split; cbn [shorter dl_head dl_tail dl_length]; [|done|done|done|].
    + eapply lseg_frame; [exact Hs1|exact Hf2|]. by intros a Ha ->%list_elem_of_singleton.
    + rewrite Hlen1, (dll_len _ _ _ Hl) in *. rewrite !length_app in *. cbn [length] in *.
      rewrite wrap64_small; lia.
  - eapply frame_mono; [eapply frame_trans; [exact Hf1|exact Hf2]|].
    intros a. rewrite !fmap_app, !elem_of_app. cbn. rewrite !elem_of_cons, elem_of_nil.
    intros [[?|?]|[->|[]]]; auto.
Qed.

(** ** Moving a node to the head of another list *)
Lemma move_ok h old new pre m d post ys :
  dll h old (pre ++ (m, d) :: post) → dll h new ys →
  (∀ a, a ∈ (pre ++ (m, d) :: post).*1 → a ∉ ys.*1) →
  dl_length old < 2 ^ 64 → dl_length new + 1 < 2 ^ 64 →
  ∃ h' old' new', dlink_move h m (Some old) (Some new) = Ret (h', Some old', Some new') ∧
    dll h' old' (pre ++ post) ∧ dll h' new' ((m, d) :: ys) ∧
    frame ((pre ++ (m, d) :: post).*1 ++ ys.*1) h h'.
Proof.
  intros Hl Hy Hdis Hs1 Hs2. destruct (dll_split _ _ _ _ _ _ Hl)
    as (_ & Hm & Hn & _ & Hnd & Hmp & Hmq & _ & _ & _ & _ & _).
  destruct (unlink_ok _ _ _ _ _ _ Hl) as (h1 & l1 & E1 & Hsx1 & Hf1 & Hh1 & Ht1 & Hlen1).
  rewrite fmap_app in Hdis. cbn in Hdis.
  assert (m ∉ (pre ++ post).*1) as Hmx by (rewrite fmap_app, not_elem_of_app; done).
  assert (m ∉ ys.*1) as Hmy by (apply Hdis; rewrite elem_of_app, elem_of_cons; auto).
  assert (∀ a, a ∈ (pre ++ post).*1 → a ∉ ys.*1) as Hdis'.
  { intros a. rewrite fmap_app, elem_of_app. intros H. apply Hdis.
    rewrite elem_of_app, elem_of_cons. tauto. }
  assert (h1 !! m = Some _) as Hn1 by (rewrite Hf1 by done; exact Hn).
  unfold dlink_move. destruct (Z.eqb_spec m 0); [done|]. rewrite E1. cbn [obind].
  rewrite (store_prev_some _ _ _ _ Hm Hn1). cbn [obind].
  erewrite store_next_some; [|done|apply lookup_insert_eq].
  cbn [obind dn_data dn_next dn_prev]. rewrite insert_insert_eq. set (h2 := <[m:=_]> h1).
  assert (frame [m] h1 h2) as Hf2 by apply frame_insert.
  assert (frame ((pre ++ post).*1 ++ [m]) h h2) as Hf12 by (eapply frame_trans; eauto).
  destruct (link_head_ok h2 m d new ys) as (h3 & l3 & -> & Hs3 & Hf3 & Ht3 & Hlen3);
    [|apply Hy..|done|apply lookup_insert_eq|done|].
  { eapply lseg_frame; [apply Hy|exact Hf12|].
    intros a Ha [Hin| ->%list_elem_of_singleton]%elem_of_app; [|done]. by apply (Hdis' a). }
  cbn [obind fst snd]. eexists _, _, _. split_and!; [done| | |].
  - split; cbn [shorter dl_head dl_tail dl_length]; [|done|done|done|].
    + eapply lseg_frame; [exact Hsx1|eapply frame_trans; [exact Hf2|exact Hf3]|].
      intros a Ha [->%list_elem_of_singleton|Hin]%elem_of_app; [done|]. by apply (Hdis' a).
    + rewrite Hlen1, (dll_len _ _ _ Hl) in *. rewrite !length_app in *. cbn [length] in *.
      rewrite wrap64_small; lia.
  - split; cbn [longer set_head dl_head dl_tail dl_length]; [done| |done|done|].
    + cbn. apply NoDup_cons. split; [done|apply Hy].
    + rewrite Hlen3, (dll_len _ _ _ Hy) in *. cbn [length]. rewrite wrap64_small; lia.
  - eapply frame_mono; [eapply frame_trans; [exact Hf12|exact Hf3]|].
    intros a. rewrite !fmap_app, !elem_of_app. cbn. rewrite !elem_of_cons, elem_of_nil. tauto.
Qed.

(** ** Sequences of operations on one list *)
Inductive dlop : Type :=
  | OpAdd (d m : Z)
  | OpAddTail (d m : Z)
  | OpAddBefore (b d m : Z)
  | OpDelete (m : Z)
  | OpFind (d : Z)
  | OpFindDelete (d : Z)
  | OpLength.

(** One operation of lsd/dlink.c; its result is 0 where the code has none. *)
Definition run_op (fuel : nat) (s : nodes * dlink_list) (op : dlop)
    : outcome (Z * (nodes * dlink_list)) :=
  let '(h, l) := s in
  match op with
  | OpAdd d m => let! s := dlink_add h d m l in Ret (0, s)
  | OpAddTail d m => let! s := dlink_add_tail h d m l in Ret (0, s)
  | OpAddBefore b d m => let! s := dlink_add_before h b d m l in Ret (0, s)
  | OpDelete m => let! s := dlink_delete h m l in Ret (0, s)
  | OpFind d => let! r := dlink_find fuel h d l in Ret (r, s)
  | OpFindDelete d =>
      let! r := dlink_find_delete fuel h d l in Ret (r.1.1, (r.1.2, r.2))
  | OpLength => Ret (dlink_length l, s)
  end.

Fixpoint run_ops (fuel : nat) (s : nodes * dlink_list) (ops : list dlop)
    : outcome (list Z * (nodes * dlink_list)) :=
  match ops with
  | [] => Ret ([], s)
  | op :: ops =>
      let! r := run_op fuel s op in
      let! rs := run_ops fuel r.2 ops in
      Ret (r.1 :: rs.1, rs.2)
  end.

(** The sequence around the first element that satisfies [P]. *)
Fixpoint split_first (P : Z * Z → bool) (xs : list (Z * Z))
    : option (list (Z * Z) * (Z * Z) * list (Z * Z)) :=
  match xs with
  | [] => None
  | x :: xs =>
      if P x then Some ([], x, xs)
      else match split_first P xs with
           | Some (pre, y, post) => Some (x :: pre, y, post)
           | None => None
           end
  end.

Definition at_addr (m : Z) (x : Z * Z) : bool := x.1 =? m.
Definition with_data (d : Z) (x : Z * Z) : bool := x.2 =? d.

(** What the operation means on the sequence; [None] when it is not allowed
    (a node that is already linked, or one that is not). *)
Definition spec_op (xs : list (Z * Z)) (op : dlop) : option (Z * list (Z * Z)) :=
  match op with
  | OpAdd d m => if decide (m = 0 ∨ m ∈ xs.*1) then None else Some (0, (m, d) :: xs)
  | OpAddTail d m => if decide (m = 0 ∨ m ∈ xs.*1) then None else Some (0, xs ++ [(m, d)])
  | OpAddBefore b d m =>
      if decide (m = 0 ∨ m ∈ xs.*1) then None
      else match split_first (at_addr b) xs with
           | Some (pre, x, post) => Some (0, pre ++ (m, d) :: x :: post)
           | None => None
           end
  | OpDelete m =>
      match split_first (at_addr m) xs with
      | Some (pre, _, post) => Some (0, pre ++ post)
      | None => None
      end
  | OpFind d =>
      Some (match split_first (with_data d) xs with Some (_, x, _) => x.1 | None => 0 end, xs)
  | OpFindDelete d =>
      Some (match split_first (with_data d) xs with
            | Some (pre, x, post) => (x.1, pre ++ post)
            | None => (0, xs)
            end)
  | OpLength => Some (sint32 (Z.of_nat (length xs)), xs)
  end.

Fixpoint spec_ops (xs : list (Z * Z)) (ops : list dlop) : option (list Z * list (Z * Z)) :=
  match ops with
  | [] => Some ([], xs)
  | op :: ops =>
      match spec_op xs op with
      | Some (r, xs) =>
          match spec_ops xs ops with Some (rs, xs) => Some (r :: rs, xs) | None => None end
      | None => None
      end
  end.

(** The node an operation links in must exist. *)
Definition op_node (op : dlop) : option Z :=
  match op with OpAdd _ m | OpAddTail _ m | OpAddBefore _ _ m => Some m | _ => None end.

Lemma split_first_Some P xs pre x post :
  split_first P xs = Some (pre, x, post) →
  xs = pre ++ x :: post ∧ P x = true ∧ Forall (λ y, P y = false) pre.
Proof.
  revert pre. induction xs as [|y xs IH]; intros pre; cbn; [done|].
  destruct (P y) eqn:E; [intros [= <- <- <-]; done|].
  destruct (split_first P xs) as [[[pre' z] post']|]; [|done]. intros [= <- <- <-].
  destruct (IH pre' eq_refl) as (-> & ? & ?). split_and!; [done|done|by constructor].
Qed.

Lemma split_first_None P xs : split_first P xs = None → Forall (λ y, P y = false) xs.
Proof.
  induction xs as [|y xs IH]; cbn; [constructor|]. destruct (P y) eqn:E; [done|].
  destruct (split_first P xs) as [[[??]?]|]; [done|]. intros _. by constructor; auto.
Qed.

Lemma with_data_ne d xs : Forall (λ y, with_data d y = false) xs → Forall (λ x, x.2 ≠ d) xs.
Proof. intros H. eapply Forall_impl; [exact H|]. unfold with_data. intros x Hx. lia. Qed.

(** Nodes never disappear from the store. *)
Definition keeps (h h' : nodes) : Prop := ∀ a, is_Some (h !! a) → is_Some (h' !! a).

Lemma frame_keeps A h h' :
  frame A h h' → (∀ a, a ∈ A → is_Some (h' !! a)) → keeps h h'.
Proof.
  intros Hf HA a Ha. destruct (decide (a ∈ A)); [auto|]. by rewrite Hf.
Qed.

Lemma dll_some h l xs a : dll h l xs → a ∈ xs.*1 → is_Some (h !! a).
Proof. intros Hl Ha. by destruct (lseg_nonzero _ _ _ _ _ (dll_seg _ _ _ Hl) Ha). Qed.

(** After an operation: every node of the old list is still in the store. *)
Lemma frame_keeps_in A h h' l' ys :
  frame A h h' → dll h' l' ys → (∀ a, a ∈ A → a ∈ ys.*1) → keeps h h'.
Proof. intros Hf Hl Ha. apply (frame_keeps A); [done|]. intros a H. eapply dll_some; eauto. Qed.

(** What one operation has to establish. *)
Definition op_done (fuel : nat) (h : nodes) (l : dlink_list) (xs : list (Z * Z)) (op : dlop)
    (r : Z) (ys : list (Z * Z)) : Prop :=
  ∃ h' l', run_op fuel (h, l) op = Ret (r, (h', l')) ∧ dll h' l' ys ∧ keeps h h' ∧
    (length ys ≤ S (length xs))%nat.

Lemma run_insert_ok fuel h l xs op r ys m :
  dll h l xs → spec_op xs op = Some (r, ys) → op_node op = Some m → is_Some (h !! m) →
  dl_length l + 1 < 2 ^ 64 → op_done fuel h l xs op r ys.
Proof.
  intros Hl Hspec Hop Hnode Hsmall. unfold op_done.
  destruct op as [d m0|d m0|b d m0| | | |]; simplify_eq/=.
  - case_decide as Hc; simplify_eq. apply Decidable.not_or in Hc as [Hm Hx].
    destruct (add_ok h l xs d m) as (h' & l' & -> & Hl' & Hfr); auto.
    exists h', l'. split_and!; [done|done| |done].
    eapply frame_keeps_in; [exact Hfr|exact Hl'|done].
  - case_decide as Hc; simplify_eq. apply Decidable.not_or in Hc as [Hm Hx].
    destruct (add_tail_ok h l xs d m) as (h' & l' & -> & Hl' & Hfr); auto.
    exists h', l'. split_and!; [done|done| |rewrite length_app; cbn; lia].
    eapply frame_keeps_in; [exact Hfr|exact Hl'|]. intros a. rewrite fmap_app, elem_of_app. set_solver.
  - case_decide as Hc; [done|]. apply Decidable.not_or in Hc as [Hm Hx].
    destruct (split_first _ xs) as [[[pre [b' e]] post]|] eqn:E; simplify_eq.
    apply split_first_Some in E as (-> & Hb & _). unfold at_addr in Hb. cbn in Hb.
    apply Z.eqb_eq in Hb as ->.
    destruct (add_before_ok h l pre b e post d m) as (h' & l' & -> & Hl' & Hfr); auto.
    exists h', l'. split_and!; [done|done| |rewrite !length_app; cbn; lia].
    eapply frame_keeps_in; [exact Hfr|exact Hl'|].
    intros a. rewrite !fmap_app. cbn. rewrite !elem_of_cons, !elem_of_app, !elem_of_cons. tauto.
Qed.

Lemma run_remove_ok fuel h l xs op r ys :
  dll h l xs → spec_op xs op = Some (r, ys) → op_node op = None → (length xs < fuel)%nat →
  dl_length l + 1 < 2 ^ 64 → op_done fuel h l xs op r ys.
Proof.
  intros Hl Hspec Hop Hf Hsmall. unfold op_done.
  destruct op as [d m|d m|b d m|m|d|d|]; [done..| | | |]; cbn [spec_op] in Hspec; cbn [run_op].
  - destruct (split_first _ xs) as [[[pre [m' d]] post]|] eqn:E; simplify_eq.
    apply split_first_Some in E as (-> & Hb & _). unfold at_addr in Hb. cbn in Hb.
    apply Z.eqb_eq in Hb as ->.
    destruct (delete_ok h l pre m d post) as (h' & l' & -> & Hl' & Hm' & Hfr); [done|lia|].
    exists h', l'. split_and!; [done|done| |rewrite !length_app; cbn; lia].
    eapply frame_keeps_in; [exact Hfr|exact Hl'|done].
  - unfold dlink_find. rewrite (dll_hd _ _ _ Hl). exists h, l.
    destruct (split_first _ xs) as [[[pre [m' d']] post]|] eqn:E; simplify_eq.
    + apply split_first_Some in E as (-> & Hb & Hpre). unfold with_data in Hb. cbn in Hb.
      apply Z.eqb_eq in Hb as ->. rewrite find_from_first;
        [split_and!; [done|done|by intros ?|lia]|apply Hl| |done].
      by apply with_data_ne.
    + rewrite find_from_none; [split_and!; [done|done|by intros ?|lia]|apply Hl| |done].
      by apply with_data_ne, split_first_None.
  - destruct (split_first _ xs) as [[[pre [m' d']] post]|] eqn:E; simplify_eq.
    + apply split_first_Some in E as (-> & Hb & Hpre). unfold with_data in Hb. cbn in Hb.
      apply Z.eqb_eq in Hb as ->.
      destruct (find_delete_ok h l pre m' d post fuel) as (h' & l' & -> & Hl' & Hm' & Hfr);
        [done|by apply with_data_ne|done|lia|].
      exists h', l'. split_and!; [done|done| |rewrite !length_app; cbn; lia].
      eapply (frame_keeps _ _ _ Hfr). intros a. rewrite fmap_app, elem_of_app. cbn.
      rewrite elem_of_cons. intros Ha. destruct (decide (a = m')) as [->|]; [by rewrite Hm'|].
      eapply dll_some; [exact Hl'|]. rewrite fmap_app, elem_of_app. tauto.
    + exists h, l. unfold dlink_find_delete. rewrite (dll_hd _ _ _ Hl).
      rewrite find_from_none; [split_and!; [done|done|by intros ?|lia]|apply Hl| |done].
      by apply with_data_ne, split_first_None.
  - exists h, l. simplify_eq. unfold dlink_length. rewrite (dll_len _ _ _ Hl).
    split_and!; [done|done|by intros ?|lia].
Qed.

Lemma run_op_ok fuel h l xs op r ys :
  dll h l xs → spec_op xs op = Some (r, ys) → (∀ m, op_node op = Some m → is_Some (h !! m)) →
  (length xs < fuel)%nat → dl_length l + 1 < 2 ^ 64 → op_done fuel h l xs op r ys.
Proof.
  intros Hl Hspec Hnode. destruct (op_node op) as [m|] eqn:E; intros.
  - eapply run_insert_ok; eauto.
  - by eapply run_remove_ok.
Qed.

(** The simulation of a sequence of operations. *)
Lemma run_ops_ok fuel h l xs ops rs ys :
  dll h l xs → spec_ops xs ops = Some (rs, ys) →
  (∀ op m, op ∈ ops → op_node op = Some m → is_Some (h !! m)) →
  (length xs + length ops < fuel)%nat → Z.of_nat (length xs + length ops) < 2 ^ 64 →
  ∃ h' l', run_ops fuel (h, l) ops = Ret (rs, (h', l')) ∧ dll h' l' ys.
Proof.
  revert h l xs rs. induction ops as [|op ops IH]; intros h l xs rs Hl Hspec Hnode Hf Hsmall.
  { cbn in Hspec. simplify_eq. by exists h, l. }
  cbn [spec_ops run_ops length] in *. destruct (spec_op xs op) as [[r xs']|] eqn:E; [|done].
  destruct (spec_ops xs' ops) as [[rs' ys']|] eqn:E'; simplify_eq.
  destruct (run_op_ok fuel h l xs op r xs' Hl E) as (h1 & l1 & -> & Hl1 & Hk & Hlen).
  - intros m. apply Hnode. left.
  - lia.
  - rewrite (dll_len _ _ _ Hl). lia.
  - cbn [obind snd fst].
    destruct (IH h1 l1 xs' rs' Hl1 E') as (h2 & l2 & -> & Hl2).
    + intros op' m Hin Hop. apply Hk. eapply Hnode; [by right|done].
    + lia.
    + lia.
    + by exists h2, l2.
Qed.

(** ** Properties *)

(** C5: any sequence of insertions (at the head, at the tail, in front of a
    node), deletions, searches and length queries on a linked list behaves like
    the same sequence of operations on a sequence of (node, data) pairs: same
    results, and the nodes reached from the head afterwards, in both
    directions, are that sequence.  Moving a node then takes it out of the list,
    wherever it is, and puts it at the head of a second list; both stay well linked and
    no other node changes; a NULL node or list changes nothing. *)
Theorem dlink_ops_refine (fuel : nat) (h : nodes) (l : dlink_list) (xs ys : list (Z * Z))
    (ops : list dlop) (rs : list Z) :
  dll h l xs → spec_ops xs ops = Some (rs, ys) →
  (∀ op m, op ∈ ops → op_node op = Some m → is_Some (h !! m)) →
  (length xs + length ops < fuel)%nat → Z.of_nat (length xs + length ops) < 2 ^ 64 →
  ∃ h' l', run_ops fuel (h, l) ops = Ret (rs, (h', l')) ∧ dll h' l' ys ∧
    (∀ pre m d post new zs, ys = pre ++ (m, d) :: post → dll h' new zs →
      (∀ a, a ∈ ys.*1 → a ∉ zs.*1) → dl_length l' < 2 ^ 64 → dl_length new + 1 < 2 ^ 64 →
      ∃ h2 l2 new2, dlink_move h' m (Some l') (Some new) = Ret (h2, Some l2, Some new2) ∧
        dll h2 l2 (pre ++ post) ∧ dll h2 new2 ((m, d) :: zs) ∧ frame (ys.*1 ++ zs.*1) h' h2) ∧
    (∀ m o, dlink_move h' 0 (Some l') o = Ret (h', Some l', o) ∧
      dlink_move h' m None o = Ret (h', None, o) ∧ dlink_move h' m (Some l') None = Ret (h', Some l', None)).
Proof.
  intros Hl Hops Hn Hf Hs. destruct (run_ops_ok fuel h l xs ops rs ys Hl Hops Hn Hf Hs) as (h' & l' & Hr & Hl').
  exists h', l'. split_and!; [done|done| |intros m [o|]; by split_and!].
  intros pre m d post new zs -> Hnew Hd H1 H2. by apply move_ok.
Qed.

Definition three_nodes : nodes :=
  {[100 := DNode 0 0 0; 200 := DNode 0 0 0; 300 := DNode 0 0 0]}.
Definition demo_ops : list dlop :=
  [OpAddTail 7 100; OpAdd 8 200; OpAddBefore 100 9 300; OpFind 9; OpDelete 300; OpFindDelete 8;
   OpLength].

Lemma dll_nil h : dll h dl_empty [].
Proof. split; try done. constructor. Qed.

Lemma dlink_ops_refine_witness :
  spec_ops [] demo_ops = Some ([0; 0; 0; 300; 0; 200; 1], [(100, 7)]) ∧
  ∃ h' l', run_ops 8 (three_nodes, dl_empty) demo_ops =
      Ret ([0; 0; 0; 300; 0; 200; 1], (h', l')) ∧ dll h' l' [(100, 7)] ∧
    ∃ h2 l2 new2, dlink_move h' 100 (Some l') (Some dl_empty) = Ret (h2, Some l2, Some new2) ∧
      dll h2 l2 [] ∧ dll h2 new2 [(100, 7)].
Proof.
  split; [reflexivity|].
  destruct (dlink_ops_refine 8 three_nodes dl_empty [] [(100, 7)] demo_ops [0; 0; 0; 300; 0; 200; 1])
    as (h' & l' & Hr & Hl & Hmove & _); [apply dll_nil|reflexivity| |cbn; lia|reflexivity|].
  2: { exists h', l'. split_and!; [done|done|].
    destruct (Hmove [] 100 7 [] dl_empty []) as (h2 & l2 & new2 & H1 & H2 & H3 & _);
      [done|apply dll_nil|intros a _; apply not_elem_of_nil|rewrite (dll_len _ _ _ Hl); done|done|].
    by exists h2, l2, new2. }
  intros op m Hop Hm.
  assert (m ∈ omap op_node demo_ops) as Hin by (apply list_elem_of_omap; eauto).
  vm_compute in Hin. unfold three_nodes.
  repeat (apply elem_of_cons in Hin as [->|Hin]; [by eexists|]). by apply elem_of_nil in Hin.
Defined.

