(* ===== verification/Balloc.v ===== *)
(** * The block allocator (lsd/balloc.c, lsd/balloc.h)

    A heap is a chain of [Block]s; a block is an mmap'ed region of slots, each a
    [MemBlock] header followed by an element.  The dlink node at the start of a
    header has the header's address, so the nodes of all heaps live in one
    store together with the headers' back pointers ([st_owner]), the [Block]
    structures, the heaps and the bytes of the elements.  What the operating
    system returns for a [calloc] or [mmap] is an argument ([None]: it fails). *)
From S2P Require Import Prelude CStd Dlink.

Local Open Scope Z_scope.

(** sizeof(MemBlock) without DEBUG_BALLOC: a dlink_node and a pointer. *)
Definition SZ_MEMBLOCK : Z := 32.
Definition SZ_POINTER : Z := 8.

Record block := Block {
  b_alloc_size : Z;
  b_next : Z;
  b_elems : Z;
  b_free : dlink_list;
  b_used : dlink_list
}.

Record blockheap := BlockHeap {
  bh_name : string;
  bh_elemSize : Z;
  bh_elemsPerBlock : Z;
  bh_blocksAllocated : Z;
  bh_freeElems : Z;
  bh_base : Z
}.

#[global] Instance block_eq_dec : EqDecision block.
Proof. solve_decision. Defined.
#[global] Instance blockheap_eq_dec : EqDecision blockheap.
Proof. solve_decision. Defined.

Record bstate := BState {
  st_nodes : nodes;               (** dlink nodes: slots and [hlist] fields *)
  st_owner : gmap Z Z;            (** MemBlock.block *)
  st_blocks : gmap Z block;
  st_heaps : gmap Z blockheap;
  st_bytes : Z → Z;               (** the bytes of mapped memory *)
  st_lists : dlink_list           (** heap_lists *)
}.

Definition set_nodes (v : nodes) (s : bstate) : bstate :=
  BState v (st_owner s) (st_blocks s) (st_heaps s) (st_bytes s) (st_lists s).
Definition set_blocks (v : gmap Z block) (s : bstate) : bstate :=
  BState (st_nodes s) (st_owner s) v (st_heaps s) (st_bytes s) (st_lists s).
Definition set_heaps (v : gmap Z blockheap) (s : bstate) : bstate :=
  BState (st_nodes s) (st_owner s) (st_blocks s) v (st_bytes s) (st_lists s).
Definition set_bytes (v : Z → Z) (s : bstate) : bstate :=
  BState (st_nodes s) (st_owner s) (st_blocks s) (st_heaps s) v (st_lists s).

Definition get_heap (s : bstate) (bh : Z) : outcome blockheap :=
  if bh =? 0 then Stuck NullDeref else need BadPointer (st_heaps s !! bh).
Definition get_block (s : bstate) (b : Z) : outcome block :=
  if b =? 0 then Stuck NullDeref else need BadPointer (st_blocks s !! b).
Definition put_heap (bh : Z) (hp : blockheap) (s : bstate) : bstate :=
  set_heaps (<[bh := hp]> (st_heaps s)) s.
Definition put_block (b : Z) (bl : block) (s : bstate) : bstate :=
  set_blocks (<[b := bl]> (st_blocks s)) s.

Definition set_base (v : Z) (hp : blockheap) : blockheap :=
  BlockHeap (bh_name hp) (bh_elemSize hp) (bh_elemsPerBlock hp) (bh_blocksAllocated hp)
            (bh_freeElems hp) v.
Definition set_free (v : Z) (hp : blockheap) : blockheap :=
  BlockHeap (bh_name hp) (bh_elemSize hp) (bh_elemsPerBlock hp) (bh_blocksAllocated hp)
            (wrap64 v) (bh_base hp).
Definition set_count (v : Z) (hp : blockheap) : blockheap :=
  BlockHeap (bh_name hp) (bh_elemSize hp) (bh_elemsPerBlock hp) (wrap64 v)
            (bh_freeElems hp) (bh_base hp).
Definition set_next (v : Z) (b : block) : block :=
  Block (b_alloc_size b) v (b_elems b) (b_free b) (b_used b).
Definition set_lists (f u : dlink_list) (b : block) : block :=
  Block (b_alloc_size b) (b_next b) (b_elems b) f u.

Definition in_region (p size a : Z) : bool := (p <=? a) && (a <? p + size).

(** memset(p, 0, size) *)
Definition memset0 (p size : Z) (m : Z → Z) : Z → Z :=
  λ a, if in_region p size a then 0 else m a.

(** munmap: the headers and nodes of the region are gone. *)
Definition blockheap_block_free (p size : Z) (s : bstate) : bstate :=
  BState (filter (λ an, in_region p size an.1 = false) (st_nodes s))
         (filter (λ ab, in_region p size ab.1 = false) (st_owner s))
         (st_blocks s) (st_heaps s) (st_bytes s) (st_lists s).

(** ** A new block *)

(** The [for] loop of [blockheap_block_new]; a header must fit into the mapping,
    which ends at [limit]. *)
Fixpoint init_slots (n : nat) (b limit esz offset : Z) (h : nodes) (own : gmap Z Z)
    (fl : dlink_list) : outcome (nodes * gmap Z Z * dlink_list) :=
  match n with
  | O => Ret (h, own, fl)
  | S n =>
      if limit <? offset + SZ_MEMBLOCK then Stuck OutOfBounds
      else
        let own := <[offset := b]> own in
        let! hl := dlink_add (<[offset := DNode 0 0 0]> h) (offset + SZ_MEMBLOCK) offset fl in
        init_slots n b limit esz (offset + esz + SZ_MEMBLOCK) hl.1 own hl.2
  end.

(** What calloc(sizeof(Block)) and mmap return. *)
Definition os : Type := option Z * option Z.

Definition blockheap_block_new (o : os) (bh : Z) (s : bstate) : outcome (Z * bstate) :=
  match o.1 with
  | None => Ret (1, s)
  | Some b =>
      let! hp := get_heap s bh in
      let size := wrap64 (wrap64 (bh_elemsPerBlock hp + 1) *
                          wrap64 (bh_elemSize hp + SZ_MEMBLOCK)) in
      let blk := Block size (bh_base hp) 0 dl_empty dl_empty in
      match o.2 with
      | None => Ret (1, put_block b blk s)
      | Some e =>
          let! r := init_slots (Z.to_nat (bh_elemsPerBlock hp)) b (e + size) (bh_elemSize hp) e
                      (st_nodes s) (st_owner s) dl_empty in
          let '(h, own, fl) := r in
          let hp := set_count (bh_blocksAllocated hp + 1) hp in
          let hp := set_free (bh_freeElems hp + bh_elemsPerBlock hp) hp in
          let hp := set_base b hp in
          Ret (0, put_heap bh hp
                    (put_block b (Block size (b_next blk) e fl dl_empty)
                       (BState h own (st_blocks s) (st_heaps s)
                               (memset0 e size (st_bytes s)) (st_lists s))))
      end
  end.

(** ** Creation *)

(** Round up to a multiple of the pointer size. *)
Definition pad_size (elemsize : Z) : Z :=
  if elemsize mod SZ_POINTER =? 0 then elemsize
  else Z.land (wrap64 (elemsize + SZ_POINTER)) (wrap64 (- SZ_POINTER)).

(** [memcpy(bh->name, name, 63)]: [readable] bytes can be read at [name]. *)
Definition copy_name (name : option string) (readable : Z) : outcome string :=
  match name with
  | Some n => if readable <? 63 then Stuck OutOfBounds else Ret (str_take 63 n)
  | None => Ret EmptyString
  end.

Definition blockheap_create (oh : option Z) (o : os) (elemsize elemsperblock : Z)
    (name : option string) (readable : Z) (s : bstate) : outcome (Z * bstate) :=
  if (elemsize <=? 0) || (elemsperblock <=? 0) then Halt 1
  else
    match oh with
    | None => Halt 1
    | Some bh =>
        let hp := BlockHeap EmptyString (pad_size elemsize) elemsperblock 0 0 0 in
        let! r := blockheap_block_new o bh (put_heap bh hp s) in
        if negb (r.1 =? 0) then Halt 1
        else
          let s := r.2 in
          let! hp := get_heap s bh in
          let! n := copy_name name readable in
          let hp := BlockHeap n (bh_elemSize hp) (bh_elemsPerBlock hp) (bh_blocksAllocated hp)
                              (bh_freeElems hp) (bh_base hp) in
          let! hl := dlink_add (<[bh := DNode 0 0 0]> (st_nodes s)) bh bh (st_lists s) in
          Ret (bh, BState hl.1 (st_owner s) (st_blocks s) (<[bh := hp]> (st_heaps s))
                          (st_bytes s) hl.2)
    end.

(** ** Garbage collection *)

(** The [while] loop; [last] is 0 for NULL. *)
Fixpoint gc_loop (fuel : nat) (bh last walker : Z) (s : bstate) : outcome bstate :=
  match fuel with
  | O => Spin
  | S fuel =>
      if walker =? 0 then Ret s
      else
        let! w := get_block s walker in
        let! hp := get_heap s bh in
        if dl_length (b_free w) =? bh_elemsPerBlock hp then
          let s := blockheap_block_free (b_elems w) (b_alloc_size w) s in
          let! s :=
            if negb (last =? 0) then
              let! l := get_block s last in Ret (put_block last (set_next (b_next w) l) s)
            else Ret (put_heap bh (set_base (b_next w) hp) s) in
          let s := set_blocks (delete walker (st_blocks s)) s in
          let! hp := get_heap s bh in
          let hp := set_count (bh_blocksAllocated hp - 1) hp in
          let hp := set_free (bh_freeElems hp - bh_elemsPerBlock hp) hp in
          gc_loop fuel bh last (b_next w) (put_heap bh hp s)
        else gc_loop fuel bh walker (b_next w) s
  end.

(** Enough iterations for the blocks there are. *)
Definition block_fuel (s : bstate) : nat := S (size (st_blocks s)).

Definition blockheap_garbagecollect (bh : Z) (s : bstate) : outcome (Z * bstate) :=
  if bh =? 0 then Ret (1, s)
  else
    let! hp := get_heap s bh in
    if (bh_freeElems hp <? bh_elemsPerBlock hp) || (bh_blocksAllocated hp =? 1) then Ret (0, s)
    else
      let! s := gc_loop (block_fuel s) bh 0 (bh_base hp) s in
      Ret (0, s).

(** DLINK_FOREACH_SAFE over [heap_lists]: the successor is read before the
    heap is collected. *)
Fixpoint gc_heaps (fuel : nat) (ptr : Z) (s : bstate) : outcome bstate :=
  match fuel with
  | O => Spin
  | S fuel =>
      if ptr =? 0 then Ret s
      else
        let! n := load (st_nodes s) ptr in
        let! r := blockheap_garbagecollect (dn_data n) s in
        gc_heaps fuel (dn_next n) r.2
  end.

Definition blockheap_gc (s : bstate) : outcome bstate :=
  gc_heaps (S (size (st_heaps s))) (dl_head (st_lists s)) s.

(** ** Allocation and release *)
Fixpoint alloc_walk (fuel : nat) (bh walker : Z) (s : bstate) : outcome (Z * bstate) :=
  match fuel with
  | O => Spin
  | S fuel =>
      if walker =? 0 then Halt 1
      else
        let! w := get_block s walker in
        if 0 <? dl_length (b_free w) then
          let! hp := get_heap s bh in
          let s := put_heap bh (set_free (bh_freeElems hp - 1) hp) s in
          let new_node := dl_head (b_free w) in
          let! mv := dlink_move (st_nodes s) new_node (Some (b_free w)) (Some (b_used w)) in
          let '(h, f, u) := mv in
          let w := set_lists (default dl_empty f) (default dl_empty u) w in
          let s := put_block walker w (set_nodes h s) in
          let! n := load h new_node in
          if dn_data n =? 0 then Halt 1
          else Ret (dn_data n, set_bytes (memset0 (dn_data n) (bh_elemSize hp) (st_bytes s)) s)
        else alloc_walk fuel bh (b_next w) s
  end.

Definition blockheap_alloc (o : os) (bh : Z) (s : bstate) : outcome (Z * bstate) :=
  if bh =? 0 then Halt 1
  else
    let! hp := get_heap s bh in
    let! s :=
      if bh_freeElems hp =? 0 then
        let! r := blockheap_block_new o bh s in
        if negb (r.1 =? 0) then
          let! r := blockheap_garbagecollect bh r.2 in
          let! hp := get_heap r.2 bh in
          if bh_freeElems hp =? 0 then Halt 1 else Ret r.2
        else Ret r.2
      else Ret s in
    let! hp := get_heap s bh in
    alloc_walk (block_fuel s) bh (bh_base hp) s.

Definition blockheap_free (bh ptr : Z) (s : bstate) : outcome (Z * bstate) :=
  if bh =? 0 then Ret (1, s)
  else if ptr =? 0 then Ret (1, s)
  else
    let memblock := ptr - SZ_MEMBLOCK in
    let! b := need BadPointer (st_owner s !! memblock) in
    if b =? 0 then Halt 1
    else
      let! hp := get_heap s bh in
      let s := set_bytes (memset0 ptr (bh_elemSize hp) (st_bytes s)) s in
      let s := put_heap bh (set_free (bh_freeElems hp + 1) hp) s in
      let! w := get_block s b in
      let! mv := dlink_move (st_nodes s) memblock (Some (b_used w)) (Some (b_free w)) in
      let '(h, u, f) := mv in
      let w := set_lists (default dl_empty f) (default dl_empty u) w in
      Ret (0, put_block b w (set_nodes h s)).

(** ** Destruction and statistics *)
Fixpoint destroy_blocks (fuel : nat) (walker : Z) (s : bstate) : outcome bstate :=
  match fuel with
  | O => Spin
  | S fuel =>
      if walker =? 0 then Ret s
      else
        let! w := get_block s walker in
        let s := blockheap_block_free (b_elems w) (b_alloc_size w) s in
        destroy_blocks fuel (b_next w) (set_blocks (delete walker (st_blocks s)) s)
  end.

Definition blockheap_destroy (bh : Z) (s : bstate) : outcome (Z * bstate) :=
  if bh =? 0 then Ret (1, s)
  else
    let! hp := get_heap s bh in
    let! s := destroy_blocks (block_fuel s) (bh_base hp) s in
    let! hl := dlink_delete (st_nodes s) bh (st_lists s) in
    Ret (0, BState (delete bh hl.1) (st_owner s) (st_blocks s) (delete bh (st_heaps s))
                   (st_bytes s) hl.2).

(** [*bused], [*bfree] and [*bmemusage]. *)
Definition blockheap_usage (bh : Z) (s : bstate) : outcome (option (Z * Z * Z)) :=
  if bh =? 0 then Ret None
  else
    let! hp := get_heap s bh in
    let used := wrap64 (wrap64 (bh_blocksAllocated hp * bh_elemsPerBlock hp) - bh_freeElems hp) in
    Ret (Some (used, bh_freeElems hp,
               wrap64 (used * wrap64 (bh_elemSize hp + SZ_MEMBLOCK)))).
