(* ===== verification/BallocFacts.v ===== *)
(** * Invariants of the block allocator

    [slots] is the layout of a block; [blk_ok] and [chain] describe the blocks
    of a heap in memory; [heap_ok s bh hp abs] says that the heap at [bh] is
    well-formed and consists of the blocks [abs], each with its free and used
    slots. *)
From S2P Require Import Prelude CStd Dlink DlinkSpec Balloc.

Local Open Scope Z_scope.

(** ** Layout *)

(** The slots of a block from address [e] on, as (header, element) pairs. *)
Fixpoint slots (e esz : Z) (n : nat) : list (Z * Z) :=
  match n with
  | O => []
  | S n => (e, e + SZ_MEMBLOCK) :: slots (e + esz + SZ_MEMBLOCK) esz n
  end.

Lemma elem_of_slots e esz n x :
  x ∈ slots e esz n ↔
  ∃ i : nat, (i < n)%nat ∧ x.1 = e + Z.of_nat i * (esz + SZ_MEMBLOCK) ∧ x.2 = x.1 + SZ_MEMBLOCK.
Proof.
  revert e. induction n as [|n IH]; intros e; cbn [slots].
  { rewrite elem_of_nil. split; [done|]. intros (i & ? & _). lia. }
  rewrite elem_of_cons, IH. split.
  - intros [->|(i & ? & ? & ?)]; [exists 0%nat|exists (S i)]; cbn [fst snd]; lia.
  - intros ([|i] & ? & H1 & H2); [left; destruct x; cbn in *; f_equal; lia|].
    right. exists i. lia.
Qed.

Lemma slots_data e esz n x : x ∈ slots e esz n → x.2 = x.1 + SZ_MEMBLOCK.
Proof. intros (i & _ & _ & H)%elem_of_slots. done. Qed.

(** A slot lies within the first [n * (esz + 32)] bytes of its block. *)
Lemma slots_range e esz n x :
  0 ≤ esz → x ∈ slots e esz n →
  e ≤ x.1 ∧ x.2 + esz ≤ e + Z.of_nat n * (esz + SZ_MEMBLOCK).
Proof.
  intros He (i & Hi & H1 & H2)%elem_of_slots. unfold SZ_MEMBLOCK in *. nia.
Qed.

(** Different slots do not overlap: header and element of one end before the
    header of the other starts. *)
Lemma slots_apart e esz n x y :
  0 ≤ esz → x ∈ slots e esz n → y ∈ slots e esz n → x ≠ y →
  x.2 + esz ≤ y.1 ∨ y.2 + esz ≤ x.1.
Proof.
  intros He (i & Hi & H1 & H2)%elem_of_slots (j & Hj & H3 & H4)%elem_of_slots Hne.
  unfold SZ_MEMBLOCK in *. destruct (Nat.lt_trichotomy i j) as [|[->|]]; [left; nia| |right; nia].
  exfalso. apply Hne. destruct x, y; cbn in *; f_equal; lia.
Qed.

Lemma slots_ge e esz n a : 0 ≤ esz → a ∈ (slots e esz n).*1 → e ≤ a.
Proof. intros He (x & -> & Hx)%list_elem_of_fmap. by destruct (slots_range _ _ _ _ He Hx). Qed.

Lemma slots_NoDup e esz n : 0 ≤ esz → NoDup (slots e esz n).*1.
Proof.
  revert e. induction n as [|n IH]; intros e He; [constructor|]. cbn. apply NoDup_cons.
  split; [|auto]. intros Hin%slots_ge; [|done]. unfold SZ_MEMBLOCK in *. lia.
Qed.

Lemma slots_length e esz n : length (slots e esz n) = n.
Proof. revert e. induction n; intros e; cbn; auto. Qed.

(** ** The initialisation of a block *)
Lemma init_slots_ok n b limit esz offset h own fl xs :
  dll h fl xs → (∀ a, a ∈ xs.*1 → a < offset) → 0 < offset → 0 ≤ esz →
  offset + Z.of_nat n * (esz + SZ_MEMBLOCK) ≤ limit →
  dl_length fl + Z.of_nat n < 2 ^ 64 →
  ∃ h' own' fl', init_slots n b limit esz offset h own fl = Ret (h', own', fl') ∧
    dll h' fl' (rev (slots offset esz n) ++ xs) ∧
    frame ((slots offset esz n).*1 ++ xs.*1) h h' ∧
    (∀ a, a ∈ (slots offset esz n).*1 → own' !! a = Some b) ∧
    (∀ a, a ∉ (slots offset esz n).*1 → own' !! a = own !! a).
Proof.
  revert offset h own fl xs. induction n as [|n IH];
    intros offset h own fl xs Hl Hlt Hpos Hesz Hlim Hlen; cbn [init_slots slots].
  { exists h, own, fl. split_and!; [done|done|done|set_solver|done]. }
  assert (0 ≤ Z.of_nat n * (esz + SZ_MEMBLOCK)) by (unfold SZ_MEMBLOCK; nia).
  unfold SZ_MEMBLOCK in *.
  destruct (Z.ltb_spec limit (offset + 32)); [nia|].
  assert (offset ∉ xs.*1) as Hox by (intros Hin%Hlt; lia).
  assert (dll (<[offset:=DNode 0 0 0]> h) fl xs) as Hl0.
  { eapply dll_ext; [exact Hl|]. intros a Ha. rewrite lookup_insert_ne; [done|].
    by intros <-. }
  destruct (add_ok (<[offset:=DNode 0 0 0]> h) fl xs (offset + 32) offset Hl0)
    as (h1 & fl1 & -> & Hl1 & Hf1); [lia|by rewrite lookup_insert_eq|done|lia|].
  cbn [obind fst snd].
  destruct (IH (offset + esz + 32) h1 (<[offset:=b]> own) fl1 _ Hl1)
    as (h2 & own2 & fl2 & -> & Hl2 & Hf2 & Ho1 & Ho2).
  - cbn. intros a [->|Hin%Hlt]%elem_of_cons; lia.
  - lia.
  - done.
  - nia.
  - rewrite (dll_len _ _ _ Hl1). rewrite (dll_len _ _ _ Hl) in Hlen. cbn [length] in *. lia.
  - exists h2, own2, fl2. cbn [rev]. rewrite <- app_assoc. cbn [app fmap list_fmap fst].
    assert (offset ∉ (slots (offset + esz + 32) esz n).*1) as Hoff
      by (intros Hin%slots_ge; lia).
    split_and!; [done|done| | |].
    + eapply frame_mono; [eapply frame_trans;
        [apply frame_insert|eapply frame_trans; [exact Hf1|exact Hf2]]|].
      intros a. cbn. set_solver.
    + intros a [->|Hin]%elem_of_cons; [|auto]. by rewrite Ho2, lookup_insert_eq.
    + intros a [Hne Hni]%not_elem_of_cons. by rewrite Ho2, lookup_insert_ne.
Qed.

(** ** Blocks in memory *)
Record ablk := ABlk { ab_addr : Z; ab_elems : Z; ab_free : list (Z * Z); ab_used : list (Z * Z) }.

(** The size of the mapping of a block. *)
Definition asize (esz n : Z) : Z := (n + 1) * (esz + SZ_MEMBLOCK).

Section heap.
Variables (esz n : Z).

Definition bslots (ab : ablk) : list (Z * Z) := slots (ab_elems ab) esz (Z.to_nat n).

Record blk_ok (s : bstate) (ab : ablk) (next : Z) : Prop := {
  bk_addr : ab_addr ab ≠ 0;
  bk_elems : 0 < ab_elems ab;
  bk_lists : ∃ lf lu,
    st_blocks s !! ab_addr ab = Some (Block (asize esz n) next (ab_elems ab) lf lu) ∧
    dll (st_nodes s) lf (ab_free ab) ∧ dll (st_nodes s) lu (ab_used ab);
  bk_slots : ab_free ab ++ ab_used ab ≡ₚ bslots ab;
  bk_owner : ∀ x, x ∈ bslots ab → st_owner s !! x.1 = Some (ab_addr ab)
}.

(** The blocks [abs] chained by [next], the last one's being [q]. *)
Fixpoint chain (s : bstate) (abs : list ablk) (q : Z) : Prop :=
  match abs with
  | [] => True
  | ab :: abs => blk_ok s ab (hd q (ab_addr <$> abs)) ∧ chain s abs q
  end.

(** The mapped regions of two blocks do not overlap. *)
Definition apart (a b : ablk) : Prop :=
  ab_elems a + asize esz n ≤ ab_elems b ∨ ab_elems b + asize esz n ≤ ab_elems a.

Definition separate (abs : list ablk) : Prop :=
  NoDup (ab_addr <$> abs) ∧
  ∀ a b, a ∈ abs → b ∈ abs → ab_addr a ≠ ab_addr b → apart a b.

Definition in_blk (ab : ablk) (a : Z) : Prop := in_region (ab_elems ab) (asize esz n) a = true.

Lemma chain_app s xs ys q :
  chain s (xs ++ ys) q ↔ chain s xs (hd q (ab_addr <$> ys)) ∧ chain s ys q.
Proof.
  induction xs as [|ab xs IH]; [cbn; tauto|]. cbn [app chain]. rewrite IH.
  replace (hd q (ab_addr <$> xs ++ ys)) with (hd (hd q (ab_addr <$> ys)) (ab_addr <$> xs))
    by (by destruct xs). tauto.
Qed.

(** A block is not affected by changes elsewhere. *)
Lemma blk_frame s s' ab next :
  blk_ok s ab next → st_blocks s' !! ab_addr ab = st_blocks s !! ab_addr ab →
  (∀ x, x ∈ bslots ab →
     st_nodes s' !! x.1 = st_nodes s !! x.1 ∧ st_owner s' !! x.1 = st_owner s !! x.1) →
  blk_ok s' ab next.
Proof.
  intros [Ha He (lf & lu & Hb & Hf & Hu) Hs Ho] Hbl Hn.
  assert (∀ l xs, dll (st_nodes s) l xs → (∀ x, x ∈ xs → x ∈ bslots ab) →
                  dll (st_nodes s') l xs) as Hdll.
  { intros l xs Hl Hin. eapply dll_ext; [exact Hl|]. intros a (x & -> & Hx)%list_elem_of_fmap.
    by apply Hn, Hin. }
  split; [done|done| |done|].
  - exists lf, lu. rewrite Hbl. split_and!; [done| |]; (eapply Hdll; [done|]);
      intros x Hx; rewrite <- Hs; apply elem_of_app; auto.
  - intros x Hx. destruct (Hn x Hx) as [_ ->]. auto.
Qed.
End heap.

(** The number of free elements of a list of blocks. *)
Definition total_free (abs : list ablk) : Z :=
  Z.of_nat (length (concat (ab_free <$> abs))).

(** The objects in use. *)
Definition live (abs : list ablk) : list Z := (concat (ab_used <$> abs)).*2.

(** Sizes for which no size computation of the allocator wraps. *)
Definition params_ok (esz n : Z) : Prop := 0 < esz ∧ 0 < n < 2 ^ 31 ∧ asize esz n < 2 ^ 64.

Record heap_ok (s : bstate) (bh : Z) (hp : blockheap) (abs : list ablk) : Prop := {
  ho_bh : bh ≠ 0;
  ho_heap : st_heaps s !! bh = Some hp;
  ho_params : params_ok (bh_elemSize hp) (bh_elemsPerBlock hp);
  ho_base : bh_base hp = hd 0 (ab_addr <$> abs);
  ho_chain : chain (bh_elemSize hp) (bh_elemsPerBlock hp) s abs 0;
  ho_sep : separate (bh_elemSize hp) (bh_elemsPerBlock hp) abs;
  ho_count : bh_blocksAllocated hp = Z.of_nat (length abs);
  ho_free : bh_freeElems hp = total_free abs;
  ho_small : Z.of_nat (length abs) * bh_elemsPerBlock hp < 2 ^ 64
}.

Lemma get_heap_some s bh hp : bh ≠ 0 → st_heaps s !! bh = Some hp → get_heap s bh = Ret hp.
Proof. intros Hb Hh. unfold get_heap. destruct (Z.eqb_spec bh 0); [done|]. by rewrite Hh. Qed.

Lemma get_block_some s b w : b ≠ 0 → st_blocks s !! b = Some w → get_block s b = Ret w.
Proof. intros Hb Hw. unfold get_block. destruct (Z.eqb_spec b 0); [done|]. by rewrite Hw. Qed.

Lemma chain_in esz n s abs q ab :
  chain esz n s abs q → ab ∈ abs → ∃ next, blk_ok esz n s ab next.
Proof.
  induction abs as [|a abs IH]; [set_solver|]. intros [Hb Hc] [->|Hin]%elem_of_cons; eauto.
Qed.

Lemma chain_frame esz n s s' abs q :
  chain esz n s abs q →
  (∀ ab, ab ∈ abs → st_blocks s' !! ab_addr ab = st_blocks s !! ab_addr ab ∧
     ∀ x, x ∈ bslots esz n ab →
       st_nodes s' !! x.1 = st_nodes s !! x.1 ∧ st_owner s' !! x.1 = st_owner s !! x.1) →
  chain esz n s' abs q.
Proof.
  induction abs as [|a abs IH]; [done|]. intros [Hb Hc] Hf. split.
  - destruct (Hf a) as [? ?]; [left|]. by eapply blk_frame.
  - apply IH; [done|]. intros ab Hab. apply Hf. by right.
Qed.

(** A slot lies inside of the region of its block. *)
Lemma slot_in_blk esz n ab x :
  0 ≤ esz → 0 ≤ n → x ∈ bslots esz n ab →
  ab_elems ab ≤ x.1 ∧ x.2 = x.1 + SZ_MEMBLOCK ∧ x.2 + esz ≤ ab_elems ab + asize esz n.
Proof.
  intros He Hn Hx. unfold bslots in Hx. pose proof (slots_data _ _ _ _ Hx).
  apply slots_range in Hx as [H1 H2]; [|done]. rewrite Z2Nat.id in H2 by done.
  unfold asize, SZ_MEMBLOCK in *. split_and!; [done|done|]. nia.
Qed.

(** Slots of different blocks have different headers and do not overlap. *)
Lemma slots_separate esz n abs a b x y :
  0 ≤ esz → 0 ≤ n → separate esz n abs → a ∈ abs → b ∈ abs → ab_addr a ≠ ab_addr b →
  x ∈ bslots esz n a → y ∈ bslots esz n b →
  x.2 + esz ≤ y.1 ∨ y.2 + esz ≤ x.1.
Proof.
  intros He Hn [_ Hsep] Ha Hb Hne Hx Hy.
  apply slot_in_blk in Hx as (? & ? & ?); [|done..].
  apply slot_in_blk in Hy as (? & ? & ?); [|done..].
  unfold SZ_MEMBLOCK in *. destruct (Hsep a b Ha Hb Hne); lia.
Qed.

(** A key that is not repeated determines its element. *)
Lemma key_inj {A} (f : A → Z) (l : list A) x y :
  NoDup (f <$> l) → x ∈ l → y ∈ l → f x = f y → x = y.
Proof.
  intros Hnd Hx Hy E. apply list_elem_of_lookup in Hx as [i Hi], Hy as [j Hj].
  assert (i = j) as ->.
  { eapply NoDup_lookup; [exact Hnd| |]; rewrite list_lookup_fmap; [by rewrite Hi|].
    rewrite Hj. cbn. congruence. }
  congruence.
Qed.

Lemma separate_inj esz n abs a b :
  separate esz n abs → a ∈ abs → b ∈ abs → ab_addr a = ab_addr b → a = b.
Proof. intros [Hnd _]. by apply key_inj. Qed.

Definition with_lists (ab : ablk) (fs us : list (Z * Z)) : ablk :=
  ABlk (ab_addr ab) (ab_elems ab) fs us.

Lemma hd_addr_with q pre ab fs us post :
  hd q (ab_addr <$> pre ++ with_lists ab fs us :: post) = hd q (ab_addr <$> pre ++ ab :: post).
Proof. by destruct pre. Qed.

(** Moving slots between the two lists of one block. *)
Lemma chain_update esz n s s' pre ab post w f u fs us :
  0 ≤ esz → 0 ≤ n →
  chain esz n s (pre ++ ab :: post) 0 → separate esz n (pre ++ ab :: post) →
  st_blocks s !! ab_addr ab = Some w →
  st_blocks s' = <[ab_addr ab := set_lists f u w]> (st_blocks s) → st_owner s' = st_owner s →
  frame (ab_free ab ++ ab_used ab).*1 (st_nodes s) (st_nodes s') →
  dll (st_nodes s') f fs → dll (st_nodes s') u us → fs ++ us ≡ₚ ab_free ab ++ ab_used ab →
  chain esz n s' (pre ++ with_lists ab fs us :: post) 0 ∧
  separate esz n (pre ++ with_lists ab fs us :: post).
Proof.
  intros Hesz Hn Hc Hsep Hw Hbl Hown Hfr Hf Hu Hperm.
  assert (∀ b, b ∈ pre ++ post → b ∈ pre ++ ab :: post ∧ ab_addr b ≠ ab_addr ab) as Hother.
  { intros b Hb. destruct Hsep as [Hnd _]. rewrite fmap_app in Hnd. cbn in Hnd.
    apply NoDup_app in Hnd as (_ & Hd & Hnd). apply NoDup_cons in Hnd as [Hna _].
    rewrite elem_of_app in Hb. rewrite elem_of_app, elem_of_cons. split; [tauto|].
    intros E. destruct Hb as [Hb|Hb].
    - eapply (Hd (ab_addr b)); [by apply list_elem_of_fmap_2|]. rewrite E. left.
    - apply Hna. rewrite <- E. by apply list_elem_of_fmap_2. }
  assert (∀ b, b ∈ pre ++ post →
    st_blocks s' !! ab_addr b = st_blocks s !! ab_addr b ∧
    ∀ x, x ∈ bslots esz n b →
      st_nodes s' !! x.1 = st_nodes s !! x.1 ∧ st_owner s' !! x.1 = st_owner s !! x.1) as Hsame.
  { intros b Hb. destruct (Hother b Hb) as [Hin Hne].
    rewrite Hbl, lookup_insert_ne by done. split; [done|]. intros x Hx. rewrite Hown. split; [|done].
    apply Hfr. intros (y & E & Hy)%list_elem_of_fmap.
    assert (ab ∈ pre ++ ab :: post) as Hab by (rewrite elem_of_app, elem_of_cons; auto).
    destruct (chain_in _ _ _ _ _ _ Hc Hab) as [next Hok]. rewrite (bk_slots _ _ _ _ _ Hok) in Hy.
    pose proof (slot_in_blk _ _ _ _ Hesz Hn Hx) as (_ & ? & _).
    pose proof (slot_in_blk _ _ _ _ Hesz Hn Hy) as (_ & ? & _). unfold SZ_MEMBLOCK in *.
    destruct (slots_separate _ _ _ _ _ _ _ Hesz Hn Hsep Hin Hab Hne Hx Hy); lia. }
  split.
  - apply chain_app in Hc as [Hpre [Hok Hpost]]. apply chain_app. cbn [chain with_lists ab_addr].
    split_and!.
    + eapply chain_frame; [exact Hpre|]. intros b Hb. apply Hsame, elem_of_app. by left.
    + destruct Hok as [Ha He (lf & lu & Hb & _ & _) Hs Ho]. simplify_eq.
      split; cbn [ab_addr ab_elems ab_free ab_used].
      * done.
      * done.
      * exists f, u. rewrite Hbl, lookup_insert_eq. done.
      * by rewrite Hperm.
      * intros x Hx. rewrite Hown. by apply Ho.
    + eapply chain_frame; [exact Hpost|]. intros b Hb. apply Hsame, elem_of_app. by right.
  - destruct Hsep as [Hnd Hap]. split; [by rewrite fmap_app in *|].
    assert (∀ b, b ∈ pre ++ with_lists ab fs us :: post →
      ∃ b', b' ∈ pre ++ ab :: post ∧ ab_addr b' = ab_addr b ∧ ab_elems b' = ab_elems b) as Hback.
    { intros b. rewrite elem_of_app, elem_of_cons. intros [Hb|[->|Hb]];
        [exists b|exists ab|exists b]; rewrite elem_of_app, elem_of_cons; auto. }
    intros a b Ha Hb Hne. destruct (Hback a Ha) as (a' & Ha' & Ea & Ea').
    destruct (Hback b Hb) as (b' & Hb' & Eb & Eb'). unfold apart. rewrite <- Ea', <- Eb'.
    apply Hap; [done|done|congruence].
Qed.

Lemma total_free_app xs ys : total_free (xs ++ ys) = total_free xs + total_free ys.
Proof. unfold total_free. rewrite fmap_app, concat_app, length_app. lia. Qed.

Lemma total_free_cons ab abs :
  total_free (ab :: abs) = Z.of_nat (length (ab_free ab)) + total_free abs.
Proof. unfold total_free. cbn. rewrite length_app. lia. Qed.

Lemma live_app xs ys : live (xs ++ ys) = live xs ++ live ys.
Proof. unfold live. by rewrite fmap_app, concat_app, fmap_app. Qed.

Lemma live_cons ab abs : live (ab :: abs) = (ab_used ab).*2 ++ live abs.
Proof. unfold live. cbn. by rewrite fmap_app. Qed.

(** A block has [n] slots in its two lists. *)
Lemma blk_count esz n s ab next :
  blk_ok esz n s ab next → 0 ≤ n →
  Z.of_nat (length (ab_free ab)) + Z.of_nat (length (ab_used ab)) = n.
Proof.
  intros Hb Hn. pose proof (Permutation_length (bk_slots _ _ _ _ _ Hb)) as H.
  unfold bslots in H. rewrite slots_length, length_app in H. lia.
Qed.

Lemma total_free_bound esz n s abs q :
  chain esz n s abs q → 0 ≤ n → 0 ≤ total_free abs ≤ Z.of_nat (length abs) * n.
Proof.
  revert q. induction abs as [|ab abs IH]; intros q; [cbn; unfold total_free; cbn; lia|].
  intros [Hb Hc] Hn. rewrite total_free_cons. cbn [length].
  pose proof (blk_count _ _ _ _ _ Hb Hn). specialize (IH _ Hc Hn). lia.
Qed.

(** ** What an operation leaves alone *)

(** The address is in none of the blocks' mappings. *)
Definition outside (esz n : Z) (abs : list ablk) (a : Z) : Prop :=
  Forall (λ ab, in_region (ab_elems ab) (asize esz n) a = false) abs.

#[export] Instance outside_dec esz n abs a : Decision (outside esz n abs a).
Proof. unfold outside. apply _. Defined.

Lemma outside_mono esz n abs abs' a :
  abs ⊆ abs' → outside esz n abs' a → outside esz n abs a.
Proof. unfold outside. rewrite !Forall_forall. auto. Qed.

Lemma outside_slot esz n abs a ab x :
  0 ≤ esz → 0 ≤ n → outside esz n abs a → ab ∈ abs → x ∈ bslots esz n ab →
  a < x.1 ∨ x.2 + esz ≤ a.
Proof.
  intros He Hn Ho Hab Hx. unfold outside in Ho. rewrite Forall_forall in Ho. specialize (Ho ab Hab).
  apply slot_in_blk in Hx as (? & ? & ?); [|done..]. unfold in_region, SZ_MEMBLOCK in *. lia.
Qed.

(** The memory at the addresses [P], the blocks at [Q] and the heaps other than [bh] are the
    same in both states. *)
Record keeps (P Q : Z → Prop) (bh : Z) (s s' : bstate) : Prop := {
  kp_nodes : ∀ a, P a → st_nodes s' !! a = st_nodes s !! a;
  kp_owner : ∀ a, P a → st_owner s' !! a = st_owner s !! a;
  kp_bytes : ∀ a, P a → st_bytes s' a = st_bytes s a;
  kp_blocks : ∀ b, Q b → st_blocks s' !! b = st_blocks s !! b;
  kp_heaps : ∀ h, h ≠ bh → st_heaps s' !! h = st_heaps s !! h
}.

Lemma keeps_refl P Q bh s : keeps P Q bh s s.
Proof. by split. Qed.

Lemma keeps_trans P Q bh s1 s2 s3 : keeps P Q bh s1 s2 → keeps P Q bh s2 s3 → keeps P Q bh s1 s3.
Proof.
  intros [A1 A2 A3 A4 A5] [B1 B2 B3 B4 B5].
  split; intros x Hx; [rewrite B1, A1|rewrite B2, A2|rewrite B3, A3|rewrite B4, A4|rewrite B5, A5]; done.
Qed.

Lemma keeps_mono (P Q P' Q' : Z → Prop) bh s s' :
  keeps P Q bh s s' → (∀ a, P' a → P a) → (∀ b, Q' b → Q b) → keeps P' Q' bh s s'.
Proof. intros [? ? ? ? ?] HP HQ. split; auto. Qed.

(** Nothing changes but the heap at [bh] and what is in the blocks [abs]. *)
Definition untouched (esz n : Z) (abs : list ablk) (bh : Z) (s s' : bstate) : Prop :=
  keeps (outside esz n abs) (λ b, b ∉ ab_addr <$> abs) bh s s' ∧ st_lists s' = st_lists s.

Lemma untouched_refl esz n abs bh s : untouched esz n abs bh s s.
Proof. split; [apply keeps_refl|done]. Qed.

Lemma untouched_trans esz n abs bh s1 s2 s3 :
  untouched esz n abs bh s1 s2 → untouched esz n abs bh s2 s3 → untouched esz n abs bh s1 s3.
Proof. intros [? ?] [? ?]. split; [by eapply keeps_trans|congruence]. Qed.

Lemma untouched_mono esz n abs abs' bh s s' :
  untouched esz n abs bh s s' → abs ⊆ abs' → untouched esz n abs' bh s s'.
Proof.
  intros [Hk ?] Hin. split; [|done]. eapply keeps_mono; [exact Hk|intros a; by apply outside_mono|].
  cbn. intros b Hb Hb'. apply Hb. apply list_elem_of_fmap in Hb' as (x & -> & Hx).
  apply list_elem_of_fmap_2. auto.
Qed.

(** Blocks with the same addresses have the same footprint. *)
Lemma outside_with esz n pre ab fs us post a :
  outside esz n (pre ++ with_lists ab fs us :: post) a ↔ outside esz n (pre ++ ab :: post) a.
Proof. unfold outside. by rewrite !Forall_app, !Forall_cons. Qed.

(** A slot of a block changes. *)
Lemma slot_untouched s s' bh hp abs ab m d :
  heap_ok s bh hp abs → ab ∈ abs → (m, d) ∈ ab_free ab ++ ab_used ab →
  frame (ab_free ab ++ ab_used ab).*1 (st_nodes s) (st_nodes s') → st_owner s' = st_owner s →
  st_bytes s' = memset0 d (bh_elemSize hp) (st_bytes s) →
  (∀ b, b ≠ ab_addr ab → st_blocks s' !! b = st_blocks s !! b) →
  (∀ h, h ≠ bh → st_heaps s' !! h = st_heaps s !! h) → st_lists s' = st_lists s →
  untouched (bh_elemSize hp) (bh_elemsPerBlock hp) abs bh s s'.
Proof.
  intros Hok Hab Hmd Hfr Ho Hby Hbl Hh Hl. pose proof Hok as [_ _ (He & Hn & _) _ Hc _ _ _ _].
  destruct (chain_in _ _ _ _ _ _ Hc Hab) as [next Hk].
  assert (0 ≤ bh_elemSize hp ∧ 0 ≤ bh_elemsPerBlock hp) as [He' Hn'] by lia.
  split; [split|done].
  - intros a Ha. apply Hfr. intros (x & -> & Hx)%list_elem_of_fmap.
    rewrite (bk_slots _ _ _ _ _ Hk) in Hx.
    pose proof (slot_in_blk _ _ _ _ He' Hn' Hx) as (_ & ? & _). unfold SZ_MEMBLOCK in *.
    destruct (outside_slot _ _ _ _ _ _ He' Hn' Ha Hab Hx); lia.
  - intros a _. by rewrite Ho.
  - intros a Ha. rewrite Hby. rewrite (bk_slots _ _ _ _ _ Hk) in Hmd.
    pose proof (slot_in_blk _ _ _ _ He' Hn' Hmd) as (_ & ? & _). unfold SZ_MEMBLOCK in *.
    destruct (outside_slot _ _ _ _ _ _ He' Hn' Ha Hab Hmd); cbn [fst snd] in *;
      unfold memset0, in_region; destruct (_ && _) eqn:E; try done; lia.
  - intros b Hb. apply Hbl. intros ->. apply Hb. by apply list_elem_of_fmap_2.
  - done.
Qed.
