(* ===== verification/BallocOps.v ===== *)
(** * The operations of the block allocator on a well-formed heap

    Each operation keeps the heap well-formed, and leaves everything that is not the heap's
    alone ([untouched], [keeps]). *)
From S2P Require Import Prelude CStd Dlink DlinkSpec Balloc BallocFacts.

Local Open Scope Z_scope.

(** ** Allocation *)
Lemma blk_block esz n s ab next :
  blk_ok esz n s ab next →
  ∃ lf lu, get_block s (ab_addr ab) = Ret (Block (asize esz n) next (ab_elems ab) lf lu) ∧
    st_blocks s !! ab_addr ab = Some (Block (asize esz n) next (ab_elems ab) lf lu) ∧
    dll (st_nodes s) lf (ab_free ab) ∧ dll (st_nodes s) lu (ab_used ab).
Proof.
  intros [Ha _ (lf & lu & Hb & ? & ?) _ _]. exists lf, lu. split_and!; try done.
  by apply get_block_some.
Qed.

(** Blocks without a free slot are passed over. *)
Lemma alloc_walk_skip esz n s bh pre rest fuel :
  chain esz n s (pre ++ rest) 0 → Forall (λ b, ab_free b = []) pre →
  alloc_walk (length pre + fuel) bh (hd 0 (ab_addr <$> pre ++ rest)) s =
  alloc_walk fuel bh (hd 0 (ab_addr <$> rest)) s.
Proof.
  induction pre as [|b pre IH]; intros Hc Hf; [done|]. destruct Hc as [Hb Hc].
  apply Forall_cons in Hf as [Hf0 Hf]. cbn [length Nat.add app fmap list_fmap hd alloc_walk].
  destruct (blk_block _ _ _ _ _ Hb) as (lf & lu & Hget & _ & Hlf & _).
  destruct (Z.eqb_spec (ab_addr b) 0) as [E|_]; [by destruct (bk_addr _ _ _ _ _ Hb)|].
  rewrite Hget. cbn [obind b_free b_next]. rewrite (dll_len _ _ _ Hlf), Hf0. cbn [length].
  by apply IH.
Qed.

(** The heap after one slot went from one list of a block to the other. *)
Lemma heap_update s s' bh hp pre ab post w f u fs us k :
  heap_ok s bh hp (pre ++ ab :: post) →
  st_blocks s !! ab_addr ab = Some w →
  st_blocks s' = <[ab_addr ab := set_lists f u w]> (st_blocks s) → st_owner s' = st_owner s →
  frame (ab_free ab ++ ab_used ab).*1 (st_nodes s) (st_nodes s') →
  dll (st_nodes s') f fs → dll (st_nodes s') u us → fs ++ us ≡ₚ ab_free ab ++ ab_used ab →
  st_heaps s' = <[bh := set_free (bh_freeElems hp + k) hp]> (st_heaps s) →
  Z.of_nat (length fs) = Z.of_nat (length (ab_free ab)) + k →
  heap_ok s' bh (set_free (bh_freeElems hp + k) hp) (pre ++ with_lists ab fs us :: post).
Proof.
  intros [Hbh Hheap Hpar Hbase Hc Hsep Hcnt Hfree Hsmall] Hw Hbl Hown Hfr Hf Hu Hperm Hhs Hk.
  pose proof Hpar as (Hesz & Hn & _).
  destruct (chain_update (bh_elemSize hp) (bh_elemsPerBlock hp) s s' pre ab post w f u fs us)
    as [Hc' Hsep']; try done; [lia..|].
  assert (total_free (pre ++ with_lists ab fs us :: post) = bh_freeElems hp + k) as Ht.
  { rewrite Hfree, !total_free_app, !total_free_cons. cbn [with_lists ab_free]. lia. }
  assert (wrap64 (bh_freeElems hp + k) = bh_freeElems hp + k) as Hwr.
  { apply wrap64_small. rewrite <- Ht.
    pose proof (total_free_bound _ _ _ _ _ Hc' ltac:(lia)) as H.
    rewrite !length_app in *. cbn [length] in *. lia. }
  split; cbn [set_free bh_elemSize bh_elemsPerBlock bh_base bh_blocksAllocated bh_freeElems];
    try done.
  - by rewrite Hhs, lookup_insert_eq.
  - by rewrite hd_addr_with.
  - rewrite Hcnt, !length_app. cbn [length]. lia.
  - by rewrite Hwr, Ht.
  - rewrite !length_app in *. cbn [length] in *. lia.
Qed.

(** An element follows its header. *)
Lemma blk_slot_data esz n s ab next m d :
  blk_ok esz n s ab next → (m, d) ∈ ab_free ab ++ ab_used ab → 0 ≤ esz → 0 ≤ n →
  d = m + SZ_MEMBLOCK ∧ 0 < m.
Proof.
  intros Hb Hin He Hn. rewrite (bk_slots _ _ _ _ _ Hb) in Hin.
  pose proof (slot_in_blk _ _ _ _ He Hn Hin) as (? & ? & _).
  pose proof (bk_elems _ _ _ _ _ Hb). cbn in *. lia.
Qed.

Lemma blk_lists_nodup esz n s ab next :
  blk_ok esz n s ab next → 0 ≤ esz → NoDup (ab_free ab ++ ab_used ab).*1.
Proof.
  intros Hb He. rewrite (bk_slots _ _ _ _ _ Hb). by apply slots_NoDup.
Qed.

(** [alloc_walk] takes the first free slot of the first block that has one. *)
Lemma alloc_walk_ok s bh hp pre ab post m d fs fuel :
  heap_ok s bh hp (pre ++ ab :: post) → Forall (λ b, ab_free b = []) pre →
  ab_free ab = (m, d) :: fs → (length pre < fuel)%nat →
  ∃ s', alloc_walk fuel bh (bh_base hp) s = Ret (d, s') ∧
    heap_ok s' bh (set_free (bh_freeElems hp + -1) hp)
      (pre ++ with_lists ab fs ((m, d) :: ab_used ab) :: post) ∧
    st_bytes s' = memset0 d (bh_elemSize hp) (st_bytes s) ∧
    untouched (bh_elemSize hp) (bh_elemsPerBlock hp) (pre ++ ab :: post) bh s s'.
Proof.
  intros Hok Hpre Hab Hfuel. pose proof Hok as [Hbh Hheap (Hesz & Hn & _) Hbase Hc _ _ _ _].
  rewrite Hbase. replace fuel with (length pre + S (fuel - S (length pre)))%nat by lia.
  rewrite (alloc_walk_skip _ _ _ _ _ _ _ Hc Hpre). cbn [fmap list_fmap hd alloc_walk].
  apply chain_app in Hc as [_ [Hb _]].
  destruct (blk_block _ _ _ _ _ Hb) as (lf & lu & Hget & Hblk & Hlf & Hlu).
  destruct (Z.eqb_spec (ab_addr ab) 0) as [E|_]; [by destruct (bk_addr _ _ _ _ _ Hb)|].
  pose proof (blk_lists_nodup _ _ _ _ _ Hb ltac:(lia)) as Hnd.
  pose proof (blk_count _ _ _ _ _ Hb ltac:(lia)) as Hcnt.
  destruct (blk_slot_data _ _ _ _ _ m d Hb) as [Hd Hm]; [rewrite Hab; left|lia|lia|].
  rewrite Hget. cbn [obind b_free b_used]. rewrite Hab in Hlf, Hnd, Hcnt. cbn [length] in Hcnt.
  rewrite (dll_len _ _ _ Hlf). cbn [length].
  destruct (Z.ltb_spec 0 (Z.of_nat (S (length fs)))); [|lia].
  rewrite (get_heap_some _ _ _ Hbh Hheap). cbn [obind].
  rewrite (dll_hd _ _ _ Hlf). cbn [fmap list_fmap fst hd].
  destruct (move_ok (st_nodes s) lf lu [] m d fs (ab_used ab)) as (h' & f' & u' & Hmv & Hf' & Hu' & Hfr);
    [done|done| |rewrite (dll_len _ _ _ Hlf); cbn [length]; lia
    |rewrite (dll_len _ _ _ Hlu); cbn [length] in *; lia|].
  { cbn [app]. rewrite fmap_app in Hnd. by apply NoDup_app in Hnd as (_ & ? & _). }
  cbn [st_nodes put_heap set_heaps]. rewrite Hmv. cbn [obind].
  destruct Hu' as [Hseg Hund Huh Hut Hul]. pose proof Hseg as (Hmz & Hnode & _).
  rewrite (load_some _ _ _ Hmz Hnode). cbn [obind dn_data].
  destruct (Z.eqb_spec d 0) as [E|_]; [unfold SZ_MEMBLOCK in *; lia|].
  assert (frame (ab_free ab ++ ab_used ab).*1 (st_nodes s) h') as Hframe
    by (rewrite Hab, fmap_app; exact Hfr).
  eexists. split; [done|]. split; [|split; [done|]].
  - eapply (heap_update s _ bh hp pre ab post); [exact Hok|exact Hblk|reflexivity|reflexivity|
      exact Hframe|exact Hf'|by split| |reflexivity|rewrite Hab; cbn [length app]; lia].
    rewrite Hab. cbn [app]. by rewrite Permutation_middle.
  - eapply (slot_untouched _ _ _ _ _ ab m d Hok); [rewrite elem_of_app, elem_of_cons; auto|
      rewrite Hab; left|exact Hframe|done|done| | |done];
      intros b Hne; cbn; by apply lookup_insert_ne.
Qed.

(** ** A new block *)

(** calloc and mmap return fresh memory. *)
Record fresh (esz n : Z) (abs : list ablk) (b e : Z) : Prop := {
  fr_addr : b ≠ 0;
  fr_new : b ∉ ab_addr <$> abs;
  fr_pos : 0 < e;
  fr_apart : ∀ a, a ∈ abs → apart esz n (ABlk b e [] []) a;
  fr_room : Z.of_nat (S (length abs)) * n < 2 ^ 64
}.

(** A block none of whose elements is in use. *)
Definition new_blk (esz n b e : Z) : ablk := ABlk b e (rev (slots e esz (Z.to_nat n))) [].

Lemma asize_wrap esz n :
  params_ok esz n → wrap64 (wrap64 (n + 1) * wrap64 (esz + SZ_MEMBLOCK)) = asize esz n.
Proof.
  intros (He & Hn & Hs). unfold asize, SZ_MEMBLOCK in *.
  assert (esz + 32 ≤ (n + 1) * (esz + 32)) by nia.
  rewrite (wrap64_small (n + 1)), (wrap64_small (esz + 32)) by lia.
  apply wrap64_small. split; [nia|lia].
Qed.

Lemma slots_outside esz n abs b e a x :
  0 ≤ esz → 0 ≤ n → fresh esz n abs b e → a ∈ abs → x ∈ bslots esz n a →
  x.1 ∉ (slots e esz (Z.to_nat n)).*1.
Proof.
  intros He Hn Hf Ha Hx (y & E & Hy)%list_elem_of_fmap.
  apply slot_in_blk in Hx as (? & ? & ?); [|done..].
  apply (slot_in_blk esz n (ABlk b e [] []) y) in Hy as (? & ? & ?); [|done..].
  pose proof (fr_apart _ _ _ _ _ Hf a Ha) as Hap. unfold apart, SZ_MEMBLOCK in *.
  cbn [ab_elems] in *. lia.
Qed.

(** What [blockheap_block_new] does to a chain of blocks. *)
Lemma new_chain esz n s s' abs b e fl blk :
  params_ok esz n → fresh esz n abs b e → chain esz n s abs 0 →
  st_blocks s' = <[b := Block (asize esz n) (hd 0 (ab_addr <$> abs)) e fl dl_empty]> blk →
  (∀ a, a ∈ ab_addr <$> abs → blk !! a = st_blocks s !! a) →
  dll (st_nodes s') fl (rev (slots e esz (Z.to_nat n))) →
  frame (slots e esz (Z.to_nat n)).*1 (st_nodes s) (st_nodes s') →
  (∀ a, a ∈ (slots e esz (Z.to_nat n)).*1 → st_owner s' !! a = Some b) →
  (∀ a, a ∉ (slots e esz (Z.to_nat n)).*1 → st_owner s' !! a = st_owner s !! a) →
  chain esz n s' (new_blk esz n b e :: abs) 0.
Proof.
  intros (He & Hn & _) Hfr Hc Hbl Hblk Hl Hframe Ho1 Ho2. split.
  - split; cbn [new_blk ab_addr ab_elems ab_free ab_used].
    + apply Hfr.
    + apply Hfr.
    + exists fl, dl_empty. rewrite Hbl, lookup_insert_eq. split_and!; [done|done|apply dll_nil].
    + rewrite app_nil_r. unfold bslots. cbn. symmetry. apply Permutation_rev.
    + intros x Hx. apply Ho1. by apply list_elem_of_fmap_2.
  - eapply chain_frame; [exact Hc|]. intros a Ha.
    assert (ab_addr a ∈ ab_addr <$> abs) as Hin by (by apply list_elem_of_fmap_2).
    rewrite Hbl, lookup_insert_ne by (intros ->; by apply (fr_new _ _ _ _ _ Hfr)).
    split; [auto|]. intros x Hx.
    assert (x.1 ∉ (slots e esz (Z.to_nat n)).*1) as Hx'
      by (eapply slots_outside; [| |exact Hfr|exact Ha|exact Hx]; lia).
    split; [by apply Hframe|by apply Ho2].
Qed.

Lemma new_separate esz n abs b e :
  fresh esz n abs b e → separate esz n abs → separate esz n (new_blk esz n b e :: abs).
Proof.
  intros Hf [Hnd Hap]. split; [cbn; apply NoDup_cons; split; [apply Hf|done]|].
  intros x y [->|Hx]%elem_of_cons [->|Hy]%elem_of_cons Hne; [done| | |by apply Hap].
  - exact (fr_apart _ _ _ _ _ Hf y Hy).
  - unfold apart. destruct (fr_apart _ _ _ _ _ Hf x Hx); cbn in *; [by right|by left].
Qed.

Lemma total_new esz n b e : 0 ≤ n → total_free [new_blk esz n b e] = n.
Proof.
  intros Hn. rewrite total_free_cons. cbn [new_blk ab_free]. rewrite length_rev, slots_length.
  unfold total_free. cbn. lia.
Qed.

(** Initialising a new block changes that block only. *)
Lemma new_untouched esz n s b e bh h own blk hp :
  0 ≤ esz → 0 ≤ n →
  frame (slots e esz (Z.to_nat n)).*1 (st_nodes s) h →
  (∀ a, a ∉ (slots e esz (Z.to_nat n)).*1 → own !! a = st_owner s !! a) →
  untouched esz n [new_blk esz n b e] bh s
    (put_heap bh hp (put_block b blk (BState h own (st_blocks s) (st_heaps s)
       (memset0 e (asize esz n) (st_bytes s)) (st_lists s)))).
Proof.
  intros He Hn Hf Ho. split; [|done].
  assert (∀ a, outside esz n [new_blk esz n b e] a → a ∉ (slots e esz (Z.to_nat n)).*1) as Hout.
  { intros a Ha (x & -> & Hx)%list_elem_of_fmap.
    pose proof (slot_in_blk esz n (new_blk esz n b e) x He Hn Hx) as (_ & ? & _).
    unfold SZ_MEMBLOCK in *.
    assert (new_blk esz n b e ∈ [new_blk esz n b e]) as Hin by left.
    destruct (outside_slot _ _ _ _ _ _ He Hn Ha Hin Hx); lia. }
  split; cbn.
  - intros a Ha. by apply Hf, Hout.
  - intros a Ha. by apply Ho, Hout.
  - intros a [Ha _]%Forall_cons. cbn in Ha. unfold memset0. by rewrite Ha.
  - intros x Hx. apply lookup_insert_ne. intros <-. apply Hx. left.
  - intros x Hx. by apply lookup_insert_ne.
Qed.

Lemma block_new_ok s bh hp abs b e :
  heap_ok s bh hp abs → fresh (bh_elemSize hp) (bh_elemsPerBlock hp) abs b e →
  ∃ s' hp', blockheap_block_new (Some b, Some e) bh s = Ret (0, s') ∧
    heap_ok s' bh hp' (new_blk (bh_elemSize hp) (bh_elemsPerBlock hp) b e :: abs) ∧
    bh_elemSize hp' = bh_elemSize hp ∧ bh_elemsPerBlock hp' = bh_elemsPerBlock hp ∧
    st_bytes s' = memset0 e (asize (bh_elemSize hp) (bh_elemsPerBlock hp)) (st_bytes s) ∧
    st_lists s' = st_lists s ∧
    frame (slots e (bh_elemSize hp) (Z.to_nat (bh_elemsPerBlock hp))).*1 (st_nodes s) (st_nodes s') ∧
    untouched (bh_elemSize hp) (bh_elemsPerBlock hp)
      [new_blk (bh_elemSize hp) (bh_elemsPerBlock hp) b e] bh s s'.
Proof.
  intros [Hbh Hheap Hpar Hbase Hc Hsep Hcnt Hfree Hsmall] Hfr.
  pose proof Hpar as (He & Hn & Hsz). pose proof (fr_room _ _ _ _ _ Hfr) as Hroom.
  pose proof (fr_pos _ _ _ _ _ Hfr).
  unfold blockheap_block_new. cbn [fst snd]. rewrite (get_heap_some _ _ _ Hbh Hheap).
  cbn [obind]. rewrite (asize_wrap _ _ Hpar). set (esz := bh_elemSize hp) in *.
  set (n := bh_elemsPerBlock hp) in *.
  destruct (init_slots_ok (Z.to_nat n) b (e + asize esz n) esz e (st_nodes s) (st_owner s)
              dl_empty []) as (h' & own' & fl' & -> & Hl & Hframe & Ho1 & Ho2).
  { apply dll_nil. } { intros a Ha. by apply elem_of_nil in Ha. } { done. } { lia. }
  { rewrite Z2Nat.id by lia. unfold asize, SZ_MEMBLOCK. nia. } { cbn. lia. }
  cbn [obind]. rewrite app_nil_r in Hl, Hframe. eexists _,
    (set_base b (set_free (bh_freeElems hp + n) (set_count (bh_blocksAllocated hp + 1) hp))).
  split; [done|].
  assert (total_free abs + n < 2 ^ 64) as Htot.
  { pose proof (total_free_bound _ _ _ _ _ Hc ltac:(lia)) as H'. lia. }
  pose proof (total_free_bound _ _ _ _ _ Hc ltac:(lia)) as [Hpos _].
  split; [|split_and!; [done..|eapply new_untouched; [lia|lia|done|done]]].
  split; cbn [set_base set_free set_count bh_elemSize bh_elemsPerBlock bh_base
    bh_blocksAllocated bh_freeElems].
  - done.
  - cbn [put_heap set_heaps st_heaps]. by rewrite lookup_insert_eq.
  - done.
  - done.
  - eapply (new_chain esz n s _ abs b e fl' (st_blocks s)); try done. cbn. by rewrite Hbase.
  - by apply new_separate.
  - rewrite Hcnt. cbn [length]. rewrite wrap64_small by nia. lia.
  - change (new_blk esz n b e :: abs) with ([new_blk esz n b e] ++ abs).
    rewrite total_free_app, total_new, Hfree by lia. fold n. rewrite wrap64_small; lia.
  - done.
Qed.

(** ** Objects *)
Lemma elem_of_live abs y :
  y ∈ live abs ↔ ∃ ab m, ab ∈ abs ∧ (m, y) ∈ ab_used ab.
Proof.
  induction abs as [|ab abs IH].
  { split; [by intros ?%elem_of_nil|]. intros (ab & m & Hin & _). by apply elem_of_nil in Hin. }
  rewrite live_cons, elem_of_app, IH. split.
  - intros [([m y'] & -> & H)%list_elem_of_fmap|(b & m & Hb & Hin)].
    + exists ab, m. split; [left|done].
    + exists b, m. split; [by right|done].
  - intros (b & m & [->|Hb]%elem_of_cons & Hin); [left|right; eauto].
    apply list_elem_of_fmap. by exists (m, y).
Qed.

(** Two slots of a heap, one of them free and the other in use (or both in use
    and different), do not overlap. *)
Lemma objects_apart s bh hp abs a b m x m' y :
  heap_ok s bh hp abs → a ∈ abs → b ∈ abs → (m, x) ∈ ab_free a ++ ab_used a →
  (m', y) ∈ ab_free b ++ ab_used b → m ≠ m' →
  x + bh_elemSize hp ≤ m' ∨ y + bh_elemSize hp ≤ m.
Proof.
  intros Hok Ha Hb Hx Hy Hne. destruct Hok as [_ _ (He & Hn & _) _ Hc Hsep _ _ _].
  destruct (chain_in _ _ _ _ _ _ Hc Ha) as [na Hka]. destruct (chain_in _ _ _ _ _ _ Hc Hb) as [nb Hkb].
  rewrite (bk_slots _ _ _ _ _ Hka) in Hx. rewrite (bk_slots _ _ _ _ _ Hkb) in Hy.
  destruct (decide (ab_addr a = ab_addr b)) as [E|E].
  - assert (a = b) as -> by (eapply separate_inj; eauto).
    apply (slots_apart _ _ _ (m, x) (m', y)) in Hx; [done|lia|done|congruence].
  - eapply (slots_separate _ _ _ a b (m, x) (m', y)); [..|exact Hx|exact Hy]; eauto; lia.
Qed.

Lemma live_header s bh hp abs a m x :
  heap_ok s bh hp abs → a ∈ abs → (m, x) ∈ ab_free a ++ ab_used a → x = m + SZ_MEMBLOCK ∧ 0 < m.
Proof.
  intros [_ _ (He & Hn & _) _ Hc _ _ _ _] Ha Hx.
  destruct (chain_in _ _ _ _ _ _ Hc Ha) as [na Hka]. eapply blk_slot_data; eauto; lia.
Qed.

(** The header of a slot determines its block and the list it is in. *)
Lemma free_not_live s bh hp abs ab m x :
  heap_ok s bh hp abs → ab ∈ abs → (m, x) ∈ ab_free ab →
  ∀ y, y ∈ live abs → x + bh_elemSize hp ≤ y ∧ x ≠ y ∨ y + bh_elemSize hp ≤ x ∧ x ≠ y.
Proof.
  intros Hok Hab Hx y (b & m' & Hb & Hy)%elem_of_live.
  assert ((m, x) ∈ ab_free ab ++ ab_used ab) as Hx' by (apply elem_of_app; by left).
  assert ((m', y) ∈ ab_free b ++ ab_used b) as Hy' by (apply elem_of_app; by right).
  destruct (live_header _ _ _ _ _ _ _ Hok Hab Hx') as [-> Hm].
  destruct (live_header _ _ _ _ _ _ _ Hok Hb Hy') as [-> Hm'].
  assert (0 < bh_elemSize hp) as He by apply Hok.
  destruct (decide (m = m')) as [->|Hne].
  - exfalso. pose proof Hok as [_ _ (_ & Hn & _) _ Hc Hsep _ _ _].
    destruct (chain_in _ _ _ _ _ _ Hc Hab) as [na Hka].
    destruct (chain_in _ _ _ _ _ _ Hc Hb) as [nb Hkb].
    destruct (decide (ab_addr ab = ab_addr b)) as [E|E].
    + assert (ab = b) as -> by (eapply separate_inj; eauto).
      pose proof (blk_lists_nodup _ _ _ _ _ Hka ltac:(lia)) as Hnd.
      rewrite fmap_app in Hnd. apply NoDup_app in Hnd as (_ & Hd & _).
      apply (Hd m'); apply list_elem_of_fmap; [by exists (m', m' + SZ_MEMBLOCK)|].
      by exists (m', m' + SZ_MEMBLOCK).
    + rewrite (bk_slots _ _ _ _ _ Hka) in Hx'. rewrite (bk_slots _ _ _ _ _ Hkb) in Hy'.
      pose proof (slots_separate (bh_elemSize hp) (bh_elemsPerBlock hp) abs ab b _ _ ltac:(lia) ltac:(lia) Hsep Hab Hb E Hx' Hy').
      cbn in *. unfold SZ_MEMBLOCK in *. lia.
  - pose proof (objects_apart _ _ _ _ _ _ _ _ _ _ Hok Hab Hb Hx' Hy' Hne).
    unfold SZ_MEMBLOCK in *. lia.
Qed.

Lemma first_free abs :
  total_free abs ≠ 0 →
  ∃ pre ab post m d fs, abs = pre ++ ab :: post ∧ Forall (λ b, ab_free b = []) pre ∧
    ab_free ab = (m, d) :: fs.
Proof.
  induction abs as [|ab abs IH]; [done|]. rewrite total_free_cons. intros H.
  destruct (ab_free ab) as [|[m d] fs] eqn:E.
  - destruct IH as (pre & ab' & post & m & d & fs & -> & ? & ?); [cbn in H; lia|].
    exists (ab :: pre), ab', post, m, d, fs. split_and!; [done|by constructor|done].
  - exists [], ab, abs, m, d, fs. split_and!; [done|constructor|done].
Qed.

(** The outcome of an allocation: a zeroed object that was not in use and
    overlaps no object in use, whose contents stay. *)
Definition allocated (s s' : bstate) (esz : Z) (abs abs' : list ablk) (x : Z) : Prop :=
  live abs' ≡ₚ x :: live abs ∧ (x ∉ live abs) ∧ 0 < x ∧
  (∀ a, x ≤ a < x + esz → st_bytes s' a = 0) ∧
  (∀ y, y ∈ live abs → (x + esz ≤ y ∨ y + esz ≤ x) ∧
     ∀ a, y ≤ a < y + esz → st_bytes s' a = st_bytes s a).

Lemma memset0_in p n m a : p ≤ a < p + n → memset0 p n m a = 0.
Proof. intros H. unfold memset0, in_region. replace (_ && _) with true by lia. done. Qed.
Lemma memset0_out p n m a : a < p ∨ p + n ≤ a → memset0 p n m a = m a.
Proof. intros H. unfold memset0, in_region. replace (_ && _) with false by lia. done. Qed.

(** The blocks are where they were; only the lists of free and used slots differ. *)
Definition same_shape (hp hp' : blockheap) (abs abs' : list ablk) : Prop :=
  bh_elemSize hp' = bh_elemSize hp ∧ bh_elemsPerBlock hp' = bh_elemsPerBlock hp ∧
  ((λ ab, (ab_addr ab, ab_elems ab)) <$> abs') = ((λ ab, (ab_addr ab, ab_elems ab)) <$> abs).

Lemma same_shape_with hp k pre ab fs us post :
  same_shape hp (set_free k hp) (pre ++ ab :: post) (pre ++ with_lists ab fs us :: post).
Proof. split_and!; [done|done|]. by rewrite !fmap_app. Qed.

(** Allocation when some slot is free. *)
Lemma walk_allocates s bh hp abs fuel :
  heap_ok s bh hp abs → total_free abs ≠ 0 → (length abs < fuel)%nat →
  ∃ x s' hp' abs', alloc_walk fuel bh (bh_base hp) s = Ret (x, s') ∧
    heap_ok s' bh hp' abs' ∧ allocated s s' (bh_elemSize hp) abs abs' x ∧
    total_free abs' = total_free abs - 1 ∧
    untouched (bh_elemSize hp) (bh_elemsPerBlock hp) abs bh s s' ∧ same_shape hp hp' abs abs'.
Proof.
  intros Hok Hne Hfuel. destruct (first_free _ Hne) as (pre & ab & post & m & d & fs & -> & Hpre & Hab).
  rewrite length_app in Hfuel. cbn [length] in Hfuel.
  destruct (alloc_walk_ok s bh hp pre ab post m d fs fuel Hok Hpre Hab) as (s' & -> & Hok' & Hby & Hun);
    [lia|].
  assert (ab ∈ pre ++ ab :: post) as Hin by (rewrite elem_of_app, elem_of_cons; auto).
  assert ((m, d) ∈ ab_free ab) as Hmd by (rewrite Hab; left).
  pose proof (free_not_live _ _ _ _ _ _ _ Hok Hin Hmd) as Hdis.
  destruct (live_header _ _ _ _ _ m d Hok Hin) as [Hd Hm]; [rewrite elem_of_app; auto|].
  exists d, s', (set_free (bh_freeElems hp + -1) hp),
    (pre ++ with_lists ab fs ((m, d) :: ab_used ab) :: post).
  split_and!; [done|done| | |exact Hun|apply same_shape_with].
  - unfold allocated. rewrite Hby. split_and!.
    + rewrite !live_app, !live_cons. cbn [with_lists ab_used fmap list_fmap snd app].
      symmetry. apply Permutation_middle.
    + intros Hl. destruct (Hdis d Hl); lia.
    + unfold SZ_MEMBLOCK in *. lia.
    + intros a Ha. by apply memset0_in.
    + intros y Hy. destruct (Hdis y Hy) as [[? _]|[? _]]; (split; [lia|]);
        intros a Ha; apply memset0_out; lia.
  - rewrite !total_free_app, !total_free_cons. cbn [with_lists ab_free]. rewrite Hab.
    cbn [length]. lia.
Qed.

Lemma chain_blocks esz n s abs q a :
  chain esz n s abs q → a ∈ ab_addr <$> abs → is_Some (st_blocks s !! a).
Proof.
  intros Hc (ab & -> & Hab)%list_elem_of_fmap. destruct (chain_in _ _ _ _ _ _ Hc Hab) as [next Hok].
  destruct (bk_lists _ _ _ _ _ Hok) as (lf & lu & -> & _). by eexists.
Qed.

(** The loops over the blocks of a heap have fuel enough. *)
Lemma block_fuel_enough esz n s abs q :
  chain esz n s abs q → NoDup (ab_addr <$> abs) → (length abs < block_fuel s)%nat.
Proof.
  intros Hc Hnd. unfold block_fuel. rewrite <- (length_fmap ab_addr abs).
  apply le_n_S, keys_size; [done|]. intros a Ha. by eapply chain_blocks.
Qed.

(** Objects in use lie outside of a fresh region. *)
Lemma live_outside s bh hp abs b e y a :
  heap_ok s bh hp abs → fresh (bh_elemSize hp) (bh_elemsPerBlock hp) abs b e → y ∈ live abs →
  y ≤ a < y + bh_elemSize hp →
  a < e ∨ e + asize (bh_elemSize hp) (bh_elemsPerBlock hp) ≤ a.
Proof.
  intros Hok Hfr (ab & m & Hab & Hy)%elem_of_live Ha.
  pose proof Hok as [_ _ (He & Hn & _) _ Hc _ _ _ _].
  destruct (chain_in _ _ _ _ _ _ Hc Hab) as [next Hk].
  assert ((m, y) ∈ bslots (bh_elemSize hp) (bh_elemsPerBlock hp) ab) as Hs.
  { rewrite <- (bk_slots _ _ _ _ _ Hk). apply elem_of_app. by right. }
  apply slot_in_blk in Hs as (? & ? & ?); [|lia..].
  pose proof (fr_apart _ _ _ _ _ Hfr ab Hab) as Hap. unfold apart, SZ_MEMBLOCK in *. cbn in *. lia.
Qed.

Lemma heap_ok_fuel s bh hp abs : heap_ok s bh hp abs → (length abs < block_fuel s)%nat.
Proof. intros Hok. eapply block_fuel_enough; [apply Hok|apply Hok]. Qed.

(** What an allocation needs from the operating system. *)
Definition os_good (hp : blockheap) (abs : list ablk) (o : os) : Prop :=
  total_free abs ≠ 0 ∨
  ∃ b e, o = (Some b, Some e) ∧ fresh (bh_elemSize hp) (bh_elemsPerBlock hp) abs b e.

(** The blocks of the heap after an allocation: a new one comes first when no slot was free. *)
Definition grown (o : os) (s s' : bstate) (bh : Z) (hp hp' : blockheap) (abs abs' : list ablk) : Prop :=
  ∃ new, same_shape hp hp' (new ++ abs) abs' ∧
    untouched (bh_elemSize hp) (bh_elemsPerBlock hp) (new ++ abs) bh s s' ∧
    (new = [] ∨ total_free abs = 0 ∧ ∃ b e, o = (Some b, Some e) ∧
       new = [new_blk (bh_elemSize hp) (bh_elemsPerBlock hp) b e]).

Lemma alloc_ok s bh hp abs o :
  heap_ok s bh hp abs → os_good hp abs o →
  ∃ x s' hp' abs', blockheap_alloc o bh s = Ret (x, s') ∧ heap_ok s' bh hp' abs' ∧
    allocated s s' (bh_elemSize hp) abs abs' x ∧ grown o s s' bh hp hp' abs abs'.
Proof.
  intros Hok Hos. unfold blockheap_alloc.
  destruct (Z.eqb_spec bh 0) as [E|_]; [by destruct (ho_bh _ _ _ _ Hok)|].
  rewrite (get_heap_some _ _ _ (ho_bh _ _ _ _ Hok) (ho_heap _ _ _ _ Hok)). cbn [obind].
  rewrite (ho_free _ _ _ _ Hok). destruct (Z.eqb_spec (total_free abs) 0) as [E0|Hne].
  - destruct Hos as [?|(b & e & -> & Hfr)]; [done|].
    destruct (block_new_ok s bh hp abs b e Hok Hfr)
      as (s1 & hp1 & -> & Hok1 & He1 & Hn1 & Hby1 & _ & _ & Hun1). cbn [obind fst snd].
    change (negb (0 =? 0)) with false. cbn [obind].
    rewrite (get_heap_some _ _ _ (ho_bh _ _ _ _ Hok1) (ho_heap _ _ _ _ Hok1)). cbn [obind].
    assert (0 < bh_elemsPerBlock hp) by apply Hok.
    destruct (walk_allocates s1 bh hp1 _ (block_fuel s1) Hok1)
      as (x & s' & hp' & abs' & -> & Hok' & (Hl & Hx & Hx0 & Hz & Hk) & _ & Hun & Hsh).
    { change (?x :: abs) with ([x] ++ abs). rewrite total_free_app, total_new; lia. }
    { by eapply heap_ok_fuel. }
    exists x, s', hp', abs'. split_and!; [done|done| |].
    2: { exists [new_blk (bh_elemSize hp) (bh_elemsPerBlock hp) b e]. unfold same_shape in *.
         rewrite He1, Hn1 in *. split_and!; [by destruct Hsh as (? & ? & ?)..| |right; split; [done|by exists b, e]].
         eapply untouched_trans; [|exact Hun]. eapply untouched_mono; [exact Hun1|]. set_solver. }
    rewrite He1 in *.
    rewrite live_cons in *. cbn [new_blk ab_used fmap list_fmap app] in *.
    split_and!; [done|done|done|done|]. intros y Hy. destruct (Hk y Hy) as [Hd Hb].
    split; [done|]. intros a Ha. rewrite Hb, Hby1 by done. apply memset0_out.
    eapply live_outside; eauto.
  - cbn [obind]. rewrite (get_heap_some _ _ _ (ho_bh _ _ _ _ Hok) (ho_heap _ _ _ _ Hok)).
    cbn [obind]. destruct (walk_allocates s bh hp abs (block_fuel s) Hok Hne)
      as (x & s' & hp' & abs' & -> & Hok' & Ha & _ & Hun & Hsh); [by eapply heap_ok_fuel|].
    exists x, s', hp', abs'. split_and!; [done|done|done|]. exists []. split_and!; [done|done|by left].
Qed.

(** When nothing is free and no block can be had, the collector that is called
    then finds nothing either. *)
Lemma alloc_exhausted s bh hp abs o :
  heap_ok s bh hp abs → total_free abs = 0 → o.1 = None ∨ o.2 = None →
  blockheap_alloc o bh s = Halt 1.
Proof.
  intros Hok E0 Ho. unfold blockheap_alloc.
  destruct (Z.eqb_spec bh 0) as [E|Hbnz]; [by destruct (ho_bh _ _ _ _ Hok)|].
  pose proof (get_heap_some _ _ _ (ho_bh _ _ _ _ Hok) (ho_heap _ _ _ _ Hok)) as Hget.
  assert (0 < bh_elemsPerBlock hp) by apply Hok.
  assert (∃ s1, blockheap_block_new o bh s = Ret (1, s1) ∧ get_heap s1 bh = Ret hp) as (s1 & -> & Hg1).
  { unfold blockheap_block_new. destruct o as [[b|] e]; cbn [fst snd] in *; [|by exists s].
    destruct Ho as [?| ->]; [done|]. rewrite Hget. cbn [obind]. eexists. split; [done|]. exact Hget. }
  rewrite Hget. cbn [obind]. rewrite (ho_free _ _ _ _ Hok), E0, Z.eqb_refl. cbn [obind fst snd negb].
  change (negb (1 =? 0)) with true. unfold blockheap_garbagecollect.
  destruct (Z.eqb_spec bh 0); [done|]. rewrite Hg1. cbn [obind].
  rewrite (ho_free _ _ _ _ Hok), E0. destruct (Z.ltb_spec 0 (bh_elemsPerBlock hp)); [|lia].
  cbn [orb obind snd]. rewrite Hg1. cbn [obind]. by rewrite (ho_free _ _ _ _ Hok), E0.
Qed.

(** ** Release *)
Lemma free_ok s bh hp abs x :
  heap_ok s bh hp abs → x ∈ live abs →
  ∃ s' hp' abs', blockheap_free bh x s = Ret (0, s') ∧ heap_ok s' bh hp' abs' ∧
    x :: live abs' ≡ₚ live abs ∧ total_free abs' = total_free abs + 1 ∧
    same_shape hp hp' abs abs' ∧
    st_bytes s' = memset0 x (bh_elemSize hp) (st_bytes s) ∧
    untouched (bh_elemSize hp) (bh_elemsPerBlock hp) abs bh s s'.
Proof.
  intros Hok (ab & m & Hab & Hmx)%elem_of_live.
  pose proof Hok as [Hbh Hheap (He & Hn & _) _ Hc Hsep _ _ _].
  assert ((m, x) ∈ ab_free ab ++ ab_used ab) as Hin by (apply elem_of_app; by right).
  destruct (live_header _ _ _ _ _ _ _ Hok Hab Hin) as [Hx Hm]. pose proof Hab as Hab'.
  apply list_elem_of_split in Hab as (pre & post & ->).
  apply list_elem_of_split in Hmx as (us1 & us2 & Hus).
  assert (∃ next, blk_ok (bh_elemSize hp) (bh_elemsPerBlock hp) s ab next) as [next Hk].
  { apply (chain_in _ _ _ _ _ _ Hc). rewrite elem_of_app, elem_of_cons. auto. }
  destruct (blk_block _ _ _ _ _ Hk) as (lf & lu & Hget & Hblk & Hlf & Hlu).
  pose proof (blk_lists_nodup _ _ _ _ _ Hk ltac:(lia)) as Hnd.
  pose proof (blk_count _ _ _ _ _ Hk ltac:(lia)) as Hcnt. rewrite Hus in Hlu, Hnd, Hcnt.
  assert (st_owner s !! m = Some (ab_addr ab)) as Hown.
  { apply (bk_owner _ _ _ _ _ Hk (m, x)). by rewrite <- (bk_slots _ _ _ _ _ Hk). }
  destruct (move_ok (st_nodes s) lu lf us1 m x us2 (ab_free ab))
    as (h' & u' & f' & Hmv & Hu' & Hf' & Hfr); [done|done| | | |].
  { rewrite fmap_app in Hnd. apply NoDup_app in Hnd as (_ & Hd & _).
    intros a Ha Hb. by apply (Hd a). }
  { rewrite (dll_len _ _ _ Hlu). lia. } { rewrite (dll_len _ _ _ Hlf). rewrite length_app in Hcnt. cbn [length] in Hcnt. lia. }
  assert (frame (ab_free ab ++ ab_used ab).*1 (st_nodes s) h') as Hframe.
  { eapply frame_mono; [exact Hfr|]. intros a. rewrite Hus, (fmap_app _ (ab_free ab)), !elem_of_app.
    tauto. }
  eexists _, (set_free (bh_freeElems hp + 1) hp),
    (pre ++ with_lists ab ((m, x) :: ab_free ab) (us1 ++ us2) :: post). split_and!.
  - unfold blockheap_free. unfold SZ_MEMBLOCK in *.
    destruct (Z.eqb_spec bh 0); [done|]. destruct (Z.eqb_spec x 0); [lia|].
    replace (x - 32) with m by lia. rewrite Hown. cbn [need obind].
    destruct (Z.eqb_spec (ab_addr ab) 0) as [E|_]; [by destruct (bk_addr _ _ _ _ _ Hk)|].
    rewrite (get_heap_some _ _ _ Hbh Hheap). cbn [obind].
    unfold get_block in Hget |- *. cbn [st_blocks put_heap set_heaps set_bytes]. rewrite Hget.
    cbn [obind b_used b_free]. change (st_nodes (put_heap _ _ _)) with (st_nodes s).
    rewrite Hmv. cbn [obind]. reflexivity.
  - eapply (heap_update s _ bh hp pre ab post); [exact Hok|exact Hblk|reflexivity|reflexivity|
      exact Hframe|exact Hf'|exact Hu'| |reflexivity|cbn [length]; lia].
    rewrite Hus. cbn [app]. by rewrite !Permutation_middle.
  - rewrite !live_app, !live_cons, Hus. cbn [with_lists ab_used].
    rewrite !fmap_app. cbn [fmap list_fmap snd]. rewrite <- !app_assoc. cbn [app].
    rewrite !(app_assoc (live pre) (us1.*2)). apply Permutation_middle.
  - rewrite !total_free_app, !total_free_cons. cbn [with_lists ab_free length]. lia.
  - apply same_shape_with.
  - done.
  - eapply (slot_untouched _ _ _ _ _ ab m x Hok Hab' Hin); [exact Hframe|done|done| | |done];
      intros b Hne; cbn; by apply lookup_insert_ne.
Qed.

(** ** Garbage collection *)
Lemma unmap_lookup p n s a :
  in_region p n a = false →
  st_nodes (blockheap_block_free p n s) !! a = st_nodes s !! a ∧
  st_owner (blockheap_block_free p n s) !! a = st_owner s !! a.
Proof.
  intros H. cbn [blockheap_block_free st_nodes st_owner]. split; apply option_eq; intros v;
    rewrite map_lookup_filter_Some; cbn [fst]; naive_solver.
Qed.

(** The slots of the other blocks survive the unmapping of one. *)
Lemma slot_survives esz n abs a b x :
  0 ≤ esz → 0 ≤ n → separate esz n abs → a ∈ abs → b ∈ abs → ab_addr a ≠ ab_addr b →
  x ∈ bslots esz n b → in_region (ab_elems a) (asize esz n) x.1 = false.
Proof.
  intros He Hn [_ Hap] Ha Hb Hne Hx. apply slot_in_blk in Hx as (? & ? & ?); [|done..].
  unfold in_region, SZ_MEMBLOCK in *. destruct (Hap a b Ha Hb Hne); lia.
Qed.

Lemma blk_relink esz n s s' ab next next' :
  blk_ok esz n s ab next →
  (∀ w, st_blocks s !! ab_addr ab = Some w → st_blocks s' !! ab_addr ab = Some (set_next next' w)) →
  (∀ x, x ∈ bslots esz n ab →
     st_nodes s' !! x.1 = st_nodes s !! x.1 ∧ st_owner s' !! x.1 = st_owner s !! x.1) →
  blk_ok esz n s' ab next'.
Proof.
  intros Hb Hbl Hx. destruct Hb as [Ha He (lf & lu & Hb & Hf & Hu) Hs Ho].
  set (s0 := put_block (ab_addr ab) (Block (asize esz n) next' (ab_elems ab) lf lu) s).
  assert (blk_ok esz n s0 ab next') as H0.
  { split; try done. exists lf, lu. cbn. by rewrite lookup_insert_eq. }
  apply (blk_frame esz n s0); [done| |done].
  rewrite (Hbl _ Hb). cbn. by rewrite lookup_insert_eq.
Qed.

Definition last_addr (abs : list ablk) : Z := default 0 (last (ab_addr <$> abs)).

Lemma last_addr_snoc abs ab : last_addr (abs ++ [ab]) = ab_addr ab.
Proof. unfold last_addr. rewrite fmap_app. cbn. by rewrite last_snoc. Qed.

Lemma separate_drop esz n pre ab post :
  separate esz n (pre ++ ab :: post) →
  separate esz n (pre ++ post) ∧
  ∀ b, b ∈ pre ++ post → b ∈ pre ++ ab :: post ∧ ab_addr ab ≠ ab_addr b.
Proof.
  intros [Hnd Hap]. rewrite fmap_app in Hnd. cbn in Hnd.
  apply NoDup_app in Hnd as (Hp & Hd & Hnd). apply NoDup_cons in Hnd as [Hna Hq].
  assert (∀ b, b ∈ pre ++ post → b ∈ pre ++ ab :: post ∧ ab_addr ab ≠ ab_addr b) as H.
  { intros b. rewrite !elem_of_app, elem_of_cons. intros Hb. split; [tauto|]. intros E.
    destruct Hb as [Hb|Hb]; apply (list_elem_of_fmap_2 ab_addr) in Hb.
    - apply (Hd _ Hb). rewrite <- E. left.
    - apply Hna. by rewrite E. }
  split; [|done]. split.
  - rewrite fmap_app. apply NoDup_app. split_and!; [done| |done]. intros a Ha Hb.
    apply (Hd a Ha). by right.
  - intros a b Ha Hb. apply Hap; by apply H.
Qed.

(** Taking a block out of the chain. *)
Lemma chain_drop esz n s s' pre ab post :
  0 ≤ esz → 0 ≤ n → chain esz n s (pre ++ ab :: post) 0 → separate esz n (pre ++ ab :: post) →
  (∀ a, in_region (ab_elems ab) (asize esz n) a = false →
     st_nodes s' !! a = st_nodes s !! a ∧ st_owner s' !! a = st_owner s !! a) →
  (∀ a, a ≠ ab_addr ab → a ≠ last_addr pre → st_blocks s' !! a = st_blocks s !! a) →
  (pre ≠ [] → ∀ w, st_blocks s !! last_addr pre = Some w →
     st_blocks s' !! last_addr pre = Some (set_next (hd 0 (ab_addr <$> post)) w)) →
  chain esz n s' (pre ++ post) 0.
Proof.
  intros He Hn Hc Hsep Hun Hbl Hlast. destruct (separate_drop _ _ _ _ _ Hsep) as [[Hnd' _] Hoth].
  assert (ab ∈ pre ++ ab :: post) as Hab by (rewrite elem_of_app, elem_of_cons; auto).
  assert (∀ b, b ∈ pre ++ post → ∀ x, x ∈ bslots esz n b →
    st_nodes s' !! x.1 = st_nodes s !! x.1 ∧ st_owner s' !! x.1 = st_owner s !! x.1) as Hx.
  { intros b Hb x Hx. destruct (Hoth b Hb) as [Hb' Hne]. apply Hun. by eapply slot_survives. }
  assert (∀ b, b ∈ pre ++ post → ab_addr b ≠ last_addr pre →
    st_blocks s' !! ab_addr b = st_blocks s !! ab_addr b) as Hb0.
  { intros b Hb Hne. apply Hbl; [|done]. destruct (Hoth b Hb). done. }
  apply chain_app in Hc as [Hpre [Hk Hpost]]. apply chain_app. split.
  - destruct pre as [|l pre _] using rev_ind; [done|].
    rewrite last_addr_snoc in *. apply chain_app in Hpre as [Hpre [Hl _]]. cbn in Hl.
    rewrite <- app_assoc in Hnd'. rewrite fmap_app in Hnd'. apply NoDup_app in Hnd' as (_ & Hd & _).
    apply chain_app. split; [|split; [|done]].
    + eapply chain_frame; [exact Hpre|]. intros b Hb.
      assert (b ∈ (pre ++ [l]) ++ post) as Hb' by (rewrite !elem_of_app; auto).
      split; [|by apply Hx]. apply Hb0; [done|]. intros E.
      apply (Hd (ab_addr b)); [by apply list_elem_of_fmap_2|]. rewrite E. left.
    + eapply blk_relink; [exact Hl|apply Hlast; by destruct pre|].
      apply Hx. rewrite !elem_of_app, elem_of_cons. auto.
  - eapply chain_frame; [exact Hpost|]. intros b Hb.
    assert (b ∈ pre ++ post) as Hb' by (rewrite elem_of_app; auto).
    split; [|by apply Hx]. apply Hb0; [done|].
    destruct pre as [|l pre _] using rev_ind; 
      [destruct (chain_in _ _ _ _ _ b Hpost Hb) as [? Hkb]; apply (bk_addr _ _ _ _ _ Hkb)|].
    rewrite last_addr_snoc. intros E. rewrite fmap_app in Hnd'.
    apply NoDup_app in Hnd' as (_ & Hd & _). apply (Hd (ab_addr b)).
    + rewrite E, fmap_app, elem_of_app. right. left.
    + by apply list_elem_of_fmap_2.
Qed.

(** The counters after a block went. *)
Definition drop_counts (hp : blockheap) : blockheap :=
  set_free (bh_freeElems hp - bh_elemsPerBlock hp) (set_count (bh_blocksAllocated hp - 1) hp).

Lemma heap_drop s s' bh hp hp' pre ab post :
  heap_ok s bh hp (pre ++ ab :: post) → ab_used ab = [] →
  chain (bh_elemSize hp) (bh_elemsPerBlock hp) s' (pre ++ post) 0 →
  st_heaps s' !! bh = Some hp' →
  hp' = drop_counts (if pre is [] then set_base (hd 0 (ab_addr <$> post)) hp else hp) →
  heap_ok s' bh hp' (pre ++ post).
Proof.
  intros [Hbh Hheap Hpar Hbase Hc Hsep Hcnt Hfree Hsmall] Hus Hc' Hheap' ->.
  pose proof Hpar as (He & Hn & _).
  destruct (separate_drop _ _ _ _ _ Hsep) as [Hsep' _].
  apply chain_app in Hc as [_ [Hk _]]. pose proof (blk_count _ _ _ _ _ Hk ltac:(lia)) as Hlen.
  rewrite Hus in Hlen. cbn [length] in Hlen.
  pose proof (total_free_bound _ _ _ _ _ Hc' ltac:(lia)) as Hb.
  rewrite length_app in Hb, Hcnt, Hsmall. cbn [length] in Hcnt, Hsmall.
  rewrite total_free_app, total_free_cons in Hfree. rewrite total_free_app in Hb.
  assert (wrap64 (bh_blocksAllocated hp - 1) = Z.of_nat (length (pre ++ post))) as E1.
  { rewrite length_app, wrap64_small; nia. }
  assert (wrap64 (bh_freeElems hp - bh_elemsPerBlock hp) = total_free (pre ++ post)) as E2.
  { rewrite total_free_app, wrap64_small; lia. }
  assert (Z.of_nat (length (pre ++ post)) * bh_elemsPerBlock hp < 2 ^ 64) as E3.
  { rewrite length_app. nia. }
  destruct pre; split; cbn [drop_counts set_free set_count set_base bh_elemSize bh_elemsPerBlock
    bh_base bh_blocksAllocated bh_freeElems]; done.
Qed.

(** One round of the collector on a block without objects in use. *)
Lemma gc_drop s bh hp pre ab post fuel :
  heap_ok s bh hp (pre ++ ab :: post) → ab_used ab = [] →
  ∃ s' hp', gc_loop (S fuel) bh (last_addr pre) (ab_addr ab) s =
      gc_loop fuel bh (last_addr pre) (hd 0 (ab_addr <$> post)) s' ∧
    heap_ok s' bh hp' (pre ++ post) ∧ st_bytes s' = st_bytes s ∧
    bh_elemSize hp' = bh_elemSize hp ∧ bh_elemsPerBlock hp' = bh_elemsPerBlock hp ∧
    untouched (bh_elemSize hp) (bh_elemsPerBlock hp) (pre ++ ab :: post) bh s s'.
Proof.
  intros Hok Hus. pose proof Hok as [Hbh Hheap (He & Hn & _) _ Hc Hsep _ _ _].
  pose proof Hc as Hc2. apply chain_app in Hc2 as [Hpre [Hk _]].
  destruct (blk_block _ _ _ _ _ Hk) as (lf & lu & Hget & Hblk & Hlf & _).
  pose proof (blk_count _ _ _ _ _ Hk ltac:(lia)) as Hlen. rewrite Hus in Hlen. cbn [length] in Hlen.
  cbn [gc_loop]. destruct (Z.eqb_spec (ab_addr ab) 0) as [E|_]; [by destruct (bk_addr _ _ _ _ _ Hk)|].
  rewrite Hget, (get_heap_some _ _ _ Hbh Hheap). cbn [obind b_free b_elems b_alloc_size b_next].
  rewrite (dll_len _ _ _ Hlf). destruct (Z.eqb_spec (Z.of_nat (length (ab_free ab))) (bh_elemsPerBlock hp)) as [_|]; [|lia].
  set (esz := bh_elemSize hp) in *. set (n := bh_elemsPerBlock hp) in *.
  set (s1 := blockheap_block_free (ab_elems ab) (asize esz n) s).
  assert (∀ s2 a, st_nodes s2 = st_nodes s1 → st_owner s2 = st_owner s1 →
    in_region (ab_elems ab) (asize esz n) a = false →
    st_nodes s2 !! a = st_nodes s !! a ∧ st_owner s2 !! a = st_owner s !! a) as Hun.
  { intros s2 a -> -> Ha. by apply unmap_lookup. }
  assert (∀ s2, st_nodes s2 = st_nodes s1 → st_owner s2 = st_owner s1 → st_bytes s2 = st_bytes s →
    st_lists s2 = st_lists s → (∀ b, b ∉ ab_addr <$> pre ++ ab :: post → st_blocks s2 !! b = st_blocks s !! b) →
    (∀ h, h ≠ bh → st_heaps s2 !! h = st_heaps s !! h) →
    untouched esz n (pre ++ ab :: post) bh s s2) as Hkeep.
  { intros s2 E1 E2 E3 E4 E5 E6. split; [split|done]; [..|done|done].
    - intros a Ha. apply Hun; [done|done|]. unfold outside in Ha. rewrite Forall_forall in Ha.
      apply Ha. rewrite elem_of_app, elem_of_cons. auto.
    - intros a Ha. apply Hun; [done|done|]. unfold outside in Ha. rewrite Forall_forall in Ha.
      apply Ha. rewrite elem_of_app, elem_of_cons. auto.
    - intros a _. by rewrite E3. }
  destruct pre as [|l pre _] using rev_ind.
  - change (last_addr []) with 0. cbn [Z.eqb negb obind].
    rewrite (get_heap_some _ bh (set_base (hd 0 (ab_addr <$> post)) hp)); [|done|].
    2: { cbn. by rewrite lookup_insert_eq. }
    cbn [obind]. eexists _, (drop_counts (set_base (hd 0 (ab_addr <$> post)) hp)).
    split; [reflexivity|]. split_and!; [|done|done|done|].
    2: { apply Hkeep; try done; cbn.
         - intros b [Hb _]%not_elem_of_cons. by apply lookup_delete_ne.
         - intros h Hh. by rewrite !lookup_insert_ne. }
    eapply (heap_drop s _ bh hp _ [] ab post); [exact Hok|done| |cbn; apply lookup_insert_eq|done].
    eapply (chain_drop _ _ s _ [] ab post); [lia|lia|exact Hc|done| | |done].
    + intros a Ha. by apply Hun.
    + intros a Ha _. cbn. by rewrite lookup_delete_ne.
  - rewrite last_addr_snoc. destruct (separate_drop _ _ _ _ _ Hsep) as [_ Hoth].
    destruct (Hoth l) as [_ Hne]; [rewrite !elem_of_app, list_elem_of_singleton; auto|].
    apply chain_app in Hpre as [_ [Hl _]].
    destruct (blk_block _ _ _ _ _ Hl) as (lf' & lu' & Hget' & Hblk' & _).
    destruct (Z.eqb_spec (ab_addr l) 0) as [E|_]; [by destruct (bk_addr _ _ _ _ _ Hl)|].
    cbn [negb]. change (get_block s1 (ab_addr l)) with (get_block s (ab_addr l)).
    rewrite Hget'. cbn [obind].
    rewrite (get_heap_some _ bh hp); [|done|done].
    cbn [obind]. eexists _, (drop_counts hp).
    split; [reflexivity|]. split_and!; [|done|done|done|].
    2: { apply Hkeep; try done; cbn.
         - intros b Hb. rewrite !fmap_app, !elem_of_app in Hb. cbn in Hb. rewrite !elem_of_cons in Hb.
           rewrite lookup_delete_ne by (intros <-; tauto). apply lookup_insert_ne. intros <-; tauto.
         - intros h Hh. by rewrite !lookup_insert_ne. }
    eapply (heap_drop s _ bh hp _ (pre ++ [l]) ab post);
      [exact Hok|done| |cbn; apply lookup_insert_eq|by destruct pre].
    eapply (chain_drop _ _ s _ (pre ++ [l]) ab post); [lia|lia|exact Hc|done| | |].
    + intros a Ha. by apply Hun.
    + rewrite last_addr_snoc. intros a Ha Hal. cbn. by rewrite lookup_delete_ne, lookup_insert_ne.
    + intros _ w. rewrite last_addr_snoc, Hblk'. intros [= <-]. cbn.
      by rewrite lookup_delete_ne, lookup_insert_eq.
Qed.

Lemma gc_loop_ok rest pre s bh hp fuel :
  heap_ok s bh hp (pre ++ rest) → (length rest < fuel)%nat →
  ∃ s' hp', gc_loop fuel bh (last_addr pre) (hd 0 (ab_addr <$> rest)) s = Ret s' ∧
    heap_ok s' bh hp' (pre ++ filter (λ ab, ab_used ab ≠ []) rest) ∧ st_bytes s' = st_bytes s ∧
    bh_elemSize hp' = bh_elemSize hp ∧ bh_elemsPerBlock hp' = bh_elemsPerBlock hp ∧
    untouched (bh_elemSize hp) (bh_elemsPerBlock hp) (pre ++ rest) bh s s'.
Proof.
  revert pre s hp fuel. induction rest as [|ab rest IH]; intros pre s hp [|fuel] Hok Hf;
    cbn [length] in Hf; try lia.
  { exists s, hp. split_and!; done. }
  cbn [fmap list_fmap hd]. rewrite filter_cons. destruct (decide (ab_used ab = [])) as [Hus|Hus].
  - rewrite decide_False by tauto.
    destruct (gc_drop s bh hp pre ab rest fuel Hok Hus) as (s1 & hp1 & -> & Hok1 & Hb1 & He1 & Hn1 & Hun1).
    destruct (IH pre s1 hp1 fuel Hok1) as (s' & hp' & -> & Hok' & Hb' & He' & Hn' & Hun'); [lia|].
    exists s', hp'. split_and!; [done|done|congruence|congruence|congruence|].
    rewrite He1, Hn1 in Hun'. eapply untouched_trans; [exact Hun1|].
    eapply untouched_mono; [exact Hun'|]. set_solver.
  - rewrite decide_True by done. pose proof Hok as [Hbh Hheap (He & Hn & _) _ Hc _ _ _ _].
    apply chain_app in Hc as [_ [Hk _]].
    destruct (blk_block _ _ _ _ _ Hk) as (lf & lu & Hget & _ & Hlf & _).
    pose proof (blk_count _ _ _ _ _ Hk ltac:(lia)) as Hlen.
    cbn [gc_loop]. destruct (Z.eqb_spec (ab_addr ab) 0) as [E|_]; [by destruct (bk_addr _ _ _ _ _ Hk)|].
    rewrite Hget, (get_heap_some _ _ _ Hbh Hheap). cbn [obind b_free b_next].
    rewrite (dll_len _ _ _ Hlf).
    destruct (Z.eqb_spec (Z.of_nat (length (ab_free ab))) (bh_elemsPerBlock hp)) as [Hz|_].
    { destruct (ab_used ab); [done|]. cbn [length] in Hlen. lia. }
    destruct (IH (pre ++ [ab]) s hp fuel) as (s' & hp' & Hgc & Hok' & Hb' & He' & Hn' & Hun').
    { by rewrite <- app_assoc. } { lia. }
    rewrite last_addr_snoc in Hgc. rewrite Hgc. exists s', hp'.
    rewrite <- app_assoc in Hok', Hun'. done.
Qed.

(** ** Creation *)
Lemma land_mask x : 0 ≤ x < 2 ^ 64 → Z.land x (wrap64 (- 8)) = 8 * (x / 8).
Proof.
  intros Hx. change (wrap64 (- 8)) with (Z.shiftl (Z.ones 61) 3).
  replace (8 * (x / 8)) with (Z.shiftl (Z.shiftr x 3) 3)
    by (rewrite Z.shiftl_mul_pow2, Z.shiftr_div_pow2 by lia; change (2 ^ 3) with 8; lia).
  apply Z.bits_inj'. intros i Hi. rewrite Z.land_spec, !Z.shiftl_spec by lia.
  destruct (Z.ltb_spec i 3).
  { rewrite !(Z.testbit_neg_r _ (i - 3)) by lia. apply andb_false_r. }
  rewrite Z.shiftr_spec by lia. replace (i - 3 + 3) with i by lia.
  destruct (Z.ltb_spec i 64).
  - rewrite Z.ones_spec_low by lia. apply andb_true_r.
  - rewrite Z.ones_spec_high by lia. rewrite andb_false_r. symmetry.
    destruct (Z.eq_dec x 0) as [->|]; [by rewrite Z.testbit_0_l|].
    apply Z.bits_above_log2; [lia|]. apply Z.log2_lt_pow2; [lia|].
    apply Z.lt_le_trans with (2 ^ 64); [lia|]. apply Z.pow_le_mono_r; lia.
Qed.

Lemma pad_size_ok e :
  0 < e < 2 ^ 64 - 8 → e ≤ pad_size e < e + 8 ∧ pad_size e mod 8 = 0.
Proof.
  intros He. unfold pad_size, SZ_POINTER. destruct (Z.eqb_spec (e mod 8) 0); [lia|].
  rewrite (wrap64_small (e + 8)), land_mask by lia.
  rewrite (Z.mul_comm 8), Z.mod_mul by lia. split; [|done].
  pose proof (Z.div_mod (e + 8) 8 ltac:(lia)). pose proof (Z.mod_pos_bound (e + 8) 8 ltac:(lia)).
  pose proof (Z.mod_pos_bound e 8 ltac:(lia)).
  assert ((e + 8) mod 8 = e mod 8) by (rewrite <- (Z.mul_1_l 8) at 1; by rewrite Z.mod_add).
  lia.
Qed.

(** A heap keeps its blocks when only other parts of the state change. *)
Lemma heap_rename s s' bh hp hp' abs :
  heap_ok s bh hp abs → st_heaps s' !! bh = Some hp' →
  bh_elemSize hp' = bh_elemSize hp → bh_elemsPerBlock hp' = bh_elemsPerBlock hp →
  bh_blocksAllocated hp' = bh_blocksAllocated hp → bh_freeElems hp' = bh_freeElems hp →
  bh_base hp' = bh_base hp → st_blocks s' = st_blocks s → st_owner s' = st_owner s →
  (∀ ab x, ab ∈ abs → x ∈ bslots (bh_elemSize hp) (bh_elemsPerBlock hp) ab →
     st_nodes s' !! x.1 = st_nodes s !! x.1 ∧ st_owner s' !! x.1 = st_owner s !! x.1) →
  heap_ok s' bh hp' abs.
Proof.
  intros [? ? ? ? Hc ? ? ? ?] Hh E1 E2 E3 E4 E5 Hb Ho Hx.
  split; rewrite ?E1, ?E2, ?E3, ?E4, ?E5; try done.
  eapply chain_frame; [exact Hc|]. intros ab Hab. rewrite Hb. split; [done|eauto].
Qed.

Lemma create_ok s oh b e elemsize n name readable hs :
  0 < elemsize < 2 ^ 64 - 8 → 0 < n → params_ok (pad_size elemsize) n →
  oh ≠ 0 → fresh (pad_size elemsize) n [] b e → dll (st_nodes s) (st_lists s) hs →
  (∀ a, a ∈ hs.*1 → in_region e (asize (pad_size elemsize) n) a = false ∧ a ≠ oh) →
  in_region e (asize (pad_size elemsize) n) oh = false →
  dl_length (st_lists s) + 1 < 2 ^ 64 → 63 ≤ readable →
  ∃ s' hp, blockheap_create (Some oh) (Some b, Some e) elemsize n (Some name) readable s =
      Ret (oh, s') ∧
    heap_ok s' oh hp [new_blk (pad_size elemsize) n b e] ∧ bh_name hp = str_take 63 name ∧
    bh_elemSize hp = pad_size elemsize ∧ bh_elemsPerBlock hp = n ∧
    dll (st_nodes s') (st_lists s') ((oh, oh) :: hs) ∧
    keeps (λ a, outside (pad_size elemsize) n [new_blk (pad_size elemsize) n b e] a ∧ a ∉ oh :: hs.*1)
      (λ x, x ≠ b) oh s s'.
Proof.
  intros Hel Hn0 Hpar Hoh Hfr Hl Hhs Hreg Hlen Hread. pose proof Hpar as (He & Hn & _).
  unfold blockheap_create. destruct (Z.leb_spec elemsize 0); [lia|].
  destruct (Z.leb_spec n 0); [lia|]. cbn [orb].
  set (hp0 := BlockHeap EmptyString (pad_size elemsize) n 0 0 0).
  assert (heap_ok (put_heap oh hp0 s) oh hp0 []) as Hok0.
  { split; cbn; try done; [by rewrite lookup_insert_eq|]. split; [constructor|].
    intros a b' Ha. by apply elem_of_nil in Ha. }
  destruct (block_new_ok _ _ _ _ b e Hok0 Hfr) as (s1 & hp1 & -> & Hok1 & He1 & Hn1 & _ & Hl1 & Hf1 & Hun1).
  cbn [obind fst snd]. change (negb (0 =? 0)) with false. cbn match.
  rewrite (get_heap_some _ _ _ Hoh (ho_heap _ _ _ _ Hok1)). cbn [obind copy_name].
  destruct (Z.ltb_spec readable 63); [lia|]. cbn [obind].
  cbn [hp0 bh_elemSize bh_elemsPerBlock] in *.
  assert (∀ a, in_region e (asize (pad_size elemsize) n) a = false →
               a ∉ (slots e (pad_size elemsize) (Z.to_nat n)).*1) as Hout.
  { intros a Ha (y & -> & Hy)%list_elem_of_fmap.
    apply (slot_in_blk _ n (ABlk b e [] []) y) in Hy as (? & ? & ?); [|lia..].
    unfold in_region, SZ_MEMBLOCK in *. cbn [ab_elems] in *. lia. }
  assert (dll (<[oh:=DNode 0 0 0]> (st_nodes s1)) (st_lists s1) hs) as Hl2.
  { rewrite Hl1. eapply dll_ext; [exact Hl|]. intros a Ha. destruct (Hhs a Ha).
    rewrite lookup_insert_ne by done. by apply Hf1, Hout. }
  destruct (add_ok _ _ _ oh oh Hl2) as (h' & l' & -> & Hl' & Hf'); [done| | | |].
  { by rewrite lookup_insert_eq. } { intros Hin. by destruct (Hhs oh Hin). } { by rewrite Hl1. }
  cbn [obind fst snd].
  eexists _, (BlockHeap (str_take 63 name) (bh_elemSize hp1) (bh_elemsPerBlock hp1)
    (bh_blocksAllocated hp1) (bh_freeElems hp1) (bh_base hp1)).
  split; [done|]. split_and!; [|done|done|done|done|].
  2: { destruct Hun1 as [[K1 K2 K3 K4 K5] _]. split; cbn.
       - intros a [Ha [Hne Hni]%not_elem_of_cons]. rewrite Hf', lookup_insert_ne; [by apply K1|done|].
         by rewrite not_elem_of_cons.
       - intros a [Ha _]. by apply K2.
       - intros a [Ha _]. by apply K3.
       - intros x Hx. apply K4. by intros [->|?%elem_of_nil]%elem_of_cons.
       - intros x Hx. rewrite lookup_insert_ne by done. rewrite K5 by done. by apply lookup_insert_ne. }
  eapply (heap_rename s1); [exact Hok1|cbn; apply lookup_insert_eq|done|done|done|done|done|done|done|].
  intros ab x ->%list_elem_of_singleton Hx. cbn [st_nodes st_owner]. split; [|done].
  assert (x.1 ≠ oh ∧ x.1 ∉ hs.*1) as [? ?].
  { apply slot_in_blk in Hx as (? & ? & ?); [|lia..]. unfold in_region, SZ_MEMBLOCK in *.
    cbn in *. rewrite He1, Hn1 in *. split; [lia|]. intros Hin. destruct (Hhs _ Hin). lia. }
  rewrite Hf', lookup_insert_ne; [done|done|]. rewrite not_elem_of_cons. done.
Qed.

(** ** Destruction *)
Lemma unmap_gone p n s a :
  in_region p n a = true → st_nodes (blockheap_block_free p n s) !! a = None.
Proof.
  intros H. cbn. apply map_lookup_filter_None. right. intros v _. cbn. by rewrite H.
Qed.

Lemma destroy_blocks_ok esz n abs s fuel :
  0 ≤ esz → 0 ≤ n → chain esz n s abs 0 → separate esz n abs → (length abs < fuel)%nat →
  ∃ s', destroy_blocks fuel (hd 0 (ab_addr <$> abs)) s = Ret s' ∧
    st_heaps s' = st_heaps s ∧ st_lists s' = st_lists s ∧
    (∀ b, b ∈ ab_addr <$> abs → st_blocks s' !! b = None) ∧
    (∀ b, b ∉ ab_addr <$> abs → st_blocks s' !! b = st_blocks s !! b) ∧
    (∀ a, outside esz n abs a → st_nodes s' !! a = st_nodes s !! a) ∧
    (∀ a, ¬ outside esz n abs a → st_nodes s' !! a = None) ∧
    (∀ a, outside esz n abs a → st_owner s' !! a = st_owner s !! a) ∧ st_bytes s' = st_bytes s.
Proof.
  intros He Hn. revert s fuel. induction abs as [|ab abs IH]; intros s [|fuel] Hc Hsep Hf;
    cbn [length] in Hf; try lia.
  { exists s. split_and!; try done; [by intros b ?%elem_of_nil|].
    intros a H. exfalso. apply H. constructor. }
  destruct (separate_drop _ _ [] ab abs Hsep) as [Hsep' Hoth].
  cbn [fmap list_fmap hd destroy_blocks]. pose proof Hc as [Hk _].
  destruct (blk_block _ _ _ _ _ Hk) as (lf & lu & Hget & Hblk & _).
  destruct (Z.eqb_spec (ab_addr ab) 0) as [E|_]; [by destruct (bk_addr _ _ _ _ _ Hk)|].
  rewrite Hget. cbn [obind b_elems b_alloc_size b_next].
  set (s1 := blockheap_block_free _ _ s). set (s2 := set_blocks _ s1).
  destruct (IH s2 fuel) as (s' & Heq & Hh & Hls & Hb1 & Hb2 & Hn1 & Hn2 & Ho1 & Hby); [|done|lia|].
  { eapply (chain_drop esz n s s2 [] ab abs); [lia|lia|exact Hc|done| | |done].
    - intros a Ha. by apply unmap_lookup.
    - intros a Ha _. cbn. by rewrite lookup_delete_ne. }
  exists s'. change (b_next _) with (hd 0 (ab_addr <$> abs)). rewrite Heq. split_and!; try done.
  - intros b Hb. destruct (decide (b ∈ ab_addr <$> abs)); [auto|].
    apply elem_of_cons in Hb as [->|?]; [|done]. rewrite Hb2 by done. cbn. by rewrite lookup_delete_eq.
  - intros b [Hne Hb]%not_elem_of_cons. rewrite Hb2 by done. cbn. by rewrite lookup_delete_ne.
  - intros a [Ha Ho]%Forall_cons. rewrite Hn1 by done. by apply unmap_lookup.
  - intros a Ha. destruct (decide (outside esz n abs a)) as [Ho|Ho]; [|by apply Hn2].
    rewrite Hn1 by done. apply unmap_gone. apply not_false_is_true. intros Hr. apply Ha.
    by constructor.
  - intros a [Ha Ho]%Forall_cons. rewrite Ho1 by done. by apply unmap_lookup.
Qed.

(** ** Collection of a heap *)

(** What a collection leaves of the blocks of a heap. *)
Definition collected (hp : blockheap) (abs : list ablk) : list ablk :=
  if (total_free abs <? bh_elemsPerBlock hp) || (Z.of_nat (length abs) =? 1) then abs
  else filter (λ ab, ab_used ab ≠ []) abs.

Lemma live_filter abs : live (filter (λ ab, ab_used ab ≠ []) abs) = live abs.
Proof.
  induction abs as [|ab abs IH]; [done|]. rewrite filter_cons, live_cons. case_decide as H.
  - by rewrite live_cons, IH.
  - destruct (ab_used ab); [done|]. done.
Qed.

Lemma gc_ok s bh hp abs :
  heap_ok s bh hp abs →
  ∃ s' hp', blockheap_garbagecollect bh s = Ret (0, s') ∧ heap_ok s' bh hp' (collected hp abs) ∧
    st_bytes s' = st_bytes s ∧ bh_elemSize hp' = bh_elemSize hp ∧
    bh_elemsPerBlock hp' = bh_elemsPerBlock hp ∧
    untouched (bh_elemSize hp) (bh_elemsPerBlock hp) abs bh s s'.
Proof.
  intros Hok. pose proof Hok as [Hbh Hheap _ Hbase _ _ Hcnt Hfree _].
  unfold blockheap_garbagecollect, collected. destruct (Z.eqb_spec bh 0); [done|].
  rewrite (get_heap_some _ _ _ Hbh Hheap). cbn [obind]. rewrite Hcnt, Hfree.
  destruct (_ || _).
  { exists s, hp. split_and!; done. }
  destruct (gc_loop_ok abs [] s bh hp (block_fuel s) Hok) as (s' & hp' & Hgc & Hok' & Hb & He & Hn & Hun).
  { by eapply heap_ok_fuel. }
  rewrite Hbase. change (last_addr []) with 0 in Hgc. rewrite Hgc. by exists s', hp'.
Qed.

Lemma unused_free n abs :
  live abs = [] → 
  (∀ ab, ab ∈ abs → Z.of_nat (length (ab_free ab)) + Z.of_nat (length (ab_used ab)) = n) →
  total_free abs = Z.of_nat (length abs) * n ∧ filter (λ ab, ab_used ab ≠ []) abs = [].
Proof.
  induction abs as [|ab abs IH]; intros Hl Hc; [done|].
  rewrite live_cons in Hl. apply app_nil in Hl as [Hu Hl]. apply fmap_nil_inv in Hu.
  destruct IH as [Ht Hf]; [done|intros; apply Hc; by right|].
  pose proof (Hc ab ltac:(left)) as Hn. rewrite Hu in Hn. cbn [length] in Hn.
  rewrite total_free_cons, Ht, filter_cons, decide_False, Hf by tauto. cbn [length]. split; [lia|done].
Qed.

Lemma unused_collected hp abs :
  live abs = [] → (1 < length abs)%nat → 0 < bh_elemsPerBlock hp →
  (∀ ab, ab ∈ abs → Z.of_nat (length (ab_free ab)) + Z.of_nat (length (ab_used ab)) =
                     bh_elemsPerBlock hp) →
  collected hp abs = [].
Proof.
  intros Hl Hlen Hn Hc. destruct (unused_free _ _ Hl Hc) as [Ht Hf]. unfold collected.
  destruct (Z.ltb_spec (total_free abs) (bh_elemsPerBlock hp)); [nia|].
  destruct (Z.eqb_spec (Z.of_nat (length abs)) 1); [lia|]. done.
Qed.

(** [blockheap_destroy] of a heap. *)
Lemma destroy_spec (s : bstate) (bh : Z) (hp : blockheap) (abs : list ablk)
    (pre post : list (Z * Z)) (d : Z) :
  heap_ok s bh hp abs → dll (st_nodes s) (st_lists s) (pre ++ (bh, d) :: post) →
  (∀ a, a ∈ (pre ++ (bh, d) :: post).*1 →
     outside (bh_elemSize hp) (bh_elemsPerBlock hp) abs a) →
  dl_length (st_lists s) < 2 ^ 64 →
  ∃ s', blockheap_destroy bh s = Ret (0, s') ∧ dll (st_nodes s') (st_lists s') (pre ++ post) ∧
    st_heaps s' = delete bh (st_heaps s) ∧
    (∀ b, b ∈ ab_addr <$> abs → st_blocks s' !! b = None) ∧
    (∀ b, b ∉ ab_addr <$> abs → st_blocks s' !! b = st_blocks s !! b) ∧
    (∀ a, ¬ outside (bh_elemSize hp) (bh_elemsPerBlock hp) abs a → st_nodes s' !! a = None) ∧
    keeps (λ a, outside (bh_elemSize hp) (bh_elemsPerBlock hp) abs a ∧ a ∉ (pre ++ (bh, d) :: post).*1)
      (λ b, b ∉ ab_addr <$> abs) bh s s'.
Proof.
  intros Hok Hl Hout Hlen. pose proof Hok as [Hbh Hheap (He & Hn & _) Hbase Hc Hsep _ _ _].
  destruct (destroy_blocks_ok (bh_elemSize hp) (bh_elemsPerBlock hp) abs s (block_fuel s))
    as (s1 & Hd & Hh & Hls & Hb1 & Hb2 & Hn1 & Hn2 & Ho1 & Hby); [lia|lia|done|done|by eapply heap_ok_fuel|].
  assert (dll (st_nodes s1) (st_lists s) (pre ++ (bh, d) :: post)) as Hl1
    by (eapply dll_ext; [exact Hl|]; intros a Ha; by apply Hn1, Hout).
  destruct (delete_ok (st_nodes s1) (st_lists s) pre bh d post Hl1 Hlen)
    as (h' & l' & Hdel & Hl' & Hm & Hf).
  assert (bh ∉ (pre ++ post).*1) as Hna.
  { destruct (dll_split _ _ _ _ _ _ Hl1) as (_ & _ & _ & _ & _ & ? & ? & _).
    by rewrite fmap_app, not_elem_of_app. }
  unfold blockheap_destroy. destruct (Z.eqb_spec bh 0); [done|].
  rewrite (get_heap_some _ _ _ Hbh Hheap). cbn [obind]. rewrite Hbase, Hd. cbn [obind].
  rewrite Hls, Hdel. cbn [obind fst snd]. eexists. split; [reflexivity|].
  cbn [st_nodes st_lists st_heaps st_blocks]. split_and!; [|by rewrite Hh|done|done| |].
  - eapply dll_ext; [exact Hl'|]. intros a Ha. by apply lookup_delete_ne; intros ->.
  - intros a Ha. destruct (decide (a = bh)) as [->|]; [by rewrite lookup_delete_eq|].
    rewrite lookup_delete_ne by done. rewrite Hf; [by apply Hn2|]. intros Hin. apply Ha, Hout.
    rewrite fmap_app, elem_of_app in Hin. rewrite fmap_app, elem_of_app. cbn.
    rewrite elem_of_cons. tauto.
  - split; cbn [st_nodes st_owner st_bytes st_blocks st_heaps]; [| | |done|].
    + intros a [Ha Hni]. rewrite fmap_app, not_elem_of_app in Hni. cbn in Hni.
      rewrite not_elem_of_cons in Hni. rewrite lookup_delete_ne by (intros ->; tauto).
      rewrite Hf; [by apply Hn1|]. rewrite fmap_app, not_elem_of_app. tauto.
    + intros a [Ha _]. by apply Ho1.
    + intros a _. by rewrite Hby.
    + intros h Hne. rewrite lookup_delete_ne by done. by rewrite Hh.
Qed.
