(* ===== verification/BallocSpec.v ===== *)
(** * Properties of the block allocator

    Allocation, release, garbage collection, creation and destruction against
    the set of objects in use ([live]). *)
From S2P Require Import Prelude CStd Dlink DlinkSpec Balloc BallocFacts BallocOps.

Local Open Scope Z_scope.

(** ** Properties *)

(** [blockheap_free] of an object in use. *)
Lemma free_spec (s : bstate) (bh : Z) (hp : blockheap) (abs : list ablk) (x : Z) :
  heap_ok s bh hp abs → x ∈ live abs →
  (∃ s' hp' abs', blockheap_free bh x s = Ret (0, s') ∧ heap_ok s' bh hp' abs' ∧
     x :: live abs' ≡ₚ live abs ∧ total_free abs' = total_free abs + 1 ∧
     st_bytes s' = memset0 x (bh_elemSize hp) (st_bytes s)) ∧
  blockheap_free 0 x s = Ret (1, s) ∧ blockheap_free bh 0 s = Ret (1, s).
Proof.
  intros Hok Hx. split; [|split; [done|]].
  - destruct (free_ok s bh hp abs x Hok Hx) as (s' & hp' & abs' & ? & ? & ? & ? & _ & ? & _).
    by exists s', hp', abs'.
  - unfold blockheap_free. by destruct (bh =? 0).
Qed.


(** A heap of 20-byte objects, two to a block, in an otherwise empty state. *)
Definition empty_state : bstate := BState ∅ ∅ ∅ ∅ (λ _, 255) dl_empty.
Definition demo_blk : ablk := new_blk 24 2 8192 65536.
Definition demo_heap : bstate :=
  match blockheap_create (Some 4096) (Some 8192, Some 65536) 20 2 (Some "demo"%string) 64 empty_state with
  | Ret (_, s) => s
  | _ => empty_state
  end.
Definition demo_hp : blockheap := BlockHeap "demo" 24 2 1 2 8192.

Lemma demo_params : params_ok 24 2.
Proof. unfold params_ok, asize, SZ_MEMBLOCK. lia. Qed.

Lemma demo_fresh : fresh 24 2 [] 8192 65536.
Proof. split; [done|by intros ?%elem_of_nil|done|by intros a ?%elem_of_nil|done]. Qed.

Lemma demo_ok : heap_ok demo_heap 4096 demo_hp [demo_blk].
Proof.
  destruct (create_ok empty_state 4096 8192 65536 20 2 "demo" 64 [])
    as (s & hp & Hc & Hok & Hn & He & Hp & _); [lia|lia|exact demo_params|lia|exact demo_fresh
      |apply dll_nil|by intros a ?%elem_of_nil|reflexivity|cbn; lia|lia|].
  assert (demo_heap = s) as -> by (unfold demo_heap; by rewrite Hc).
  assert (hp = demo_hp) as <-; [|exact Hok].
  pose proof (ho_base _ _ _ _ Hok) as Hb. pose proof (ho_count _ _ _ _ Hok) as Hk.
  pose proof (ho_free _ _ _ _ Hok) as Hf. destruct hp as [nm es ep cn fr ba].
  cbn [bh_name bh_elemSize bh_elemsPerBlock bh_blocksAllocated bh_freeElems bh_base] in *.
  change (total_free _) with 2 in Hf. change (hd _ _) with 8192 in Hb.
  change (Z.of_nat (length _)) with 1 in Hk. change (pad_size 20) with 24 in He.
  change (str_take 63 "demo") with "demo"%string in Hn. by subst.
Qed.

(** The demo heap after two allocations, both slots in use. *)
Lemma demo_full :
  ∃ s hp abs, heap_ok s 4096 hp abs ∧ total_free abs = 0.
Proof.
  destruct (walk_allocates demo_heap 4096 demo_hp [demo_blk] 2 demo_ok)
    as (x & s1 & hp1 & abs1 & _ & Hok1 & _ & H1 & _); [vm_compute; discriminate|cbn; lia|].
  change (total_free [demo_blk]) with 2 in H1.
  destruct (walk_allocates s1 4096 hp1 abs1 (S (length abs1)) Hok1)
    as (y & s2 & hp2 & abs2 & _ & Hok2 & _ & H2 & _); [lia|lia|].
  exists s2, hp2, abs2. split; [done|lia].
Qed.


(** C8: [blockheap_garbagecollect] keeps every object in use and its contents,
    and the heap stays well-formed.  It does nothing when the heap has one
    block or fewer free slots than a block has (then no block can be unused);
    otherwise it removes every unused block, the root included: a heap of
    several blocks without objects in use ends up with no block at all. *)
Theorem blockheap_garbagecollect_spec (s : bstate) (bh : Z) (hp : blockheap) (abs : list ablk) :
  heap_ok s bh hp abs →
  ∃ s' hp', blockheap_garbagecollect bh s = Ret (0, s') ∧
    heap_ok s' bh hp' (collected hp abs) ∧ live (collected hp abs) = live abs ∧
    st_bytes s' = st_bytes s ∧
    (total_free abs < bh_elemsPerBlock hp → Forall (λ ab, ab_used ab ≠ []) abs) ∧
    (live abs = [] → (1 < length abs)%nat → bh_base hp' = 0).
Proof.
  intros Hok. destruct (gc_ok s bh hp abs Hok) as (s' & hp' & ? & Hok' & ? & _). exists s', hp'.
  pose proof Hok as [_ _ (He & Hn & _) _ Hc _ _ _ _].
  assert (∀ ab, ab ∈ abs → Z.of_nat (length (ab_free ab)) + Z.of_nat (length (ab_used ab)) =
                          bh_elemsPerBlock hp) as Hcount.
  { intros ab Hab. destruct (chain_in _ _ _ _ _ _ Hc Hab) as [next Hk].
    eapply blk_count; [exact Hk|lia]. }
  split_and!; [done|done| |done| |].
  - unfold collected. destruct (_ || _); [done|apply live_filter].
  - clear -Hcount. induction abs as [|ab abs IH]; intros Ht; [constructor|].
    rewrite total_free_cons in Ht. pose proof (Hcount ab ltac:(left)).
    assert (0 ≤ total_free abs) by (unfold total_free; lia). constructor.
    + intros E. rewrite E in *. cbn [length] in *. lia.
    + apply IH; [|lia]. intros b Hb. apply Hcount. by right.
  - intros Hl Hlen. rewrite (ho_base _ _ _ _ Hok'). replace (collected hp abs) with ([] : list ablk); [done|].
    symmetry. apply unused_collected; [done|done|lia|done].
Qed.

Lemma blockheap_garbagecollect_spec_witness :
  ∃ s' hp', blockheap_garbagecollect 4096 demo_heap = Ret (0, s') ∧
    heap_ok s' 4096 hp' (collected demo_hp [demo_blk]) ∧
    live (collected demo_hp [demo_blk]) = live [demo_blk] ∧ st_bytes s' = st_bytes demo_heap ∧
    (total_free [demo_blk] < bh_elemsPerBlock demo_hp → Forall (λ ab, ab_used ab ≠ []) [demo_blk]) ∧
    (live [demo_blk] = [] → (1 < length [demo_blk])%nat → bh_base hp' = 0).
Proof. apply (blockheap_garbagecollect_spec demo_heap 4096 demo_hp [demo_blk] demo_ok). Defined.

Lemma demo_lists : dll (st_nodes demo_heap) (st_lists demo_heap) ([] ++ (4096, 4096) :: []).
Proof.
  split; [|apply NoDup_singleton|reflexivity|reflexivity|reflexivity].
  cbn. split_and!; [lia|reflexivity|done].
Qed.



(** A client program: allocate, release and allocate again. *)
Definition double_free_run : outcome (Z * Z * Z) :=
  let! a := blockheap_alloc (None, None) 4096 demo_heap in
  let! f := blockheap_free 4096 a.1 a.2 in
  let! g := blockheap_free 4096 a.1 f.2 in
  let! b := blockheap_alloc (None, None) 4096 g.2 in
  let! c := blockheap_alloc (None, None) 4096 b.2 in
  Ret (a.1, b.1, c.1).

(** Releasing an object twice is not detected (both calls return 0), and
    afterwards the allocator hands out the same object twice. *)
Lemma blockheap_double_free : ∃ x, double_free_run = Ret (x, x, x).
Proof. eexists. vm_compute. reflexivity. Qed.
