(* ===== verification/Heaps.v ===== *)
(** * Several heaps in one memory

    The program keeps its heaps in one list, and their blocks in one memory.  [arena s ds] says
    that the heaps [ds] are all well-formed, linked in their order, and apart from each other.
    An operation on one of them leaves the others alone; against the objects in use of all heaps
    ([objs]) the operations are those of one abstract allocator. *)
From S2P Require Import Prelude CStd Dlink DlinkSpec Balloc BallocFacts BallocOps BallocSpec.

Local Open Scope Z_scope.

(** ** Heaps apart from each other *)
Record hdesc := HDesc { hd_at : Z; hd_heap : blockheap; hd_blks : list ablk }.
Definition hd_esz (d : hdesc) : Z := bh_elemSize (hd_heap d).
Definition hd_cnt (d : hdesc) : Z := bh_elemsPerBlock (hd_heap d).

(** An address in no mapping of the heap. *)
Definition away (d : hdesc) (a : Z) : Prop := outside (hd_esz d) (hd_cnt d) (hd_blks d) a.

(** Blocks of two heaps: different structures, and mappings that do not overlap. *)
Definition blks_apart (e1 n1 : Z) (abs1 : list ablk) (e2 n2 : Z) (abs2 : list ablk) : Prop :=
  ∀ x y, x ∈ abs1 → y ∈ abs2 → ab_addr x ≠ ab_addr y ∧
    (ab_elems x + asize e1 n1 ≤ ab_elems y ∨ ab_elems y + asize e2 n2 ≤ ab_elems x).
Definition apart_from (esz n : Z) (abs : list ablk) (d : hdesc) : Prop :=
  blks_apart esz n abs (hd_esz d) (hd_cnt d) (hd_blks d).

Definition heap_at (s : bstate) (d : hdesc) : Prop := heap_ok s (hd_at d) (hd_heap d) (hd_blks d).
Definition link (d : hdesc) : Z * Z := (hd_at d, hd_at d).

Record arena (s : bstate) (ds : list hdesc) : Prop := Arena {
  ar_heap : ∀ d, d ∈ ds → heap_at s d;
  ar_apart : ∀ d d', d ∈ ds → d' ∈ ds → hd_at d ≠ hd_at d' → apart_from (hd_esz d) (hd_cnt d) (hd_blks d) d';
  ar_list : dll (st_nodes s) (st_lists s) (link <$> ds);
  ar_away : ∀ d d', d ∈ ds → d' ∈ ds → away d (hd_at d');
  ar_small : Z.of_nat (length ds) < 2 ^ 64
}.

Lemma links_at ds : (link <$> ds).*1 = hd_at <$> ds.
Proof. by rewrite <- list_fmap_compose. Qed.

Lemma arena_nodup s ds : arena s ds → NoDup (hd_at <$> ds).
Proof. intros Ha. pose proof (dll_nodup _ _ _ (ar_list _ _ Ha)) as H. by rewrite links_at in H. Qed.

Lemma apart_sym e1 n1 abs1 e2 n2 abs2 :
  blks_apart e1 n1 abs1 e2 n2 abs2 → blks_apart e2 n2 abs2 e1 n1 abs1.
Proof. intros H x y Hx Hy. destruct (H y x Hy Hx). split; [done|tauto]. Qed.

(** The heaps around one in the list. *)
Lemma arena_others s pre d post o :
  arena s (pre ++ d :: post) → o ∈ pre ++ post →
  o ∈ pre ++ d :: post ∧ hd_at o ≠ hd_at d.
Proof.
  intros Ha Ho. apply arena_nodup in Ha. rewrite fmap_app in Ha. cbn in Ha.
  apply NoDup_app in Ha as (_ & Hd & Hn). apply NoDup_cons in Hn as [Hn _].
  rewrite elem_of_app in Ho. rewrite elem_of_app, elem_of_cons. split; [tauto|]. intros E.
  destruct Ho as [Ho|Ho]; apply (list_elem_of_fmap_2 hd_at) in Ho; rewrite E in Ho;
    [apply (Hd _ Ho); left|done].
Qed.

(** ** What does not touch a heap *)

(** The addresses [P] and the blocks [Q] include those of the heap. *)
Definition covered (P Q : Z → Prop) (d : hdesc) : Prop :=
  (∀ x, x ∈ hd_blks d → Q (ab_addr x)) ∧
  ∀ x a, x ∈ hd_blks d → in_region (ab_elems x) (asize (hd_esz d) (hd_cnt d)) a = true → P a.

Lemma heap_sizes s d : heap_at s d → 0 < hd_esz d ∧ 0 < hd_cnt d.
Proof. intros Hd. pose proof (ho_params _ _ _ _ Hd) as (? & ? & _). unfold hd_esz, hd_cnt. lia. Qed.

Lemma slot_region s d x y :
  heap_at s d → x ∈ hd_blks d → y ∈ bslots (hd_esz d) (hd_cnt d) x →
  ∀ a, y.1 ≤ a < y.2 + hd_esz d → in_region (ab_elems x) (asize (hd_esz d) (hd_cnt d)) a = true.
Proof.
  intros Hd Hx Hy a Ha. destruct (heap_sizes s d Hd).
  destruct (slot_in_blk (hd_esz d) (hd_cnt d) x y) as (? & ? & ?); [lia|lia|done|].
  unfold in_region. lia.
Qed.

Lemma heap_frame P Q bh s s' d :
  heap_at s d → keeps P Q bh s s' → hd_at d ≠ bh → covered P Q d → heap_at s' d.
Proof.
  intros Hd Hk Hne [HQ HP]. pose proof Hd as [Hbh Hheap Hpar Hbase Hc Hsep Hcnt Hfree Hsmall].
  split; try done; [by rewrite (kp_heaps _ _ _ _ _ Hk)|].
  eapply chain_frame; [exact Hc|]. intros x Hx. rewrite (kp_blocks _ _ _ _ _ Hk) by auto.
  split; [done|]. intros y Hy. assert (P y.1) as Hp.
  { apply (HP x); [done|]. destruct (heap_sizes s d Hd).
    apply (slot_region s d x y Hd Hx Hy). pose proof (slots_data _ _ _ _ Hy). unfold SZ_MEMBLOCK in *. lia. }
  by rewrite (kp_nodes _ _ _ _ _ Hk), (kp_owner _ _ _ _ _ Hk).
Qed.

(** An object in use is a slot of a block. *)
Lemma live_slot s d y :
  heap_at s d → y ∈ live (hd_blks d) →
  ∃ x z, x ∈ hd_blks d ∧ z ∈ bslots (hd_esz d) (hd_cnt d) x ∧ z.2 = y ∧ z.1 = y - SZ_MEMBLOCK.
Proof.
  intros Hd (x & m & Hx & Hy)%elem_of_live. destruct (chain_in _ _ _ _ _ _ (ho_chain _ _ _ _ Hd) Hx) as [next Hk].
  assert ((m, y) ∈ bslots (hd_esz d) (hd_cnt d) x) as Hs.
  { rewrite <- (bk_slots _ _ _ _ _ Hk). apply elem_of_app. by right. }
  exists x, (m, y). split_and!; [done|done|done|]. pose proof (slots_data _ _ _ _ Hs). cbn in *. lia.
Qed.

Lemma contents_frame P Q bh s s' d y a :
  heap_at s d → keeps P Q bh s s' → covered P Q d → y ∈ live (hd_blks d) → y ≤ a < y + hd_esz d →
  st_bytes s' a = st_bytes s a.
Proof.
  intros Hd Hk [_ HP] Hy Ha. destruct (live_slot s d y Hd Hy) as (x & z & Hx & Hz & <- & E).
  apply (kp_bytes _ _ _ _ _ Hk). apply (HP x); [done|]. apply (slot_region s d x z Hd Hx Hz).
  unfold SZ_MEMBLOCK in *. lia.
Qed.

Lemma covered_apart esz n F d :
  apart_from esz n F d → covered (outside esz n F) (λ b, b ∉ ab_addr <$> F) d.
Proof.
  intros Hap. split.
  - intros x Hx (y & E & Hy)%list_elem_of_fmap. by destruct (Hap y x Hy Hx).
  - intros x a Hx Ha. unfold outside. rewrite Forall_forall. intros y Hy.
    destruct (Hap y x Hy Hx) as [_ Hd]. unfold in_region in *. lia.
Qed.

Lemma covered_mono (P Q P' Q' : Z → Prop) d :
  covered P Q d → (∀ a, P a → ¬ away d a → P' a) → (∀ b, Q b → Q' b) → covered P' Q' d.
Proof.
  intros [HQ HP] HP' HQ'. split; [auto|]. intros x a Hx Ha. apply HP'; [by eapply HP|].
  unfold away, outside. rewrite Forall_forall. intros H. rewrite (H x Hx) in Ha. done.
Qed.

(** ** One heap changes *)

(** The blocks of [d'] are among [F], wherever their lists are. *)
Definition shaped (F : list ablk) (d d' : hdesc) : Prop :=
  hd_at d' = hd_at d ∧ hd_esz d' = hd_esz d ∧ hd_cnt d' = hd_cnt d ∧
  ∀ x, x ∈ hd_blks d' → ∃ y, y ∈ F ∧ ab_addr x = ab_addr y ∧ ab_elems x = ab_elems y.

(** The footprint [F] of an operation on [d] is apart from the other heaps. *)
Definition footprint (d : hdesc) (others : list hdesc) (F : list ablk) : Prop :=
  (∀ o, o ∈ others → apart_from (hd_esz d) (hd_cnt d) F o) ∧
  ∀ o, o = d ∨ o ∈ others → outside (hd_esz d) (hd_cnt d) F (hd_at o).

Lemma own_footprint s pre d post : arena s (pre ++ d :: post) → footprint d (pre ++ post) (hd_blks d).
Proof.
  intros Ha. assert (d ∈ pre ++ d :: post) as Hd by (rewrite elem_of_app, elem_of_cons; auto). split.
  - intros o Ho. destruct (arena_others _ _ _ _ _ Ha Ho) as [Ho' Hne].
    by apply (ar_apart _ _ Ha d o).
  - intros o [->|Ho]; apply (ar_away _ _ Ha); try done. by apply (arena_others _ _ _ _ _ Ha).
Qed.

Lemma shaped_apart F d d' o :
  shaped F d d' → apart_from (hd_esz d) (hd_cnt d) F o → apart_from (hd_esz d') (hd_cnt d') (hd_blks d') o.
Proof.
  intros (_ & -> & -> & Hs) Hap x y Hx Hy. destruct (Hs x Hx) as (z & Hz & -> & ->). by apply Hap.
Qed.

Lemma shaped_away F d d' a :
  shaped F d d' → outside (hd_esz d) (hd_cnt d) F a → away d' a.
Proof.
  intros (_ & E1 & E2 & Hs) Ho. unfold away, outside in *. rewrite Forall_forall in *. rewrite E1, E2.
  intros x Hx. destruct (Hs x Hx) as (z & Hz & _ & ->). auto.
Qed.

Lemma arena_update s s' pre d post d' F :
  arena s (pre ++ d :: post) → footprint d (pre ++ post) F →
  untouched (hd_esz d) (hd_cnt d) F (hd_at d) s s' → heap_at s' d' → shaped F d d' →
  arena s' (pre ++ d' :: post).
Proof.
  intros Ha [Hap Hout] [Hk Hl] Hd' Hs. pose proof Hs as [Eat _].
  assert (∀ o, o ∈ pre ++ d' :: post → o = d' ∨ o ∈ pre ++ post) as Hcase.
  { intros o. rewrite !elem_of_app, elem_of_cons. tauto. }
  split.
  - intros o [->|Ho]%Hcase; [done|]. destruct (arena_others _ _ _ _ _ Ha Ho) as [Ho' Hne].
    eapply heap_frame; [by apply (ar_heap _ _ Ha)|exact Hk|done|]. by apply covered_apart, Hap.
  - intros o o' [->|Ho]%Hcase [->|Ho']%Hcase Hne; [done| | |].
    + eapply shaped_apart; [exact Hs|auto].
    + apply apart_sym. eapply shaped_apart; [exact Hs|auto].
    + apply (ar_apart _ _ Ha); [by apply (arena_others _ _ _ _ _ Ha)..|done].
  - rewrite Hl. replace (link <$> pre ++ d' :: post) with (link <$> pre ++ d :: post).
    2: { rewrite !fmap_app. cbn [fmap list_fmap]. by replace (link d') with (link d) by (unfold link; by rewrite Eat). }
    eapply dll_ext; [apply Ha|]. intros a. rewrite links_at. intros (o & -> & Ho)%list_elem_of_fmap.
    apply (kp_nodes _ _ _ _ _ Hk), Hout. rewrite elem_of_app, elem_of_cons in Ho. rewrite elem_of_app. tauto.
  - intros o o' Ho Ho'. assert (∃ o2, hd_at o' = hd_at o2 ∧ (o2 = d ∨ o2 ∈ pre ++ post)) as (o2 & -> & Ho2).
    { apply Hcase in Ho' as [->|?]; [exists d|exists o']; auto. }
    apply Hcase in Ho as [->|Ho]; [eapply shaped_away; [exact Hs|by apply Hout]|].
    apply (ar_away _ _ Ha); [by apply (arena_others _ _ _ _ _ Ha)|].
    destruct Ho2 as [->|?]; [rewrite elem_of_app, elem_of_cons; auto|by apply (arena_others _ _ _ _ _ Ha)].
  - pose proof (ar_small _ _ Ha) as H. rewrite length_app in *. exact H.
Qed.

(** ** The objects of all heaps *)

(** The objects in use, with the heap of each. *)
Definition objs (ds : list hdesc) : list (Z * Z) :=
  concat ((λ d, pair (hd_at d) <$> live (hd_blks d)) <$> ds).

Lemma objs_app ds ds' : objs (ds ++ ds') = objs ds ++ objs ds'.
Proof. unfold objs. by rewrite fmap_app, concat_app. Qed.

Lemma objs_cons d ds : objs (d :: ds) = (pair (hd_at d) <$> live (hd_blks d)) ++ objs ds.
Proof. done. Qed.

Lemma elem_of_objs ds h y : (h, y) ∈ objs ds ↔ ∃ d, d ∈ ds ∧ hd_at d = h ∧ y ∈ live (hd_blks d).
Proof.
  induction ds as [|d ds IH].
  { split; [by intros ?%elem_of_nil|]. intros (d & Hd & _). by apply elem_of_nil in Hd. }
  rewrite objs_cons, elem_of_app, IH. split.
  - intros [(z & [= -> ->] & Hz)%list_elem_of_fmap|(o & Ho & ?)]; [exists d; split; [left|done]|].
    exists o. split; [by right|done].
  - intros (o & [->|Ho]%elem_of_cons & <- & Hy); [left; by apply list_elem_of_fmap_2|]. right. by exists o.
Qed.

(** Two objects in use do not overlap, whatever their heaps. *)
Lemma objects_disjoint s ds d d' y y' :
  arena s ds → d ∈ ds → d' ∈ ds → y ∈ live (hd_blks d) → y' ∈ live (hd_blks d') →
  (hd_at d, y) ≠ (hd_at d', y') → y + hd_esz d ≤ y' ∨ y' + hd_esz d' ≤ y.
Proof.
  intros Ha Hd Hd' Hy Hy' Hne.
  pose proof (ar_heap _ _ Ha d Hd) as Hok. pose proof (ar_heap _ _ Ha d' Hd') as Hok'.
  destruct (decide (hd_at d = hd_at d')) as [E|E].
  - assert (d = d') as <-.
    { eapply key_inj; [by eapply arena_nodup|done..]. }
    apply elem_of_live in Hy as (x & m & Hx & Hm), Hy' as (x' & m' & Hx' & Hm').
    assert ((m, y) ∈ ab_free x ++ ab_used x) as H1 by (apply elem_of_app; by right).
    assert ((m', y') ∈ ab_free x' ++ ab_used x') as H2 by (apply elem_of_app; by right).
    destruct (live_header _ _ _ _ _ _ _ Hok Hx H1) as [-> _].
    destruct (live_header _ _ _ _ _ _ _ Hok Hx' H2) as [-> _].
    destruct (objects_apart _ _ _ _ _ _ _ _ _ _ Hok Hx Hx' H1 H2) as [?|?]; [congruence| |];
      unfold hd_esz, SZ_MEMBLOCK in *; lia.
  - destruct (live_slot s d y Hok Hy) as (x & z & Hx & Hz & <- & _).
    destruct (live_slot s d' y' Hok' Hy') as (x' & z' & Hx' & Hz' & <- & _).
    destruct (heap_sizes s d Hok), (heap_sizes s d' Hok').
    destruct (ar_apart _ _ Ha d d' Hd Hd' E x x' Hx Hx') as [_ Hr].
    destruct (slot_in_blk (hd_esz d) (hd_cnt d) x z) as (? & ? & ?); [lia|lia|done|].
    destruct (slot_in_blk (hd_esz d') (hd_cnt d') x' z') as (? & ? & ?); [lia|lia|done|].
    unfold SZ_MEMBLOCK in *. lia.
Qed.

(** The objects in use keep their contents, but for those that are [gone]. *)
Definition contents_kept (s s' : bstate) (ds : list hdesc) (gone : list (Z * Z)) : Prop :=
  ∀ d y a, d ∈ ds → y ∈ live (hd_blks d) → (hd_at d, y) ∉ gone → y ≤ a < y + hd_esz d →
    st_bytes s' a = st_bytes s a.

Lemma update_contents s s' pre d post F gone :
  arena s (pre ++ d :: post) → footprint d (pre ++ post) F →
  untouched (hd_esz d) (hd_cnt d) F (hd_at d) s s' → contents_kept s s' [d] gone →
  contents_kept s s' (pre ++ d :: post) gone.
Proof.
  intros Ha [Hap _] [Hk _] Hown o y a Ho Hy Hg Hr.
  assert (o = d ∨ o ∈ pre ++ post) as [->|Ho'] by (rewrite !elem_of_app, elem_of_cons in *; tauto).
  - apply (Hown d y); [left|done..].
  - eapply contents_frame; [by apply (ar_heap _ _ Ha o)|exact Hk|by apply covered_apart, Hap|exact Hy|done].
Qed.

(** ** The operations *)

Lemma same_shape_shaped d hp' F abs' :
  same_shape (hd_heap d) hp' F abs' → shaped F d (HDesc (hd_at d) hp' abs').
Proof.
  intros (E1 & E2 & Em). split_and!; [done|done|done|]. cbn [hd_blks]. intros x Hx.
  apply (list_elem_of_fmap_2 (λ ab, (ab_addr ab, ab_elems ab))) in Hx. rewrite Em in Hx.
  apply list_elem_of_fmap in Hx as (y & [= ? ?] & Hy). by exists y.
Qed.

Lemma subset_shaped d hp' F abs' :
  bh_elemSize hp' = hd_esz d → bh_elemsPerBlock hp' = hd_cnt d → abs' ⊆ F →
  shaped F d (HDesc (hd_at d) hp' abs').
Proof. intros. split_and!; [done..|]. cbn [hd_blks]. intros x Hx. exists x. split; [auto|done]. Qed.

(** The memory for a new block of [d] is in no heap, and holds no heap. *)
Definition block_room (d : hdesc) (others : list hdesc) (b e : Z) : Prop :=
  fresh (hd_esz d) (hd_cnt d) (hd_blks d) b e ∧
  footprint d others [new_blk (hd_esz d) (hd_cnt d) b e].

Lemma footprint_app d others F G : footprint d others F → footprint d others G → footprint d others (F ++ G).
Proof.
  intros [A1 A2] [B1 B2]. split.
  - intros o Ho x y [Hx|Hx]%elem_of_app Hy; [by apply A1|by apply B1].
  - intros o Ho. apply Forall_app. split; [by apply A2|by apply B2].
Qed.

Lemma arena_alloc s pre d post o :
  arena s (pre ++ d :: post) →
  (total_free (hd_blks d) ≠ 0 ∨ ∃ b e, o = (Some b, Some e) ∧ block_room d (pre ++ post) b e) →
  ∃ x s' d', blockheap_alloc o (hd_at d) s = Ret (x, s') ∧ arena s' (pre ++ d' :: post) ∧
    hd_at d' = hd_at d ∧ hd_esz d' = hd_esz d ∧ live (hd_blks d') ≡ₚ x :: live (hd_blks d) ∧
    (x ∉ live (hd_blks d)) ∧ (∀ a, x ≤ a < x + hd_esz d → st_bytes s' a = 0) ∧ 0 < x ∧
    contents_kept s s' (pre ++ d :: post) [].
Proof.
  intros Ha Ho. assert (d ∈ pre ++ d :: post) as Hin by (rewrite elem_of_app, elem_of_cons; auto).
  pose proof (ar_heap _ _ Ha d Hin) as Hd.
  assert (os_good (hd_heap d) (hd_blks d) o) as Hos.
  { destruct Ho as [?|(b & e & -> & Hf & _)]; [by left|right]. by exists b, e. }
  destruct (alloc_ok s _ _ _ o Hd Hos) as (x & s' & hp' & abs' & Hal & Hok' & (Hl & Hx & Hx0 & Hz & Hk) & new & Hsh & Hun & Hnew).
  assert (footprint d (pre ++ post) (new ++ hd_blks d)) as Hfoot.
  { pose proof (own_footprint _ _ _ _ Ha). destruct Hnew as [->|(H0 & b & e & -> & ->)]; [done|].
    destruct Ho as [?|(b' & e' & [= <- <-] & _ & Hf)]; [done|]. by apply (footprint_app _ _ [_]). }
  pose proof (same_shape_shaped d _ _ _ Hsh) as Hshaped.
  exists x, s', (HDesc (hd_at d) hp' abs'). split_and!; try done.
  - by eapply arena_update.
  - apply Hshaped.
  - eapply update_contents; [exact Ha|exact Hfoot|exact Hun|].
    intros o' y a ->%list_elem_of_singleton Hy _. by apply Hk.
Qed.

Lemma arena_free s pre d post x :
  arena s (pre ++ d :: post) → x ∈ live (hd_blks d) →
  ∃ s' d', blockheap_free (hd_at d) x s = Ret (0, s') ∧ arena s' (pre ++ d' :: post) ∧
    hd_at d' = hd_at d ∧ hd_esz d' = hd_esz d ∧ x :: live (hd_blks d') ≡ₚ live (hd_blks d) ∧
    contents_kept s s' (pre ++ d :: post) [(hd_at d, x)].
Proof.
  intros Ha Hx. assert (d ∈ pre ++ d :: post) as Hin by (rewrite elem_of_app, elem_of_cons; auto).
  pose proof (ar_heap _ _ Ha d Hin) as Hd.
  destruct (free_ok s _ _ _ x Hd Hx) as (s' & hp' & abs' & Hfr & Hok' & Hl & _ & Hsh & Hby & Hun).
  pose proof (same_shape_shaped d _ _ _ Hsh) as Hshaped. pose proof (own_footprint _ _ _ _ Ha) as Hfoot.
  exists s', (HDesc (hd_at d) hp' abs'). split_and!; try done.
  - by eapply arena_update.
  - apply Hshaped.
  - eapply update_contents; [exact Ha|exact Hfoot|exact Hun|].
    intros o' y a ->%list_elem_of_singleton Hy Hg Hr. rewrite Hby. apply memset0_out.
    rewrite list_elem_of_singleton in Hg.
    destruct (objects_disjoint s _ d d x y Ha Hin Hin Hx Hy) as [?|?]; [congruence| |]; unfold hd_esz in *; lia.
Qed.

(** What a collection makes of a heap. *)
Definition collected_to (d d' : hdesc) : Prop :=
  hd_at d' = hd_at d ∧ hd_esz d' = hd_esz d ∧ hd_cnt d' = hd_cnt d ∧
  hd_blks d' = collected (hd_heap d) (hd_blks d).

Lemma collected_live d d' : collected_to d d' → live (hd_blks d') = live (hd_blks d).
Proof. intros (_ & _ & _ & ->). unfold collected. destruct (_ || _); [done|apply live_filter]. Qed.

Lemma collected_subset hp abs : collected hp abs ⊆ abs.
Proof.
  unfold collected. destruct (_ || _); [done|]. intros x Hx. by apply list_elem_of_filter in Hx as [_ ?].
Qed.

Lemma arena_gc s pre d post :
  arena s (pre ++ d :: post) →
  ∃ s' d', blockheap_garbagecollect (hd_at d) s = Ret (0, s') ∧ arena s' (pre ++ d' :: post) ∧
    collected_to d d' ∧ st_bytes s' = st_bytes s ∧ (∀ h, h ≠ hd_at d → st_heaps s' !! h = st_heaps s !! h).
Proof.
  intros Ha. assert (d ∈ pre ++ d :: post) as Hin by (rewrite elem_of_app, elem_of_cons; auto).
  destruct (gc_ok s _ _ _ (ar_heap _ _ Ha d Hin)) as (s' & hp' & Hgc & Hok' & Hby & He & Hn & Hun).
  exists s', (HDesc (hd_at d) hp' (collected (hd_heap d) (hd_blks d))).
  split_and!; try done; [|intros h Hh; by apply (kp_heaps _ _ _ _ _ (proj1 Hun))].
  eapply arena_update; [exact Ha|by eapply own_footprint|exact Hun|exact Hok'|].
  apply subset_shaped; [done..|apply collected_subset].
Qed.

(** The loop over the list of heaps. *)
Lemma gc_heaps_ok post : ∀ pre s fuel, arena s (pre ++ post) → (length post < fuel)%nat →
  ∃ s' post', gc_heaps fuel (hd 0 (hd_at <$> post)) s = Ret s' ∧ arena s' (pre ++ post') ∧
    Forall2 collected_to post post' ∧ st_bytes s' = st_bytes s.
Proof.
  induction post as [|d post IH]; intros pre s [|fuel] Ha Hf; cbn [length] in Hf; try lia.
  { exists s, []. done. }
  cbn [fmap list_fmap hd gc_heaps].
  pose proof (ar_list _ _ Ha) as Hl. rewrite fmap_app in Hl. cbn [fmap list_fmap] in Hl.
  destruct (dll_split _ _ _ _ _ _ Hl) as (_ & Hnz & Hnode & _).
  destruct (Z.eqb_spec (hd_at d) 0); [done|]. rewrite (load_some _ _ _ Hnz Hnode), bind_ret.
  cbn [dn_data dn_next]. destruct (arena_gc s pre d post Ha) as (s1 & d1 & -> & Ha1 & Hc1 & Hb1 & _).
  rewrite bind_ret. cbn [snd]. rewrite links_at.
  destruct (IH (pre ++ [d1]) s1 fuel) as (s' & post' & -> & Ha' & Hc' & Hb').
  { by rewrite <- app_assoc. } { lia. }
  exists s', (d1 :: post'). rewrite <- app_assoc in Ha'. split_and!; [done|done|by constructor|congruence].
Qed.

Lemma arena_size s ds : arena s ds → (length ds ≤ size (st_heaps s))%nat.
Proof.
  intros Ha. rewrite <- (length_fmap hd_at ds). apply keys_size; [by eapply arena_nodup|].
  intros a (d & -> & Hd)%list_elem_of_fmap. rewrite (ho_heap _ _ _ _ (ar_heap _ _ Ha d Hd)). by eexists.
Qed.

(** [blockheap_gc] collects every heap. *)
Lemma arena_gc_all s ds :
  arena s ds →
  ∃ s' ds', blockheap_gc s = Ret s' ∧ arena s' ds' ∧ Forall2 collected_to ds ds' ∧ st_bytes s' = st_bytes s.
Proof.
  intros Ha. unfold blockheap_gc. rewrite (dll_hd _ _ _ (ar_list _ _ Ha)), links_at.
  apply (gc_heaps_ok ds [] s); [done|]. pose proof (arena_size _ _ Ha). lia.
Qed.

Lemma collected_objs ds ds' : Forall2 collected_to ds ds' → objs ds' = objs ds.
Proof.
  induction 1 as [|d d' ds ds' Hc _ IH]; [done|]. rewrite !objs_cons, IH.
  destruct Hc as (Ha & Hr). rewrite Ha. by rewrite (collected_live d d').
Qed.

(** ** Creation and destruction *)

(** A new heap of [n] objects of [size] bytes at [oh], its block at [b] with the memory at [e]. *)
Definition new_heap (name : string) (size n oh b e : Z) : hdesc :=
  HDesc oh (BlockHeap (str_take 63 name) (pad_size size) n 1 n b) [new_blk (pad_size size) n b e].

(** It is apart from the heaps [ds]. *)
Record heap_room (ds : list hdesc) (size n oh b e : Z) : Prop := {
  hr_at : oh ≠ 0;
  hr_fresh : fresh (pad_size size) n [] b e;
  hr_params : params_ok (pad_size size) n;
  hr_self : outside (pad_size size) n [new_blk (pad_size size) n b e] oh;
  hr_others : ∀ o, o ∈ ds → apart_from (pad_size size) n [new_blk (pad_size size) n b e] o ∧
    hd_at o ≠ oh ∧ outside (pad_size size) n [new_blk (pad_size size) n b e] (hd_at o) ∧ away o oh
}.

Lemma arena_create s ds size n oh b e name readable :
  arena s ds → 0 < size < 2 ^ 64 - 8 → heap_room ds size n oh b e → 63 ≤ readable →
  Z.of_nat (length ds) + 1 < 2 ^ 64 →
  ∃ s', blockheap_create (Some oh) (Some b, Some e) size n (Some name) readable s = Ret (oh, s') ∧
    arena s' (new_heap name size n oh b e :: ds) ∧ contents_kept s s' ds [].
Proof.
  intros Ha Hsz [Hoh Hfr Hpar Hself Hoth] Hrd Hlen. pose proof Hpar as (_ & Hn & _).
  assert (∀ a, outside (pad_size size) n [new_blk (pad_size size) n b e] a →
    in_region e (asize (pad_size size) n) a = false) as Hreg by (intros a [? _]%Forall_cons; done).
  assert (∀ a, a ∈ (link <$> ds).*1 → in_region e (asize (pad_size size) n) a = false ∧ a ≠ oh) as H1.
  { rewrite links_at. intros a (o & -> & Ho)%list_elem_of_fmap. destruct (Hoth o Ho) as (_ & ? & ? & _). auto. }
  assert (dl_length (st_lists s) + 1 < 2 ^ 64) as H2 by (rewrite (dll_len _ _ _ (ar_list _ _ Ha)), length_fmap; lia).
  destruct (create_ok s oh b e size n name readable (link <$> ds) Hsz ltac:(lia) Hpar Hoh Hfr (ar_list _ _ Ha)
    H1 (Hreg _ Hself) H2 Hrd) as (s' & hp & Hc & Hok & Hnm & He & Hp & Hl & Hk).
  assert (hp = hd_heap (new_heap name size n oh b e)) as ->.
  { pose proof (ho_base _ _ _ _ Hok) as Eb. pose proof (ho_count _ _ _ _ Hok) as Ec.
    pose proof (ho_free _ _ _ _ Hok) as Ef. rewrite total_new in Ef by lia.
    destruct hp. cbn in *. by subst. }
  assert (∀ o, o ∈ ds → covered (λ a, outside (pad_size size) n [new_blk (pad_size size) n b e] a ∧ a ∉ oh :: (link <$> ds).*1)
    (λ x, x ≠ b) o) as Hcov.
  { intros o Ho. destruct (Hoth o Ho) as (Hap & Hne & _ & Haw). eapply covered_mono; [by apply covered_apart| |].
    - intros a Hout Hna. split; [done|]. rewrite links_at. intros [->|(o' & -> & Ho')%list_elem_of_fmap]%elem_of_cons; [done|].
      apply Hna. by apply (ar_away _ _ Ha).
    - intros x Hx ->. apply Hx. left. }
  exists s'. split; [done|]. split; [split|].
  - intros o [->|Ho]%elem_of_cons; [done|]. destruct (Hoth o Ho) as (_ & Hne & _).
    eapply heap_frame; [by apply (ar_heap _ _ Ha)|exact Hk|done|by apply Hcov].
  - intros o o' [->|Ho]%elem_of_cons [->|Ho']%elem_of_cons Hne; [done|by apply Hoth| |by apply (ar_apart _ _ Ha)].
    apply apart_sym. by apply Hoth.
  - exact Hl.
  - intros o o' [->|Ho]%elem_of_cons [->|Ho']%elem_of_cons; [exact Hself|by apply Hoth|by apply Hoth|by apply (ar_away _ _ Ha)].
  - cbn [length]. lia.
  - intros o y a Ho Hy _ Hr. eapply contents_frame; [by apply (ar_heap _ _ Ha)|exact Hk|by apply Hcov|exact Hy|done].
Qed.

Lemma arena_destroy s pre d post :
  arena s (pre ++ d :: post) →
  ∃ s', blockheap_destroy (hd_at d) s = Ret (0, s') ∧ arena s' (pre ++ post) ∧
    st_heaps s' = delete (hd_at d) (st_heaps s) ∧
    contents_kept s s' (pre ++ d :: post) (pair (hd_at d) <$> live (hd_blks d)).
Proof.
  intros Ha. pose proof (ar_small _ _ Ha) as Hlen.
  assert (d ∈ pre ++ d :: post) as Hin by (rewrite elem_of_app, elem_of_cons; auto).
  pose proof (ar_list _ _ Ha) as Hl. pose proof Hl as Hll. rewrite fmap_app in Hl. cbn [fmap list_fmap] in Hl.
  assert (∀ a, a ∈ ((link <$> pre) ++ link d :: (link <$> post)).*1 → away d a) as Haw.
  { intros a. change (link d :: (link <$> post)) with (link <$> d :: post). rewrite <- fmap_app, links_at.
    intros (o & -> & Ho)%list_elem_of_fmap. by apply (ar_away _ _ Ha). }
  destruct (destroy_spec s (hd_at d) (hd_heap d) (hd_blks d) (link <$> pre) (link <$> post) (hd_at d))
    as (s' & Hd & Hl' & Hh & _ & _ & _ & Hk); [by apply (ar_heap _ _ Ha)|exact Hl|exact Haw| |].
  { rewrite (dll_len _ _ _ Hll), length_fmap. lia. }
  assert (∀ o, o ∈ pre ++ post → covered (λ a, outside (bh_elemSize (hd_heap d)) (bh_elemsPerBlock (hd_heap d)) (hd_blks d) a ∧
    a ∉ ((link <$> pre) ++ (hd_at d, hd_at d) :: (link <$> post)).*1) (λ b, b ∉ ab_addr <$> hd_blks d) o) as Hcov.
  { intros o Ho. eapply covered_mono; [apply covered_apart; by apply (own_footprint _ _ _ _ Ha)| |done].
    intros a Hout Hna. split; [done|]. change (?x :: (link <$> post)) with (link <$> d :: post).
    rewrite <- fmap_app, links_at. intros (o' & -> & Ho')%list_elem_of_fmap.
    apply Hna, (ar_away _ _ Ha); [by apply (arena_others _ _ _ _ _ Ha)|done]. }
  assert (∀ o, o ∈ pre ++ post → o ∈ pre ++ d :: post) as Hold by (intros o Ho; by apply (arena_others _ _ _ _ _ Ha)).
  exists s'. split; [done|]. split; [split|split; [exact Hh|]].
  - intros o Ho. destruct (arena_others _ _ _ _ _ Ha Ho) as [Ho' Hne].
    eapply heap_frame; [by apply (ar_heap _ _ Ha)|exact Hk|done|by apply Hcov].
  - intros o o' Ho Ho'. apply (ar_apart _ _ Ha); auto.
  - by rewrite fmap_app.
  - intros o o' Ho Ho'. apply (ar_away _ _ Ha); auto.
  - rewrite length_app in *. cbn [length] in Hlen. lia.
  - intros o y a Ho Hy Hg Hr. assert (o = d ∨ o ∈ pre ++ post) as [->|Ho'] by (rewrite !elem_of_app, elem_of_cons in *; tauto).
    + exfalso. apply Hg. by apply list_elem_of_fmap_2.
    + eapply contents_frame; [by apply (ar_heap _ _ Ha)|exact Hk|by apply Hcov|exact Hy|done].
Qed.

(** ** One allocator for all heaps *)

(** The calls of the allocator, with what the system answers. *)
Inductive heap_op :=
  | OpAlloc (o : os) (h : Z)
  | OpFree (h x : Z)
  | OpCollect (h : Z)
  | OpCollectAll
  | OpCreate (name : string) (size n oh b e readable : Z)
  | OpDestroy (h : Z).

Definition run_op (op : heap_op) (s : bstate) : outcome (Z * bstate) :=
  match op with
  | OpAlloc o h => blockheap_alloc o h s
  | OpFree h x => blockheap_free h x s
  | OpCollect h => blockheap_garbagecollect h s
  | OpCollectAll => let! s := blockheap_gc s in Ret (0, s)
  | OpCreate name size n oh b e readable =>
      blockheap_create (Some oh) (Some b, Some e) size n (Some name) readable s
  | OpDestroy h => blockheap_destroy h s
  end.

(** Heaps that are there and objects in use; memory that is in no heap. *)
Definition op_ok (ds : list hdesc) (op : heap_op) : Prop :=
  match op with
  | OpAlloc o h => ∃ pre d post, ds = pre ++ d :: post ∧ hd_at d = h ∧
      (total_free (hd_blks d) ≠ 0 ∨ ∃ b e, o = (Some b, Some e) ∧ block_room d (pre ++ post) b e)
  | OpFree h x => (h, x) ∈ objs ds
  | OpCollect h => h ∈ hd_at <$> ds
  | OpCollectAll => True
  | OpCreate name size n oh b e readable => 0 < size < 2 ^ 64 - 8 ∧ heap_room ds size n oh b e ∧ 63 ≤ readable ∧
      Z.of_nat (length ds) + 1 < 2 ^ 64
  | OpDestroy h => h ∈ hd_at <$> ds
  end.

(** What a call does to the objects in use of all heaps; [r]: its result. *)
Definition op_spec (op : heap_op) (r : Z) (xs xs' : list (Z * Z)) : Prop :=
  match op with
  | OpAlloc _ h => xs' ≡ₚ (h, r) :: xs ∧ (h, r) ∉ xs
  | OpFree h x => r = 0 ∧ (h, x) :: xs' ≡ₚ xs
  | OpCollect _ | OpCollectAll => r = 0 ∧ xs' = xs
  | OpCreate _ _ _ oh _ _ _ => r = oh ∧ xs' = xs
  | OpDestroy h => r = 0 ∧ xs' = filter (λ x, x.1 ≠ h) xs
  end.
(** The objects that lose their contents. *)
Definition op_gone (op : heap_op) (xs : list (Z * Z)) : list (Z * Z) :=
  match op with
  | OpFree h x => [(h, x)]
  | OpDestroy h => filter (λ x, x.1 = h) xs
  | _ => []
  end.

Lemma objs_update pre d post d' xs :
  live (hd_blks d') ≡ₚ xs → hd_at d' = hd_at d →
  objs (pre ++ d' :: post) ≡ₚ (pair (hd_at d) <$> xs) ++ objs (pre ++ post).
Proof.
  intros Hl E. rewrite !objs_app, objs_cons, E, Hl. rewrite !(assoc_L app).
  by rewrite (Permutation_app_comm (objs pre)).
Qed.

Lemma filter_every {A} (P : A → Prop) `{∀ x, Decision (P x)} (l : list A) : (∀ x, x ∈ l → P x) → filter P l = l.
Proof.
  induction l as [|x l IH]; intros Hl; [done|]. rewrite filter_cons, decide_True by (apply Hl; left).
  f_equal. apply IH. intros y Hy. apply Hl. by right.
Qed.
Lemma filter_no {A} (P : A → Prop) `{∀ x, Decision (P x)} (l : list A) : (∀ x, x ∈ l → ¬ P x) → filter P l = [].
Proof.
  induction l as [|x l IH]; intros Hl; [done|]. rewrite filter_cons, decide_False by (apply Hl; left).
  apply IH. intros y Hy. apply Hl. by right.
Qed.

Lemma objs_filter s pre d post :
  arena s (pre ++ d :: post) →
  filter (λ x, x.1 ≠ hd_at d) (objs (pre ++ d :: post)) = objs (pre ++ post) ∧
  ∀ x, x ∈ (pair (hd_at d) <$> live (hd_blks d)) ↔ x ∈ filter (λ x, x.1 = hd_at d) (objs (pre ++ d :: post)).
Proof.
  intros Ha. assert (∀ ds, (∀ o, o ∈ ds → o ∈ pre ++ post) → filter (λ x, x.1 ≠ hd_at d) (objs ds) = objs ds) as Hsame.
  { intros ds Hds. apply filter_every. intros [h y] (o & Ho & <- & _)%elem_of_objs.
    by apply (arena_others _ _ _ _ _ Ha), Hds. }
  split.
  - rewrite !objs_app, objs_cons, !filter_app, !Hsame by (intros o; rewrite elem_of_app; tauto).
    f_equal. replace (filter _ (pair (hd_at d) <$> _)) with (@nil (Z * Z)); [done|]. symmetry.
    apply filter_no. intros x (y & -> & _)%list_elem_of_fmap. cbn. tauto.
  - intros [h y]. rewrite list_elem_of_filter, elem_of_objs. cbn. split.
    + intros (z & [= -> ->] & Hz)%list_elem_of_fmap. split; [done|]. exists d. split; [|done].
      rewrite elem_of_app, elem_of_cons. auto.
    + intros [-> (o & Ho & E & Hy)]. assert (o = d) as ->; [|by apply list_elem_of_fmap_2].
      eapply key_inj; [by eapply arena_nodup|done| |done]. rewrite elem_of_app, elem_of_cons. auto.
Qed.

Lemma at_split h ds : h ∈ hd_at <$> ds → ∃ pre d post, ds = pre ++ d :: post ∧ hd_at d = h.
Proof.
  intros (d & -> & (pre & post & ->)%list_elem_of_split)%list_elem_of_fmap. by exists pre, d, post.
Qed.

(** C7: The heaps of the program are one allocator: an operation on one of them leaves the others alone.
    From heaps that are well-formed, linked and apart, every call of the allocator returns, and the heaps
    are so again.  An allocation gives an object that was not in use in any heap, filled with zeros; a
    release takes that object and no other from those in use; collecting one heap, or all heaps in
    the order of their list, takes none, and neither does creating a heap; destroying a heap takes
    its objects.  All other objects, in every heap, keep their contents, and no two
    objects in use overlap. *)
Theorem heaps_independent (s : bstate) (ds : list hdesc) (op : heap_op) :
  arena s ds → op_ok ds op →
  ∃ r s' ds', run_op op s = Ret (r, s') ∧ arena s' ds' ∧ op_spec op r (objs ds) (objs ds') ∧
    contents_kept s s' ds (op_gone op (objs ds)) ∧
    (∀ d d' y y', d ∈ ds' → d' ∈ ds' → y ∈ live (hd_blks d) → y' ∈ live (hd_blks d') →
       (hd_at d, y) ≠ (hd_at d', y') → y + hd_esz d ≤ y' ∨ y' + hd_esz d' ≤ y) ∧
    match op with
    | OpAlloc _ h => ∃ d, d ∈ ds' ∧ hd_at d = h ∧ ∀ a, r ≤ a < r + hd_esz d → st_bytes s' a = 0
    | _ => True
    end.
Proof.
  intros Ha Hop.
  assert (∃ r s' ds', run_op op s = Ret (r, s') ∧ arena s' ds' ∧ op_spec op r (objs ds) (objs ds') ∧
    contents_kept s s' ds (op_gone op (objs ds)) ∧
    match op with
    | OpAlloc _ h => ∃ d, d ∈ ds' ∧ hd_at d = h ∧ ∀ a, r ≤ a < r + hd_esz d → st_bytes s' a = 0
    | _ => True
    end) as (r & s' & ds' & ? & Ha' & ? & ? & ?).
  2: { exists r, s', ds'. split_and!; try done. intros d d' y y' ? ? ? ? ?. by eapply objects_disjoint. }
  destruct op; cbn [op_ok run_op op_spec op_gone] in *.
  - destruct Hop as (pre & d & post & -> & <- & Ho).
    destruct (arena_alloc s pre d post o Ha Ho) as (x & s' & d' & -> & Ha' & E & E2 & Hl & Hx & Hz & _ & Hk).
    exists x, s', (pre ++ d' :: post). split_and!; try done.
    + rewrite (objs_update _ _ _ _ _ Hl E), (objs_update pre d post d (live (hd_blks d))) by done. done.
    + intros (o' & Ho' & E' & Hx')%elem_of_objs. apply Hx.
      assert (o' = d) as <-; [|done]. apply (key_inj hd_at (pre ++ d :: post)); [by eapply arena_nodup|done| |done].
      rewrite elem_of_app, elem_of_cons. auto.
    + exists d'. rewrite E2, elem_of_app, elem_of_cons. auto.
  - apply elem_of_objs in Hop as (d & (pre & post & ->)%list_elem_of_split & <- & Hx).
    destruct (arena_free s pre d post x Ha Hx) as (s' & d' & -> & Ha' & E & _ & Hl & Hk).
    exists 0, s', (pre ++ d' :: post). split_and!; try done.
    rewrite (objs_update pre d post d _ (symmetry Hl) eq_refl), (objs_update pre d post d' (live (hd_blks d'))) by done. done.
  - apply at_split in Hop as (pre & d & post & -> & <-).
    destruct (arena_gc s pre d post Ha) as (s' & d' & -> & Ha' & Hc & Hb & _).
    exists 0, s', (pre ++ d' :: post). split_and!; try done.
    + rewrite !objs_app, !objs_cons, (collected_live _ _ Hc). by rewrite (proj1 Hc).
    + intros ? ? ? _ _ _ _. by rewrite Hb.
  - destruct (arena_gc_all s ds Ha) as (s' & ds' & -> & Ha' & Hc & Hb). exists 0, s', ds'.
    split_and!; try done; [by apply collected_objs|]. intros ? ? ? _ _ _ _. by rewrite Hb.
  - destruct Hop as (Hsz & Hr & Hread & Hlen).
    destruct (arena_create s ds size n oh b e name readable Ha Hsz Hr Hread Hlen) as (s' & -> & Ha' & Hk).
    by exists oh, s', (new_heap name size n oh b e :: ds).
  - apply at_split in Hop as (pre & d & post & -> & <-).
    destruct (arena_destroy s pre d post Ha) as (s' & -> & Ha' & _ & Hk).
    destruct (objs_filter s pre d post Ha) as [Hf Hg].
    exists 0, s', (pre ++ post). split_and!; try done.
    intros o y a Ho Hy Hn. apply Hk; [done|done|]. by rewrite Hg.
Qed.

(** ** An example: two heaps *)
Definition ex_first : hdesc := new_heap "demo" 20 2 4096 8192 65536.
Definition ex_second : hdesc := new_heap "second" 48 4 12288 16384 131072.

Lemma ex_room : heap_room [ex_first] 48 4 12288 16384 131072.
Proof.
  split; [done|split; [done|by intros ?%elem_of_nil|done|by intros a ?%elem_of_nil|done]
         |change (pad_size 48) with 48; unfold params_ok, asize, SZ_MEMBLOCK; lia|repeat constructor|].
  intros o ->%list_elem_of_singleton. split_and!; [|done|repeat constructor..].
  intros x y ->%list_elem_of_singleton ->%list_elem_of_singleton. split; [done|right; by vm_compute].
Qed.

Lemma ex_arena_empty : arena empty_state [].
Proof. split; [by intros d ?%elem_of_nil|by intros d d' ?%elem_of_nil|apply dll_nil|by intros d d' ?%elem_of_nil|done]. Qed.

Lemma ex_two_heaps : ∃ s, arena s [ex_second; ex_first].
Proof.
  destruct (arena_create empty_state [] 20 2 4096 8192 65536 "demo" 64 ex_arena_empty)
    as (s & _ & Ha & _); [lia| |lia|cbn; lia|].
  { split; [done|exact demo_fresh|exact demo_params|repeat constructor|by intros o ?%elem_of_nil]. }
  destruct (arena_create s [ex_first] 48 4 12288 16384 131072 "second" 64 Ha)
    as (s' & _ & Ha' & _); [lia|exact ex_room|lia|cbn; lia|]. by exists s'.
Qed.

Lemma heaps_independent_witness :
  ∃ s x s1 ds1, arena s [ex_second; ex_first] ∧
    run_op (OpAlloc (None, None) 4096) s = Ret (x, s1) ∧ arena s1 ds1 ∧ objs ds1 ≡ₚ [(4096, x)] ∧
    (∃ s2 ds2, run_op OpCollectAll s1 = Ret (0, s2) ∧ arena s2 ds2 ∧ objs ds2 = objs ds1) ∧
    (∃ s2 ds2, run_op (OpFree 4096 x) s1 = Ret (0, s2) ∧ arena s2 ds2 ∧ objs ds2 = []) ∧
    (∃ s2 ds2, run_op (OpDestroy 12288) s = Ret (0, s2) ∧ arena s2 ds2 ∧ objs ds2 = []).
Proof.
  destruct ex_two_heaps as [s Ha].
  destruct (heaps_independent s _ (OpAlloc (None, None) 4096) Ha) as (x & s1 & ds1 & H1 & Ha1 & [Ho1 _] & _).
  { exists [ex_second], ex_first, []. split_and!; [done|done|]. left. by vm_compute. }
  change (objs [ex_second; ex_first]) with (@nil (Z * Z)) in Ho1.
  exists s, x, s1, ds1. split_and!; [done|done|done|done|..].
  - destruct (heaps_independent s1 ds1 OpCollectAll Ha1) as (r & s2 & ds2 & H2 & Ha2 & [-> Ho2] & _); [done|].
    by exists s2, ds2.
  - destruct (heaps_independent s1 ds1 (OpFree 4096 x) Ha1) as (r & s2 & ds2 & H2 & Ha2 & [-> Ho2] & _).
    { cbn. rewrite Ho1. left. }
    exists s2, ds2. split_and!; [done|done|]. rewrite Ho1 in Ho2.
    apply Permutation_nil_r. by eapply (Permutation_cons_inv (a := (4096, x))).
  - destruct (heaps_independent s _ (OpDestroy 12288) Ha) as (r & s2 & ds2 & H2 & Ha2 & [-> Ho2] & _).
    { left. }
    by exists s2, ds2.
Defined.
