(* ===== verification/Timestr.v ===== *)
(** * Durations as text (lsd/timestr.c)

    [time_t] and [long] are 64-bit signed, [int] is 32-bit.  [time_to_timestr]
    prints into a static buffer of 64 bytes. *)
From S2P Require Import Prelude CStd.
From Stdlib Require Import Ascii.

Local Open Scope Z_scope.

(** One unit: the text before the letter is a number of [scale] seconds; the
    rest of the text and the new sum. *)
Definition take_unit (letter : ascii) (scale : Z) (s : string) (ret : Z) : outcome (string * Z) :=
  match str_split letter s with
  | Some (num, rest) =>
      let! p := slong (sl_val (strtol0 num) * scale) in
      let! ret := slong (ret + p) in
      Ret (rest, ret)
  | None => Ret (s, ret)
  end.

Definition timestr_to_time (str : option string) (def : Z) : outcome Z :=
  match str with
  | None => Ret def
  | Some str =>
      let s := str_map tolower str in
      let! r := take_unit "d"%char 86400 s 0 in
      let! r := take_unit "h"%char 3600 r.1 r.2 in
      let! r := take_unit "m"%char 60 r.1 r.2 in
      slong (r.2 + sl_val (strtol0 r.1))
  end.

Definition RBUF_SIZE : Z := 64.

(** [rlen += snprintf(rbuf + rlen, 64, "%d<unit>", v)] if [v] is not 0; the
    text of [rbuf] and [rlen] are the state. *)
Definition put_unit (v : Z) (unit : ascii) (st : string * Z) : outcome (string * Z) :=
  if v =? 0 then Ret st
  else
    let '(rbuf, rlen) := st in
    let text := (fmt_d v ++ String unit EmptyString)%string in
    let len := Z.of_nat (String.length text) in
    if RBUF_SIZE <? rlen + Z.min 64 (len + 1) then Stuck OutOfBounds
    else Ret ((str_take (Z.to_nat rlen) rbuf ++ str_take 63 text)%string, rlen + len).

(** [old] is what the static buffer holds from the previous call. *)
Definition time_to_timestr (old : string) (itime : Z) : outcome string :=
  let d := sint32 (Z.quot itime 86400) in
  let itime := Z.rem itime 86400 in
  let h := sint32 (Z.quot itime 3600) in
  let itime := Z.rem itime 3600 in
  let m := sint32 (Z.quot itime 60) in
  let itime := Z.rem itime 60 in
  let s := sint32 itime in
  let! st := put_unit d "d"%char (old, 0) in
  let! st := put_unit h "h"%char st in
  let! st := put_unit m "m"%char st in
  let! st := put_unit s "s"%char st in
  Ret (if st.2 =? 0 then "0s"%string else st.1).
