(* ===== verification/TimestrSpec.v ===== *)
(** * Durations: the printer fits its buffer and the parser reads it back *)
From S2P Require Import Prelude CStd CStdFacts Timestr.
From Stdlib Require Import Ascii.

Local Open Scope Z_scope.

(** The text of one unit: nothing for 0. *)
Definition unit_text (v : Z) (u : ascii) : string :=
  if v =? 0 then EmptyString else (fmt_d v ++ String u EmptyString)%string.

(** The buffer holds [txt] up to [rlen]. *)
Definition buf_is (st : string * Z) (txt : string) : Prop :=
  st.2 = Z.of_nat (String.length txt) ∧ str_take (String.length txt) st.1 = txt ∧
  (st.2 ≠ 0 → st.1 = txt).

Lemma unit_text_length v u k :
  0 < k → - 10 ^ k < v < 10 ^ k → Z.of_nat (String.length (unit_text v u)) ≤ k + 2.
Proof.
  intros Hk Hv. unfold unit_text. destruct (v =? 0); [cbn; lia|].
  rewrite length_app_str. cbn [String.length]. pose proof (fmt_d_length v k Hk Hv). lia.
Qed.

Lemma put_unit_ok v u st txt :
  buf_is st txt → - 10 ^ 10 < v < 10 ^ 10 → Z.of_nat (String.length txt) ≤ 51 →
  ∃ st', put_unit v u st = Ret st' ∧ buf_is st' (txt ++ unit_text v u).
Proof.
  intros (H1 & H2 & H3) Hv Hlen. unfold put_unit. destruct (Z.eqb_spec v 0) as [->|Hne].
  { exists st. split; [done|]. change (unit_text 0 u) with EmptyString. by rewrite app_nil_str. }
  destruct st as [rbuf rlen]. cbn [fst snd] in *. subst rlen.
  pose proof (unit_text_length v u 10 ltac:(lia) Hv) as Hu. unfold unit_text in Hu |- *.
  destruct (Z.eqb_spec v 0); [done|]. set (t := (fmt_d v ++ String u EmptyString)%string) in *.
  unfold RBUF_SIZE. destruct (Z.ltb_spec 64 (Z.of_nat (String.length txt) +
    Z.min 64 (Z.of_nat (String.length t) + 1))); [lia|].
  eexists. split; [done|]. rewrite Nat2Z.id, H2, (take_all_str 63) by lia.
  unfold buf_is. cbn [fst snd]. rewrite length_app_str. split_and!; [lia| |done].
  apply take_all_str. rewrite length_app_str. lia.
Qed.

Lemma quot_rem_facts t k :
  0 < k →
  t = k * Z.quot t k + Z.rem t k ∧
  (0 ≤ t → 0 ≤ Z.quot t k ∧ 0 ≤ Z.rem t k < k) ∧
  (t ≤ 0 → Z.quot t k ≤ 0 ∧ - k < Z.rem t k ≤ 0).
Proof.
  intros Hk. pose proof (Z.quot_rem' t k). split; [done|]. split; intros Ht.
  - split; [by apply Z.quot_pos|by apply Z.rem_bound_pos].
  - pose proof (Z.rem_bound_pos (- t) k). rewrite Z.rem_opp_l in * by lia.
    pose proof (Z.quot_pos (- t) k). rewrite Z.quot_opp_l in * by lia. lia.
Qed.

(** The four numbers a time is printed as. *)
Record parts (t d h m s : Z) : Prop := {
  pt_sum : t = d * 86400 + h * 3600 + m * 60 + s;
  pt_sign : (0 ≤ d ∧ 0 ≤ h < 24 ∧ 0 ≤ m < 60 ∧ 0 ≤ s < 60) ∨
            (d ≤ 0 ∧ -24 < h ≤ 0 ∧ -60 < m ≤ 0 ∧ -60 < s ≤ 0)
}.

Lemma parts_of t :
  - 2 ^ 31 * 86400 ≤ t < 2 ^ 31 * 86400 →
  ∃ d h m s, parts t d h m s ∧ - 2 ^ 31 ≤ d < 2 ^ 31 ∧
    sint32 (Z.quot t 86400) = d ∧ sint32 (Z.quot (Z.rem t 86400) 3600) = h ∧
    sint32 (Z.quot (Z.rem (Z.rem t 86400) 3600) 60) = m ∧
    sint32 (Z.rem (Z.rem (Z.rem t 86400) 3600) 60) = s.
Proof.
  intros Ht. destruct (quot_rem_facts t 86400 ltac:(lia)) as (E1 & P1 & N1).
  set (t1 := Z.rem t 86400) in *. destruct (quot_rem_facts t1 3600 ltac:(lia)) as (E2 & P2 & N2).
  set (t2 := Z.rem t1 3600) in *. destruct (quot_rem_facts t2 60 ltac:(lia)) as (E3 & P3 & N3).
  exists (Z.quot t 86400), (Z.quot t1 3600), (Z.quot t2 60), (Z.rem t2 60).
  destruct (Z.le_ge_cases 0 t) as [Hp|Hn].
  - specialize (P1 Hp) as [? ?]. specialize (P2 ltac:(lia)) as [? ?].
    specialize (P3 ltac:(lia)) as [? ?]. rewrite !sint32_small by lia.
    split_and!; try lia. split; lia.
  - specialize (N1 Hn) as [? ?]. specialize (N2 ltac:(lia)) as [? ?].
    specialize (N3 ltac:(lia)) as [? ?]. rewrite !sint32_small by lia.
    split_and!; try lia. split; lia.
Qed.

Definition time_text (d h m s : Z) : string :=
  (unit_text d "d"%char ++ unit_text h "h"%char ++ unit_text m "m"%char ++ unit_text s "s"%char)%string.

Lemma print_ok old t :
  - 2 ^ 31 * 86400 ≤ t < 2 ^ 31 * 86400 →
  ∃ d h m s, parts t d h m s ∧ - 2 ^ 31 ≤ d < 2 ^ 31 ∧
    time_to_timestr old t =
      Ret (if Z.of_nat (String.length (time_text d h m s)) =? 0 then "0s"%string
           else time_text d h m s) ∧
    Z.of_nat (String.length (time_text d h m s)) ≤ 24.
Proof.
  intros Ht. destruct (parts_of t Ht) as (d & h & m & s & Hp & Hd & Ed & Eh & Em & Es).
  exists d, h, m, s.
  assert (- 24 < h < 24 ∧ - 60 < m < 60 ∧ - 60 < s < 60) as Hs
    by (destruct (pt_sign _ _ _ _ _ Hp); lia).
  pose proof (unit_text_length d "d"%char 10 ltac:(lia) ltac:(lia)).
  pose proof (unit_text_length h "h"%char 2 ltac:(lia) ltac:(lia)).
  pose proof (unit_text_length m "m"%char 2 ltac:(lia) ltac:(lia)).
  pose proof (unit_text_length s "s"%char 2 ltac:(lia) ltac:(lia)).
  split_and!; [done|lia|lia| |unfold time_text; rewrite !length_app_str; lia].
  unfold time_to_timestr. rewrite Ed, Eh, Em, Es.
  destruct (put_unit_ok d "d"%char (old, 0) EmptyString) as (s1 & -> & B1);
    [split_and!; [done|by destruct old|done]|lia|cbn; lia|]. cbn [obind].
  destruct (put_unit_ok h "h"%char s1 _ B1) as (s2 & -> & B2); [lia|str; lia|]. cbn [obind].
  destruct (put_unit_ok m "m"%char s2 _ B2) as (s3 & -> & B3);
    [lia|str; rewrite !length_app_str; lia|]. cbn [obind].
  destruct (put_unit_ok s "s"%char s3 _ B3) as (s4 & -> & (L4 & _ & C4));
    [lia|str; rewrite !length_app_str; lia|]. cbn [obind].
  revert L4 C4. str. rewrite !app_assoc_str. fold (time_text d h m s). intros L4 C4.
  rewrite L4. destruct (Z.eqb_spec (Z.of_nat (String.length (time_text d h m s))) 0); [done|].
  rewrite C4; congruence.
Qed.

(** ** Parsing *)
Definition not_char (c x : ascii) : bool := negb (Ascii.eqb x c).

Lemma decchar_not c : decchar c = false → ∀ s, str_all decchar s = true → str_all (not_char c) s = true.
Proof.
  intros Hc s. apply str_all_impl. intros x Hx. unfold not_char.
  destruct (Ascii.eqb_spec x c); [congruence|done].
Qed.

Lemma unit_text_all (P : ascii → bool) v u :
  (∀ c, decchar c = true → P c = true) → P u = true → str_all P (unit_text v u) = true.
Proof.
  intros HP Hu. unfold unit_text. destruct (v =? 0); [done|].
  rewrite str_all_app. cbn. rewrite Hu, andb_true_r.
  eapply str_all_impl; [exact HP|apply fmt_d_chars].
Qed.

Lemma take_unit_ok c scale v rest ret :
  decchar c = false → str_all (not_char c) rest = true →
  - 2 ^ 63 ≤ v < 2 ^ 63 → - 2 ^ 63 ≤ v * scale < 2 ^ 63 → - 2 ^ 63 ≤ ret + v * scale < 2 ^ 63 →
  take_unit c scale (unit_text v c ++ rest) ret = Ret (rest, ret + v * scale).
Proof.
  intros Hc Hrest Hv Hp Hs. unfold take_unit, unit_text. destruct (Z.eqb_spec v 0) as [->|Hne].
  - str. rewrite str_split_none by done. do 2 f_equal. lia.
  - rewrite app_assoc_str. str. rewrite str_split_app by (by apply decchar_not, fmt_d_chars).
    rewrite <- (app_nil_str (fmt_d v)), strtol0_fmt_d by done. cbn [sl_val].
    rewrite slong_ok by done. cbn [obind]. by rewrite slong_ok.
Qed.

Lemma decchar_cases c : decchar c = true →
  Ascii.eqb (tolower c) c = true ∧ not_char "d" c = true ∧ not_char "h" c = true ∧
  not_char "m" c = true.
Proof.
  destruct c as [[] [] [] [] [] [] [] []]; vm_compute; intros H; try discriminate H;
    by repeat split.
Qed.

Lemma time_text_all P d h m s :
  (∀ c, decchar c = true → P c = true) → P "d"%char = true → P "h"%char = true →
  P "m"%char = true → P "s"%char = true → str_all P (time_text d h m s) = true.
Proof.
  intros. unfold time_text. rewrite !str_all_app, !unit_text_all by done. done.
Qed.

Lemma last_unit s : - 2 ^ 63 ≤ s < 2 ^ 63 → sl_val (strtol0 (unit_text s "s"%char)) = s.
Proof.
  intros Hs. unfold unit_text. destruct (Z.eqb_spec s 0) as [->|Hne]; [done|].
  by rewrite strtol0_fmt_d.
Qed.

Lemma parse_ok t d h m s def :
  parts t d h m s → - 2 ^ 31 ≤ d < 2 ^ 31 →
  timestr_to_time (Some (time_text d h m s)) def = Ret t.
Proof.
  intros [Ht Hs] Hd. unfold timestr_to_time.
  rewrite str_map_id by (apply time_text_all; [intros c Hc; by apply decchar_cases|done..]).
  unfold time_text.
  rewrite take_unit_ok; [|done| |lia..].
  2: { rewrite !str_all_app, !unit_text_all by (done || intros c Hc; by apply decchar_cases). done. }
  cbn [obind fst snd]. rewrite take_unit_ok; [|done| |lia..].
  2: { rewrite !str_all_app, !unit_text_all by (done || intros c Hc; by apply decchar_cases). done. }
  cbn [obind fst snd]. rewrite take_unit_ok; [|done| |lia..].
  2: { rewrite !unit_text_all by (done || intros c Hc; by apply decchar_cases). done. }
  cbn [obind fst snd]. rewrite last_unit by lia. rewrite slong_ok by lia. f_equal. lia.
Qed.

(** ** Properties *)


