(* ===== verification/Conf.v ===== *)
(** * Configuration files (src/conf.c)

    The loader reads a file line by line into a dictionary, here any
    [StringStore] (the store's state includes the NULL dictionary).  [Log] calls
    have no effect on the state.  CONFIG_MODULES is not defined by the build, so
    the code under it is left out.  A file is its text; [None] says that it
    cannot be opened. *)
From S2P Require Import Prelude Store CStd Timestr Dict.
From Stdlib Require Import Ascii.

Local Open Scope Z_scope.

Definition nl : ascii := ascii_of_nat 10.
Definition cr : ascii := ascii_of_nat 13.

(** ** Reading lines *)

(** fgets(buf, n + 1, fp): what is put into [buf], the rest of the file and
    whether the end of the file was met. *)
Fixpoint fgets (n : nat) (s : string) : string * string * bool :=
  match n with
  | O => (EmptyString, s, false)
  | S n =>
      match s with
      | EmptyString => (EmptyString, EmptyString, true)
      | String c s =>
          if Ascii.eqb c nl then (String c EmptyString, s, false)
          else let '(b, r, eof) := fgets n s in (String c b, r, eof)
      end
  end.

(** sizeof(buf) - 1 bytes, one of them for the NUL. *)
Definition LINE_MAX : nat := 766.

(** The contents of [buf] in the successive rounds of the loop. *)
Fixpoint read_lines (fuel : nat) (s : string) : list string :=
  match fuel with
  | O => []
  | S fuel =>
      let '(b, r, eof) := fgets LINE_MAX s in
      b :: if (eof : bool) then [] else read_lines fuel r
  end.

(** ** Trimming *)
Definition is_trail (c : ascii) : bool := Ascii.eqb c cr || Ascii.eqb c nl || Ascii.eqb c " "%char.

Fixpoint rtrim (s : string) : string :=
  match s with
  | EmptyString => EmptyString
  | String c s =>
      match rtrim s with
      | EmptyString => if is_trail c then EmptyString else String c EmptyString
      | r => String c r
      end
  end.

(** The [do ... while] loop that moves [end] back.  A line of white space (or
    an empty one, as at the end of the file) takes [end] below the buffer:
    [below] is the byte there, [None] if reading it faults; if it is white space
    itself, the loop goes on to write below the buffer. *)
Definition trim_end (below : option ascii) (buf : string) : outcome string :=
  match rtrim buf with
  | EmptyString =>
      let! c := need OutOfBounds below in
      if is_trail c then Stuck OutOfBounds else Ret EmptyString
  | r => Ret r
  end.

Fixpoint skip_blanks (s : string) : string :=
  match s with
  | String c s' => if Ascii.eqb c " "%char then skip_blanks s' else s
  | EmptyString => EmptyString
  end.

(** ** strtok with the delimiters [= \n] *)
Definition is_delim (c : ascii) : bool :=
  Ascii.eqb c "="%char || Ascii.eqb c " "%char || Ascii.eqb c nl.

Fixpoint skip_delims (s : string) : string :=
  match s with
  | String c s' => if is_delim c then skip_delims s' else s
  | EmptyString => EmptyString
  end.

Fixpoint take_token (s : string) : string * string :=
  match s with
  | EmptyString => (EmptyString, EmptyString)
  | String c s =>
      if is_delim c then (EmptyString, s)
      else let '(t, r) := take_token s in (String c t, r)
  end.

Definition strtok (s : string) : option string * string :=
  match skip_delims s with
  | EmptyString => (None, EmptyString)
  | s => let '(t, r) := take_token s in (Some t, r)
  end.

(** ** One line *)
Definition starts (p s : string) : bool := String.prefix p s.

(** [*end == ']'] *)
Definition ends_with (c : ascii) (s : string) : bool :=
  match String.get (String.length s - 1) s with Some x => Ascii.eqb x c | None => false end.

(** strndup(skip + 1, strlen(skip) - 2) *)
Definition inner (s : string) : string := str_take (String.length s - 2) (str_drop 1 s).

Section loader.
Context {S : Type} `{StringStore S}.

Record lstate := LState {
  ls_comment : bool;
  ls_section : option string;
  ls_cp : S;
  ls_warnings : Z;
  ls_line : Z
}.

Definition set_comment (b : bool) (st : lstate) : lstate :=
  LState b (ls_section st) (ls_cp st) (ls_warnings st) (ls_line st).
Definition set_section (s : option string) (st : lstate) : lstate :=
  LState (ls_comment st) s (ls_cp st) (ls_warnings st) (ls_line st).
Definition set_cp (c : S) (st : lstate) : lstate :=
  LState (ls_comment st) (ls_section st) c (ls_warnings st) (ls_line st).
Definition warn (st : lstate) : lstate :=
  LState (ls_comment st) (ls_section st) (ls_cp st) (ls_warnings st + 1) (ls_line st).
Definition next_line (st : lstate) : lstate :=
  LState (ls_comment st) (ls_section st) (ls_cp st) (ls_warnings st) (ls_line st + 1).

(** A data line of a section. *)
Definition section_line (section skip : string) (st : lstate) : outcome lstate :=
  if strncaseeq 7 section "general" then
    let '(key, r) := strtok skip in
    let '(val, _) := strtok r in
    let! r := st_add (ls_cp st) key val in
    Ret (set_cp r.2 st)
  else if strncaseeq 4 section "jail" then Ret st
  else if strncaseeq 8 section "language" then
    let '(key, r) := strtok skip in
    match key with Some _ => Ret st | None => Stuck NullDeref end
  else if strncaseeq 3 section "acl" then Ret st
  else if strncaseeq 7 section "strings" then Ret st
  else Ret (warn st).

(** A trimmed line of at least two characters outside of comments.  [dup] says
    whether the [strndup] of a section name succeeds. *)
Definition data_line (dup : bool) (skip : string) (st : lstate) : outcome lstate :=
  if starts "[" skip && ends_with "]"%char skip then
    Ret (set_section (if dup then Some (inner skip) else None) st)
  else
    match ls_section st with
    | None => Ret (warn st)
    | Some section =>
        if strncaseeq 4 skip "@END" then Ret (set_section None st)
        else section_line section skip st
    end.

(** One round of the loop. *)
Definition conf_line (below : option ascii) (dup : bool) (buf : string) (st : lstate)
    : outcome lstate :=
  let st := next_line st in
  let! line := trim_end below buf in
  let skip := skip_blanks line in
  if (String.length skip <=? 1)%nat then Ret st
  else if starts "*/" skip then Ret (set_comment false st)
  else if starts ";" skip || starts "#" skip || starts "//" skip then Ret st
  else
    let st := if starts "/*" skip then set_comment true st else st in
    if ls_comment st then Ret st else data_line dup skip st.

Fixpoint conf_lines (below : option ascii) (dup : bool) (bufs : list string) (st : lstate)
    : outcome lstate :=
  match bufs with
  | [] => Ret st
  | b :: bufs => let! st := conf_line below dup b st in conf_lines below dup bufs st
  end.

(** [cp] is what [dict_new] returned.  A file that cannot be opened is closed
    all the same. *)
Definition dconf_load (below : option ascii) (dup : bool) (cp : S) (file : option string)
    : outcome S :=
  match file with
  | None => Stuck NullDeref
  | Some text =>
      let! st := conf_lines below dup (read_lines (Datatypes.S (String.length text)) text)
                   (LState false None cp 0 0) in
      Ret (ls_cp st)
  end.

(** ** Reading values *)
Definition dconf_get_str (cd : S) (key def : option string) : outcome (option string) :=
  match key with
  | Some _ => if st_null cd then Ret None else st_get cd key def
  | None => Ret None
  end.

Definition dconf_get_bool (cd : S) (key : option string) (def : Z) : outcome Z :=
  let! tmp := dconf_get_str cd key None in
  Ret (match tmp with
       | None => def
       | Some tmp =>
           if strcaseeq tmp "true" || strcaseeq tmp "on" || strcaseeq tmp "yes" ||
              (sint32 (sl_val (strtol0 tmp)) =? 1) then 1
           else if strcaseeq tmp "false" || strcaseeq tmp "off" || strcaseeq tmp "no" ||
                   (sint32 (sl_val (strtol0 tmp)) =? 0) then 0
           else 0
       end).

Definition dconf_get_int (cd : S) (key : option string) (def : Z) : outcome Z :=
  let! tmp := dconf_get_str cd key None in
  Ret (match tmp with None => def | Some tmp => sint32 (sl_val (strtol0 tmp)) end).

Definition dconf_get_double {double : Type} (atof : string → double) (cd : S)
    (key : option string) (def : double) : outcome double :=
  let! tmp := dconf_get_str cd key None in
  Ret (match tmp with None => def | Some tmp => atof tmp end).

Definition dconf_get_time (cd : S) (key : option string) (def : Z) : outcome Z :=
  let! tmp := dconf_get_str cd key None in
  timestr_to_time tmp def.

Definition dconf_set (cd : S) (key val : option string) : outcome (Z * S) := st_add cd key val.

Definition dconf_unset (cd : S) (key : option string) : outcome S :=
  let! r := st_del cd key in Ret r.2.
End loader.

Arguments LState {S} _ _ _ _ _.
Arguments lstate : clear implicits.

(** ** The configuration of the process *)

(** The blocks released and the new [conf.dict]. *)
Definition dconf_fini (cd : option dict) : outcome (list Dict.block * option dict) :=
  let! l := dict_free cd in Ret (l, None).

Definition dconf_init {S} `{StringStore S} (below : option ascii) (dup : bool) (cp : S)
    (file : option string) : outcome S :=
  dconf_load below dup cp file.

(** ** Writing *)
Inductive fsop : Type :=
  | FOpen (name : string)
  | FPrint (text : string)
  | FClose
  | FUnlink (name : string)
  | FRename (from to : string).

Definition PATH_MAX : Z := 4096.

Definition header_line (ctime : string) : string :=
  ("# This configuration file automatically saved on " ++ ctime ++ String nl EmptyString)%string.
Definition general_line : string := ("[general]" ++ String nl EmptyString)%string.
Definition saved_line (errors : Z) : string :=
  ("# Saved with " ++ fmt_d errors ++
   " errors, please review before using, autorename disabled" ++ String nl EmptyString)%string.

(** [fprintf] and count a failure. *)
Definition fput (fprintf : string → bool) (text : string) (st : Z * list fsop) : Z * list fsop :=
  if fprintf text then (st.1, st.2 ++ [FPrint text]) else (st.1 + 1, st.2).

(** [errno] is its value after [fopen]; [past] is as in [dict_dump]. *)
Definition dconf_write (past : option keypair) (fopen : bool) (errno : Z)
    (fprintf : string → bool) (ctime : string) (cp : option dict) (file : string)
    : outcome (bool * list fsop) :=
  let nambuf := (file ++ ".auto")%string in
  if PATH_MAX <? Z.of_nat (String.length nambuf) + 1 then Stuck OutOfBounds
  else if negb fopen then Ret (false, [])
  else if negb (errno =? 0) then Ret (false, [FOpen nambuf; FClose])
  else
    let st := fput fprintf (header_line ctime) (0, [FOpen nambuf]) in
    let st := fput fprintf general_line st in
    let! r := dict_dump past fprintf cp true in
    let st := (if r.1 <? 0 then st.1 + 1 else st.1, st.2 ++ (FPrint <$> r.2)) in
    let ops := if 0 <? st.1 then (fput fprintf (saved_line st.1) st).2 else st.2 in
    Ret (true, ops ++ FClose ::
               (if st.1 =? 0 then [FUnlink file; FRename nambuf file] else [])).
