(* ===== verification/ConfSpec.v ===== *)
(** * Configuration files: what loading and writing mean

    A configuration file is a sequence of [item]s.  Loading its text gives the
    entries of its [general] sections; writing a dictionary and loading the
    file gives the dictionary back. *)
From S2P Require Import Prelude Store CStd CStdFacts Timestr TimestrSpec Dict DictFacts DictOps DictSpec Conf.
From Stdlib Require Import Ascii.

Local Open Scope Z_scope.

(** ** Lines *)
Definition no_nl (s : string) : bool := str_all (λ c, negb (Ascii.eqb c nl)) s.

Lemma fgets_line n t rest :
  no_nl t = true → (String.length t < n)%nat →
  fgets n (t ++ String nl rest) = ((t ++ String nl EmptyString)%string, rest, false).
Proof.
  revert n. induction t as [|c t IH]; intros [|n] Ht Hn; cbn in Hn; try lia; str; cbn [fgets].
  - by rewrite Ascii.eqb_refl.
  - unfold no_nl in Ht. cbn in Ht. apply andb_true_iff in Ht as [Hc Ht].
    apply negb_true_iff in Hc. rewrite Hc, IH by (done || lia). done.
Qed.

(** The text of a sequence of lines. *)
Definition lines_text (ts : list string) : string :=
  foldr (λ t r, (t ++ String nl r)%string) EmptyString ts.

Definition line_ok (t : string) : Prop := no_nl t = true ∧ (String.length t < LINE_MAX)%nat.

Lemma lines_text_cons t ts : lines_text (t :: ts) = (t ++ String nl (lines_text ts))%string.
Proof. done. Qed.

Lemma read_lines_ok ts fuel :
  Forall line_ok ts → (String.length (lines_text ts) < fuel)%nat →
  read_lines fuel (lines_text ts) =
    ((λ t, (t ++ String nl EmptyString)%string) <$> ts) ++ [EmptyString].
Proof.
  revert fuel. induction ts as [|t ts IH]; intros [|fuel] Ht Hf; try lia; [done|].
  apply Forall_cons in Ht as [[Hn Hl] Ht]. rewrite lines_text_cons in *.
  cbn [read_lines]. rewrite fgets_line by done. rewrite IH; [done|done|].
  rewrite length_app_str in Hf. cbn [String.length] in Hf. lia.
Qed.

Lemma rtrim_snoc a c :
  is_trail c = false → rtrim (a ++ String c (String nl EmptyString)) = (a ++ String c EmptyString)%string.
Proof.
  intros Hc. induction a as [|x a IH]; str; cbn [rtrim].
  - change (is_trail nl) with true. cbn match. by rewrite Hc.
  - rewrite IH. by destruct a.
Qed.

Lemma str_snoc (s : string) : s ≠ EmptyString → ∃ a c, s = (a ++ String c EmptyString)%string.
Proof.
  induction s as [|x s IH]; [done|]. intros _. destruct s as [|y s].
  - by exists EmptyString, x.
  - destruct IH as (a & c & E); [done|]. exists (String x a), c. str. by rewrite E.
Qed.

Lemma starts_ne a p c s : c ≠ a → starts (String a p) (String c s) = false.
Proof.
  intros H. unfold starts. cbn. destruct (ascii_dec a c) as [->|]; [done|done].
Qed.

(** ** Items *)
Inductive item : Type :=
  | IBlank
  | IComment (s : string)
  | ISection (s : string)
  | IEntry (k v : string).

Definition item_text (i : item) : string :=
  match i with
  | IBlank => EmptyString
  | IComment s => ("#" ++ s)%string
  | ISection s => ("[" ++ s ++ "]")%string
  | IEntry k v => (k ++ "=" ++ v)%string
  end.

Definition config_text (l : list item) : string := lines_text (item_text <$> l).

(** A key or a value as a token: not empty, without white space and [=]. *)
Definition word_char (c : ascii) : bool := negb (is_delim c) && negb (Ascii.eqb c cr).
Definition word (s : string) : Prop := s ≠ EmptyString ∧ str_all word_char s = true.

(** The characters a key must not start with: those of comments, sections and
    directives. *)
Definition special (c : ascii) : bool :=
  Ascii.eqb c ";"%char || Ascii.eqb c "#"%char || Ascii.eqb c "/"%char || Ascii.eqb c "*"%char ||
  Ascii.eqb c "["%char || Ascii.eqb c "@"%char.

Definition plain (k : string) : Prop :=
  match k with String c _ => special c = false | EmptyString => False end.

Definition entry_ok (k v : string) : Prop :=
  word k ∧ plain k ∧ word v ∧ (String.length (k ++ "=" ++ v) < LINE_MAX)%nat.

Definition item_ok (i : item) : Prop :=
  match i with
  | IEntry k v => entry_ok k v
  | _ => line_ok (item_text i)
  end.

(** The current section and the map of the entries so far. *)
Definition general (sec : option string) : bool :=
  match sec with Some s => strncaseeq 7 s "general" | None => false end.

Definition item_step (st : option string * smap) (i : item) : option string * smap :=
  match i with
  | ISection s => (Some s, st.2)
  | IEntry k v => if general st.1 then (st.1, <[k := Some v]> st.2) else st
  | IBlank | IComment _ => st
  end.

(** ** Tokens *)
Lemma word_delim s : str_all word_char s = true → str_all (λ c, negb (is_delim c)) s = true.
Proof. apply str_all_impl. unfold word_char. intros c [? _]%andb_true_iff. done. Qed.

Lemma word_nl s : str_all word_char s = true → no_nl s = true.
Proof.
  apply str_all_impl. unfold word_char, is_delim. intros c [H _]%andb_true_iff.
  apply negb_true_iff, orb_false_iff in H as [_ H]. by rewrite H.
Qed.

Lemma word_trail c : word_char c = true → is_trail c = false.
Proof.
  unfold word_char, is_delim, is_trail. intros [H1 H2]%andb_true_iff.
  apply negb_true_iff in H1, H2. apply orb_false_iff in H1 as [H1 H3].
  apply orb_false_iff in H1 as [_ H1]. by rewrite H1, H2, H3.
Qed.

Lemma skip_delims_word s r : word s → skip_delims (s ++ r) = (s ++ r)%string.
Proof.
  intros [Hne Hs]. destruct s as [|c s]; [done|]. str. cbn [skip_delims].
  apply word_delim in Hs. cbn in Hs. apply andb_true_iff in Hs as [Hc _].
  apply negb_true_iff in Hc. by rewrite Hc.
Qed.

Lemma take_token_word s d r :
  str_all word_char s = true → is_delim d = true → take_token (s ++ String d r) = (s, r).
Proof.
  intros Hs Hd. apply word_delim in Hs. induction s as [|c s IH]; str; cbn [take_token].
  - by rewrite Hd.
  - cbn in Hs. apply andb_true_iff in Hs as [Hc Hs]. apply negb_true_iff in Hc.
    rewrite Hc, IH by done. done.
Qed.

Lemma take_token_end s : str_all word_char s = true → take_token s = (s, EmptyString).
Proof.
  intros Hs. apply word_delim in Hs. induction s as [|c s IH]; cbn [take_token]; [done|].
  cbn in Hs. apply andb_true_iff in Hs as [Hc Hs]. apply negb_true_iff in Hc.
  rewrite Hc, IH by done. done.
Qed.

Lemma strtok_entry k v : word k → strtok (k ++ "=" ++ v) = (Some k, v).
Proof.
  intros Hk. change (k ++ "=" ++ v)%string with (k ++ String "="%char v)%string. unfold strtok. rewrite (skip_delims_word _ _ Hk).
  destruct (k ++ String "=" v)%string eqn:E.
  { destruct k; [by destruct Hk|]. revert E. by str. }
  rewrite <- E, take_token_word; [done|apply Hk|done].
Qed.

Lemma strtok_word v : word v → strtok v = (Some v, EmptyString).
Proof.
  intros Hv. unfold strtok. pose proof (skip_delims_word v EmptyString Hv) as H.
  rewrite app_nil_str in H. rewrite H. destruct v as [|c v0]; [by destruct Hv|].
  rewrite take_token_end by apply Hv. done.
Qed.

(** ** One line *)
Section line.
Context {S : Type} `{LawfulStore S}.
Variables (below : ascii).
Hypothesis Hbelow : is_trail below = false.

(** The buffer of a line. *)
Definition buf (t : string) : string := (t ++ String nl EmptyString)%string.

(** A line that ends in [c], which is no white space, and starts with [x]. *)
Lemma conf_line_body x t c (st : lstate S) a :
  is_trail c = false → Ascii.eqb x " "%char = false → String x t = (a ++ String c EmptyString)%string →
  conf_line (Some below) true (buf (String x t)) st =
  (let st := next_line st in
   if (String.length (String x t) <=? 1)%nat then Ret st
   else if starts "*/" (String x t) then Ret (set_comment false st)
   else if starts ";" (String x t) || starts "#" (String x t) || starts "//" (String x t) then Ret st
   else
     let st := if starts "/*" (String x t) then set_comment true st else st in
     if ls_comment st then Ret st else data_line true (String x t) st).
Proof.
  intros Hc Hx E. unfold conf_line, trim_end, buf. rewrite E, app_assoc_str. str.
  rewrite rtrim_snoc by done. rewrite <- E. cbn [obind skip_blanks]. by rewrite Hx.
Qed.

Lemma conf_line_blank st :
  conf_line (Some below) true (buf EmptyString) st = Ret (next_line st) ∧
  conf_line (Some below) true EmptyString st = Ret (next_line st).
Proof. unfold conf_line, trim_end, buf. cbn. by rewrite Hbelow. Qed.

(** Trimming keeps the first character of a line unless it is white space. *)
Lemma rtrim_first x t : is_trail x = false → ∃ r, rtrim (String x t) = String x r.
Proof. intros Hx. cbn. destruct (rtrim t); [rewrite Hx|]; eauto. Qed.

Lemma conf_line_comment s st :
  conf_line (Some below) true (buf ("#" ++ s)) st = Ret (next_line st).
Proof.
  unfold conf_line, trim_end, buf. str. destruct (rtrim_first "#"%char (s ++ String nl EmptyString))
    as [r ->]; [done|]. cbn [obind skip_blanks].
  change (Ascii.eqb "#" " ") with false. cbn match. destruct (_ <=? 1)%nat; [done|].
  rewrite !(starts_ne "*"), !(starts_ne ";") by done. cbn [orb].
  by assert (starts "#" (String "#" r) = true) as -> by (by destruct r).
Qed.

Lemma inner_brackets s : inner ("[" ++ s ++ "]") = s.
Proof.
  unfold inner. str. cbn [String.length str_drop]. rewrite length_app_str. cbn [String.length].
  replace (Datatypes.S (String.length s + 1) - 2)%nat with (String.length s) by lia.
  apply take_app_str.
Qed.

Lemma ends_with_snoc a c : ends_with c (a ++ String c EmptyString) = true.
Proof.
  unfold ends_with. rewrite length_app_str. cbn [String.length].
  replace (String.length a + 1 - 1)%nat with (String.length a) by lia.
  induction a as [|x a IH]; str; cbn; [by rewrite Ascii.eqb_refl|done].
Qed.

Lemma conf_line_section s st :
  ls_comment st = false →
  conf_line (Some below) true (buf ("[" ++ s ++ "]")) st = Ret (set_section (Some s) (next_line st)).
Proof.
  intros Hc. change (buf ("[" ++ s ++ "]")) with (buf (String "["%char (s ++ "]"))).
  rewrite (conf_line_body "["%char (s ++ "]") "]"%char st ("[" ++ s)%string);
    [|done|done|by str].
  destruct (Nat.leb_spec (String.length (String "[" (s ++ "]"))) 1) as [Hl|_].
  { cbn in Hl. rewrite length_app_str in Hl. cbn in Hl. lia. }
  rewrite !starts_ne by done. cbn [orb ls_comment next_line]. rewrite Hc. unfold data_line.
  assert (ends_with "]" (String "[" (s ++ "]")) = true) as ->.
  { replace (String "[" (s ++ "]")) with (("[" ++ s) ++ "]")%string by (by str).
    apply ends_with_snoc. }
  assert (starts "[" (String "[" (s ++ "]")) = true) as -> by (by destruct s). cbn [andb].
  change (String "[" (s ++ "]")) with ("[" ++ s ++ "]")%string. by rewrite inner_brackets.
Qed.

Lemma special_ne c : special c = false →
  (c ≠ ";" ∧ c ≠ "#" ∧ c ≠ "/" ∧ c ≠ "*" ∧ c ≠ "[" ∧ c ≠ "@")%char ∧
  Ascii.eqb (tolower c) "@"%char = false.
Proof.
  destruct c as [[] [] [] [] [] [] [] []]; vm_compute; intros E; try discriminate E;
    by split_and!.
Qed.

Lemma not_end c t :
  Ascii.eqb (tolower c) "@"%char = false → strncaseeq 4 (String c t) "@END" = false.
Proof.
  intros Hc.  unfold strncaseeq, strcaseeq. cbn [str_take str_map String.eqb].
  change (tolower "@") with "@"%char. by rewrite Hc.
Qed.

Lemma word_last s : word s → ∃ a c, s = (a ++ String c EmptyString)%string ∧ is_trail c = false.
Proof.
  intros [Hne Hs]. destruct (str_snoc s Hne) as (a & c & ->). exists a, c. split; [done|].
  rewrite str_all_app in Hs. apply andb_true_iff in Hs as [_ Hs]. cbn in Hs.
  rewrite andb_true_r in Hs. by apply word_trail.
Qed.

Lemma conf_line_entry k v st :
  ls_comment st = false → entry_ok k v →
  conf_line (Some below) true (buf (k ++ "=" ++ v)) st =
  match ls_section st with
  | None => Ret (warn (next_line st))
  | Some section => section_line section (k ++ "=" ++ v) (next_line st)
  end.
Proof.
  intros Hc (Hk & Hp & Hv & _). destruct k as [|x k]; [done|]. cbn in Hp.
  destruct (special_ne x Hp) as [(H1 & H2 & H3 & H4 & H5 & H6) Hat].
  destruct (word_last v Hv) as (a & c & Ev & Htc).
  change (String x k ++ "=" ++ v)%string with (String x (k ++ "=" ++ v)).
  rewrite (conf_line_body x (k ++ "=" ++ v) c st (String x (k ++ "=" ++ a))%string).
  - destruct (Nat.leb_spec (String.length (String x (k ++ "=" ++ v))) 1) as [Hl|_].
    { cbn [String.length] in Hl. rewrite !length_app_str in Hl. cbn in Hl. lia. }
    rewrite !starts_ne by done. cbn [orb ls_comment next_line]. rewrite Hc.
    unfold data_line. rewrite starts_ne by done. cbn [andb ls_section next_line].
    destruct (ls_section st); [|done]. by rewrite not_end.
  - done.
  - destruct Hk as [_ Hk]. cbn in Hk. apply andb_true_iff in Hk as [Hk _].
    apply word_trail in Hk. unfold is_trail in Hk. by apply orb_false_iff in Hk as [_ ->].
  - rewrite Ev. str. by rewrite !app_assoc_str.
Qed.

(** The state of the loader between two items. *)
Definition agrees (n : Z) (st : lstate S) (a : option string * smap) : Prop :=
  ls_comment st = false ∧ ls_section st = a.1 ∧ st_rep n (ls_cp st) a.2.

Lemma other_section section k v st :
  strncaseeq 7 section "general" = false → word k →
  ∃ st', section_line section (k ++ "=" ++ v) st = Ret st' ∧ ls_comment st' = ls_comment st ∧
    ls_section st' = ls_section st ∧ ls_cp st' = ls_cp st.
Proof.
  intros Hg Hk. unfold section_line. rewrite Hg.
  destruct (strncaseeq 4 section "jail"); [by exists st|].
  destruct (strncaseeq 8 section "language"); [rewrite strtok_entry by done; by exists st|].
  destruct (strncaseeq 3 section "acl"); [by exists st|].
  destruct (strncaseeq 7 section "strings"); [by exists st|by exists (warn st)].
Qed.

Lemma item_sim n st a i :
  agrees n st a → item_ok i → n < st_capacity →
  ∃ n' st', conf_line (Some below) true (buf (item_text i)) st = Ret st' ∧
    agrees n' st' (item_step a i) ∧ n ≤ n' ≤ n + 1.
Proof.
  intros (Hc & Hs & Hr) Hi Hn. destruct i as [|s|s|k v]; cbn [item_text item_step].
  - destruct (conf_line_blank st) as [-> _]. exists n, (next_line st). by split_and!; [..|lia].
  - rewrite conf_line_comment. exists n, (next_line st). by split_and!; [..|lia].
  - rewrite conf_line_section by done. exists n, (set_section (Some s) (next_line st)).
    by split_and!; [..|lia].
  - rewrite conf_line_entry by done. rewrite Hs. destruct Hi as (Hk & _ & Hv & _).
    destruct a as [[sec|] m]; cbn [fst snd general] in *.
    2: { exists n, (warn (next_line st)). by split_and!; [..|lia]. }
    destruct (strncaseeq 7 sec "general") eqn:Eg.
    + unfold section_line. rewrite Eg. rewrite strtok_entry, strtok_word by done.
      destruct (st_add_law n (ls_cp st) m k (Some v) Hr Hn) as (s' & He & Hr').
      cbn [ls_cp next_line]. rewrite He. cbn [obind snd].
      exists (n + 1), (set_cp s' (next_line st)). split_and!; [done|by split_and!|lia|lia].
    + destruct (other_section sec k v (next_line st) Eg Hk) as (st' & -> & H1 & H2 & H3).
      exists n, st'. split_and!; [done| |lia|lia]. unfold agrees. by rewrite H1, H2, H3.
Qed.

Lemma items_sim l n st a :
  agrees n st a → Forall item_ok l → n + Z.of_nat (length l) ≤ st_capacity →
  ∃ n' st', conf_lines (Some below) true (((λ i, buf (item_text i)) <$> l) ++ [EmptyString]) st =
      Ret st' ∧ agrees n' st' (foldl item_step a l) ∧ n ≤ n' ≤ n + Z.of_nat (length l).
Proof.
  revert n st a. induction l as [|i l IH]; intros n st a Ha Hl Hn.
  { cbn [fmap list_fmap app conf_lines foldl length]. destruct (conf_line_blank st) as [_ ->].
    cbn [obind]. exists n, (next_line st). split_and!; [done|exact Ha|lia|lia]. }
  apply Forall_cons in Hl as [Hi Hl]. cbn [length] in Hn.
  destruct (item_sim n st a i Ha Hi ltac:(lia)) as (n1 & st1 & He & Ha1 & Hn1).
  cbn [fmap list_fmap app conf_lines foldl length]. rewrite He. cbn [obind].
  destruct (IH n1 st1 _ Ha1 Hl ltac:(lia)) as (n' & st' & -> & Ha' & Hn').
  exists n', st'. split_and!; [done|done|lia|lia].
Qed.

Lemma item_line_ok i : item_ok i → line_ok (item_text i).
Proof.
  destruct i as [| | |k v]; try done. intros (Hk & _ & Hv & Hl). split; [|done].
  unfold no_nl. cbn [item_text]. rewrite !str_all_app. cbn.
  pose proof (word_nl _ (proj2 Hk)) as H1. pose proof (word_nl _ (proj2 Hv)) as H2.
  unfold no_nl in *. by rewrite H1, H2.
Qed.

Lemma load_items cp n m l :
  st_rep n cp m → Forall item_ok l → n + Z.of_nat (length l) ≤ st_capacity →
  ∃ n' cp', dconf_load (Some below) true cp (Some (config_text l)) = Ret cp' ∧
    st_rep n' cp' (foldl item_step (None, m) l).2 ∧ n ≤ n' ≤ n + Z.of_nat (length l).
Proof.
  intros Hr Hl Hn. unfold dconf_load, config_text.
  rewrite read_lines_ok; [|by apply Forall_fmap, (Forall_impl _ _ _ Hl), item_line_ok|lia].
  rewrite <- list_fmap_compose.
  destruct (items_sim l n (LState false None cp 0 0) (None, m)) as (n' & st' & He & (_ & _ & Hr') & Hn');
    [done|done|done|].
  change ((λ t, (t ++ String nl EmptyString)%string) ∘ item_text) with (λ i, buf (item_text i)).
  rewrite He. cbn [obind]. by exists n', (ls_cp st').
Qed.
End line.

(** ** Writing and loading *)

(** The text written to the file. *)
Definition printed (ops : list fsop) : string :=
  foldr (λ op r, match op with FPrint t => (t ++ r)%string | _ => r end) EmptyString ops.

Lemma printed_app a b : printed (a ++ b) = (printed a ++ printed b)%string.
Proof.
  induction a as [|op a IH]; [done|]. cbn [app printed foldr]. fold (printed (a ++ b)).
  rewrite IH. destruct op; [done|by rewrite app_assoc_str|done..].
Qed.

(** The items [dconf_write] writes for the entries [l] of a dictionary. *)
Definition entry_item (e : string * option string) : item := IEntry e.1 (default EmptyString e.2).
Definition written_items (c : string) (l : list (string * option string)) : list item :=
  IComment (" This configuration file automatically saved on " ++ c) :: IBlank ::
  ISection "general" :: (entry_item <$> l).

Lemma lines_text_app a b : lines_text (a ++ b) = (lines_text a ++ lines_text b)%string.
Proof.
  induction a as [|t a IH]; [done|]. cbn [app]. rewrite !lines_text_cons, IH, app_assoc_str.
  by str.
Qed.

Lemma printed_dump l :
  Forall (λ e : string * option string, is_Some e.2) l →
  printed (FPrint <$> ((λ e, dump_line e.1 e.2) <$> l)) = config_text (entry_item <$> l).
Proof.
  unfold config_text. induction 1 as [|[k ov] l [v Hv] _ IH]; [done|]. cbn in Hv. subst ov.
  cbn [fmap list_fmap printed foldr]. rewrite lines_text_cons.
  fold (printed (FPrint <$> ((λ e, dump_line e.1 e.2) <$> l))). rewrite IH.
  unfold dump_line. cbn [fst snd entry_item item_text default].
  change (ascii_of_nat 10) with nl. by rewrite !app_assoc_str.
Qed.

Lemma entries_fold l (m : smap) :
  NoDup l.*1 → Forall (λ e : string * option string, is_Some e.2) l →
  foldl item_step (Some "general"%string, m) (entry_item <$> l) =
    (Some "general"%string, list_to_map l ∪ m).
Proof.
  revert m. induction l as [|[k ov] l IH]; intros m Hnd Hs.
  { cbn. by rewrite map_empty_union. }
  apply Forall_cons in Hs as [[v Hv] Hs]. cbn in Hv. subst ov.
  cbn [fmap list_fmap fst] in Hnd. apply NoDup_cons in Hnd as [Hk Hnd].
  cbn [fmap list_fmap foldl entry_item item_step fst snd general default].
  change (strncaseeq 7 "general" "general") with true. cbn match. rewrite IH by done.
  f_equal. rewrite list_to_map_cons, <- insert_union_l, insert_union_r; [done|].
  by apply not_elem_of_list_to_map_1.
Qed.

(** A dictionary whose keys and values can be written as configuration lines. *)
Definition writable (m : smap) : Prop :=
  ∀ k ov, m !! k = Some ov → ∃ v, ov = Some v ∧ entry_ok k v.

(** The text of a time as [ctime] gives it: one line and its newline. *)
Definition ctime_ok (ctime c : string) : Prop :=
  ctime = (c ++ String nl EmptyString)%string ∧ no_nl c = true ∧ (String.length c ≤ 64)%nat.

Definition path_ok (file : string) : Prop := Z.of_nat (String.length file) + 6 ≤ PATH_MAX.

Lemma path_ok_write file : path_ok file →
  (PATH_MAX <? Z.of_nat (String.length (file ++ ".auto")) + 1) = false.
Proof.
  unfold path_ok. intros H. apply Z.ltb_ge. rewrite length_app_str.
  change (String.length ".auto") with 5%nat. lia.
Qed.

Lemma write_ops past fprintf ctime d m file :
  dict_ok d m → path_ok file →
  ∃ l, NoDup l.*1 ∧ list_to_map l = m ∧ Z.of_nat (length l) ≤ d_used d ∧
    dconf_write (Some past) true 0 fprintf ctime (Some d) file =
    let st := fput fprintf general_line (fput fprintf (header_line ctime) (0, [FOpen (file ++ ".auto")])) in
    let st := (st.1, st.2 ++ (FPrint <$> filter (λ s, fprintf s = true) ((λ e, dump_line e.1 e.2) <$> l))) in
    Ret (true, (if 0 <? st.1 then (fput fprintf (saved_line st.1) st).2 else st.2) ++
               FClose :: (if st.1 =? 0 then [FUnlink file; FRename (file ++ ".auto") file] else [])).
Proof.
  intros Hok Hp. pose proof Hok as [_ (tbl & Ht & _ & Hm & Hl & _) _].
  destruct (dump_refines (Some past) fprintf d m Hok) as (tbl' & Ht' & _ & Hnd & Hd).
  assert (tbl' = tbl) as -> by congruence. exists (entries tbl). split_and!; [done|by rewrite Hm|exact Hl|].
  unfold dconf_write. rewrite (path_ok_write _ Hp). cbn [negb]. change (negb (0 =? 0)) with false.
  cbn match. rewrite Hd. cbn [need obind fst snd].
  destruct (Z.ltb_spec (Z.of_nat (length (filter (λ l, fprintf l = false) (dump_lines tbl)))) 0);
    [lia|done].
Qed.

(** ** Properties *)


Definition demo_items : list item :=
  [IComment " jailfs.cf"; ISection "jail"; IEntry "ignored" "1"; IBlank; ISection "General";
   IEntry "path.db" ":memory:"; IEntry "path.db" "/tmp/db"].

Lemma demo_items_ok : Forall item_ok demo_items.
Proof.
  assert (∀ k v, word k → plain k → word v →
    (String.length (k ++ "=" ++ v) <? LINE_MAX)%nat = true → entry_ok k v) as He.
  { intros k v Hk Hp Hv Hl. split_and!; [done|done|done|]. by apply Nat.ltb_lt. }
  assert (∀ t, no_nl t = true → (String.length t <? LINE_MAX)%nat = true → line_ok t) as Ht.
  { intros t Hn Hl. split; [done|]. by apply Nat.ltb_lt. }
  unfold demo_items. repeat apply Forall_cons_2; try apply Forall_nil_2; cbn [item_ok];
    solve [apply Ht; reflexivity | apply He; repeat split; discriminate || reflexivity].
Qed.


(** Lines that cannot be written are left out. *)
Lemma write_loses (past : keypair) (fprintf : string → bool) (ctime : string) (d : dict)
    (m : smap) (file : string) :
  dict_ok d m → path_ok file → fprintf (header_line ctime) = true → fprintf general_line = true →
  ∃ l, NoDup l.*1 ∧ list_to_map l = m ∧
    dconf_write (Some past) true 0 fprintf ctime (Some d) file =
    Ret (true, [FOpen (file ++ ".auto"); FPrint (header_line ctime); FPrint general_line] ++
               (FPrint <$> filter (λ s, fprintf s = true) ((λ e, dump_line e.1 e.2) <$> l)) ++
               [FClose; FUnlink file; FRename (file ++ ".auto") file]).
Proof.
  intros Hok Hp Hh Hg. destruct (write_ops past fprintf ctime d m file Hok Hp)
    as (l & Hnd & Hm & _ & ->).
  exists l. split_and!; [done|done|]. unfold fput. rewrite Hh. cbn [fst snd]. rewrite Hg.
  cbn [fst snd app Z.ltb Z.compare Z.eqb]. done.
Qed.

(** What is written is loaded again. *)
Lemma write_load (past : keypair) (below : ascii) (ctime c : string) (d : dict) (m : smap)
    (file : string) (mm : mem) (now : Z) :
  dict_ok d m → writable m → ctime_ok ctime c → path_ok file → is_trail below = false →
  d_used d + 3 ≤ 2 ^ 27 → mem_good mm → m_struct mm = true →
  ∃ ops d', dconf_write (Some past) true 0 (λ _, true) ctime (Some d) file =
      Ret (true, ops ++ [FClose; FUnlink file; FRename (file ++ ".auto") file]) ∧
    @dconf_load _ (dict_store mm now) (Some below) true (dict_new mm) (Some (printed ops)) =
      Ret (Some d') ∧ dict_ok d' m.
Proof.
  intros Hok Hw (-> & Hc & Hcl) Hp Hb Hu Hmm Hs.
  destruct (write_ops past (λ _, true) (c ++ String nl EmptyString) d m file Hok Hp)
    as (l & Hnd & Hm & Hlen & Hwr).
  assert (∀ k ov, (k, ov) ∈ l → m !! k = Some ov) as Hin
    by (intros k ov Hk; rewrite <- Hm; by apply elem_of_list_to_map).
  assert (Forall (λ e : string * option string, is_Some e.2) l) as Hsome.
  { apply Forall_forall. intros [k ov] Hk. destruct (Hw k ov (Hin _ _ Hk)) as (v & -> & _).
    by eexists. }
  assert (filter (λ s : string, true = true) ((λ e, dump_line e.1 e.2) <$> l) =
          (λ e, dump_line e.1 e.2) <$> l) as Hfil.
  { clear. induction l as [|e l IH]; [done|]. cbn [fmap list_fmap].
    by rewrite filter_cons, decide_True, IH. }
  cbn [fput fst snd] in Hwr. rewrite Hfil in Hwr. cbn [Z.ltb Z.compare Z.eqb] in Hwr.
  rewrite Hwr. eexists _. 
  destruct (load_items (H0 := dict_lawful mm now Hmm) below Hb (dict_new mm) 0 ∅ (written_items c l))
    as (n' & cp' & Hload & (d' & -> & Hok' & _) & _).
  - by apply new_rep.
  - unfold written_items. repeat apply Forall_cons_2.
    + unfold no_nl in Hc. cbn [item_ok item_text].
      split; [unfold no_nl; rewrite !str_all_app, Hc; done|]. rewrite !length_app_str. cbn [String.length]. unfold LINE_MAX. lia.
    + by split; [|apply Nat.ltb_lt].
    + by split; [|apply Nat.ltb_lt].
    + apply Forall_fmap, Forall_forall. intros [k ov] Hk.
      by destruct (Hw k ov (Hin _ _ Hk)) as (v & -> & ?).
  - cbn [length written_items st_capacity]. rewrite length_fmap. cbn. lia.
  - exists d'. split; [|split].
    + reflexivity.
    + rewrite <- Hload. do 2 f_equal. rewrite printed_app, printed_dump by done.
      unfold written_items, config_text. cbn [fmap list_fmap item_text]. rewrite !lines_text_cons.
      unfold header_line, general_line, printed. cbn [app foldr]. by rewrite !app_assoc_str, ?app_nil_str.
    + cbn [written_items foldl item_step snd fst] in Hok'. rewrite entries_fold in Hok' by done.
      cbn [snd] in Hok'. by rewrite map_union_empty, Hm in Hok'.
Qed.

(** C12: writing a dictionary whose keys and values are words and loading the
    written file into a fresh dictionary gives the same map, and the written
    file replaces the old one.  Failures to write entries are not noticed: whatever
    entry lines cannot be written, [dconf_write] reports success, removes the old
    file and puts the incomplete one in its place. *)
Theorem dconf_write_load (past : keypair) (below : ascii) (ctime c : string) (d : dict) (m : smap)
    (file : string) (mm : mem) (now : Z) :
  dict_ok d m → writable m → ctime_ok ctime c → path_ok file → is_trail below = false →
  d_used d + 3 ≤ 2 ^ 27 → mem_good mm → m_struct mm = true →
  (∃ ops d', dconf_write (Some past) true 0 (λ _, true) ctime (Some d) file =
      Ret (true, ops ++ [FClose; FUnlink file; FRename (file ++ ".auto") file]) ∧
    @dconf_load _ (dict_store mm now) (Some below) true (dict_new mm) (Some (printed ops)) =
      Ret (Some d') ∧ dict_ok d' m) ∧
  (∀ fprintf, fprintf (header_line ctime) = true → fprintf general_line = true →
    ∃ l, NoDup l.*1 ∧ list_to_map l = m ∧
    dconf_write (Some past) true 0 fprintf ctime (Some d) file =
    Ret (true, [FOpen (file ++ ".auto"); FPrint (header_line ctime); FPrint general_line] ++
               (FPrint <$> filter (λ s, fprintf s = true) ((λ e, dump_line e.1 e.2) <$> l)) ++
               [FClose; FUnlink file; FRename (file ++ ".auto") file])).
Proof.
  intros Hok Hw Hc Hp Hb Hu Hmm Hs. split; [by eapply write_load|].
  intros fprintf Hh Hg. by apply write_loses.
Qed.

Lemma dict_k_writable : writable {["k" := Some "v"]}%string.
Proof.
  intros k ov. rewrite lookup_singleton_Some. intros [<- <-]. exists "v"%string. split; [done|].
  repeat split; try discriminate. by apply Nat.ltb_lt.
Qed.

Lemma dconf_write_load_witness :
  ∃ ops d', dconf_write (Some kp_zero) true 0 (λ _, true) (String "T" (String nl EmptyString))
        (Some dict_k) "jailfs.cf" =
      Ret (true, ops ++ [FClose; FUnlink "jailfs.cf"; FRename ("jailfs.cf" ++ ".auto") "jailfs.cf"]) ∧
    @dconf_load _ (dict_store mem_ok 7) (Some "x"%char) true (dict_new mem_ok) (Some (printed ops)) =
      Ret (Some d') ∧ dict_ok d' {["k" := Some "v"]}%string.
Proof.
  apply (dconf_write_load kp_zero "x"%char (String "T" (String nl EmptyString)) "T" dict_k _
           "jailfs.cf" mem_ok 7 dict_k_ok dict_k_writable);
    [|unfold path_ok; vm_compute; discriminate|reflexivity|vm_compute; discriminate
     |apply mem_ok_good|reflexivity].
  split; [reflexivity|]. split; [reflexivity|]. cbn. lia.
Defined.

(** C13: typed values read back from a configuration: an integer stored as
    [%d] text and a duration stored as [time_to_timestr] text are read as
    stored; for a missing key the integer, Boolean and duration getters give
    the default, but [dconf_get_str] gives NULL and never its default. *)
Theorem dconf_get_typed {S : Type} `{LawfulStore S} (s : S) (n : Z) (m : smap) (k : string)
    (z t : Z) (old txt : string) (defs : option string) (def : Z) :
  st_rep n s m → - 2 ^ 31 ≤ z < 2 ^ 31 → - 2 ^ 31 * 86400 ≤ t < 2 ^ 31 * 86400 →
  (m !! k = Some (Some (fmt_d z)) → dconf_get_int s (Some k) def = Ret z) ∧
  (time_to_timestr old t = Ret txt → m !! k = Some (Some txt) →
     dconf_get_time s (Some k) def = Ret t) ∧
  (m !! k = None → dconf_get_int s (Some k) def = Ret def ∧ dconf_get_bool s (Some k) def = Ret def ∧
     dconf_get_time s (Some k) def = Ret def ∧ dconf_get_str s (Some k) defs = Ret None) ∧
  (∀ v, m !! k = Some (Some v) → dconf_get_str s (Some k) defs = Ret (Some v)).
Proof.
  intros Hr Hz Ht.
  assert (∀ d, dconf_get_str s (Some k) d = Ret (mjoin (m !! k))) as Hg.
  { intros d. unfold dconf_get_str. by rewrite (st_null_law _ _ _ Hr), (st_get_law _ _ _ _ _ Hr). }
  unfold dconf_get_int, dconf_get_bool, dconf_get_time. rewrite !Hg. split_and!.
  - intros ->. cbn [mjoin option_join obind]. destruct (decide (z = 0)) as [->|]; [done|].
    rewrite <- (app_nil_str (fmt_d z)). rewrite strtol0_fmt_d by (done || lia). cbn [sl_val]. by rewrite sint32_small.
  - intros E ->. cbn [mjoin option_join obind].
    destruct (print_ok old t Ht) as (d & h & mi & sec & Hp & Hd & E' & _).
    rewrite E in E'. injection E' as ->. 
    destruct (Z.eqb_spec (Z.of_nat (String.length (time_text d h mi sec))) 0) as [E0|_];
      [|by apply parse_ok].
    rewrite <- (parse_ok t d h mi sec def Hp Hd). by destruct (time_text d h mi sec).
  - by intros ->.
  - by intros v ->.
Qed.

Lemma dconf_get_typed_witness :
  dict_rep 1 (Some dict_k) {["k" := Some "v"]}%string ∧
  @dconf_get_str _ (dict_store mem_ok 7) (Some dict_k) (Some "k"%string) None = Ret (Some "v"%string) ∧
  @dconf_get_str _ (dict_store mem_ok 7) (Some dict_k) (Some "x"%string) (Some "def"%string) = Ret None.
Proof.
  assert (dict_rep 1 (Some dict_k) {["k" := Some "v"]}%string) as Hr.
  { exists dict_k. split_and!; [done|apply dict_k_ok|done|done]. }
  split; [exact Hr|]. split.
  - apply (@dconf_get_typed _ _ (dict_lawful mem_ok 7 mem_ok_good) _ _ _ "k"%string 1 0
      EmptyString EmptyString None 0 Hr); [lia|lia|reflexivity].
  - apply (@dconf_get_typed _ _ (dict_lawful mem_ok 7 mem_ok_good) _ _ _ "x"%string 1 0
      EmptyString EmptyString (Some "def"%string) 0 Hr); [lia|lia|reflexivity].
Defined.

