(* ===== verification/Tree.v ===== *)
(** * Red-black trees (lsd/tree.c, lsd/tree.h)

    Nodes and data blocks live in two stores, from addresses to nodes and from
    addresses to contents; address 0 is NULL.  The contents are of any type [D],
    which stands for the [size] bytes that are copied, and [cmpfunc] compares
    contents.  What [malloc] returns is an argument; [mem_alloc] clears what it
    gets (and so crashes when there is no memory), [mem_free] asserts that its
    argument is not NULL. *)
From S2P Require Import Prelude.

Local Open Scope Z_scope.

(** The enumeration starts with RED: a cleared node is red. *)
Inductive color : Type := RED | BLACK.
#[global] Instance color_eq_dec : EqDecision color.
Proof. solve_decision. Defined.

Record tree_node := TNode {
  t_left : Z; t_right : Z; t_parent : Z; t_data : Z; t_color : color
}.
#[global] Instance tree_node_eq_dec : EqDecision tree_node.
Proof. solve_decision. Defined.

Definition with_left (v : Z) (n : tree_node) : tree_node :=
  TNode v (t_right n) (t_parent n) (t_data n) (t_color n).
Definition with_right (v : Z) (n : tree_node) : tree_node :=
  TNode (t_left n) v (t_parent n) (t_data n) (t_color n).
Definition with_parent (v : Z) (n : tree_node) : tree_node :=
  TNode (t_left n) (t_right n) v (t_data n) (t_color n).
Definition with_data (v : Z) (n : tree_node) : tree_node :=
  TNode (t_left n) (t_right n) (t_parent n) v (t_color n).
Definition with_color (c : color) (n : tree_node) : tree_node :=
  TNode (t_left n) (t_right n) (t_parent n) (t_data n) c.

Section tree.
Context {D : Type} (cmpfunc : D → D → Z).

Record tree := Tree { tr_nodes : gmap Z tree_node; tr_data : gmap Z D; tr_root : Z }.

(** ** Memory *)
Definition set_nodes (h : gmap Z tree_node) (s : tree) : tree := Tree h (tr_data s) (tr_root s).
Definition set_data (d : gmap Z D) (s : tree) : tree := Tree (tr_nodes s) d (tr_root s).
Definition set_root (r : Z) (s : tree) : tree := Tree (tr_nodes s) (tr_data s) r.

Definition get (s : tree) (p : Z) : outcome tree_node :=
  if p =? 0 then Stuck NullDeref else need BadPointer (tr_nodes s !! p).
Definition upd (f : tree_node → tree_node) (p : Z) (s : tree) : outcome tree :=
  let! n := get s p in Ret (set_nodes (<[p := f n]> (tr_nodes s)) s).
Definition datum (s : tree) (d : Z) : outcome D :=
  if d =? 0 then Stuck NullDeref else need BadPointer (tr_data s !! d).

(** [mem_free] of a data block and of a node. *)
Definition free_data (d : Z) (s : tree) : outcome tree :=
  if d =? 0 then Stuck FailedAssert
  else let! _ := need BadPointer (tr_data s !! d) in Ret (set_data (delete d (tr_data s)) s).
Definition free_node (p : Z) (s : tree) : outcome tree :=
  if p =? 0 then Stuck FailedAssert
  else let! _ := need BadPointer (tr_nodes s !! p) in Ret (set_nodes (delete p (tr_nodes s)) s).

(** A walk along parents or children visits each node at most once. *)
Definition walk_fuel (s : tree) : nat := S (size (tr_nodes s)).

(** [cmpfunc(p->data, q->data)] *)
Definition compare (s : tree) (p q : Z) : outcome Z :=
  let! n := get s p in
  let! m := get s q in
  let! x := datum s (t_data n) in
  let! y := datum s (t_data m) in
  Ret (cmpfunc x y).

(** ** Insertion *)

(** The addresses of the node and of its data block. *)
Definition fresh : Type := option Z * option Z.

Definition make_node (o : fresh) (x : D) (s : tree) : outcome (Z * tree) :=
  let! node := need NullDeref o.1 in
  let! data := need NullDeref o.2 in
  Ret (node, Tree (<[node := TNode 0 0 0 data RED]> (tr_nodes s))
                  (<[data := x]> (tr_data s)) (tr_root s)).

(** The [while] loop of [tree_insert]: the last node met. *)
Fixpoint insert_walk (fuel : nat) (s : tree) (node parent current : Z) : outcome Z :=
  match fuel with
  | O => Spin
  | S fuel =>
      if current =? 0 then Ret parent
      else
        let! c := compare s node current in
        let! n := get s current in
        insert_walk fuel s node current (if c <? 0 then t_left n else t_right n)
  end.

Definition tree_insert (o : fresh) (x : D) (s : tree) : outcome (Z * tree) :=
  let! r := make_node o x s in
  let '(node, s) := r in
  let! parent := insert_walk (walk_fuel s) s node 0 (tr_root s) in
  let! s := upd (with_parent parent) node s in
  if parent =? 0 then Ret (node, set_root node s)
  else
    let! c := compare s node parent in
    let! s := upd (if c <? 0 then with_left node else with_right node) parent s in
    Ret (node, s).

(** ** Walking *)
Fixpoint min_loop (fuel : nat) (s : tree) (node : Z) : outcome Z :=
  match fuel with
  | O => Spin
  | S fuel =>
      let! n := get s node in
      if t_left n =? 0 then Ret node else min_loop fuel s (t_left n)
  end.
Definition tree_minimum (s : tree) (node : Z) : outcome Z := min_loop (walk_fuel s) s node.

Fixpoint max_loop (fuel : nat) (s : tree) (node : Z) : outcome Z :=
  match fuel with
  | O => Spin
  | S fuel =>
      let! n := get s node in
      if t_right n =? 0 then Ret node else max_loop fuel s (t_right n)
  end.
Definition tree_maximum (s : tree) (node : Z) : outcome Z := max_loop (walk_fuel s) s node.

(** [while(next != NULL && node == next->side)] *)
Fixpoint climb (fuel : nat) (side : tree_node → Z) (s : tree) (node next : Z) : outcome Z :=
  match fuel with
  | O => Spin
  | S fuel =>
      if next =? 0 then Ret next
      else
        let! n := get s next in
        if node =? side n then climb fuel side s next (t_parent n) else Ret next
  end.

Definition tree_predecessor (s : tree) (node : Z) : outcome Z :=
  let! n := get s node in
  if negb (t_left n =? 0) then tree_maximum s (t_left n)
  else climb (walk_fuel s) t_left s node (t_parent n).

Definition tree_successor (s : tree) (node : Z) : outcome Z :=
  let! n := get s node in
  if negb (t_right n =? 0) then tree_minimum s (t_right n)
  else climb (walk_fuel s) t_right s node (t_parent n).

(** [fuel] bounds the depth of the recursion. *)
Fixpoint search_r (fuel : nat) (s : tree) (node : Z) (key : D) : outcome Z :=
  match fuel with
  | O => Spin
  | S fuel =>
      if node =? 0 then Ret 0
      else
        let! n := get s node in
        let! y := datum s (t_data n) in
        let res := cmpfunc key y in
        if res =? 0 then Ret node
        else if res <? 0 then search_r fuel s (t_left n) key
        else search_r fuel s (t_right n) key
  end.
Definition tree_search (s : tree) (key : D) : outcome Z :=
  search_r (walk_fuel s) s (tr_root s) key.

(** The data pointers the callback gets, in order. *)
Fixpoint traverse (fuel : nat) (s : tree) (node : Z) : outcome (list Z) :=
  match fuel with
  | O => Spin
  | S fuel =>
      if node =? 0 then Ret []
      else
        let! n := get s node in
        let! l := traverse fuel s (t_left n) in
        let! r := traverse fuel s (t_right n) in
        Ret (t_data n :: l ++ r)
  end.

(** ** Rotations *)

(** The parent of [old], or the tree itself, gets [new] instead. *)
Definition replace_child (parent old new : Z) (s : tree) : outcome tree :=
  if parent =? 0 then Ret (set_root new s)
  else
    let! p := get s parent in
    upd (if t_left p =? old then with_left new else with_right new) parent s.

Definition set_parent (p v : Z) (s : tree) : outcome tree :=
  if negb (p =? 0) then upd (with_parent v) p s else Ret s.

Definition left_rotate (node : Z) (s : tree) : outcome tree :=
  let! n := get s node in
  let right := t_right n in
  if right =? 0 then Ret s
  else
    let! r := get s right in
    let! s := upd (with_right (t_left r)) node s in
    let! s := set_parent (t_left r) node s in
    let! n := get s node in
    let! s := upd (with_parent (t_parent n)) right s in
    let! s := replace_child (t_parent n) node right s in
    let! s := upd (with_left node) right s in
    upd (with_parent right) node s.

Definition right_rotate (node : Z) (s : tree) : outcome tree :=
  let! n := get s node in
  let left := t_left n in
  if left =? 0 then Ret s
  else
    let! l := get s left in
    let! s := upd (with_left (t_right l)) node s in
    let! s := set_parent (t_right l) node s in
    let! n := get s node in
    let! s := upd (with_parent (t_parent n)) left s in
    let! s := replace_child (t_parent n) node left s in
    let! s := upd (with_right node) left s in
    upd (with_parent left) node s.

(** ** Deletion from a search tree *)

(** The node that is unlinked, and the tree; its data is moved to [node]. *)
Definition pull_out (node : Z) (s : tree) : outcome (Z * tree) :=
  let! n := get s node in
  let! current :=
    if (t_left n =? 0) || (t_right n =? 0) then Ret node else tree_successor s node in
  let! c := get s current in
  let parent := t_parent c in
  let next := if negb (t_left c =? 0) then t_left c else t_right c in
  let! s := set_parent next parent s in
  let! s := replace_child parent current next s in
  let! n := get s node in
  let! s := free_data (t_data n) s in
  let! s :=
    if node =? current then Ret s
    else let! c := get s current in upd (with_data (t_data c)) node s in
  let! s := upd (with_data 0) current s in
  Ret (current, s).

(** [current->parent = current->left = current->right = NULL] and the release. *)
Definition discard (current : Z) (s : tree) : outcome tree :=
  let! s := upd (λ n, TNode 0 0 0 (t_data n) (t_color n)) current s in
  free_node current s.

Definition tree_delete (node : Z) (s : tree) : outcome tree :=
  let! r := pull_out node s in
  discard r.1 r.2.

Fixpoint destroy_node (fuel : nat) (node : Z) (s : tree) : outcome tree :=
  match fuel with
  | O => Spin
  | S fuel =>
      let! n := get s node in
      let! s := if negb (t_left n =? 0) then destroy_node fuel (t_left n) s else Ret s in
      let! n := get s node in
      let! s := if negb (t_right n =? 0) then destroy_node fuel (t_right n) s else Ret s in
      let! s := upd (λ n, TNode 0 0 0 (t_data n) (t_color n)) node s in
      let! n := get s node in
      let! s := free_data (t_data n) s in
      let! s := upd (with_data 0) node s in
      free_node node s
  end.

(** ** Red-black insertion *)
Definition rb_color (s : tree) (node : Z) : outcome color :=
  if node =? 0 then Ret BLACK else let! n := get s node in Ret (t_color n).

Definition is_red (c : color) : bool := if c is RED then true else false.

(** One round for a red parent: the new [current].  [far] is the side of the
    uncle, and of an inner child, which [rot_in] turns into an outer one;
    [rot_out] lifts the parent. *)
Definition insert_round (far : tree_node → Z) (rot_in rot_out : Z → tree → outcome tree)
    (current parent grand : Z) (s : tree) : outcome (Z * tree) :=
  let! g := get s grand in
  let uncle := far g in
  let! uc := rb_color s uncle in
  if is_red uc then
    let! s := upd (with_color BLACK) parent s in
    let! s := upd (with_color BLACK) uncle s in
    let! p := get s parent in
    let! s := upd (with_color RED) (t_parent p) s in
    Ret (t_parent p, s)
  else
    let! p := get s parent in
    if current =? far p then
      let! s := rot_in parent s in
      Ret (parent, s)
    else
      let! s := upd (with_color BLACK) parent s in
      let! s := upd (with_color RED) grand s in
      let! s := rot_out grand s in
      Ret (current, s).

Fixpoint insert_fixup (fuel : nat) (current : Z) (s : tree) : outcome tree :=
  match fuel with
  | O => Spin
  | S fuel =>
      if current =? tr_root s then Ret s
      else
        let! c := get s current in
        let parent := t_parent c in
        let! pc := rb_color s parent in
        if is_red pc then
          let! p := get s parent in
          let grand := t_parent p in
          let! g := get s grand in
          let! r :=
            if parent =? t_left g
            then insert_round t_right left_rotate right_rotate current parent grand s
            else insert_round t_left right_rotate left_rotate current parent grand s in
          insert_fixup fuel r.1 r.2
        else Ret s
  end.

Definition rb_insert (o : fresh) (x : D) (s : tree) : outcome (Z * tree) :=
  let! r := tree_insert o x s in
  let '(node, s) := r in
  let! s := upd (with_color RED) node s in
  let! s := insert_fixup (3 + walk_fuel s) node s in
  let! s := upd (with_color BLACK) (tr_root s) s in
  Ret (node, s).

(** ** Red-black deletion *)

(** One round for a node on the side [near] of [parent]; [rot_near] rotates
    towards that side and [rot_far] away from it.  The new [node] and
    [parent]. *)
Definition delete_round (near far : tree_node → Z) (rot_near rot_far : Z → tree → outcome tree)
    (node parent : Z) (s : tree) : outcome (Z * Z * tree) :=
  let! p := get s parent in
  let sibling := far p in
  let! sc := rb_color s sibling in
  let! r :=
    if is_red sc then
      let! s := upd (with_color BLACK) sibling s in
      let! s := upd (with_color RED) parent s in
      let! s := rot_near parent s in
      let! p := get s parent in
      Ret (far p, s)
    else Ret (sibling, s) in
  let '(sibling, s) := r in
  let! b := get s sibling in
  let! nc := rb_color s (near b) in
  let! fc := rb_color s (far b) in
  if negb (is_red nc) && negb (is_red fc) then
    let! s := upd (with_color RED) sibling s in
    let! p := get s parent in
    Ret (parent, t_parent p, s)
  else if negb (is_red fc) then
    let! s := upd (with_color RED) (near b) s in
    let! s := rot_far sibling s in
    Ret (node, parent, s)
  else
    let! p := get s parent in
    let! s := upd (with_color (t_color p)) sibling s in
    let! s := upd (with_color BLACK) parent s in
    let! b := get s sibling in
    let! s := upd (with_color BLACK) (far b) s in
    let! s := rot_near parent s in
    Ret (tr_root s, 0, s).

Fixpoint delete_fixup (fuel : nat) (parent node : Z) (s : tree) : outcome tree :=
  match fuel with
  | O => Spin
  | S fuel =>
      let! c := rb_color s node in
      if negb (node =? tr_root s) && negb (is_red c) then
        let! p := get s parent in
        let! r :=
          if node =? t_left p
          then delete_round t_left t_right left_rotate right_rotate node parent s
          else delete_round t_right t_left right_rotate left_rotate node parent s in
        let '(node, parent, s) := r in
        delete_fixup fuel parent node s
      else if negb (node =? 0) then upd (with_color BLACK) node s
      else Ret s
  end.

Definition rb_delete (node : Z) (s : tree) : outcome tree :=
  let! r := pull_out node s in
  let '(current, s) := r in
  let! c := get s current in
  let next := if negb (t_left c =? 0) then t_left c else t_right c in
  let! s :=
    if negb (is_red (t_color c)) then delete_fixup (4 * walk_fuel s) (t_parent c) next s
    else Ret s in
  discard current s.
End tree.

Arguments Tree {D} _ _ _.
Arguments tree : clear implicits.
Arguments tr_nodes {D} _.
Arguments tr_data {D} _.
Arguments tr_root {D} _.
