(* ===== verification/TreeFacts.v ===== *)
(** * Red-black trees: representation and rotations

    [rep s t] says that the memory [s] holds the tree [t], with consistent
    parent links and no sharing.  A position in a tree is a context [k] (the
    path to the root, innermost frame first) plugged with a subtree; every
    operation is described by what it does to the plugged tree. *)
From S2P Require Import Prelude Tree.

Local Open Scope Z_scope.

(** ** Trees and contexts *)
Inductive rtree : Type :=
  | E
  | T (p : Z) (c : color) (d : Z) (l r : rtree).

Inductive frame : Type :=
  | FL (p : Z) (c : color) (d : Z) (r : rtree)   (** the hole is the left child *)
  | FR (p : Z) (c : color) (d : Z) (l : rtree).

Definition addr (t : rtree) : Z := match t with E => 0 | T p _ _ _ _ => p end.
Definition faddr (f : frame) : Z := match f with FL p _ _ _ | FR p _ _ _ => p end.
Definition kaddr (k : list frame) : Z := match k with [] => 0 | f :: _ => faddr f end.

Definition fill (f : frame) (t : rtree) : rtree :=
  match f with FL p c d r => T p c d t r | FR p c d l => T p c d l t end.
Fixpoint plug (k : list frame) (t : rtree) : rtree :=
  match k with [] => t | f :: k => plug k (fill f t) end.
(** The root of a plugged tree. *)
Fixpoint top (k : list frame) (q : Z) : Z :=
  match k with [] => q | f :: k => top k (faddr f) end.

(** Addresses of nodes and of their data, in order. *)
Fixpoint cells (t : rtree) : list (Z * Z) :=
  match t with E => [] | T p _ d l r => cells l ++ (p, d) :: cells r end.
Fixpoint before (k : list frame) : list (Z * Z) :=
  match k with
  | [] => []
  | FL _ _ _ _ :: k => before k
  | FR p _ d l :: k => before k ++ cells l ++ [(p, d)]
  end.
Fixpoint after (k : list frame) : list (Z * Z) :=
  match k with
  | [] => []
  | FL p _ d r :: k => (p, d) :: cells r ++ after k
  | FR _ _ _ _ :: k => after k
  end.

Lemma cells_plug k t : cells (plug k t) = before k ++ cells t ++ after k.
Proof.
  revert t. induction k as [|[p c d r|p c d l] k IH]; intros t; cbn [plug before after fill cells].
  - by rewrite app_nil_r.
  - rewrite IH. cbn [cells]. by rewrite <- !app_assoc.
  - rewrite IH. cbn [cells]. by rewrite <- !app_assoc.
Qed.

Lemma addr_plug k t : addr (plug k t) = top k (addr t).
Proof. revert t. induction k as [|[]  k IH]; intros t; cbn; [done|by rewrite IH..]. Qed.

Lemma plug_app k k' t : plug (k ++ k') t = plug k' (plug k t).
Proof. revert t. induction k as [|f k IH]; intros t; cbn; [done|apply IH]. Qed.

(** ** Representation *)
Fixpoint shape (h : gmap Z tree_node) (par : Z) (t : rtree) : Prop :=
  match t with
  | E => True
  | T p c d l r =>
      p ≠ 0 ∧ h !! p = Some (TNode (addr l) (addr r) par d c) ∧ shape h p l ∧ shape h p r
  end.

Fixpoint ctx (h : gmap Z tree_node) (k : list frame) (q : Z) : Prop :=
  match k with
  | [] => True
  | FL p c d r :: k =>
      p ≠ 0 ∧ h !! p = Some (TNode q (addr r) (kaddr k) d c) ∧ shape h p r ∧ ctx h k p
  | FR p c d l :: k =>
      p ≠ 0 ∧ h !! p = Some (TNode (addr l) q (kaddr k) d c) ∧ shape h p l ∧ ctx h k p
  end.

Definition addrs (t : rtree) : list Z := (cells t).*1.
Definition kaddrs (k : list frame) : list Z := (before k).*1 ++ (after k).*1.

Record rep {D} (s : tree D) (t : rtree) : Prop := Rep {
  rep_shape : shape (tr_nodes s) 0 t;
  rep_root : tr_root s = addr t;
  rep_nodup : NoDup (addrs t)
}.

Lemma shape_plug h k t : shape h 0 (plug k t) ↔ ctx h k (addr t) ∧ shape h (kaddr k) t.
Proof.
  revert t. induction k as [|[p c d r|p c d l] k IH]; intros t; cbn [plug ctx kaddr faddr];
    [tauto|rewrite IH; cbn [fill shape addr]; tauto..].
Qed.

Lemma addrs_T p c d l r : addrs (T p c d l r) = addrs l ++ p :: addrs r.
Proof. unfold addrs. cbn [cells]. by rewrite fmap_app. Qed.
Lemma kaddrs_FL p c d r k : kaddrs (FL p c d r :: k) ≡ₚ p :: addrs r ++ kaddrs k.
Proof.
  unfold kaddrs, addrs. cbn [before after]. rewrite fmap_cons, fmap_app. cbn [fst].
  rewrite <- Permutation_middle. constructor. rewrite !(assoc_L app).
  by rewrite (Permutation_app_comm (before k).*1 (cells r).*1).
Qed.
Lemma kaddrs_FR p c d l k : kaddrs (FR p c d l :: k) ≡ₚ p :: addrs l ++ kaddrs k.
Proof.
  unfold kaddrs, addrs. cbn [before after]. rewrite !fmap_app. cbn [fmap list_fmap fst].
  rewrite <- !(assoc_L app). cbn [app].
  rewrite <- !Permutation_middle. constructor. rewrite !(assoc_L app).
  by rewrite (Permutation_app_comm (before k).*1 (cells l).*1).
Qed.
Lemma kaddr_in k : k ≠ [] → kaddr k ∈ kaddrs k.
Proof. destruct k as [|[] k]; intros; [done|rewrite kaddrs_FL; by constructor|rewrite kaddrs_FR; by constructor]. Qed.

Lemma addrs_plug k t : addrs (plug k t) ≡ₚ addrs t ++ kaddrs k.
Proof.
  unfold addrs, kaddrs. rewrite cells_plug, !fmap_app.
  rewrite !(assoc_L app). f_equiv. apply Permutation_app_comm.
Qed.

Lemma shape_ext h h' par t :
  (∀ a, a ∈ addrs t → h' !! a = h !! a) → shape h par t → shape h' par t.
Proof.
  revert par. induction t as [|p c d l IHl r IHr]; intros par; [done|].
  rewrite addrs_T. setoid_rewrite elem_of_app. setoid_rewrite elem_of_cons.
  cbn [shape]. intros Ha (? & Hp & ? & ?). rewrite Ha by auto. split_and!; auto.
Qed.

Lemma ctx_ext h h' k q : (∀ a, a ∈ kaddrs k → h' !! a = h !! a) → ctx h k q → ctx h' k q.
Proof.
  revert q. induction k as [|[p c d r|p c d l] k IH]; intros q; [done|..]; cbn [ctx].
  - setoid_rewrite kaddrs_FL. setoid_rewrite elem_of_cons. setoid_rewrite elem_of_app. intros Ha (? & ? & ? & ?). rewrite Ha by auto.
    split_and!; eauto using shape_ext.
  - setoid_rewrite kaddrs_FR. setoid_rewrite elem_of_cons. setoid_rewrite elem_of_app. intros Ha (? & ? & ? & ?). rewrite Ha by auto.
    split_and!; eauto using shape_ext.
Qed.

(** A tree in memory is a context and a subtree that share nothing. *)
Lemma rep_split {D} (s : tree D) k t :
  rep s (plug k t) ↔
  ctx (tr_nodes s) k (addr t) ∧ shape (tr_nodes s) (kaddr k) t ∧ tr_root s = top k (addr t) ∧
  NoDup (addrs t) ∧ NoDup (kaddrs k) ∧ (∀ a, a ∈ addrs t → a ∉ kaddrs k).
Proof.
  split.
  - intros [[]%shape_plug Hr Hn]. rewrite addr_plug in Hr.
    rewrite addrs_plug in Hn. apply NoDup_app in Hn as (? & ? & ?). done.
  - intros (? & ? & ? & ? & ? & ?). split.
    + by apply shape_plug.
    + by rewrite addr_plug.
    + rewrite addrs_plug. by apply NoDup_app.
Qed.

Lemma rep_get {D} (s : tree D) k p c d l r :
  rep s (plug k (T p c d l r)) →
  p ≠ 0 ∧ tr_nodes s !! p = Some (TNode (addr l) (addr r) (kaddr k) d c).
Proof. intros (_ & (? & ? & _) & _)%rep_split. done. Qed.

Lemma get_some {D} (s : tree D) p n : p ≠ 0 → tr_nodes s !! p = Some n → get s p = Ret n.
Proof. intros Hp Hl. unfold get. rewrite Hl. by destruct (Z.eqb_spec p 0). Qed.
Lemma upd_some {D} (s : tree D) f p n :
  p ≠ 0 → tr_nodes s !! p = Some n → upd f p s = Ret (set_nodes (<[p := f n]> (tr_nodes s)) s).
Proof. intros Hp Hl. unfold upd. by rewrite (get_some _ _ _ Hp Hl). Qed.

Lemma addr_in t : t ≠ E → addr t ∈ addrs t.
Proof. destruct t; [done|]. intros _. rewrite addrs_T. cbn. rewrite elem_of_app, elem_of_cons. auto. Qed.
Lemma shape_nonzero h par t a : shape h par t → a ∈ addrs t → a ≠ 0.
Proof.
  revert par. induction t as [|p c d l IHl r IHr]; intros par; cbn [shape];
    [by intros _ ?%elem_of_nil|].
  rewrite addrs_T, elem_of_app, elem_of_cons. intros (? & _ & ? & ?) [?|[->|?]]; eauto.
Qed.
Lemma addr_ne t a : a ≠ 0 → a ∉ addrs t → addr t ≠ a.
Proof. destruct t; cbn; [auto|]. intros _ Ha <-. by apply Ha, (addr_in (T p c d t1 t2)). Qed.

(** ** Steps *)

(** The part of the memory outside of the addresses [l] stays. *)
Definition same_but {D} (l : list Z) (s s' : tree D) : Prop :=
  tr_data s' = tr_data s ∧ ∀ a, a ∉ l → tr_nodes s' !! a = tr_nodes s !! a.

Lemma set_parent_ok {D} (s : tree D) par v t :
  shape (tr_nodes s) par t → NoDup (addrs t) →
  ∃ s', set_parent (addr t) v s = Ret s' ∧ shape (tr_nodes s') v t ∧ tr_root s' = tr_root s ∧
    same_but (addrs t) s s'.
Proof.
  destruct t as [|p c d l r]; intros Hs Hn.
  - exists s. split_and!; done.
  - destruct Hs as (Hp & Hl & ? & ?). rewrite addrs_T in Hn. unfold set_parent. cbn [addr].
    destruct (Z.eqb_spec p 0); [done|]. cbn [negb]. rewrite (upd_some _ _ _ _ Hp Hl).
    apply NoDup_app in Hn as (? & Hd & Hn). apply NoDup_cons in Hn as [Hr ?].
    eexists. split; [done|]. cbn [set_nodes tr_nodes shape]. rewrite lookup_insert_eq. split_and!; try done.
    + eapply shape_ext; [|done]. intros a Ha. apply lookup_insert_ne. intros <-.
      by apply (Hd p Ha); constructor.
    + eapply shape_ext; [|done]. intros a Ha. apply lookup_insert_ne. by intros <-.
    + split; [done|]. cbn [set_nodes tr_nodes]. intros a Ha. apply lookup_insert_ne. intros <-. apply Ha. rewrite addrs_T.
      rewrite elem_of_app, elem_of_cons. auto.
Qed.

Lemma replace_child_ok {D} (s : tree D) k q new :
  ctx (tr_nodes s) k q → tr_root s = top k q → NoDup (kaddrs k) → q ≠ 0 → q ∉ kaddrs k →
  ∃ s', replace_child (kaddr k) q new s = Ret s' ∧ ctx (tr_nodes s') k new ∧
    tr_root s' = top k new ∧ same_but (kaddrs k) s s'.
Proof.
  intros Hc Hr Hn Hq Hin. unfold replace_child.
  destruct k as [|[p c d r|p c d l] k]; cbn [kaddr faddr top ctx] in *.
  - eexists. split; [done|]. done.
  - destruct Hc as (Hp & Hl & ? & ?). rewrite (get_some _ _ _ Hp Hl). cbn [obind t_left].
    rewrite Z.eqb_refl. destruct (Z.eqb_spec p 0); [done|]. rewrite (upd_some _ _ _ _ Hp Hl).
    rewrite kaddrs_FL, elem_of_cons, elem_of_app in Hin.
    assert (p ∉ addrs r ∧ p ∉ kaddrs k) as [Hpr Hpk].
    { rewrite kaddrs_FL in Hn. apply NoDup_cons in Hn as [Hn _]. rewrite elem_of_app in Hn. tauto. }
    eexists. split; [done|]. cbn [set_nodes tr_nodes tr_root]. rewrite lookup_insert_eq.
    split_and!; try done.
    + eapply shape_ext; [|done]. intros a Ha. apply lookup_insert_ne. by intros <-.
    + eapply ctx_ext; [|done]. intros a Ha. apply lookup_insert_ne. by intros <-.
    + split; [done|]. cbn [set_nodes tr_nodes]. intros a Ha. apply lookup_insert_ne. intros <-. apply Ha. rewrite kaddrs_FL. by constructor.
  - destruct Hc as (Hp & Hl & ? & ?). rewrite (get_some _ _ _ Hp Hl). cbn [obind t_left].
    rewrite kaddrs_FR, elem_of_cons, elem_of_app in Hin.
    destruct (Z.eqb_spec (addr l) q) as [E'|_]; [exfalso; eapply addr_ne; [exact Hq| |exact E']; tauto|].
    destruct (Z.eqb_spec p 0); [done|]. rewrite (upd_some _ _ _ _ Hp Hl).
    assert (p ∉ addrs l ∧ p ∉ kaddrs k) as [Hpr Hpk].
    { rewrite kaddrs_FR in Hn. apply NoDup_cons in Hn as [Hn _]. rewrite elem_of_app in Hn. tauto. }
    eexists. split; [done|]. cbn [set_nodes tr_nodes tr_root]. rewrite lookup_insert_eq.
    split_and!; try done.
    + eapply shape_ext; [|done]. intros a Ha. apply lookup_insert_ne. by intros <-.
    + eapply ctx_ext; [|done]. intros a Ha. apply lookup_insert_ne. by intros <-.
    + split; [done|]. cbn [set_nodes tr_nodes]. intros a Ha. apply lookup_insert_ne. intros <-. apply Ha. rewrite kaddrs_FR. by constructor.
Qed.

Lemma addrs_apart p c d l r :
  NoDup (addrs (T p c d l r)) →
  NoDup (addrs l) ∧ NoDup (addrs r) ∧ p ∉ addrs l ∧ p ∉ addrs r ∧ ∀ a, a ∈ addrs l → a ∉ addrs r.
Proof.
  rewrite addrs_T. intros (? & Hd & [? ?]%NoDup_cons)%NoDup_app. split_and!; try done.
  - intros Hp. by apply (Hd p Hp); constructor.
  - intros a Ha Hr. by apply (Hd a Ha); constructor.
Qed.

Lemma elem_of_addrs_T a p c d l r : a ∈ addrs (T p c d l r) ↔ a = p ∨ a ∈ addrs l ∨ a ∈ addrs r.
Proof. rewrite addrs_T, elem_of_app, elem_of_cons. tauto. Qed.

(** The same addresses in another arrangement. *)
Lemma rep_rearranged {D} (s' : tree D) k t t' :
  addrs t' = addrs t → NoDup (addrs (plug k t)) →
  ctx (tr_nodes s') k (addr t') → shape (tr_nodes s') (kaddr k) t' → tr_root s' = top k (addr t') →
  rep s' (plug k t').
Proof.
  intros Ha Hn Hc Hs Hr. apply rep_split. rewrite Ha. rewrite addrs_plug in Hn.
  apply NoDup_app in Hn as (? & ? & ?). done.
Qed.

(** A pointer that is not the address at hand. *)
Ltac ne := solve [congruence | intros ->; tauto | intros <-; tauto | intros ?; subst; tauto].
Ltac at_addr a :=
  repeat match goal with
         | H : ∀ x : Z, _ → ¬ _ |- _ => pose proof (H a); revert H
         end; intros.
Ltac ext_by L H := eapply L; [|exact H]; let b := fresh "b" in intros b ?; at_addr b; cbn;
  repeat match goal with
         | |- <[_ := _]> _ !! _ = _ => rewrite lookup_insert_ne by (intros ?; subst; tauto)
         | H : ∀ a, a ∉ _ → tr_nodes ?s' !! a = _ |- tr_nodes ?s' !! _ = _ =>
             rewrite H by tauto; cbn
         end; try done.

Lemma left_rotate_ok {D} (s : tree D) k p c d l q c' d' m r :
  rep s (plug k (T p c d l (T q c' d' m r))) →
  ∃ s', left_rotate p s = Ret s' ∧ rep s' (plug k (T q c' d' (T p c d l m) r)) ∧
    tr_data s' = tr_data s.
Proof.
  intros Hrep. pose proof (rep_nodup _ _ Hrep) as Hnd.
  apply rep_split in Hrep as (Hc & (Hp & Hlp & Hl & Hq & Hlq & Hm & Hr) & Hroot & Hn & Hnk & Hd).
  setoid_rewrite elem_of_addrs_T in Hd. setoid_rewrite elem_of_addrs_T in Hd.
  apply addrs_apart in Hn as (Nl & Nq & Pl & Pq & Lq).
  rewrite elem_of_addrs_T in Pq. setoid_rewrite elem_of_addrs_T in Lq.
  apply addrs_apart in Nq as (Nm & Nr & Qm & Qr & Mr).
  assert (p ≠ q) as Hpq by tauto. cbn [addr] in *.
  pose proof (Hd p) as Hdp. pose proof (Hd q) as Hdq.
  unfold left_rotate. rewrite (get_some _ _ _ Hp Hlp). cbn [obind t_right addr].
  destruct (Z.eqb_spec q 0); [done|]. rewrite (get_some _ _ _ Hq Hlq). cbn [obind t_left].
  rewrite (upd_some _ _ _ _ Hp Hlp). cbn [obind].
  set (s1 := set_nodes _ s).
  destruct (set_parent_ok s1 q p m) as (s2 & -> & Hm2 & Hr2 & Hd2 & Hs2); [ext_by shape_ext Hm|done|].
  cbn [obind].
  assert (tr_nodes s2 !! p = Some (TNode (addr l) (addr m) (kaddr k) d c)) as Hp2.
  { rewrite Hs2 by tauto. cbn. by rewrite lookup_insert_eq. }
  assert (tr_nodes s2 !! q = Some (TNode (addr m) (addr r) p d' c')) as Hq2.
  { rewrite Hs2 by tauto. cbn. by rewrite lookup_insert_ne by ne. }
  rewrite (get_some _ _ _ Hp Hp2). cbn [obind t_parent]. rewrite (upd_some _ _ _ _ Hq Hq2). cbn [obind].
  set (s3 := set_nodes _ s2).
  destruct (replace_child_ok s3 k p q) as (s4 & -> & Hc4 & Hr4 & Hd4 & Hs4);
    [ext_by ctx_ext Hc| |done|done|tauto|].
  { cbn. by rewrite Hr2. }
  cbn [obind].
  assert (tr_nodes s4 !! q = Some (TNode (addr m) (addr r) (kaddr k) d' c')) as Hq4.
  { rewrite Hs4 by tauto. cbn. by rewrite lookup_insert_eq. }
  assert (tr_nodes s4 !! p = Some (TNode (addr l) (addr m) (kaddr k) d c)) as Hp4.
  { rewrite Hs4 by tauto. cbn. by rewrite lookup_insert_ne by ne. }
  rewrite (upd_some _ _ _ _ Hq Hq4). cbn [obind]. set (s5 := set_nodes _ s4).
  assert (tr_nodes s5 !! p = Some (TNode (addr l) (addr m) (kaddr k) d c)) as Hp5.
  { cbn. by rewrite lookup_insert_ne by ne. }
  rewrite (upd_some _ _ _ _ Hp Hp5). eexists. split; [done|]. split; [|cbn; rewrite Hd4; exact Hd2].
  eapply rep_rearranged; [|exact Hnd| | |].
  - rewrite !addrs_T. by rewrite <- (assoc_L app).
  - cbn [addr]. ext_by ctx_ext Hc4.
  - cbn [shape addr]. split_and!; try done.
    + cbn. rewrite lookup_insert_ne, lookup_insert_eq by ne. done.
    + cbn. by rewrite lookup_insert_eq.
    + ext_by shape_ext Hl.
    + ext_by shape_ext Hm2.
    + ext_by shape_ext Hr.
  - cbn. done.
Qed.

Lemma right_rotate_ok {D} (s : tree D) k p c d q c' d' l m r :
  rep s (plug k (T p c d (T q c' d' l m) r)) →
  ∃ s', right_rotate p s = Ret s' ∧ rep s' (plug k (T q c' d' l (T p c d m r))) ∧
    tr_data s' = tr_data s.
Proof.
  intros Hrep. pose proof (rep_nodup _ _ Hrep) as Hnd.
  apply rep_split in Hrep as (Hc & (Hp & Hlp & (Hq & Hlq & Hl & Hm) & Hr) & Hroot & Hn & Hnk & Hd).
  setoid_rewrite elem_of_addrs_T in Hd. setoid_rewrite elem_of_addrs_T in Hd.
  apply addrs_apart in Hn as (Nq & Nr & Pq & Pr & Lq).
  rewrite elem_of_addrs_T in Pq. setoid_rewrite elem_of_addrs_T in Lq.
  apply addrs_apart in Nq as (Nl & Nm & Ql & Qm & Lm).
  assert (p ≠ q) as Hpq by tauto. cbn [addr] in *.
  pose proof (Hd p) as Hdp. pose proof (Hd q) as Hdq.
  unfold right_rotate. rewrite (get_some _ _ _ Hp Hlp). cbn [obind t_left addr].
  destruct (Z.eqb_spec q 0); [done|]. rewrite (get_some _ _ _ Hq Hlq). cbn [obind t_right].
  rewrite (upd_some _ _ _ _ Hp Hlp). cbn [obind].
  set (s1 := set_nodes _ s).
  destruct (set_parent_ok s1 q p m) as (s2 & -> & Hm2 & Hr2 & Hd2 & Hs2); [ext_by shape_ext Hm|done|].
  cbn [obind].
  assert (tr_nodes s2 !! p = Some (TNode (addr m) (addr r) (kaddr k) d c)) as Hp2.
  { rewrite Hs2 by tauto. cbn. by rewrite lookup_insert_eq. }
  assert (tr_nodes s2 !! q = Some (TNode (addr l) (addr m) p d' c')) as Hq2.
  { rewrite Hs2 by tauto. cbn. by rewrite lookup_insert_ne by ne. }
  rewrite (get_some _ _ _ Hp Hp2). cbn [obind t_parent]. rewrite (upd_some _ _ _ _ Hq Hq2). cbn [obind].
  set (s3 := set_nodes _ s2).
  destruct (replace_child_ok s3 k p q) as (s4 & -> & Hc4 & Hr4 & Hd4 & Hs4);
    [ext_by ctx_ext Hc| |done|done|tauto|].
  { cbn. by rewrite Hr2. }
  cbn [obind].
  assert (tr_nodes s4 !! q = Some (TNode (addr l) (addr m) (kaddr k) d' c')) as Hq4.
  { rewrite Hs4 by tauto. cbn. by rewrite lookup_insert_eq. }
  assert (tr_nodes s4 !! p = Some (TNode (addr m) (addr r) (kaddr k) d c)) as Hp4.
  { rewrite Hs4 by tauto. cbn. by rewrite lookup_insert_ne by ne. }
  rewrite (upd_some _ _ _ _ Hq Hq4). cbn [obind]. set (s5 := set_nodes _ s4).
  assert (tr_nodes s5 !! p = Some (TNode (addr m) (addr r) (kaddr k) d c)) as Hp5.
  { cbn. by rewrite lookup_insert_ne by ne. }
  rewrite (upd_some _ _ _ _ Hp Hp5). eexists. split; [done|]. split; [|cbn; rewrite Hd4; exact Hd2].
  eapply rep_rearranged; [|exact Hnd| | |].
  - rewrite !addrs_T. by rewrite <- (assoc_L app).
  - cbn [addr]. ext_by ctx_ext Hc4.
  - cbn [shape addr]. split_and!; try done.
    + cbn. rewrite lookup_insert_ne, lookup_insert_eq by ne. done.
    + ext_by shape_ext Hl.
    + cbn. by rewrite lookup_insert_eq.
    + ext_by shape_ext Hm2.
    + ext_by shape_ext Hr.
  - cbn. done.
Qed.

Lemma recolor_ok {D} (s : tree D) k p c c' d l r :
  rep s (plug k (T p c d l r)) →
  ∃ s', upd (with_color c') p s = Ret s' ∧ rep s' (plug k (T p c' d l r)) ∧ tr_data s' = tr_data s ∧
    tr_root s' = tr_root s.
Proof.
  intros Hrep. pose proof (rep_nodup _ _ Hrep) as Hnd.
  apply rep_split in Hrep as (Hc & (Hp & Hlp & Hl & Hr) & Hroot & Hn & Hnk & Hd).
  setoid_rewrite elem_of_addrs_T in Hd. apply addrs_apart in Hn as (Nl & Nr & Pl & Pr & Lr).
  rewrite (upd_some _ _ _ _ Hp Hlp). eexists. split; [done|]. split; [|done].
  eapply rep_rearranged; [|exact Hnd| | |].
  - by rewrite !addrs_T.
  - cbn [addr] in *. ext_by ctx_ext Hc.
  - cbn [shape]. split_and!; [done|by cbn; rewrite lookup_insert_eq|ext_by shape_ext Hl|ext_by shape_ext Hr].
  - done.
Qed.
