(* ===== verification/TreeBal.v ===== *)
(** * Red-black trees: the balance invariant and insertion's fix-up

    Left and right are treated at once: a [side] chooses the child, the
    rotation and the order of the subtrees. *)
From S2P Require Import Prelude Tree TreeFacts.

Local Open Scope Z_scope.

(** ** Sides *)
Inductive side : Type := L | R.
#[global] Instance side_eq_dec : EqDecision side.
Proof. solve_decision. Defined.
Definition opp (sd : side) : side := match sd with L => R | R => L end.
Definition child (sd : side) : tree_node → Z := match sd with L => t_left | R => t_right end.
Definition rot {D} (sd : side) : Z → tree D → outcome (tree D) :=
  match sd with L => left_rotate | R => right_rotate end.
(** The tree with [a] on the given side and [b] on the other one. *)
Definition node (sd : side) (p : Z) (c : color) (d : Z) (a b : rtree) : rtree :=
  match sd with L => T p c d a b | R => T p c d b a end.
(** The frame with the hole on the given side. *)
Definition fr (sd : side) (p : Z) (c : color) (d : Z) (sib : rtree) : frame :=
  match sd with L => FL p c d sib | R => FR p c d sib end.

Lemma opp_opp sd : opp (opp sd) = sd.
Proof. by destruct sd. Qed.
Lemma fill_fr sd p c d sib t : fill (fr sd p c d sib) t = node sd p c d t sib.
Proof. by destruct sd. Qed.
Lemma fill_fr_opp sd p c d sib t : fill (fr (opp sd) p c d sib) t = node sd p c d sib t.
Proof. by destruct sd. Qed.
Lemma node_opp sd p c d a b : node sd p c d a b = node (opp sd) p c d b a.
Proof. by destruct sd. Qed.
Lemma addr_node sd p c d a b : addr (node sd p c d a b) = p.
Proof. by destruct sd. Qed.
Lemma faddr_fr sd p c d sib : faddr (fr sd p c d sib) = p.
Proof. by destruct sd. Qed.
Lemma plug_fr sd p c d sib k t : plug (fr sd p c d sib :: k) t = plug k (node sd p c d t sib).
Proof. cbn. by rewrite fill_fr. Qed.
Lemma plug_fr_opp sd p c d sib k t : plug (fr (opp sd) p c d sib :: k) t = plug k (node sd p c d sib t).
Proof. cbn. by rewrite fill_fr_opp. Qed.

Lemma rep_node {D} (s : tree D) sd k p c d a b :
  rep s (plug k (node sd p c d a b)) →
  ∃ n, get s p = Ret n ∧ t_parent n = kaddr k ∧ t_color n = c ∧ t_data n = d ∧
    child sd n = addr a ∧ child (opp sd) n = addr b.
Proof.
  destruct sd; cbn [node]; intros (Hp & Hl)%rep_get; rewrite (get_some _ _ _ Hp Hl); eauto 10.
Qed.

Lemma recolor_node {D} (s : tree D) sd k p c c' d a b :
  rep s (plug k (node sd p c d a b)) →
  ∃ s', upd (with_color c') p s = Ret s' ∧ rep s' (plug k (node sd p c' d a b)) ∧
    tr_data s' = tr_data s ∧ tr_root s' = tr_root s.
Proof. destruct sd; apply recolor_ok. Qed.

Lemma rot_ok {D} (s : tree D) sd k p c d a q c' d' m b :
  rep s (plug k (node sd p c d a (node sd q c' d' m b))) →
  ∃ s', rot sd p s = Ret s' ∧ rep s' (plug k (node sd q c' d' (node sd p c d a m) b)) ∧
    tr_data s' = tr_data s.
Proof. destruct sd; [apply left_rotate_ok|apply right_rotate_ok]. Qed.

Lemma cells_rot sd p c d a q c' d' m b :
  cells (node sd q c' d' (node sd p c d a m) b) = cells (node sd p c d a (node sd q c' d' m b)).
Proof. destruct sd; cbn [node cells]; by rewrite <- ?(assoc_L app). Qed.

Lemma cells_plug_eq k t t' : cells t' = cells t → cells (plug k t') = cells (plug k t).
Proof. intros Ht. by rewrite !cells_plug, Ht. Qed.
Lemma cells_recolor sd p c c' d a b : cells (node sd p c d a b) = cells (node sd p c' d a b).
Proof. by destruct sd. Qed.

(** The colour of the root of a subtree, NULL being black. *)
Definition rcolor (t : rtree) : color := match t with E => BLACK | T _ c _ _ _ => c end.
Lemma rcolor_node sd p c d a b : rcolor (node sd p c d a b) = c.
Proof. by destruct sd. Qed.

Lemma rb_color_ok {D} (s : tree D) k t :
  rep s (plug k t) → rb_color s (addr t) = Ret (rcolor t).
Proof.
  destruct t as [|p c d l r]; [done|]. intros Hr. apply (rep_node s L) in Hr as (n & Hg & _ & Hc & _).
  unfold rb_color. destruct (Z.eqb_spec p 0) as [->|Hp]; [done|]. cbn [addr].
  destruct (Z.eqb_spec p 0); [done|]. by rewrite Hg, <- Hc.
Qed.

Lemma top_in k q : k ≠ [] → top k q ∈ kaddrs k.
Proof.
  revert q. induction k as [|f k IH]; intros q Hk; [done|]. cbn [top].
  destruct k as [|g k]; [by apply (kaddr_in [f])|].
  destruct f; [rewrite kaddrs_FL|rewrite kaddrs_FR]; constructor;
    apply elem_of_app; right; by apply IH.
Qed.

(** A proper subtree is not the root, and siblings differ. *)
Lemma rep_not_root {D} (s : tree D) k t :
  rep s (plug k t) → t ≠ E → k ≠ [] → addr t ≠ tr_root s.
Proof.
  intros (_ & _ & Hroot & _ & _ & Hd)%rep_split Ht Hk He.
  apply (Hd (addr t) (addr_in _ Ht)). rewrite He, Hroot. by apply top_in.
Qed.
Lemma rep_sides {D} (s : tree D) sd k p c d a b :
  rep s (plug k (node sd p c d a b)) → a ≠ E → addr a ≠ addr b.
Proof.
  intros (_ & Hs & _ & Hn & _)%rep_split Ha He.
  assert (shape (tr_nodes s) p a ∧ (∀ x, x ∈ addrs a → x ∉ addrs b)) as [Hsa Hab].
  { destruct sd; cbn [node shape] in *; apply addrs_apart in Hn as (_ & _ & _ & _ & H); naive_solver. }
  destruct b as [|pb cb db lb rb].
  - by eapply (shape_nonzero _ _ _ (addr a) Hsa); [apply addr_in|].
  - eapply Hab; [by apply addr_in|]. rewrite He. by apply addr_in.
Qed.

(** ** Balance *)

(** [rbt t c n]: no red node has a red child, every path has [n] black nodes
    and the root has the colour [c]. *)
Inductive rbt : rtree → color → nat → Prop :=
  | rbt_E : rbt E BLACK 0
  | rbt_red p d l r n : rbt l BLACK n → rbt r BLACK n → rbt (T p RED d l r) RED n
  | rbt_black p d l r cl cr n : rbt l cl n → rbt r cr n → rbt (T p BLACK d l r) BLACK (S n).

(** [krb k c n]: plugged with a tree of colour [c] and height [n] the context is
    balanced. *)
Inductive krb : list frame → color → nat → Prop :=
  | krb_top n : krb [] BLACK n
  | krb_black sd p d sib k c cs n :
      rbt sib cs n → krb k BLACK (S n) → krb (fr sd p BLACK d sib :: k) c n
  | krb_red sd p d sib k n :
      rbt sib BLACK n → krb k RED n → krb (fr sd p RED d sib :: k) BLACK n.

Lemma rbt_color t c n : rbt t c n → rcolor t = c.
Proof. by destruct 1. Qed.
Lemma rbt_node_red sd p d a b n : rbt a BLACK n → rbt b BLACK n → rbt (node sd p RED d a b) RED n.
Proof. destruct sd; by constructor. Qed.
Lemma rbt_node_black sd p d a b ca cb n :
  rbt a ca n → rbt b cb n → rbt (node sd p BLACK d a b) BLACK (S n).
Proof. destruct sd; econstructor; eauto. Qed.

Lemma krb_plug k c n t : krb k c n → rbt t c n → ∃ m, rbt (plug k t) BLACK m.
Proof.
  intros Hk. revert t. induction Hk as [n|sd p d sib k c cs n Hs Hk IH|sd p d sib k n Hs Hk IH];
    intros t Ht; rewrite ?plug_fr.
  - by eexists.
  - eapply IH, rbt_node_black; eauto.
  - eapply IH, rbt_node_red; eauto.
Qed.

Lemma rbt_unplug k t m : rbt (plug k t) BLACK m → ∃ c n, rbt t c n ∧ krb k c n.
Proof.
  revert t. induction k as [|[p c d sib|p c d sib] k IH]; intros t Hr; cbn [plug fill] in Hr.
  - exists BLACK, m. split; [done|constructor].
  - destruct (IH _ Hr) as (c' & n & Ht & Hk). inversion Ht; subst.
    + exists BLACK, n. split; [done|]. by apply (krb_red L).
    + exists cl, n0. split; [done|]. by apply (krb_black L p d sib k cl cr).
  - destruct (IH _ Hr) as (c' & n & Ht & Hk). inversion Ht; subst.
    + exists BLACK, n. split; [done|]. by apply (krb_red R).
    + exists cr, n0. split; [done|]. by apply (krb_black R p d sib k cr cl).
Qed.

(** A red root can be blackened. *)
Lemma rbt_blacken p c c' d l r n : rbt (T p c d l r) c' n → ∃ m, rbt (T p BLACK d l r) BLACK m.
Proof. inversion 1; subst; eexists; econstructor; eauto. Qed.

(** ** The loop of rb_insert *)

(** What a run of the loop promises: a tree with the same cells in the same
    order, balanced but for the colour of the root. *)
Definition fixed {D} (s : tree D) (t : rtree) (o : outcome (tree D)) : Prop :=
  ∃ s' t' c m, o = Ret s' ∧ rep s' t' ∧ cells t' = cells t ∧ tr_data s' = tr_data s ∧ rbt t' c m.

Lemma fixed_weaken {D} (s s1 : tree D) t t1 o :
  fixed s1 t1 o → tr_data s1 = tr_data s → cells t1 = cells t → fixed s t o.
Proof. intros (s' & t' & c & m & ? & ? & ? & ? & ?) ? ?. exists s', t', c, m. split_and!; congruence. Qed.

(** The loop ends at the root and below a black node. *)
Lemma fixup_stop {D} (s : tree D) fuel k p d l r n :
  rep s (plug k (T p RED d l r)) → rbt (T p RED d l r) RED n → krb k RED n ∨ k = [] →
  fixed s (plug k (T p RED d l r)) (insert_fixup (S fuel) p s).
Proof.
  intros Hrep Hb Hk. exists s, (plug k (T p RED d l r)). cbn [insert_fixup].
  destruct Hk as [Hk| ->].
  - destruct (krb_plug _ _ _ _ Hk Hb) as [m Hm]. exists BLACK, m. split_and!; try done.
    destruct k as [|f k']; [by inversion Hk|]. assert (∃ sd q dq sib, f = fr sd q BLACK dq sib) as (sd & q & dq & sib & ->).
    { inversion Hk; eauto. }
    destruct (Z.eqb_spec p (tr_root s)) as [E'|_]; [done|].
    destruct (rep_node s L _ _ _ _ _ _ Hrep) as (np & -> & Hpar & _). cbn [obind].
    rewrite Hpar. cbn [kaddr]. rewrite faddr_fr.
    rewrite plug_fr in Hrep. pose proof (rb_color_ok _ _ _ Hrep) as Hc.
    rewrite addr_node, rcolor_node in Hc. by rewrite Hc.
  - exists RED, n. split_and!; try done. rewrite (rep_root _ _ Hrep). cbn [plug addr].
    by rewrite Z.eqb_refl.
Qed.

(** A round below a red parent [q] on side [sd] of the grandparent [g]. *)
Lemma fixup_round {D} (s : tree D) fuel k p d l r s1 q dq sib sd g cg dg u :
  rep s (plug (fr s1 q RED dq sib :: fr sd g cg dg u :: k) (T p RED d l r)) →
  insert_fixup (S fuel) p s =
    let! r := insert_round (child (opp sd)) (rot sd) (rot (opp sd)) p q g s in
    insert_fixup fuel r.1 r.2.
Proof.
  intros Hrep. cbn [insert_fixup].
  destruct (Z.eqb_spec p (tr_root s)) as [E'|_]; [by apply rep_not_root in Hrep|].
  destruct (rep_node s L _ _ _ _ _ _ Hrep) as (np & -> & Hpar & _). cbn [obind].
  rewrite Hpar. cbn [kaddr]. rewrite faddr_fr. rewrite plug_fr in Hrep.
  pose proof (rb_color_ok _ _ _ Hrep) as Hc. rewrite addr_node, rcolor_node in Hc.
  rewrite Hc. cbn [obind is_red].
  destruct (rep_node _ _ _ _ _ _ _ _ Hrep) as (nq & -> & Hqp & _). cbn [obind].
  rewrite Hqp. cbn [kaddr]. rewrite faddr_fr. rewrite plug_fr in Hrep.
  destruct (rep_node _ _ _ _ _ _ _ _ Hrep) as (ng & -> & _ & _ & _ & Hn & Hf). cbn [obind].
  pose proof (rep_sides _ _ _ _ _ _ _ _ Hrep ltac:(by destruct s1)) as Hne.
  rewrite addr_node in Hn, Hne.
  destruct sd; cbn [child opp] in *; [by rewrite Hn, Z.eqb_refl|].
  rewrite Hf. by destruct (Z.eqb_spec q (addr u)).
Qed.

Lemma round_far {D} (s : tree D) sd g cg dg a u k :
  rep s (plug k (node sd g cg dg a u)) →
  ∃ ng, get s g = Ret ng ∧ child (opp sd) ng = addr u ∧ rb_color s (addr u) = Ret (rcolor u).
Proof.
  intros Hrep. destruct (rep_node _ _ _ _ _ _ _ _ Hrep) as (ng & -> & _ & _ & _ & _ & Hf).
  exists ng. split_and!; [done|done|]. eapply (rb_color_ok _ (fr (opp sd) g cg dg a :: k)).
  by rewrite plug_fr_opp.
Qed.

(** An outer child of a red parent with a black uncle: one rotation ends it. *)
Lemma fixup_outer {D} (s : tree D) fuel k p d l r sd q dq sib g dg u n cu :
  rep s (plug (fr sd q RED dq sib :: fr sd g BLACK dg u :: k) (T p RED d l r)) →
  rbt (T p RED d l r) RED n → rbt sib BLACK n → rbt u cu n → rcolor u = BLACK →
  krb k BLACK (S n) →
  fixed s (plug (fr sd q RED dq sib :: fr sd g BLACK dg u :: k) (T p RED d l r))
        (insert_fixup (S (S fuel)) p s).
Proof.
  intros Hrep Hp Hs Hu Huc Hk. rewrite (fixup_round _ _ _ _ _ _ _ _ _ _ _ _ _ _ _ _ Hrep).
  pose proof (rep_sides _ _ _ _ _ _ _ _ ltac:(rewrite plug_fr in Hrep; exact Hrep) ltac:(done)) as Hne.
  rewrite !plug_fr in *. destruct (round_far _ _ _ _ _ _ _ _ Hrep) as (ng & Hg & Hf & Hc).
  unfold insert_round. rewrite Hg. cbn [obind]. rewrite Hf, Hc, Huc. cbn [obind is_red].
  pose proof Hrep as Hrep'. rewrite <- plug_fr in Hrep.
  destruct (rep_node _ _ _ _ _ _ _ _ Hrep) as (nq & -> & _ & _ & _ & _ & Hqf). cbn [obind].
  rewrite Hqf. destruct (Z.eqb_spec p (addr sib)) as [?|_]; [done|].
  destruct (recolor_node s sd _ q RED BLACK _ _ _ Hrep) as (s1 & -> & Hr1 & Hd1 & _). cbn [obind].
  rewrite plug_fr in Hr1.
  destruct (recolor_node s1 sd _ g BLACK RED _ _ _ Hr1) as (s2 & -> & Hr2 & Hd2 & _). cbn [obind].
  rewrite (node_opp sd g), (node_opp sd q) in Hr2.
  destruct (rot_ok s2 (opp sd) _ _ _ _ _ _ _ _ _ _ Hr2) as (s3 & -> & Hr3 & Hd3). cbn [obind fst snd].
  rewrite <- plug_fr_opp in Hr3. eapply fixed_weaken; [eapply fixup_stop; [exact Hr3|exact Hp|]| |].
  - left. econstructor; [|exact Hk]. apply rbt_node_red; [|done].
    apply rbt_color in Hu as Hu'. congruence.
  - congruence.
  - rewrite plug_fr_opp. apply cells_plug_eq. rewrite cells_rot, <- !node_opp.
    rewrite (cells_recolor sd g _ BLACK). destruct sd; done.
Qed.

(** An inner child is rotated into an outer one first. *)
Lemma fixup_inner {D} (s : tree D) fuel k p d l r sd q dq sib g dg u n cu :
  rep s (plug (fr (opp sd) q RED dq sib :: fr sd g BLACK dg u :: k) (T p RED d l r)) →
  rbt (T p RED d l r) RED n → rbt sib BLACK n → rbt u cu n → rcolor u = BLACK →
  krb k BLACK (S n) →
  fixed s (plug (fr (opp sd) q RED dq sib :: fr sd g BLACK dg u :: k) (T p RED d l r))
        (insert_fixup (S (S (S fuel))) p s).
Proof.
  intros Hrep Hp Hs Hu Huc Hk. rewrite (fixup_round _ _ _ _ _ _ _ _ _ _ _ _ _ _ _ _ Hrep).
  rewrite plug_fr_opp in Hrep. pose proof Hrep as Hq. rewrite plug_fr in Hrep.
  destruct (round_far _ _ _ _ _ _ _ _ Hrep) as (ng & Hg & Hf & Hc).
  unfold insert_round. rewrite Hg. cbn [obind]. rewrite Hf, Hc, Huc. cbn [obind is_red].
  destruct (rep_node _ _ _ _ _ _ _ _ Hq) as (nq & -> & _ & _ & _ & _ & Hqf). cbn [obind].
  rewrite Hqf. cbn [addr]. rewrite Z.eqb_refl.
  assert (∃ a b, T p RED d l r = node sd p RED d a b ∧ rbt a BLACK n ∧ rbt b BLACK n)
    as (a & b & E' & Ha & Hb).
  { inversion Hp; subst. destruct sd; [by exists l, r|by exists r, l]. }
  rewrite E' in *. destruct (rot_ok s sd _ _ _ _ _ _ _ _ _ _ Hq) as (s1 & -> & Hr1 & Hd1).
  cbn [obind fst snd]. rewrite <- plug_fr in Hr1.
  assert (∃ l' r', node sd q RED dq sib a = T q RED dq l' r') as (l' & r' & E2) by (destruct sd; eauto).
  pose proof (rbt_node_red sd q dq sib a n Hs Ha) as Hq2. rewrite E2 in Hr1, Hq2.
  eapply fixed_weaken; [eapply (fixup_outer _ _ _ _ _ _ _ _ _ _ _ _ _ _ _ _ Hr1 Hq2 Hb Hu Huc Hk)|done|].
  rewrite <- E2, plug_fr, plug_fr_opp, !plug_fr. apply cells_plug_eq.
  pose proof (cells_rot sd q RED dq sib p RED d a b) as Hcr. destruct sd; cbn [node cells] in *; congruence.
Qed.

(** A red uncle: recolour and go on at the grandparent. *)
Lemma round_recolor {D} (s : tree D) k p d l r s1 q dq sib sd g dg pu du lu ru :
  rep s (plug (fr s1 q RED dq sib :: fr sd g BLACK dg (T pu RED du lu ru) :: k) (T p RED d l r)) →
  ∃ s', insert_round (child (opp sd)) (rot sd) (rot (opp sd)) p q g s = Ret (g, s') ∧
    rep s' (plug k (node sd g RED dg (node s1 q BLACK dq (T p RED d l r) sib)
                                     (T pu BLACK du lu ru))) ∧
    tr_data s' = tr_data s.
Proof.
  intros Hrep. rewrite plug_fr in Hrep. pose proof Hrep as Hq. rewrite plug_fr in Hrep.
  destruct (round_far _ _ _ _ _ _ _ _ Hrep) as (ng & Hg & Hf & Hc).
  unfold insert_round. rewrite Hg. cbn [obind]. rewrite Hf, Hc. cbn [obind is_red rcolor addr].
  destruct (recolor_node s s1 _ q RED BLACK _ _ _ Hq) as (t1 & -> & Hr1 & Hd1 & _). cbn [obind].
  rewrite plug_fr, <- plug_fr_opp in Hr1.
  destruct (recolor_ok _ _ _ _ BLACK _ _ _ Hr1) as (t2 & -> & Hr2 & Hd2 & _). cbn [obind].
  rewrite plug_fr_opp, <- plug_fr in Hr2.
  destruct (rep_node _ _ _ _ _ _ _ _ Hr2) as (nq & -> & Hpq & _). cbn [obind].
  rewrite Hpq. cbn [kaddr]. rewrite faddr_fr, plug_fr in *.
  destruct (recolor_node t2 sd _ g BLACK RED _ _ _ Hr2) as (t3 & -> & Hr3 & Hd3 & _). cbn [obind].
  eexists. split; [done|]. split; [done|congruence].
Qed.

Lemma fixup_ok {D} fuel : ∀ (s : tree D) k p d l r n,
  rep s (plug k (T p RED d l r)) → rbt (T p RED d l r) RED n → krb k BLACK n →
  (length k + 3 ≤ fuel)%nat →
  fixed s (plug k (T p RED d l r)) (insert_fixup fuel p s).
Proof.
  induction fuel as [|fuel IH]; intros s k p d l r n Hrep Hp Hk Hf; [lia|].
  inversion Hk as [|? ? ? ? ? ? ? ? Hs Hk1|sd1 q dq sib k1 ? Hs Hk1]; subst.
  - eapply fixup_stop; eauto.
  - eapply fixup_stop; [done|done|]. left. by econstructor.
  - inversion Hk1 as [|sd g dg u k2 ? cu ? Hu Hk2|]; subst. cbn [length] in Hf.
    destruct fuel as [|[|fuel]]; [lia..|].
    destruct (rcolor u) eqn:Hc; [|destruct (decide (sd1 = sd)) as [->|Hne]].
    + destruct u as [|pu cc du lu ru]; [done|]. cbn [rcolor] in Hc. subst cc.
      rewrite (fixup_round _ _ _ _ _ _ _ _ _ _ _ _ _ _ _ _ Hrep).
      destruct (round_recolor _ _ _ _ _ _ _ _ _ _ _ _ _ _ _ _ _ Hrep) as (s' & -> & Hr & Hd).
      cbn [obind fst snd].
      assert (rbt (T pu BLACK du lu ru) BLACK (S n)) as Hu' by (inversion Hu; subst; econstructor; eauto).
      pose proof (rbt_node_red sd g dg _ _ _ (rbt_node_black sd1 q dq _ _ _ _ _ Hp Hs) Hu') as Hg.
      assert (∃ l' r', node sd g RED dg (node sd1 q BLACK dq (T p RED d l r) sib) (T pu BLACK du lu ru) =
        T g RED dg l' r') as (l' & r' & E') by (destruct sd; eauto).
      rewrite E' in Hr, Hg. eapply fixed_weaken; [eapply (IH _ _ _ _ _ _ _ Hr Hg Hk2); lia|done|].
      rewrite <- E', !plug_fr. apply cells_plug_eq. by destruct sd, sd1.
    + by eapply (fixup_outer _ _ _ _ _ _ _ _ _ _ _ _ _ _ _ _ Hrep).
    + assert (sd1 = opp sd) as -> by (by destruct sd, sd1).
      by eapply (fixup_inner _ _ _ _ _ _ _ _ _ _ _ _ _ _ _ _ Hrep).
Qed.
