(* ===== verification/TreeSpec.v ===== *)
(** * Red-black trees: search, insertion, deletion

    [holds s t xs]: the memory [s] holds the tree [t] with the contents [xs] in
    order.  Insertion and search are proved for any comparison function that
    is a total preorder. *)
From S2P Require Import Prelude Tree TreeFacts TreeBal.
From Stdlib Require Import Sorted.

Local Open Scope Z_scope.

(** What the code relies on from a comparison function. *)
Class CmpLaws {D} (cmp : D → D → Z) : Prop := {
  cmp_flip x y : cmp x y < 0 ↔ 0 < cmp y x;
  cmp_trans x y z : cmp x y ≤ 0 → cmp y z ≤ 0 → cmp x z ≤ 0
}.

(** A data pointer and the contents it points to. *)
Definition stored {D} (s : tree D) (c : Z * Z) (x : D) : Prop :=
  c.2 ≠ 0 ∧ tr_data s !! c.2 = Some x.

Record holds {D} (s : tree D) (t : rtree) (xs : list D) : Prop := Holds {
  holds_rep : rep s t;
  holds_vals : Forall2 (stored s) (cells t) xs;
  holds_data : NoDup (cells t).*2
}.

Section spec.
Context {D : Type} (cmp : D → D → Z) `{!CmpLaws cmp}.
Implicit Types (s : tree D) (xs ys zs : list D).

Definition sorted xs : Prop := StronglySorted (λ x y, cmp x y ≤ 0) xs.

Lemma stored_fun s cs xs ys : Forall2 (stored s) cs xs → Forall2 (stored s) cs ys → xs = ys.
Proof.
  intros H. revert ys. induction H as [|c x cs xs [_ Hx] _ IH]; intros ys Hy; inversion Hy as [|? y ? ? [_ Hy']];
    subst; [done|]. f_equal; [congruence|auto].
Qed.

Lemma datum_ok s c x : stored s c x → datum s c.2 = Ret x.
Proof. intros [Hc Hx]. unfold datum. rewrite Hx. by destruct (Z.eqb_spec c.2 0). Qed.

Lemma rep_size s t : rep s t → (length (cells t) ≤ size (tr_nodes s))%nat.
Proof.
  intros [Hs _ Hn]. rewrite <- (length_fmap fst). apply keys_size; [exact Hn|].
  clear Hn. revert Hs. generalize 0 as par. induction t as [|p c d l IHl r IHr]; intros par Hs a Ha.
  - by apply elem_of_nil in Ha.
  - destruct Hs as (_ & Hl & ? & ?). rewrite (elem_of_addrs_T a p c d l r) in Ha.
    destruct Ha as [->|[?|?]]; eauto.
Qed.

(** The contents around a position. *)
Lemma holds_split s k t xs :
  Forall2 (stored s) (cells (plug k t)) xs →
  ∃ ys1 ys ys2, xs = ys1 ++ ys ++ ys2 ∧ Forall2 (stored s) (before k) ys1 ∧
    Forall2 (stored s) (cells t) ys ∧ Forall2 (stored s) (after k) ys2.
Proof.
  rewrite cells_plug. intros (ys1 & ys' & H1 & (ys & ys2 & H2 & H3 & ->)%Forall2_app_inv_l & ->)%Forall2_app_inv_l.
  by exists ys1, ys, ys2.
Qed.

Lemma sorted_app xs ys :
  sorted (xs ++ ys) ↔ sorted xs ∧ sorted ys ∧ (∀ x y, x ∈ xs → y ∈ ys → cmp x y ≤ 0).
Proof.
  unfold sorted. induction xs as [|x xs IH]; cbn [app].
  - split; [|naive_solver]. intros. split_and!; [constructor|done|]. by intros ? ? ?%elem_of_nil.
  - split.
    + inversion 1 as [|? ? Hs Hf]; subst. apply IH in Hs as (? & ? & Hxy). apply Forall_app in Hf as [Hf1 Hf2].
      split_and!; [by constructor|done|]. intros z y [->|?]%elem_of_cons Hy; [|auto].
      by eapply Forall_forall in Hf2.
    + intros (Hs & ? & Hxy). inversion Hs as [|? ? ? Hf]; subst. constructor.
      * apply IH. split_and!; [done|done|]. intros; apply Hxy; [by constructor|done].
      * apply Forall_app. split; [done|]. apply Forall_forall. intros y Hy. apply Hxy; [constructor|done].
Qed.

Lemma cmp_ge x y z : 0 ≤ cmp x y → cmp z y ≤ 0 → 0 ≤ cmp x z.
Proof.
  intros H1 H2. destruct (Z.le_gt_cases 0 (cmp x z)) as [?|H3]; [done|].
  assert (cmp x z ≤ 0) as H4 by lia.
  pose proof (cmp_trans _ _ _ H4 H2). assert (cmp y x ≤ 0).
  { destruct (Z.le_gt_cases (cmp y x) 0); [done|]. assert (cmp x y < 0) by (by apply cmp_flip). lia. }
  pose proof (cmp_trans z y x H2 ltac:(done)). apply cmp_flip in H3. lia.
Qed.
Lemma cmp_lt x y z : cmp x y < 0 → cmp y z ≤ 0 → cmp x z < 0.
Proof.
  intros H1 H2. destruct (Z.lt_ge_cases (cmp x z) 0) as [?|H3]; [done|].
  pose proof (cmp_ge x z y H3 H2). lia.
Qed.

(** ** Insertion *)

(** The loop finds the leaf behind every content that is not greater. *)
Lemma insert_walk_ok fuel : ∀ s k t a na x ys1 ys ys2,
  rep s (plug k t) → get s a = Ret na → datum s (t_data na) = Ret x →
  Forall2 (stored s) (before k) ys1 → Forall2 (stored s) (cells t) ys →
  Forall2 (stored s) (after k) ys2 → sorted ys →
  Forall (λ y, 0 ≤ cmp x y) ys1 → Forall (λ y, cmp x y < 0) ys2 →
  (length (cells t) < fuel)%nat →
  ∃ k' zs1 zs2, insert_walk cmp fuel s a (kaddr k) (addr t) = Ret (kaddr k') ∧ plug k' E = plug k t ∧
    Forall2 (stored s) (before k') zs1 ∧ Forall2 (stored s) (after k') zs2 ∧
    Forall (λ y, 0 ≤ cmp x y) zs1 ∧ Forall (λ y, cmp x y < 0) zs2.
Proof.
  induction fuel as [|fuel IH]; intros s k t a na x ys1 ys ys2 Hrep Ha Hx H1 H H2 Hs F1 F2 Hf; [lia|].
  cbn [insert_walk]. destruct t as [|p c d l r]; [by exists k, ys1, ys2|]. cbn [addr].
  destruct (rep_node s L _ _ _ _ _ _ Hrep) as (np & Hg & _ & _ & Hd & Hl & Hr). cbn [child opp] in Hl, Hr.
  cbn [cells] in H. apply Forall2_app_inv_l in H as (yl & yr' & Hyl & Hyr' & ->).
  apply Forall2_cons_inv_l in Hyr' as (y & yr & Hy & Hyr & ->).
  apply sorted_app in Hs as (Sl & Sr & Hlr). apply StronglySorted_inv in Sr as [Sr' Hyy].
  pose proof (rep_get _ _ _ _ _ _ _ Hrep) as [Hp _].
  destruct (Z.eqb_spec p 0); [done|]. unfold compare. rewrite Ha. cbn [obind]. rewrite Hg. cbn [obind].
  rewrite Hx, Hd. rewrite (datum_ok s (p, d) y Hy : datum s d = Ret y). cbn [obind]. rewrite Hl, Hr.
  cbn [cells] in Hf. rewrite length_app in Hf. cbn [length] in Hf.
  destruct (Z.ltb_spec (cmp x y) 0) as [Hlt|Hge].
  - apply (IH s (FL p c d r :: k) l a na x ys1 yl (y :: yr ++ ys2)); try done.
    + cbn [after]. constructor; [done|by apply Forall2_app].
    + constructor; [done|]. apply Forall_app. split; [|done].
      eapply Forall_impl; [exact Hyy|]. intros z. by apply cmp_lt.
    + lia.
  - apply (IH s (FR p c d l :: k) r a na x (ys1 ++ yl ++ [y]) yr ys2); try done.
    + cbn [before]. repeat apply Forall2_app; [done|done|by constructor].
    + rewrite !Forall_app. split_and!; [done| |by constructor].
      apply Forall_forall. intros z Hz. apply (cmp_ge x y); [done|]. apply Hlr; [done|constructor].
    + lia.
Qed.

(** A fresh node is outside of the tree. *)
Lemma rep_outside s t a : rep s t → tr_nodes s !! a = None → a ∉ addrs t.
Proof.
  intros [Hs _ _]. revert Hs. generalize 0 as par. induction t as [|p c d l IHl r IHr]; intros par Hs Hn.
  - by intros ?%elem_of_nil.
  - destruct Hs as (_ & Hl & ? & ?). rewrite (elem_of_addrs_T a p c d l r).
    intros [->|[?|?]]; [congruence|eapply IHl; eauto|eapply IHr; eauto].
Qed.

(** Linking a leaf node below the head of a context. *)
Definition grown (f : frame) (a : Z) : tree_node → tree_node :=
  match f with FL _ _ _ _ => with_left a | FR _ _ _ _ => with_right a end.

Lemma link_leaf s f k a ad :
  rep s (plug (f :: k) E) → a ≠ 0 → a ∉ addrs (plug (f :: k) E) →
  tr_nodes s !! a = Some (TNode 0 0 (faddr f) ad RED) →
  ∃ s', upd (grown f a) (faddr f) s = Ret s' ∧ rep s' (plug (f :: k) (T a RED ad E E)) ∧
    tr_data s' = tr_data s.
Proof.
  intros Hrep Ha Hout Hn. rewrite addrs_plug in Hout. cbn [app addrs cells fmap list_fmap] in Hout.
  pose proof Hrep as (Hc & _ & Hroot & _ & Hnk & _)%rep_split.
  assert (∃ n, faddr f ≠ 0 ∧ tr_nodes s !! faddr f = Some n ∧
    ctx (<[faddr f := grown f a n]> (tr_nodes s)) (f :: k) a) as (n & Hf & Hl & Hc').
  { destruct f as [p c d r|p c d l]; cbn [ctx faddr grown] in *;
      destruct Hc as (Hp & Hl & Hs & Hk);
      [rewrite kaddrs_FL in Hnk|rewrite kaddrs_FR in Hnk]; apply NoDup_cons in Hnk as [Hnk _];
      rewrite elem_of_app in Hnk; eexists; (split_and!; [done|done|done|by rewrite lookup_insert_eq|..]).
    - eapply shape_ext; [|done]. intros b Hb. apply lookup_insert_ne. intros <-. tauto.
    - eapply ctx_ext; [|done]. intros b Hb. apply lookup_insert_ne. intros <-. tauto.
    - eapply shape_ext; [|done]. intros b Hb. apply lookup_insert_ne. intros <-. tauto.
    - eapply ctx_ext; [|done]. intros b Hb. apply lookup_insert_ne. intros <-. tauto. }
  assert (faddr f ≠ a) as Hfa.
  { intros <-. apply Hout. by apply (kaddr_in (f :: k)). }
  rewrite (upd_some _ _ _ _ Hf Hl). eexists. split; [done|]. split; [|done].
  apply rep_split. cbn [tr_nodes set_nodes tr_root addr shape]. split_and!; try done.
  - rewrite lookup_insert_ne by done. cbn [kaddr addr]. done.
  - cbn. constructor; [by intros ?%elem_of_nil|constructor].
  - cbn. by intros b ->%list_elem_of_singleton.
Qed.

(** Writing the fresh node [a] does not touch the tree. *)
Lemma rep_fresh s t a n data :
  rep s t → a ∉ addrs t → rep (D := D) (Tree (<[a := n]> (tr_nodes s)) data (tr_root s)) t.
Proof.
  intros [Hsh Hroot Hn] Ha. split; [|done|done]. eapply shape_ext; [|exact Hsh].
  intros b Hb. apply lookup_insert_ne. by intros <-.
Qed.

Lemma stored_fresh s nodes root ad x cs ys :
  tr_data s !! ad = None → Forall2 (stored s) cs ys →
  Forall2 (stored (Tree nodes (<[ad := x]> (tr_data s)) root)) cs ys.
Proof.
  intros Hnd Hf. eapply Forall2_impl; [exact Hf|]. intros c y [? Hy]. split; [done|].
  cbn. rewrite lookup_insert_ne; [done|]. intros ->. congruence.
Qed.

(** The contents once the new cell is in its place. *)
Lemma holds_leaf s k a ad x ys zs :
  rep s (plug k (T a RED ad E E)) → stored s (a, ad) x →
  Forall2 (stored s) (before k) ys → Forall2 (stored s) (after k) zs →
  NoDup (cells (plug k E)).*2 → ad ∉ (cells (plug k E)).*2 →
  holds s (plug k (T a RED ad E E)) (ys ++ x :: zs).
Proof.
  intros Hr Hx Hys Hzs Hd Had. rewrite cells_plug in Hd, Had.
  split; [done|..]; rewrite cells_plug; cbn [cells app] in *.
  - apply Forall2_app; [done|]. by constructor.
  - rewrite fmap_app in *. rewrite fmap_cons. cbn [snd]. rewrite <- Permutation_middle. by constructor.
Qed.

Lemma data_outside s cs xs ad :
  Forall2 (stored s) cs xs → tr_data s !! ad = None → ad ∉ cs.*2.
Proof.
  intros Hv Hn (c & -> & [i Hi]%list_elem_of_lookup)%list_elem_of_fmap.
  destruct (Forall2_lookup_l _ _ _ _ _ Hv Hi) as (y & _ & _ & Hy). congruence.
Qed.

(** The comparison with the parent agrees with the side of the leaf. *)
Lemma leaf_side s a na x f k ys zs :
  rep s (plug (f :: k) E) → get s a = Ret na → datum s (t_data na) = Ret x →
  Forall2 (stored s) (before (f :: k)) ys → Forall2 (stored s) (after (f :: k)) zs →
  Forall (λ y, 0 ≤ cmp x y) ys → Forall (λ y, cmp x y < 0) zs →
  faddr f ≠ 0 ∧ ∃ c, compare cmp s a (faddr f) = Ret c ∧
    (if c <? 0 then with_left a else with_right a) = grown f a.
Proof.
  intros Hrep Ha Hx Hys Hzs Fy Fz. unfold compare. rewrite Ha. cbn [obind].
  destruct f as [p c d r|p c d l]; cbn [plug fill faddr before after grown] in *;
    destruct (rep_node s L _ _ _ _ _ _ Hrep) as (n & Hg & _ & _ & Hd & _);
    apply rep_get in Hrep as [Hp _]; (split; [done|]); rewrite Hg; cbn [obind]; rewrite Hx, Hd.
  - apply Forall2_cons_inv_l in Hzs as (y & ys' & Hy & _ & ->). apply Forall_cons in Fz as [Hlt _].
    rewrite (datum_ok s (p, d) y Hy : datum s d = Ret y). eexists. split; [done|].
    by destruct (Z.ltb_spec (cmp x y) 0); [|lia].
  - apply Forall2_app_inv_l in Hys as (? & w & _ & Hw & ->).
    apply Forall2_app_inv_l in Hw as (? & v & _ & Hv & ->).
    apply Forall2_cons_inv_l in Hv as (y & ? & Hy & _ & ->).
    rewrite !Forall_app, Forall_cons in Fy. destruct Fy as (_ & _ & Hge & _).
    rewrite (datum_ok s (p, d) y Hy : datum s d = Ret y). eexists. split; [done|].
    by destruct (Z.ltb_spec (cmp x y) 0); [lia|].
Qed.

(** The new cell [(a, ad)] goes between the contents [ys] and [zs]. *)
Lemma tree_insert_ok s t xs a ad x :
  holds s t xs → sorted xs → a ≠ 0 → ad ≠ 0 → tr_nodes s !! a = None → tr_data s !! ad = None →
  ∃ s' k ys zs, tree_insert cmp (Some a, Some ad) x s = Ret (a, s') ∧ t = plug k E ∧
    xs = ys ++ zs ∧ Forall (λ y, 0 ≤ cmp x y) ys ∧ Forall (λ y, cmp x y < 0) zs ∧
    holds s' (plug k (T a RED ad E E)) (ys ++ x :: zs).
Proof.
  intros Hh Hs Ha Had Hna Hnd. pose proof Hh as [Hrep Hv _].
  unfold tree_insert, make_node. cbn [need obind fst snd]. set (s1 := Tree _ _ _).
  pose proof (rep_outside _ _ _ Hrep Hna) as Hout.
  assert (rep s1 t) as Hr1 by by apply rep_fresh.
  assert (∀ cs ys, Forall2 (stored s) cs ys → Forall2 (stored s1) cs ys) as Hst
    by (intros; by apply stored_fresh).
  assert (Hga : tr_nodes s1 !! a = Some (TNode 0 0 0 ad RED)) by apply lookup_insert_eq.
  assert (Hda : stored s1 (a, ad) x) by (split; [done|apply lookup_insert_eq]).
  destruct (insert_walk_ok (walk_fuel s1) s1 [] t a _ x [] xs [] Hr1 (get_some _ _ _ Ha Hga)
    (datum_ok _ _ _ Hda) ltac:(constructor) (Hst _ _ Hv) ltac:(constructor) Hs ltac:(constructor)
    ltac:(constructor)) as (k & ys & zs & Hw & Hk & Hys & Hzs & Fys & Fzs).
  { pose proof (rep_size _ _ Hr1). unfold walk_fuel. lia. }
  cbn [kaddr plug] in Hw, Hk. rewrite (rep_root _ _ Hr1), Hw. cbn [obind].
  rewrite (upd_some _ _ _ _ Ha Hga). cbn [obind]. set (s2 := set_nodes _ s1).
  assert (rep s2 t) as Hr2 by by apply rep_fresh.
  assert (Hga2 : tr_nodes s2 !! a = Some (TNode 0 0 (kaddr k) ad RED)) by apply lookup_insert_eq.
  subst t. assert (xs = ys ++ zs) as ->.
  { eapply (stored_fun s1 (cells (plug k E))); [by apply Hst|]. rewrite cells_plug. by apply Forall2_app. }
  assert (ad ∉ (cells (plug k E)).*2) as Hado by by eapply data_outside.
  destruct k as [|f k].
  - cbn [kaddr]. rewrite Z.eqb_refl. eexists _, [], ys, zs. split_and!; try done.
    apply holds_leaf; [|done|done|done|apply Hh|done].
    split; [by cbn [plug shape tr_nodes set_root]; rewrite Hga2|done|].
    cbn. constructor; [by intros ?%elem_of_nil|constructor].
  - destruct (link_leaf s2 f k a ad Hr2 Ha Hout Hga2) as (s' & Hup & Hr' & Hd').
    destruct (leaf_side s2 a _ x f k ys zs Hr2 (get_some _ _ _ Ha Hga2) (datum_ok _ _ _ Hda)
      Hys Hzs Fys Fzs) as (Hf & c & Hc & Hside).
    cbn [kaddr]. destruct (Z.eqb_spec (faddr f) 0); [done|].
    rewrite Hc. cbn [obind]. rewrite Hside, Hup. cbn [obind].
    exists s', (f :: k), ys, zs. split_and!; try done.
    assert (∀ cs us, Forall2 (stored s1) cs us → Forall2 (stored s') cs us) as Hst'.
    { intros cs us Hf'. eapply Forall2_impl; [exact Hf'|]. unfold stored. by rewrite Hd'. }
    apply holds_leaf; auto; [|apply Hh]. unfold stored. by rewrite Hd'.
Qed.

(** ** Red-black insertion *)
Lemma length_ctx k t : (length k ≤ length (cells (plug k t)))%nat.
Proof.
  rewrite cells_plug, !length_app.
  assert (length k ≤ length (before k) + length (after k))%nat; [|lia].
  induction k as [|[] k IH]; cbn [before after length]; rewrite ?length_app; cbn [length];
    rewrite ?length_app; lia.
Qed.

Lemma sorted_insert x ys zs :
  sorted (ys ++ zs) → Forall (λ y, 0 ≤ cmp x y) ys → Forall (λ y, cmp x y < 0) zs →
  sorted (ys ++ x :: zs).
Proof.
  intros (Sy & Sz & Hyz)%sorted_app Fy Fz. apply sorted_app. split_and!; [done| |].
  - constructor; [done|]. eapply Forall_impl; [exact Fz|]. cbn. lia.
  - intros y z Hy [->|Hz]%elem_of_cons; [|auto].
    eapply Forall_forall in Fy; [|done]. cbn in Fy.
    destruct (Z.le_gt_cases (cmp y x) 0) as [|Hgt]; [done|]. apply cmp_flip in Hgt. lia.
Qed.

Lemma holds_cells s s' t t' xs :
  holds s t xs → rep s' t' → cells t' = cells t → tr_data s' = tr_data s → holds s' t' xs.
Proof.
  intros [_ Hv Hd] Hr Hc Hdt. split; [done|..]; rewrite Hc; [|done].
  eapply Forall2_impl; [exact Hv|]. unfold stored. by rewrite Hdt.
Qed.

Lemma rb_insert_ok s t xs n a ad x :
  holds s t xs → sorted xs → rbt t BLACK n → a ≠ 0 → ad ≠ 0 →
  tr_nodes s !! a = None → tr_data s !! ad = None →
  ∃ s' t' ys zs m, rb_insert cmp (Some a, Some ad) x s = Ret (a, s') ∧ xs = ys ++ zs ∧
    Forall (λ y, 0 ≤ cmp x y) ys ∧ Forall (λ y, cmp x y < 0) zs ∧
    holds s' t' (ys ++ x :: zs) ∧ sorted (ys ++ x :: zs) ∧ rbt t' BLACK m.
Proof.
  intros Hh Hs Hb Ha Had Hna Hnd.
  destruct (tree_insert_ok s t xs a ad x Hh Hs Ha Had Hna Hnd)
    as (s1 & k & ys & zs & Hi & -> & -> & Fy & Fz & Hh1).
  unfold rb_insert. rewrite Hi. cbn [obind].
  destruct (recolor_ok s1 k a RED RED ad E E (holds_rep _ _ _ Hh1)) as (s2 & -> & Hr2 & Hd2 & _).
  cbn [obind].
  apply rbt_unplug in Hb as (c & n' & He & Hk). inversion He; subst.
  destruct (fixup_ok (3 + walk_fuel s2) s2 k a ad E E 0 Hr2) as (s3 & t3 & c3 & m & -> & Hr3 & Hc3 & Hd3 & Hb3);
    [by repeat constructor|done| |].
  { pose proof (rep_size _ _ Hr2). pose proof (length_ctx k (T a RED ad E E)). unfold walk_fuel. lia. }
  cbn [obind]. destruct t3 as [|p3 c3' d3 l3 r3].
  { rewrite cells_plug in Hc3. by destruct (before k). }
  destruct (recolor_ok s3 [] p3 c3' BLACK d3 l3 r3 Hr3) as (s4 & Hu & Hr4 & Hd4 & _).
  rewrite (rep_root _ _ Hr3). cbn [addr]. rewrite Hu. cbn [obind].
  destruct (rbt_blacken _ _ _ _ _ _ _ Hb3) as [m' Hm'].
  exists s4, (T p3 BLACK d3 l3 r3), ys, zs, m'. split_and!; try done.
  - eapply (holds_cells s1); [done|done|by rewrite <- Hc3|congruence].
  - by apply sorted_insert.
Qed.

(** ** Search *)
Fixpoint height (t : rtree) : nat :=
  match t with E => 0 | T _ _ _ l r => S (Nat.max (height l) (height r)) end.

Lemma rbt_height t c n :
  rbt t c n → (height t ≤ 2 * n + (if is_red c then 1 else 0))%nat ∧ (2 ^ n ≤ length (cells t) + 1)%nat.
Proof.
  induction 1 as [|p d l r n Hl [IHl Ml] Hr [IHr Mr]|p d l r cl cr n Hl [IHl Ml] Hr [IHr Mr]].
  - cbn. lia.
  - cbn [height is_red cells] in *. rewrite length_app. cbn [length]. lia.
  - cbn [height is_red cells] in *. rewrite length_app. cbn [length].
    rewrite Nat.pow_succ_r'. destruct cl, cr; cbn [is_red] in *; lia.
Qed.

Lemma height_cells t : (height t ≤ length (cells t))%nat.
Proof. induction t; cbn [height cells]; rewrite ?length_app; cbn [length]; lia. Qed.

Lemma search_ok fuel : ∀ s k t xs key,
  rep s (plug k t) → Forall2 (stored s) (cells t) xs → sorted xs → (height t < fuel)%nat →
  ∃ p, search_r cmp fuel s (addr t) key = Ret p ∧
    ((p = 0 ∧ Forall (λ y, cmp key y ≠ 0) xs) ∨
     ∃ d y, (p, d) ∈ cells t ∧ y ∈ xs ∧ stored s (p, d) y ∧ cmp key y = 0).
Proof.
  induction fuel as [|fuel IH]; intros s k t xs key Hrep Hv Hs Hf; [lia|]. cbn [search_r].
  destruct t as [|p c d l r].
  { cbn [cells] in Hv. inversion Hv; subst. exists 0. cbn. eauto. }
  destruct (rep_node s L _ _ _ _ _ _ Hrep) as (np & Hg & _ & _ & Hd & Hl & Hr). cbn [child opp] in Hl, Hr.
  cbn [cells] in Hv. apply Forall2_app_inv_l in Hv as (yl & yr' & Hyl & Hyr' & ->).
  apply Forall2_cons_inv_l in Hyr' as (y & yr & Hy & Hyr & ->).
  apply sorted_app in Hs as (Sl & Sr & Hlr). apply StronglySorted_inv in Sr as [Sr Hyy].
  pose proof (rep_get _ _ _ _ _ _ _ Hrep) as [Hp _]. cbn [addr cells height] in *.
  destruct (Z.eqb_spec p 0); [done|]. rewrite Hg. cbn [obind]. rewrite Hd.
  rewrite (datum_ok s (p, d) y Hy : datum s d = Ret y). cbn [obind]. rewrite Hl, Hr.
  destruct (Z.eqb_spec (cmp key y) 0) as [Heq|Hne]; [|destruct (Z.ltb_spec (cmp key y) 0) as [Hlt|Hgt]].
  - exists p. split; [done|]. right. exists d, y. rewrite !elem_of_app, !elem_of_cons. auto 10.
  - destruct (IH s (FL p c d r :: k) l yl key Hrep Hyl Sl ltac:(lia))
      as (q & -> & [[-> Hq]|(d' & y' & ? & ? & ? & ?)]); eexists; (split; [done|]).
    + left. split; [done|]. rewrite Forall_app, Forall_cons. split_and!; [done|done|].
      eapply Forall_impl; [exact Hyy|]. intros z Hz. cbn. pose proof (cmp_lt _ _ _ Hlt Hz). lia.
    + right. exists d', y'. rewrite !elem_of_app. auto.
  - destruct (IH s (FR p c d l :: k) r yr key Hrep Hyr Sr ltac:(lia))
      as (q & -> & [[-> Hq]|(d' & y' & ? & ? & ? & ?)]); eexists; (split; [done|]).
    + left. split; [done|]. rewrite Forall_app, Forall_cons. split_and!; [|done|done].
      apply Forall_forall. intros z Hz E'. pose proof (Hlr z y Hz ltac:(constructor)) as Hzy.
      assert (cmp key z ≤ 0) as Hkz by (rewrite E'; lia).
      pose proof (cmp_trans key z y Hkz Hzy). lia.
    + right. exists d', y'. rewrite !elem_of_app, !elem_of_cons. auto.
Qed.
End spec.
