(* ===== verification/TreeDelete.v ===== *)
(** * Red-black trees: neighbours, unlinking and destruction *)
From S2P Require Import Prelude Tree TreeFacts TreeBal TreeSpec.

Local Open Scope Z_scope.

Section walk.
Context {D : Type}.
Implicit Types s : tree D.

(** ** Neighbours in order *)

(** The address of the first and of the last cell, 0 if there is none. *)
Definition first_addr (l : list (Z * Z)) : Z := default 0 (head l.*1).
Definition last_addr (l : list (Z * Z)) : Z := default 0 (last l.*1).

Lemma min_ok fuel : ∀ s k t,
  rep s (plug k t) → t ≠ E → (height t ≤ fuel)%nat → min_loop fuel s (addr t) = Ret (first_addr (cells t)).
Proof.
  induction fuel as [|fuel IH]; intros s k [|p c d l r] Hrep Ht Hf; cbn [height] in Hf; try done; [lia|].
  destruct (rep_node s L _ _ _ _ _ _ Hrep) as (n & Hg & _ & _ & _ & Hl & _). cbn [child] in Hl.
  cbn [min_loop addr]. rewrite Hg. cbn [obind]. rewrite Hl.
  destruct l as [|pl cl dl ll lr]; [done|].
  pose proof (rep_get s (FL p c d r :: k) pl cl dl ll lr Hrep) as [Hpl _]. cbn [addr].
  destruct (Z.eqb_spec pl 0); [done|].
  pose proof (IH s (FL p c d r :: k) (T pl cl dl ll lr) Hrep ltac:(done) ltac:(lia)) as Hm.
  cbn [addr] in Hm. rewrite Hm.
  cbn [cells]. unfold first_addr. by destruct (cells ll).
Qed.

Lemma max_ok fuel : ∀ s k t,
  rep s (plug k t) → t ≠ E → (height t ≤ fuel)%nat → max_loop fuel s (addr t) = Ret (last_addr (cells t)).
Proof.
  induction fuel as [|fuel IH]; intros s k [|p c d l r] Hrep Ht Hf; cbn [height] in Hf; try done; [lia|].
  destruct (rep_node s L _ _ _ _ _ _ Hrep) as (n & Hg & _ & _ & _ & _ & Hr). cbn [child opp] in Hr.
  cbn [max_loop addr]. rewrite Hg. cbn [obind]. rewrite Hr. cbn [cells].
  unfold last_addr. rewrite fmap_app, fmap_cons, last_app_cons.
  destruct r as [|pr cr dr rl rr]; [done|].
  pose proof (rep_get s (FR p c d l :: k) pr cr dr rl rr Hrep) as [Hpr _]. cbn [addr].
  destruct (Z.eqb_spec pr 0); [done|].
  pose proof (IH s (FR p c d l :: k) (T pr cr dr rl rr) Hrep ltac:(done) ltac:(lia)) as Hm.
  cbn [addr] in Hm. rewrite Hm.
  unfold last_addr. cbn [cells]. rewrite fmap_app, fmap_cons, app_comm_cons. by rewrite !last_app_cons.
Qed.

Lemma climb_right_ok fuel : ∀ s k t,
  rep s (plug k t) → t ≠ E → (length k < fuel)%nat →
  climb fuel t_right s (addr t) (kaddr k) = Ret (first_addr (after k)).
Proof.
  induction fuel as [|fuel IH]; intros s k t Hrep Ht Hf; [lia|].
  destruct k as [|[p c d r|p c d l] k]; cbn [climb kaddr faddr after]; [done|..].
  - cbn [plug fill] in Hrep. pose proof (rep_get _ _ _ _ _ _ _ Hrep) as [Hp _].
    destruct (Z.eqb_spec p 0); [done|].
    destruct (rep_node s L _ _ _ _ _ _ Hrep) as (n' & -> & _ & _ & _ & _ & Hr). cbn [obind child opp] in *.
    rewrite Hr. destruct (Z.eqb_spec (addr t) (addr r)) as [E'|_]; [|done].
    by apply (rep_sides s L _ _ _ _ _ _ Hrep) in E'.
  - cbn [plug fill] in Hrep. pose proof (rep_get _ _ _ _ _ _ _ Hrep) as [Hp _].
    destruct (Z.eqb_spec p 0); [done|].
    destruct (rep_node s L _ _ _ _ _ _ Hrep) as (n' & -> & Hpar & _ & _ & _ & Hr). cbn [obind child opp] in *.
    rewrite Hr, Z.eqb_refl, Hpar. apply (IH s k (T p c d l t)); [done|done|cbn in Hf; lia].
Qed.

Lemma climb_left_ok fuel : ∀ s k t,
  rep s (plug k t) → t ≠ E → (length k < fuel)%nat →
  climb fuel t_left s (addr t) (kaddr k) = Ret (last_addr (before k)).
Proof.
  induction fuel as [|fuel IH]; intros s k t Hrep Ht Hf; [lia|].
  destruct k as [|[p c d r|p c d l] k]; cbn [climb kaddr faddr before]; [done|..].
  - cbn [plug fill] in Hrep. pose proof (rep_get _ _ _ _ _ _ _ Hrep) as [Hp _].
    destruct (Z.eqb_spec p 0); [done|].
    destruct (rep_node s L _ _ _ _ _ _ Hrep) as (n' & -> & Hpar & _ & _ & Hl & _). cbn [obind child opp] in *.
    rewrite Hl, Z.eqb_refl, Hpar. apply (IH s k (T p c d t r)); [done|done|cbn in Hf; lia].
  - cbn [plug fill] in Hrep. pose proof (rep_get _ _ _ _ _ _ _ Hrep) as [Hp _].
    destruct (Z.eqb_spec p 0); [done|].
    destruct (rep_node s R _ _ _ _ _ _ Hrep) as (n' & -> & _ & _ & _ & _ & Hl). cbn [obind child opp] in *.
    rewrite Hl. destruct (Z.eqb_spec (addr t) (addr l)) as [E'|_].
    { by apply (rep_sides s R _ _ _ _ _ _ Hrep) in E'. }
    unfold last_addr. rewrite app_assoc, fmap_app. cbn [fmap list_fmap fst]. by rewrite last_snoc.
Qed.

Lemma successor_ok s k p c d l r :
  rep s (plug k (T p c d l r)) → tree_successor s p = Ret (first_addr (cells r ++ after k)).
Proof.
  intros Hrep. pose proof (rep_size _ _ Hrep) as Hsz. pose proof (length_ctx k (T p c d l r)) as Hk.
  pose proof (height_cells r) as Hh. rewrite cells_plug, !length_app in Hsz. cbn [cells] in Hsz.
  rewrite !length_app in Hsz. cbn [length] in Hsz.
  destruct (rep_node s L _ _ _ _ _ _ Hrep) as (n & Hg & Hpar & _ & _ & _ & Hr). cbn [child opp] in Hr.
  unfold tree_successor, tree_minimum. rewrite Hg. cbn [obind]. rewrite Hr, Hpar.
  destruct r as [|pr cr dr rl rr]; cbn [addr].
  - rewrite Z.eqb_refl. cbn [negb cells app].
    apply (climb_right_ok _ s k (T p c d l E) Hrep); [done|].
    rewrite cells_plug, !length_app in Hk. cbn [cells] in Hk. rewrite !length_app in Hk. cbn [length] in Hk.
    unfold walk_fuel. lia.
  - pose proof (rep_get s (FR p c d l :: k) pr cr dr rl rr Hrep) as [Hpr _].
    destruct (Z.eqb_spec pr 0); [done|]. cbn [negb].
    pose proof (min_ok (walk_fuel s) s (FR p c d l :: k) (T pr cr dr rl rr) Hrep ltac:(done)
      ltac:(unfold walk_fuel; lia)) as Hm.
    cbn [addr] in Hm. rewrite Hm.
    cbn [cells]. unfold first_addr. by destruct (cells rl).
Qed.

Lemma predecessor_ok s k p c d l r :
  rep s (plug k (T p c d l r)) → tree_predecessor s p = Ret (last_addr (before k ++ cells l)).
Proof.
  intros Hrep. pose proof (rep_size _ _ Hrep) as Hsz. pose proof (length_ctx k (T p c d l r)) as Hk.
  pose proof (height_cells l) as Hh. rewrite cells_plug, !length_app in Hsz. cbn [cells] in Hsz.
  rewrite !length_app in Hsz. cbn [length] in Hsz.
  destruct (rep_node s L _ _ _ _ _ _ Hrep) as (n & Hg & Hpar & _ & _ & Hl & _). cbn [child opp] in Hl.
  unfold tree_predecessor, tree_maximum. rewrite Hg. cbn [obind]. rewrite Hl, Hpar.
  destruct l as [|pl cl dl ll lr]; cbn [addr].
  - rewrite Z.eqb_refl. cbn [negb cells]. rewrite app_nil_r.
    apply (climb_left_ok _ s k (T p c d E r) Hrep); [done|].
    rewrite cells_plug, !length_app in Hk. cbn [cells] in Hk. rewrite !length_app in Hk. cbn [length] in Hk.
    unfold walk_fuel. lia.
  - pose proof (rep_get s (FL p c d r :: k) pl cl dl ll lr Hrep) as [Hpl _].
    destruct (Z.eqb_spec pl 0); [done|]. cbn [negb].
    pose proof (max_ok (walk_fuel s) s (FL p c d r :: k) (T pl cl dl ll lr) Hrep ltac:(done)
      ltac:(unfold walk_fuel; lia)) as Hm.
    cbn [addr] in Hm. rewrite Hm.
    cbn [cells]. unfold last_addr. rewrite !fmap_app, !fmap_cons, app_assoc. by rewrite !last_app_cons.
Qed.

(** Every cell has its place. *)
Lemma position t p d : (p, d) ∈ cells t → ∃ k c l r, t = plug k (T p c d l r).
Proof.
  induction t as [|q c e l IHl r IHr]; cbn [cells]; [by intros ?%elem_of_nil|].
  rewrite elem_of_app, elem_of_cons. intros [Hl|[Hq|Hr]].
  - destruct (IHl Hl) as (k & c' & l' & r' & ->). exists (k ++ [FL q c e r]), c', l', r'. by rewrite plug_app.
  - injection Hq as -> ->. by exists [], c, l, r.
  - destruct (IHr Hr) as (k & c' & l' & r' & ->). exists (k ++ [FR q c e l]), c', l', r'. by rewrite plug_app.
Qed.

(** The cell of an address splits the cells in one way. *)
Lemma split_unique (p d : Z) (m1 m2 l1 l2 : list (Z * Z)) :
  NoDup (l1 ++ (p, d) :: l2).*1 → m1 ++ (p, d) :: m2 = l1 ++ (p, d) :: l2 → m1 = l1 ∧ m2 = l2.
Proof.
  revert l1. induction m1 as [|x m1 IH]; intros [|y l1] Hn; cbn [app].
  - by intros [= ->].
  - intros [= <- ->]. exfalso. cbn in Hn. apply NoDup_cons in Hn as [Hn _]. apply Hn.
    rewrite fmap_app, elem_of_app, fmap_cons, elem_of_cons. auto.
  - intros [= -> <-]. exfalso. cbn in Hn. apply NoDup_cons in Hn as [Hn _]. apply Hn.
    rewrite fmap_app, elem_of_app, fmap_cons, elem_of_cons. auto.
  - intros [= -> H]. cbn in Hn. apply NoDup_cons in Hn as [_ Hn]. by destruct (IH _ Hn H) as [-> ->].
Qed.

Lemma position_split s t l1 l2 p d :
  rep s t → cells t = l1 ++ (p, d) :: l2 →
  ∃ k c l r, t = plug k (T p c d l r) ∧ l1 = before k ++ cells l ∧ l2 = cells r ++ after k.
Proof.
  intros Hrep Hc. assert ((p, d) ∈ cells t) as (k & c & l & r & ->)%position.
  { rewrite Hc, elem_of_app, elem_of_cons. auto. }
  exists k, c, l, r. split; [done|]. pose proof (rep_nodup _ _ Hrep) as Hn. unfold addrs in Hn.
  rewrite Hc in Hn. rewrite cells_plug in Hc. cbn [cells] in Hc.
  destruct (split_unique p d (before k ++ cells l) (cells r ++ after k) l1 l2 Hn) as [<- <-]; [|done].
  rewrite <- Hc. by rewrite <- !(assoc_L app).
Qed.
End walk.

(** ** Unlinking *)
Section delete.
Context {D : Type}.
Implicit Types s : tree D.

(** The only subtree of a node that is unlinked. *)
Definition only (a b : rtree) : rtree := match a with E => b | _ => a end.

(** The links around a node with at most one child. *)
Lemma tree_unlink_ok s k q c d a b :
  rep s (plug k (T q c d a b)) → a = E ∨ b = E →
  ∃ s1 s', set_parent (addr (only a b)) (kaddr k) s = Ret s1 ∧
    replace_child (kaddr k) q (addr (only a b)) s1 = Ret s' ∧
    rep s' (plug k (only a b)) ∧ tr_data s' = tr_data s ∧
    tr_nodes s' !! q = tr_nodes s !! q ∧ q ∉ addrs (plug k (only a b)).
Proof.
  intros Hrep Hab.
  apply rep_split in Hrep as (Hc & (Hq & Hl & Ha & Hb) & Hroot & Hn & Hnk & Hd).
  setoid_rewrite elem_of_addrs_T in Hd. apply addrs_apart in Hn as (Na & Nb & Qa & Qb & _).
  assert (shape (tr_nodes s) q (only a b) ∧ NoDup (addrs (only a b)) ∧ q ∉ addrs (only a b) ∧
    ∀ x, x ∈ addrs (only a b) → x ∉ kaddrs k) as (Ho & No & Qo & Do).
  { destruct a; cbn [only]; split_and!; try done; intros x Hx; apply Hd; tauto. }
  pose proof (Hd q) as Hdq. clear Hd.
  destruct (set_parent_ok s q (kaddr k) _ Ho No) as (s1 & Hs1 & Ho1 & Hr1 & Hd1 & Hb1).
  destruct (replace_child_ok s1 k q (addr (only a b))) as (s' & Hs' & Hc' & Hr' & Hd' & Hb').
  { ext_by @ctx_ext Hc. } { by rewrite Hr1. } { done. } { done. } { tauto. }
  exists s1, s'. split_and!; [done|done| |congruence| |].
  - apply rep_split. split_and!; try done. ext_by @shape_ext Ho1.
  - by rewrite Hb', Hb1 by tauto.
  - rewrite addrs_plug, elem_of_app. tauto.
Qed.

(** Other data in a node. *)
Lemma redata_ok s k p c d d' l r :
  rep s (plug k (T p c d l r)) →
  ∃ s', upd (with_data d') p s = Ret s' ∧ rep s' (plug k (T p c d' l r)) ∧ tr_data s' = tr_data s ∧
    ∀ a, a ≠ p → tr_nodes s' !! a = tr_nodes s !! a.
Proof.
  intros Hrep. pose proof Hrep as (Hc & (Hp & Hlp & Hl & Hr) & Hroot & Hn & Hnk & Hd)%rep_split.
  setoid_rewrite elem_of_addrs_T in Hd. pose proof Hn as (Nl & Nr & Pl & Pr & Lr)%addrs_apart.
  rewrite (upd_some _ _ _ _ Hp Hlp). eexists. split; [done|]. split_and!; [|done|].
  - apply rep_split. unfold addrs. cbn [cells addr]. split_and!; try done.
    + cbn [addr] in *. ext_by @ctx_ext Hc.
    + cbn [shape]. split_and!; [done|by cbn; rewrite lookup_insert_eq|ext_by @shape_ext Hl|ext_by @shape_ext Hr].
    + unfold addrs in *. cbn [cells] in Hn. by rewrite fmap_app in *.
    + intros a Ha. rewrite fmap_app, fmap_cons, elem_of_app, elem_of_cons in Ha. apply Hd. unfold addrs. tauto.
  - intros a Ha. cbn. by rewrite lookup_insert_ne.
Qed.

(** Operations outside of the tree. *)
Lemma rep_ext s s' t :
  rep s t → tr_root s' = tr_root s → (∀ a, a ∈ addrs t → tr_nodes s' !! a = tr_nodes s !! a) → rep s' t.
Proof. intros [Hs Hr Hn] Hr' Ha. split; [by eapply shape_ext|congruence|done]. Qed.

Lemma discard_ok s t q n :
  rep s t → q ∉ addrs t → q ≠ 0 → tr_nodes s !! q = Some n →
  ∃ s', discard q s = Ret s' ∧ rep s' t ∧ tr_data s' = tr_data s ∧
    tr_nodes s' = delete q (tr_nodes s).
Proof.
  intros Hrep Hq Hq0 Hn. unfold discard, free_node. rewrite (upd_some _ _ _ _ Hq0 Hn). cbn [obind].
  destruct (Z.eqb_spec q 0); [done|]. cbn [set_nodes tr_nodes]. rewrite lookup_insert_eq. cbn [need obind].
  eexists. split; [done|]. cbn [set_nodes tr_nodes tr_data]. rewrite delete_insert_eq.
  split_and!; [|done|done]. eapply rep_ext; [exact Hrep|done|].
  intros a Ha. cbn. apply lookup_delete_ne. by intros <-.
Qed.

Lemma free_data_ok s d x :
  d ≠ 0 → tr_data s !! d = Some x → free_data d s = Ret (set_data (delete d (tr_data s)) s).
Proof. intros Hd Hx. unfold free_data. rewrite Hx. by destruct (Z.eqb_spec d 0). Qed.
(** The leftmost node of a tree. *)
Lemma leftmost t : t ≠ E → ∃ k q c d r, t = plug k (T q c d E r) ∧ before k = [].
Proof.
  induction t as [|q c d l IHl r _]; [done|]. intros _. destruct l as [|ql cl dl ll lr].
  - by exists [], q, c, d, r.
  - destruct IHl as (k & q' & c' & d' & r' & -> & Hk); [done|].
    exists (k ++ [FL q c d r]), q', c', d', r'. rewrite plug_app. split; [done|].
    clear -Hk. induction k as [|[] k IH]; cbn in *; auto.
    by apply app_eq_nil in Hk as [_ [_ ?]%app_eq_nil].
Qed.

(** What [pull_out] leaves: the tree without the data [d], and the node [q]
    outside of it. *)
Definition pulled s (q : Z) s' (l1 l2 : list (Z * Z)) (d : Z) (old : list Z) : Prop :=
  ∃ t', rep s' t' ∧ tr_data s' = delete d (tr_data s) ∧ (cells t').*2 = l1.*2 ++ l2.*2 ∧
    q ∉ addrs t' ∧ q ≠ 0 ∧ is_Some (tr_nodes s' !! q) ∧ q ∈ old.

Lemma next_only s k q c d a b :
  rep s (plug k (T q c d a b)) →
  (if negb (addr a =? 0) then addr a else addr b) = addr (only a b).
Proof.
  intros Hrep. destruct a as [|pa ca da la ra]; [done|].
  pose proof (rep_get s (FL q c d b :: k) _ _ _ _ _ Hrep) as [Hpa _]. cbn [addr only].
  by destruct (Z.eqb_spec pa 0).
Qed.

Lemma rep_outside_write s t q f n :
  rep s t → q ∉ addrs t → q ≠ 0 → tr_nodes s !! q = Some n →
  ∃ s', upd f q s = Ret s' ∧ rep s' t ∧ tr_data s' = tr_data s ∧ tr_nodes s' !! q = Some (f n).
Proof.
  intros Hrep Hq Hq0 Hn. rewrite (upd_some _ _ _ _ Hq0 Hn). eexists. split; [done|].
  split_and!; [|done|by cbn; rewrite lookup_insert_eq]. eapply rep_ext; [exact Hrep|done|].
  intros a Ha. cbn. apply lookup_insert_ne. by intros <-.
Qed.

(** A node with at most one child is unlinked itself. *)
Lemma pull_out_one s k p c d l r x :
  rep s (plug k (T p c d l r)) → l = E ∨ r = E → d ≠ 0 → tr_data s !! d = Some x →
  ∃ s', pull_out p s = Ret (p, s') ∧
    pulled s p s' (before k ++ cells l) (cells r ++ after k) d (addrs (plug k (T p c d l r))).
Proof.
  intros Hrep Hlr Hd Hx. destruct (rep_get _ _ _ _ _ _ _ Hrep) as [Hp Hnp].
  pose proof (next_only _ _ _ _ _ _ _ Hrep) as Hnext.
  unfold pull_out. rewrite (get_some _ _ _ Hp Hnp). cbn [obind t_left t_right].
  assert ((addr l =? 0) || (addr r =? 0) = true) as -> by (destruct Hlr as [-> | ->]; cbn; [done|apply orb_true_r]).
  cbn [obind]. rewrite (get_some _ _ _ Hp Hnp). cbn [obind t_left t_right t_parent]. rewrite Hnext.
  destruct (tree_unlink_ok _ _ _ _ _ _ _ Hrep Hlr) as (s1 & s2 & -> & Hr & Hrep2 & Hd2 & Hq2 & Hout).
  cbn [obind]. rewrite Hr. cbn [obind]. rewrite Hnp in Hq2. rewrite (get_some _ _ _ Hp Hq2). cbn [obind t_data].
  assert (tr_data s2 !! d = Some x) as Hx2 by by rewrite Hd2.
  rewrite (free_data_ok _ _ _ Hd Hx2). cbn [obind]. rewrite Z.eqb_refl. cbn [obind].
  set (s3 := set_data _ s2). assert (rep s3 (plug k (only l r))) as Hrep3 by by apply (rep_ext s2).
  destruct (rep_outside_write s3 _ p (with_data 0) _ Hrep3 Hout Hp Hq2) as (s4 & -> & Hrep4 & Hd4 & Hn4).
  cbn [obind]. exists s4. split; [done|]. exists (plug k (only l r)).
  split_and!; try done.
  - by rewrite Hd4, <- Hd2.
  - rewrite <- fmap_app, cells_plug. f_equal. rewrite <- !app_assoc. f_equal.
    destruct Hlr as [-> | ->]; [done|]. by destruct l.
  - rewrite addrs_plug, elem_of_app. left. apply (addr_in (T p c d l r)). done.
Qed.

(** A node with two children gets the data of its successor, which is
    unlinked. *)
Lemma pull_out_two s k p c d l r x :
  rep s (plug k (T p c d l r)) → l ≠ E → r ≠ E → d ≠ 0 → tr_data s !! d = Some x →
  ∃ q s', pull_out p s = Ret (q, s') ∧
    pulled s q s' (before k ++ cells l) (cells r ++ after k) d (addrs (plug k (T p c d l r))).
Proof.
  intros Hrep Hl Hr Hd Hx. destruct (rep_get _ _ _ _ _ _ _ Hrep) as [Hp Hnp].
  pose proof (successor_ok _ _ _ _ _ _ _ Hrep) as Hsucc.
  destruct (leftmost r Hr) as (kr & q & cq & dq & rq & -> & Hkr).
  rewrite cells_plug, Hkr in Hsucc. unfold first_addr in Hsucc. cbn in Hsucc. unfold id in Hsucc.
  assert (addr l ≠ 0 ∧ addr (plug kr (T q cq dq E rq)) ≠ 0) as [Hl0 Hr0].
  { apply rep_split in Hrep as (_ & (_ & _ & Hsl & Hsr) & _).
    split; [eapply shape_nonzero; [exact Hsl|by apply addr_in]|eapply shape_nonzero; [exact Hsr|by apply addr_in]]. }
  unfold pull_out. rewrite (get_some _ _ _ Hp Hnp). cbn [obind t_left t_right].
  destruct (Z.eqb_spec (addr l) 0), (Z.eqb_spec (addr (plug kr (T q cq dq E rq))) 0); try done.
  cbn [orb]. rewrite Hsucc. cbn [obind].
  set (K := kr ++ FR p c d l :: k). assert (∀ X, plug K X = plug k (T p c d l (plug kr X))) as HK.
  { intros X. unfold K. by rewrite plug_app. }
  assert (rep s (plug K (T q cq dq E rq))) as HrepK by by rewrite HK.
  destruct (rep_get _ _ _ _ _ _ _ HrepK) as [Hq Hnq]. rewrite (get_some _ _ _ Hq Hnq).
  cbn [obind t_left t_right t_parent addr]. rewrite Z.eqb_refl. cbn [negb].
  destruct (tree_unlink_ok _ _ _ _ _ _ _ HrepK (or_introl eq_refl)) as (s1 & s2 & Hs1 & Hs2 & Hrep2 & Hd2 & Hq2 & Hout).
  cbn [only] in *. rewrite Hs1. cbn [obind]. rewrite Hs2. cbn [obind]. rewrite HK in Hrep2, Hout.
  destruct (rep_get _ _ _ _ _ _ _ Hrep2) as [_ Hnp2]. rewrite (get_some _ _ _ Hp Hnp2). cbn [obind t_data].
  assert (tr_data s2 !! d = Some x) as Hx2 by by rewrite Hd2.
  rewrite (free_data_ok _ _ _ Hd Hx2). cbn [obind]. set (s3 := set_data _ s2).
  assert (rep s3 (plug k (T p c d l (plug kr rq)))) as Hrep3 by by apply (rep_ext s2).
  assert (p ≠ q) as Hpq.
  { intros ->. apply Hout. rewrite addrs_plug, elem_of_app. left. by apply (addr_in (T q c d l (plug kr rq))). }
  destruct (Z.eqb_spec p q); [done|]. rewrite Hnq in Hq2.
  assert (tr_nodes s3 !! q = Some (TNode 0 (addr rq) (kaddr K) dq cq)) as Hq3 by done.
  rewrite (get_some _ _ _ Hq Hq3). cbn [obind t_data].
  destruct (redata_ok s3 k p c d dq l (plug kr rq) Hrep3) as (s4 & -> & Hrep4 & Hd4 & Hn4). cbn [obind].
  assert (q ∉ addrs (plug k (T p c dq l (plug kr rq)))) as Hout4.
  { rewrite addrs_plug in *. unfold addrs in *. cbn [cells] in *. rewrite fmap_app, fmap_cons in *. done. }
  rewrite <- (Hn4 q ltac:(done)) in Hq3.
  destruct (rep_outside_write s4 _ q (with_data 0) _ Hrep4 Hout4 Hq Hq3) as (s5 & -> & Hrep5 & Hd5 & Hn5).
  cbn [obind]. exists q, s5. split; [done|]. exists (plug k (T p c dq l (plug kr rq))).
  split_and!; try done.
  - by rewrite Hd5, Hd4, <- Hd2.
  - rewrite !cells_plug, Hkr. cbn [cells]. rewrite cells_plug, Hkr. cbn [app].
    rewrite <- !fmap_app, !fmap_app, !fmap_cons, !fmap_app. cbn [snd]. rewrite <- !(assoc_L app). cbn [app]. by rewrite <- (assoc_L app).
  - rewrite <- HK, addrs_plug, elem_of_app. left. apply (addr_in (T q cq dq E rq)). done.
Qed.

Lemma pull_out_ok s k p c d l r x :
  rep s (plug k (T p c d l r)) → d ≠ 0 → tr_data s !! d = Some x →
  ∃ q s', pull_out p s = Ret (q, s') ∧
    pulled s q s' (before k ++ cells l) (cells r ++ after k) d (addrs (plug k (T p c d l r))).
Proof.
  intros Hrep Hd Hx. destruct l as [|pl cl dl ll lr]; [|destruct r as [|pr cr dr rl rr]].
  - exists p. eapply pull_out_one; eauto.
  - exists p. eapply pull_out_one; eauto.
  - eapply pull_out_two; eauto.
Qed.
End delete.

(** ** Destruction *)
Section destroy.
Context {D : Type}.
Implicit Types s : tree D.

(** The nodes and data blocks of [t] are gone, everything else is as before. *)
Record cleared s s' (t : rtree) : Prop := Cleared {
  cl_nodes a : tr_nodes s' !! a = if decide (a ∈ addrs t) then None else tr_nodes s !! a;
  cl_data d : tr_data s' !! d = if decide (d ∈ (cells t).*2) then None else tr_data s !! d
}.

Lemma cleared_shape s s' t par t' :
  cleared s s' t → (∀ a, a ∈ addrs t' → a ∉ addrs t) → shape (tr_nodes s) par t' →
  shape (tr_nodes s') par t'.
Proof.
  intros [Hn _] Ha. apply shape_ext. intros a Hat. rewrite Hn, decide_False; auto.
Qed.

(** Release of one node without children. *)
Lemma destroy_last s p n d x :
  p ≠ 0 → tr_nodes s !! p = Some n → t_data n = d → d ≠ 0 → tr_data s !! d = Some x →
  ∃ s', (let! s := upd (λ n, TNode 0 0 0 (t_data n) (t_color n)) p s in
         let! n := get s p in
         let! s := free_data (t_data n) s in
         let! s := upd (with_data 0) p s in
         free_node p s) = Ret s' ∧
    tr_nodes s' = delete p (tr_nodes s) ∧ tr_data s' = delete d (tr_data s).
Proof.
  intros Hp Hn Hd Hd0 Hx. rewrite (upd_some _ _ _ _ Hp Hn). cbn [obind]. set (s1 := set_nodes _ s).
  assert (tr_nodes s1 !! p = Some (TNode 0 0 0 d (t_color n))) as H1.
  { cbn. rewrite lookup_insert_eq. by rewrite Hd. }
  rewrite (get_some _ _ _ Hp H1). cbn [obind t_data].
  rewrite (free_data_ok s1 d x Hd0 Hx). cbn [obind]. set (s2 := set_data _ s1).
  assert (tr_nodes s2 !! p = Some (TNode 0 0 0 d (t_color n))) as H2 by done.
  rewrite (upd_some _ _ _ _ Hp H2). cbn [obind]. unfold free_node.
  destruct (Z.eqb_spec p 0); [done|]. cbn [set_nodes tr_nodes]. rewrite lookup_insert_eq. cbn [need obind].
  eexists. split; [done|]. cbn. by rewrite delete_insert_eq, delete_insert_eq.
Qed.

Lemma destroy_ok t : ∀ fuel s par,
  shape (tr_nodes s) par t → NoDup (addrs t) → NoDup (cells t).*2 →
  (∀ d, d ∈ (cells t).*2 → d ≠ 0 ∧ is_Some (tr_data s !! d)) → (height t ≤ fuel)%nat →
  ∃ s', (if negb (addr t =? 0) then destroy_node fuel (addr t) s else Ret s) = Ret s' ∧ cleared s s' t.
Proof.
  induction t as [|p c d l IHl r IHr]; intros fuel s par Hs Hn Hd Hx Hf.
  { exists s. by split. }
  destruct Hs as (Hp & Hlp & Hsl & Hsr). cbn [height] in Hf. destruct fuel as [|fuel]; [lia|].
  apply addrs_apart in Hn as (Nl & Nr & Pl & Pr & Lr).
  cbn [cells] in Hd, Hx. rewrite fmap_app, fmap_cons in Hd, Hx. cbn [snd] in Hd, Hx.
  apply NoDup_app in Hd as (Dl & Dlr & [Dr Dr']%NoDup_cons).
  setoid_rewrite elem_of_app in Hx. setoid_rewrite elem_of_cons in Hx.
  setoid_rewrite elem_of_cons in Dlr.
  cbn [addr]. destruct (Z.eqb_spec p 0); [done|]. cbn [negb destroy_node].
  rewrite (get_some _ _ _ Hp Hlp). cbn [obind t_left].
  destruct (IHl fuel s p Hsl Nl Dl) as (s1 & -> & Hc1); [auto|lia|]. cbn [obind].
  assert (tr_nodes s1 !! p = tr_nodes s !! p) as Hp1 by (rewrite (cl_nodes _ _ _ Hc1); by rewrite decide_False).
  rewrite Hlp in Hp1. rewrite (get_some _ _ _ Hp Hp1). cbn [obind t_right].
  assert (∀ e, e ∉ (cells l).*2 → tr_data s1 !! e = tr_data s !! e) as Hd1.
  { intros e He. rewrite (cl_data _ _ _ Hc1). by rewrite decide_False. }
  destruct (IHr fuel s1 p) as (s2 & -> & Hc2); [|done|done| |lia|].
  { eapply cleared_shape; [exact Hc1| |done]. intros a Ha Hal. by apply (Lr a). }
  { intros e He. rewrite Hd1; [by apply Hx; auto|]. intros Hel. apply (Dlr e); auto. }
  cbn [obind].
  assert (tr_nodes s2 !! p = tr_nodes s1 !! p) as Hp2 by (rewrite (cl_nodes _ _ _ Hc2); by rewrite decide_False).
  rewrite Hp1 in Hp2. destruct (Hx d) as [Hd0 [x Hxd]]; [auto|].
  assert (d ∉ (cells l).*2) as Hdl by (intros Hdl; apply (Dlr d); auto).
  assert (tr_data s2 !! d = Some x) as Hd2.
  { rewrite (cl_data _ _ _ Hc2), decide_False by done. by rewrite Hd1. }
  destruct (destroy_last s2 p _ d x Hp Hp2 eq_refl Hd0 Hd2) as (s3 & -> & Hn3 & Hd3).
  exists s3. split; [done|]. split.
  - intros a. rewrite Hn3. destruct (decide (a = p)) as [->|Ha].
    + rewrite lookup_delete_eq, decide_True; [done|]. rewrite elem_of_addrs_T. auto.
    + rewrite lookup_delete_ne, (cl_nodes _ _ _ Hc2), (cl_nodes _ _ _ Hc1) by done.
      repeat case_decide; rewrite ?elem_of_addrs_T in *; tauto || done.
  - intros e. rewrite Hd3. cbn [cells]. rewrite fmap_app, fmap_cons. cbn [snd].
    destruct (decide (e = d)) as [->|He].
    + rewrite lookup_delete_eq, decide_True; [done|]. rewrite elem_of_app, elem_of_cons. auto.
    + rewrite lookup_delete_ne, (cl_data _ _ _ Hc2), (cl_data _ _ _ Hc1) by done.
      repeat case_decide; rewrite ?elem_of_app, ?elem_of_cons in *; tauto || done.
Qed.
End destroy.
