(* ===== verification/TreeThms.v ===== *)
(** * Red-black trees: properties *)
From S2P Require Import Prelude Tree TreeFacts TreeBal TreeSpec TreeDelete.

Local Open Scope Z_scope.

(** ** A tree of three integers *)
#[global] Instance sub_laws : CmpLaws Z.sub.
Proof. split; lia. Qed.

Definition demo_rt : rtree := T 20 BLACK 120 (T 10 RED 110 E E) (T 30 RED 130 E E).
Definition demo_tree : tree Z :=
  Tree {[20 := TNode 10 30 0 120 BLACK; 10 := TNode 0 0 20 110 RED; 30 := TNode 0 0 20 130 RED]}
       {[120 := 2; 110 := 1; 130 := 3]} 20.

Lemma demo_tree_rep : rep demo_tree demo_rt.
Proof. split; [by vm_compute|done|]. by apply (bool_decide_unpack _). Qed.
Lemma demo_tree_holds : holds demo_tree demo_rt [1; 2; 3].
Proof.
  split; [exact demo_tree_rep|by repeat constructor|]. by apply (bool_decide_unpack _).
Qed.
Lemma demo_sorted : sorted Z.sub [1; 2; 3].
Proof. repeat constructor; lia. Qed.
Lemma demo_rbt : rbt demo_rt BLACK 1.
Proof. repeat econstructor. Qed.

Lemma search_mono {D} (cmp : D → D → Z) fuel fuel' s p key r :
  search_r cmp fuel s p key = Ret r → (fuel ≤ fuel')%nat → search_r cmp fuel' s p key = Ret r.
Proof.
  revert fuel' p. induction fuel as [|fuel IH]; intros [|fuel'] p Hs Hle; [done|done|lia|].
  cbn [search_r] in *. destruct (p =? 0); [done|]. inv_ret. rewrite H. cbn [obind] in *.
  rewrite H0. cbn [obind] in *. repeat case_match; auto with lia.
Qed.

(** The data pointers decide what is stored. *)
Lemma stored_snd {D} (s : tree D) cs cs' xs :
  cs.*2 = cs'.*2 → Forall2 (stored s) cs' xs → Forall2 (stored s) cs xs.
Proof.
  revert cs xs. induction cs' as [|c' cs' IH]; intros [|c cs] xs [=]; inversion 1 as [|? x ? xs' [Hc Hx]]; subst.
  - constructor.
  - constructor; [split; congruence|auto].
Qed.

Lemma stored_delete {D} (s s' : tree D) d cs xs :
  tr_data s' = delete d (tr_data s) → d ∉ cs.*2 → Forall2 (stored s) cs xs → Forall2 (stored s') cs xs.
Proof.
  intros Hd. induction cs as [|c cs IH] in xs |- *; intros Hn; inversion 1 as [|? x ? xs' [Hc Hx]]; subst;
    [constructor|]. rewrite fmap_cons, elem_of_cons in Hn. constructor; [|auto].
  split; [done|]. rewrite Hd, lookup_delete_ne; [done|]. intros ->. tauto.
Qed.

(** ** Properties *)

(** C14: [rb_insert] puts a copy of the data into the tree, behind every content
    that is not greater and before every greater one, and changes no other
    content; the order is kept and the result is a red-black tree: no red node
    has a red child and all paths have the same number of black nodes. *)
Theorem rb_insert_refines {D} (cmp : D → D → Z) `{!CmpLaws cmp} (s : tree D) (t : rtree)
    (xs : list D) (n : nat) (a ad : Z) (x : D) :
  holds s t xs → sorted cmp xs → rbt t BLACK n → a ≠ 0 → ad ≠ 0 →
  tr_nodes s !! a = None → tr_data s !! ad = None →
  ∃ s' t' ys zs m, rb_insert cmp (Some a, Some ad) x s = Ret (a, s') ∧ xs = ys ++ zs ∧
    Forall (λ y, 0 ≤ cmp x y) ys ∧ Forall (λ y, cmp x y < 0) zs ∧
    holds s' t' (ys ++ x :: zs) ∧ sorted cmp (ys ++ x :: zs) ∧ rbt t' BLACK m.
Proof. apply rb_insert_ok. done. Qed.

Lemma rb_insert_refines_witness :
  ∃ s' t' ys zs m, rb_insert Z.sub (Some 40, Some 140) 2 demo_tree = Ret (40, s') ∧
    [1; 2; 3] = ys ++ zs ∧ Forall (λ y, 0 ≤ 2 - y) ys ∧ Forall (λ y, 2 - y < 0) zs ∧
    holds s' t' (ys ++ 2 :: zs) ∧ sorted Z.sub (ys ++ 2 :: zs) ∧ rbt t' BLACK m.
Proof.
  apply (rb_insert_refines Z.sub demo_tree demo_rt [1; 2; 3] 1 40 140 2 demo_tree_holds demo_sorted
    demo_rbt); [lia|lia|reflexivity|reflexivity].
Defined.

(** The neighbours of a node in order. *)
Lemma neighbours_ok {D} (s : tree D) (t : rtree) (l1 l2 : list (Z * Z)) (p d : Z) :
  rep s t → cells t = l1 ++ (p, d) :: l2 →
  tree_successor s p = Ret (first_addr l2) ∧ tree_predecessor s p = Ret (last_addr l1).
Proof.
  intros Hrep Hc. destruct (position_split _ _ _ _ _ _ Hrep Hc) as (k & c & l & r & -> & -> & ->).
  by rewrite (successor_ok _ _ _ _ _ _ _ Hrep), (predecessor_ok _ _ _ _ _ _ _ Hrep).
Qed.

(** C15: [tree_search] in a red-black tree of [n] contents ends after at most
    2 log2(n + 1) comparisons; it returns a node whose content compares equal
    to the key, or NULL when there is none.  [tree_successor] and
    [tree_predecessor] of any node return the next and the previous node in order, and
    NULL at the ends. *)
Theorem tree_search_finds {D} (cmp : D → D → Z) `{!CmpLaws cmp} (s : tree D) (t : rtree)
    (xs : list D) (n : nat) (key : D) :
  holds s t xs → sorted cmp xs → rbt t BLACK n →
  (∃ p, tree_search cmp s key = Ret p ∧
    search_r cmp (S (2 * Nat.log2 (length xs + 1))) s (tr_root s) key = Ret p ∧
    ((p = 0 ∧ Forall (λ y, cmp key y ≠ 0) xs) ∨
     ∃ d y, (p, d) ∈ cells t ∧ y ∈ xs ∧ tr_data s !! d = Some y ∧ cmp key y = 0)) ∧
  (∀ l1 l2 p d, cells t = l1 ++ (p, d) :: l2 →
    tree_successor s p = Ret (first_addr l2) ∧ tree_predecessor s p = Ret (last_addr l1)).
Proof.
  intros [Hrep Hv _] Hs Hb. split; [|by intros; eapply neighbours_ok]. destruct (rbt_height _ _ _ Hb) as [Hh Hn]. cbn [is_red] in Hh.
  apply Nat.log2_le_mono in Hn. rewrite Nat.log2_pow2 in Hn by lia.
  rewrite (Forall2_length _ _ _ Hv) in Hn.
  destruct (search_ok cmp (S (height t)) s [] t xs key Hrep Hv Hs ltac:(lia)) as (p & Hp & Hr).
  unfold tree_search. rewrite (rep_root _ _ Hrep). exists p. split_and!.
  - eapply search_mono; [exact Hp|]. unfold walk_fuel.
    pose proof (rep_size _ _ Hrep). pose proof (height_cells t). lia.
  - eapply search_mono; [exact Hp|]. lia.
  - destruct Hr as [?|(d & y & ? & ? & [_ ?] & ?)]; [by left|right]. by exists d, y.
Qed.

Lemma tree_search_finds_witness :
  (∃ p, tree_search Z.sub demo_tree 3 = Ret p ∧ search_r Z.sub 5 demo_tree 20 3 = Ret p ∧
    ((p = 0 ∧ Forall (λ y, 3 - y ≠ 0) [1; 2; 3]) ∨
     ∃ d y, (p, d) ∈ cells demo_rt ∧ y ∈ [1; 2; 3] ∧ tr_data demo_tree !! d = Some y ∧ 3 - y = 0)) ∧
  tree_successor demo_tree 20 = Ret (first_addr [(30, 130)]).
Proof.
  destruct (tree_search_finds Z.sub demo_tree demo_rt [1; 2; 3] 1 3 demo_tree_holds demo_sorted demo_rbt) as [H1 H2].
  split; [exact H1|]. by apply (H2 [(10, 110)] [(30, 130)] 20 120).
Defined.

(** [destroy_node] of the root. *)
Lemma destroy_frees {D} (s : tree D) (t : rtree) (xs : list D) (fuel : nat) :
  holds s t xs → t ≠ E → (height t ≤ fuel)%nat →
  ∃ s', destroy_node fuel (tr_root s) s = Ret s' ∧
    (∀ a, tr_nodes s' !! a = if decide (a ∈ addrs t) then None else tr_nodes s !! a) ∧
    (∀ d, tr_data s' !! d = if decide (d ∈ (cells t).*2) then None else tr_data s !! d).
Proof.
  intros [[Hs Hr Hn] Hv Hd] Ht Hf. rewrite Hr.
  destruct (destroy_ok t fuel s 0 Hs Hn Hd) as (s' & Hds & [Hc1 Hc2]); [|done|].
  { intros d (c & -> & [i Hi]%list_elem_of_lookup)%list_elem_of_fmap.
    destruct (Forall2_lookup_l _ _ _ _ _ Hv Hi) as (x & _ & ? & ?). eauto. }
  pose proof (shape_nonzero _ _ _ _ Hs (addr_in t Ht)) as Ha.
  destruct (Z.eqb_spec (addr t) 0); [done|]. eauto.
Qed.

(** [tree_delete] of a node. *)
Lemma delete_removes {D} (s : tree D) (t : rtree) (ys zs : list D) (l1 l2 : list (Z * Z))
    (p d : Z) (x : D) :
  holds s t (ys ++ x :: zs) → cells t = l1 ++ (p, d) :: l2 → length l1 = length ys →
  ∃ s' t' q, tree_delete p s = Ret s' ∧ holds s' t' (ys ++ zs) ∧
    tr_data s' = delete d (tr_data s) ∧ (q ∈ addrs t) ∧ (q ∉ addrs t') ∧ tr_nodes s' !! q = None.
Proof.
  intros [Hrep Hv Hd] Hc Hlen. destruct (position_split _ _ _ _ _ _ Hrep Hc) as (k & c & l & r & Ht & Hl1 & Hl2).
  rewrite Hc in Hv, Hd. apply Forall2_app_inv in Hv as [Hv1 Hv2]; [|done].
  apply Forall2_cons in Hv2 as [[Hd0 Hx] Hv2]. cbn [snd] in Hd0, Hx.
  pose proof Hrep as Hrep'. rewrite Ht in Hrep'.
  destruct (pull_out_ok _ _ _ _ _ _ _ _ Hrep' Hd0 Hx)
    as (q & s1 & Hp & t' & Hrep1 & Hd1 & Hc1 & Hq & Hq0 & [n Hn] & Hqt).
  destruct (discard_ok s1 t' q n Hrep1 Hq Hq0 Hn) as (s' & Hdis & Hrep2 & Hd2 & Hn2).
  exists s', t', q. unfold tree_delete. rewrite Hp. cbn [obind fst snd].
  rewrite <- Hl1, <- Hl2 in Hc1. rewrite fmap_app, fmap_cons, <- Permutation_middle in Hd.
  cbn [snd] in Hd. apply NoDup_cons in Hd as [Hdn Hd].
  split_and!; [done| |congruence|by rewrite Ht|done|by rewrite Hn2, lookup_delete_eq].
  split; [done| |by rewrite Hc1].
  rewrite <- fmap_app in Hc1, Hdn. apply (stored_snd _ _ _ _ Hc1).
  eapply (stored_delete s); [by rewrite Hd2|exact Hdn|by apply Forall2_app].
Qed.

(** Inserting the integers [l], with nodes at [a], [a + 1], ... *)
Fixpoint rb_inserts (l : list Z) (a : Z) (s : tree Z) : outcome (tree Z) :=
  match l with
  | [] => Ret s
  | x :: l => let! r := rb_insert Z.sub (Some a, Some (a + 1000)) x s in rb_inserts l (a + 1) r.2
  end.

(** Removing 1 from the tree that the insertion of 2, 1, 4 and 3 makes. *)
Lemma delete_crashes :
  ∃ s p, rb_inserts [2; 1; 4; 3] 1 (Tree ∅ ∅ 0) = Ret s ∧ tree_search Z.sub s 1 = Ret p ∧ p ≠ 0 ∧
    rb_delete p s = Stuck NullDeref.
Proof. eexists _, _. split; [vm_compute; reflexivity|]. by split_and!; [vm_compute; reflexivity|..]. Qed.

(** C16: [tree_delete] of a node of a search tree removes its content and no
    other, keeps the order, frees the node's data block and exactly one node,
    and leaves a well-linked tree; [destroy_node] of the root frees every node and
    every data block, each once, and touches nothing else.  The removal that rebalances,
    [rb_delete], dereferences NULL on a tree that [rb_insert] has made: insert 2, 1, 4
    and 3 and delete the node of 1.  (Its fix-up colours the near child of the sibling
    red instead of black and takes a red child of the sibling for a black one in the
    next round.) *)
Theorem tree_delete_removes {D} (s : tree D) (t : rtree) (ys zs : list D) (l1 l2 : list (Z * Z))
    (p d : Z) (x : D) (fuel : nat) :
  holds s t (ys ++ x :: zs) → cells t = l1 ++ (p, d) :: l2 → length l1 = length ys → (height t ≤ fuel)%nat →
  (∃ s' t' q, tree_delete p s = Ret s' ∧ holds s' t' (ys ++ zs) ∧
    tr_data s' = delete d (tr_data s) ∧ (q ∈ addrs t) ∧ (q ∉ addrs t') ∧ tr_nodes s' !! q = None) ∧
  (∃ s', destroy_node fuel (tr_root s) s = Ret s' ∧
    (∀ a, tr_nodes s' !! a = if decide (a ∈ addrs t) then None else tr_nodes s !! a) ∧
    (∀ d, tr_data s' !! d = if decide (d ∈ (cells t).*2) then None else tr_data s !! d)) ∧
  (∃ s p, rb_inserts [2; 1; 4; 3] 1 (Tree ∅ ∅ 0) = Ret s ∧ tree_search Z.sub s 1 = Ret p ∧ p ≠ 0 ∧
    rb_delete p s = Stuck NullDeref).
Proof.
  intros Hh Hc Hlen Hf. split_and!; [by eapply delete_removes| |exact delete_crashes].
  apply (destroy_frees s t (ys ++ x :: zs)); [done| |done]. intros ->. by destruct l1.
Qed.

Lemma tree_delete_removes_witness :
  ∃ s' t' q, tree_delete 20 demo_tree = Ret s' ∧ holds s' t' ([1] ++ [3]) ∧
    tr_data s' = delete 120 (tr_data demo_tree) ∧ (q ∈ addrs demo_rt) ∧ (q ∉ addrs t') ∧
    tr_nodes s' !! q = None.
Proof.
  apply (tree_delete_removes demo_tree demo_rt [1] [3] [(10, 110)] [(30, 130)] 20 120 2 2
    demo_tree_holds); [reflexivity|reflexivity|apply le_n].
Defined.
