(* ===== verification/Buf.v ===== *)
(** * Byte buffers

    An allocated array is the list of its elements; every access is checked
    against its length.  The bytes that [malloc] or a growing [realloc] adds are
    arbitrary: they are the argument [junk]. *)
From S2P Require Import Prelude.

Local Open Scope Z_scope.

Section buf.
Context {A : Type}.
Implicit Types b : list A.

Definition blen b : Z := Z.of_nat (length b).

Definition bget b (i : Z) : outcome A :=
  if i <? 0 then Stuck OutOfBounds else need OutOfBounds (b !! Z.to_nat i).

Definition bset b (i : Z) (v : A) : outcome (list A) :=
  if (0 <=? i) && (i <? blen b) then Ret (<[Z.to_nat i := v]> b) else Stuck OutOfBounds.

(** Elements [i .. i + n - 1]. *)
Definition slice b (i n : Z) : list A := take (Z.to_nat n) (drop (Z.to_nat i) b).

(** The range [i .. i + n - 1] is inside; a negative [n] is a huge [size_t]. *)
Definition in_buf b (i n : Z) : bool := (0 <=? i) && (0 <=? n) && (i + n <=? blen b).

(** Overwrite the elements from [i] on. *)
Definition overwrite b (i : Z) (src : list A) : list A :=
  take (Z.to_nat i) b ++ src ++ drop (Z.to_nat i + length src) b.

(** memset(b + i, v, n) *)
Definition bmemset b (i : Z) (v : A) (n : Z) : outcome (list A) :=
  if in_buf b i n then Ret (overwrite b i (replicate (Z.to_nat n) v)) else Stuck OutOfBounds.

(** memmove(b + dst, b + src, n) *)
Definition bmemmove b (dst src n : Z) : outcome (list A) :=
  if in_buf b src n && in_buf b dst n then Ret (overwrite b dst (slice b src n))
  else Stuck OutOfBounds.

(** memcpy(b + i, src + j, n) from another array. *)
Definition bmemcpy b (i : Z) (src : list A) (j n : Z) : outcome (list A) :=
  if in_buf src j n && in_buf b i n then Ret (overwrite b i (slice src j n))
  else Stuck OutOfBounds.

Definition balloc (junk : A) (n : Z) : list A := replicate (Z.to_nat n) junk.
Definition brealloc (junk : A) b (n : Z) : list A :=
  take (Z.to_nat n) b ++ replicate (Z.to_nat n - length b) junk.

(** ** Lemmas *)
Lemma blen_nonneg b : 0 ≤ blen b.
Proof. unfold blen. lia. Qed.

Lemma bget_ok b i x : 0 ≤ i → b !! Z.to_nat i = Some x → bget b i = Ret x.
Proof. intros Hi Hx. unfold bget. destruct (Z.ltb_spec i 0); [lia|]. by rewrite Hx. Qed.

Lemma bget_app b1 x b2 : bget (b1 ++ x :: b2) (blen b1) = Ret x.
Proof.
  apply bget_ok; [apply blen_nonneg|]. unfold blen. rewrite Nat2Z.id.
  by rewrite lookup_app_r, Nat.sub_diag by lia.
Qed.

Lemma bset_app b1 x b2 v : bset (b1 ++ x :: b2) (blen b1) v = Ret (b1 ++ v :: b2).
Proof.
  unfold bset, blen. rewrite length_app. cbn [length].
  destruct (Z.leb_spec 0 (Z.of_nat (length b1))), (Z.ltb_spec (Z.of_nat (length b1))
    (Z.of_nat (length b1 + S (length b2)))); try lia. cbn [andb].
  f_equal. rewrite Nat2Z.id, insert_app_r_alt, Nat.sub_diag by lia. done.
Qed.

Lemma bset_at b1 x b2 i v : blen b1 = i → bset (b1 ++ x :: b2) i v = Ret (b1 ++ v :: b2).
Proof. intros <-. apply bset_app. Qed.
Lemma bget_at b1 x b2 i : blen b1 = i → bget (b1 ++ x :: b2) i = Ret x.
Proof. intros <-. apply bget_app. Qed.

Lemma in_buf_true b i n : 0 ≤ i → 0 ≤ n → i + n ≤ blen b → in_buf b i n = true.
Proof. intros. unfold in_buf. rewrite !andb_true_iff. split_and!; by apply Z.leb_le. Qed.

Lemma slice_app b1 b2 b3 : slice (b1 ++ b2 ++ b3) (blen b1) (blen b2) = b2.
Proof.
  unfold slice, blen. rewrite !Nat2Z.id, drop_app_length. by rewrite take_app_length.
Qed.

Lemma overwrite_app b1 b2 b3 src :
  length src = length b2 → overwrite (b1 ++ b2 ++ b3) (blen b1) src = b1 ++ src ++ b3.
Proof.
  intros Hl. unfold overwrite, blen. rewrite Nat2Z.id, take_app_length, Hl. do 2 f_equal.
  by rewrite (assoc_L app), <- length_app, drop_app_length.
Qed.

Lemma brealloc_grow junk b n :
  blen b ≤ n → brealloc junk b n = b ++ replicate (Z.to_nat n - length b) junk.
Proof. unfold blen, brealloc. intros Hn. rewrite take_ge; [done|lia]. Qed.

Lemma blen_app b1 b2 : blen (b1 ++ b2) = blen b1 + blen b2.
Proof. unfold blen. rewrite length_app. lia. Qed.
Lemma blen_cons x b : blen (x :: b) = 1 + blen b.
Proof. unfold blen. cbn [length]. lia. Qed.
Lemma blen_replicate x n : 0 ≤ n → blen (replicate (Z.to_nat n) x) = n.
Proof. intros. unfold blen. rewrite length_replicate. lia. Qed.

Lemma bmemset_app b1 mid b2 v n :
  blen mid = n → bmemset (b1 ++ mid ++ b2) (blen b1) v n = Ret (b1 ++ replicate (Z.to_nat n) v ++ b2).
Proof.
  intros <-. unfold bmemset. rewrite in_buf_true by (rewrite ?blen_app; unfold blen; lia).
  by rewrite overwrite_app by (rewrite length_replicate; unfold blen; lia).
Qed.

Lemma bmemcpy_app b1 mid b2 s1 src s2 n :
  blen mid = n → blen src = n →
  bmemcpy (b1 ++ mid ++ b2) (blen b1) (s1 ++ src ++ s2) (blen s1) n = Ret (b1 ++ src ++ b2).
Proof.
  intros Hm Hs. unfold bmemcpy. rewrite !in_buf_true by (rewrite ?blen_app; unfold blen in *; lia).
  cbn [andb]. by rewrite <- Hs, slice_app, overwrite_app by (unfold blen in *; lia).
Qed.

(** Source and destination of a [memmove] in one array. *)
Lemma bmemmove_app b s1 src s2 d1 old d2 :
  b = s1 ++ src ++ s2 → b = d1 ++ old ++ d2 → length old = length src →
  bmemmove b (blen d1) (blen s1) (blen src) = Ret (d1 ++ src ++ d2).
Proof.
  intros Hs Hd Hl. unfold bmemmove.
  rewrite Hs at 1. rewrite in_buf_true by (rewrite ?blen_app; unfold blen; lia).
  rewrite Hd at 1. rewrite in_buf_true by (rewrite ?blen_app; unfold blen; lia).
  cbn [andb]. rewrite Hs at 2. rewrite slice_app, Hd. by rewrite overwrite_app.
Qed.

(** A [realloc] keeps what fits. *)
Lemma brealloc_keeps junk b rest n :
  blen b ≤ n → ∃ tail, brealloc junk (b ++ rest) n = b ++ tail ∧ blen tail = n - blen b.
Proof.
  intros Hn. unfold brealloc. exists (take (Z.to_nat n - length b) rest ++
    replicate (Z.to_nat n - length (b ++ rest)) junk).
  rewrite take_app_ge by (unfold blen in Hn; lia). rewrite <- (assoc_L app). split; [done|].
  unfold blen in *. rewrite !length_app, length_replicate, length_take. lia.
Qed.
End buf.
