(* ===== verification/Term.v ===== *)
(** * Characters and terminal text

    What the text editor and the line editor share: character classes, strings in
    arrays of [char], and the escape sequences they write. *)
From S2P Require Import Prelude CStd Buf.
From Stdlib Require Import Ascii.

Local Open Scope Z_scope.

(** ** Characters *)
Definition NUL : ascii := Ascii.zero.
Definition TAB : ascii := ascii_of_nat 9.
Definition LF : ascii := ascii_of_nat 10.
Definition CR : ascii := ascii_of_nat 13.
Definition SP : ascii := " "%char.
(** The conversion of an [int] to [char]. *)
Definition to_char (c : Z) : ascii := ascii_of_N (Z.to_N (c mod 256)).

Definition isprint (c : ascii) : bool := (32 <=? uchar c) && (uchar c <=? 126).
Definition isdigit_c (c : ascii) : bool := (48 <=? uchar c) && (uchar c <=? 57).
Definition chars_of (s : string) : list ascii := String.list_ascii_of_string s.

(** ** Terminal output *)
Definition esc (s : string) : list ascii := ascii_of_nat 27 :: chars_of s.
Definition CRLF : list ascii := [CR; LF].

(** The string in an array of [char]. *)
Fixpoint cstr (b : list ascii) : outcome (list ascii) :=
  match b with
  | [] => Stuck OutOfBounds
  | c :: b => if Ascii.eqb c NUL then Ret [] else let! s := cstr b in Ret (c :: s)
  end.
