(* ===== verification/Kilo.v ===== *)
(** * The text editor: rows and editing (src/kilo.c)

    The configuration [E] of the source is a record that every operation takes
    and returns; a pointer to a row is its index in the array of rows.  Row
    contents, rendered rows and highlight arrays are checked buffers (Buf.v).
    Slots of the array of rows behind the last row count as out of bounds.
    Counters are unbounded integers: a file would need 2 GB to overflow an
    [int].  Allocations succeed (the code does not check them). *)
From S2P Require Import Prelude CStd Buf Term.
From Stdlib Require Import Ascii.

Local Open Scope Z_scope.

(** ** Data *)
Definition HL_NORMAL : Z := 0.
Definition HL_NONPRINT : Z := 1.
Definition HL_COMMENT : Z := 2.
Definition HL_MLCOMMENT : Z := 3.
Definition HL_KEYWORD1 : Z := 4.
Definition HL_KEYWORD2 : Z := 5.
Definition HL_STRING : Z := 6.
Definition HL_NUMBER : Z := 7.
Definition HL_MATCH : Z := 8.

(** The comment marks are pairs of characters. *)
Record editorSyntax := EditorSyntax {
  sx_filematch : list string;
  sx_keywords : list string;
  sx_scs : ascii * ascii;
  sx_mcs : ascii * ascii;
  sx_mce : ascii * ascii
}.

Record erow := ERow {
  r_idx : Z;
  r_size : Z;
  r_rsize : Z;
  r_chars : list ascii;
  r_render : list ascii;
  r_hl : option (list Z);
  r_hl_oc : bool
}.

Record editor := Editor {
  e_cx : Z; e_cy : Z;
  e_rowoff : Z; e_coloff : Z;
  e_screenrows : Z; e_screencols : Z;
  e_numrows : Z;
  e_row : list erow;
  e_dirty : Z;
  e_filename : option string;
  e_statusmsg : string;
  e_statusmsg_time : Z;
  e_syntax : option editorSyntax
}.

Definition set_idx (v : Z) (r : erow) : erow :=
  ERow v (r_size r) (r_rsize r) (r_chars r) (r_render r) (r_hl r) (r_hl_oc r).
Definition set_chars (c : list ascii) (n : Z) (r : erow) : erow :=
  ERow (r_idx r) n (r_rsize r) c (r_render r) (r_hl r) (r_hl_oc r).
Definition set_render (b : list ascii) (n : Z) (r : erow) : erow :=
  ERow (r_idx r) (r_size r) n (r_chars r) b (r_hl r) (r_hl_oc r).
Definition set_hl (h : list Z) (r : erow) : erow :=
  ERow (r_idx r) (r_size r) (r_rsize r) (r_chars r) (r_render r) (Some h) (r_hl_oc r).
Definition set_hl_oc (v : bool) (r : erow) : erow :=
  ERow (r_idx r) (r_size r) (r_rsize r) (r_chars r) (r_render r) (r_hl r) v.

Definition set_cursor (cx cy rowoff coloff : Z) (E : editor) : editor :=
  Editor cx cy rowoff coloff (e_screenrows E) (e_screencols E) (e_numrows E) (e_row E) (e_dirty E)
         (e_filename E) (e_statusmsg E) (e_statusmsg_time E) (e_syntax E).
Definition set_rows (rows : list erow) (n : Z) (E : editor) : editor :=
  Editor (e_cx E) (e_cy E) (e_rowoff E) (e_coloff E) (e_screenrows E) (e_screencols E) n rows
         (e_dirty E) (e_filename E) (e_statusmsg E) (e_statusmsg_time E) (e_syntax E).
Definition set_dirty (d : Z) (E : editor) : editor :=
  Editor (e_cx E) (e_cy E) (e_rowoff E) (e_coloff E) (e_screenrows E) (e_screencols E) (e_numrows E)
         (e_row E) d (e_filename E) (e_statusmsg E) (e_statusmsg_time E) (e_syntax E).
Definition set_file (f : option string) (sx : option editorSyntax) (E : editor) : editor :=
  Editor (e_cx E) (e_cy E) (e_rowoff E) (e_coloff E) (e_screenrows E) (e_screencols E) (e_numrows E)
         (e_row E) (e_dirty E) f (e_statusmsg E) (e_statusmsg_time E) sx.
Definition touch (E : editor) : editor := set_dirty (e_dirty E + 1) E.

Definition row_at (E : editor) (k : Z) : outcome erow := bget (e_row E) k.
Definition put_row (k : Z) (r : erow) (E : editor) : outcome editor :=
  let! rows := bset (e_row E) k r in Ret (set_rows rows (e_numrows E) E).

(** ** Syntax highlighting *)
Definition C_syntax : editorSyntax :=
  EditorSyntax [".c"; ".cpp"]%string
    ["switch"; "if"; "while"; "for"; "break"; "continue"; "return"; "else"; "struct"; "union";
     "typedef"; "static"; "enum"; "class"; "int|"; "long|"; "double|"; "float|"; "char|";
     "unsigned|"; "signed|"; "void|"]%string
    ("/", "/")%char ("/", "*")%char ("*", "/")%char.
Definition HLDB : list editorSyntax := [C_syntax].

Definition is_separator (c : ascii) : bool :=
  Ascii.eqb c NUL || isspace c || existsb (Ascii.eqb c) (chars_of ",.()+-/*=~%[];").

Definition editorRowHasOpenComment (row : erow) : outcome bool :=
  match r_hl row with
  | None => Ret false
  | Some hl =>
      if r_rsize row =? 0 then Ret false
      else
        let! h := bget hl (r_rsize row - 1) in
        if negb (h =? HL_MLCOMMENT) then Ret false
        else if r_rsize row <? 2 then Ret true
        else
          let! a := bget (r_render row) (r_rsize row - 2) in
          let! b := bget (r_render row) (r_rsize row - 1) in
          Ret (negb (Ascii.eqb a "*"%char && Ascii.eqb b "/"%char))
  end.

(** [*p == m[0] && *(p+1) == m[1]] *)
Definition at_mark (render : list ascii) (i : Z) (m : ascii * ascii) : outcome bool :=
  let! c := bget render i in
  if Ascii.eqb c m.1 then let! d := bget render (i + 1) in Ret (Ascii.eqb d m.2) else Ret false.

(** [memcmp(p, kw, strlen(kw)) == 0], read up to the first difference. *)
Fixpoint at_word (render : list ascii) (i : Z) (kw : list ascii) : outcome bool :=
  match kw with
  | [] => Ret true
  | k :: kw =>
      let! c := bget render i in
      if Ascii.eqb c k then at_word render (i + 1) kw else Ret false
  end.

(** A trailing [|] marks a keyword of the second kind. *)
Definition split_kw (kw : string) : list ascii * bool :=
  let l := chars_of kw in
  match last l with
  | Some c => if Ascii.eqb c "|"%char then (removelast l, true) else (l, false)
  | None => (l, false)
  end.

(** The first keyword at [i]: its length and kind. *)
Fixpoint find_keyword (render : list ascii) (i : Z) (kws : list string) : outcome (option (Z * bool)) :=
  match kws with
  | [] => Ret None
  | kw :: kws =>
      let '(l, kw2) := split_kw kw in
      let! m := at_word render i l in
      let! hit := if (m : bool) then let! c := bget render (i + blen l) in Ret (is_separator c)
                  else Ret false in
      if (hit : bool) then Ret (Some (blen l, kw2)) else find_keyword render i kws
  end.

(** The local variables of the scan; [hs_string] is 0 outside of strings. *)
Record hscan := HScan {
  hs_i : Z; hs_prev_sep : bool; hs_string : ascii; hs_comment : bool; hs_hl : list Z
}.

(** The end of a round: go on, or leave the function. *)
Inductive hnext : Type := HMore (st : hscan) | HReturn (hl : list Z).

Definition scan_string (c : ascii) (st : hscan) : outcome hnext :=
  let! hl := bset (hs_hl st) (hs_i st) HL_STRING in
  if Ascii.eqb c "\"%char then
    let! hl := bset hl (hs_i st + 1) HL_STRING in
    Ret (HMore (HScan (hs_i st + 2) false (hs_string st) (hs_comment st) hl))
  else
    let q := if Ascii.eqb c (hs_string st) then NUL else hs_string st in
    Ret (HMore (HScan (hs_i st + 1) (hs_prev_sep st) q (hs_comment st) hl)).

(** One character with the class [h]. *)
Definition scan_one (h : Z) (q : ascii) (st : hscan) : outcome hnext :=
  let! hl := bset (hs_hl st) (hs_i st) h in
  Ret (HMore (HScan (hs_i st + 1) false q (hs_comment st) hl)).

Definition is_number (c : ascii) (st : hscan) : outcome bool :=
  let prev := let! h := bget (hs_hl st) (hs_i st - 1) in Ret (h =? HL_NUMBER) in
  let! d := if isdigit_c c then if hs_prev_sep st then Ret true else prev else Ret false in
  if (d : bool) then Ret true
  else if Ascii.eqb c "."%char && (0 <? hs_i st) then prev else Ret false.

Definition scan_word (sx : editorSyntax) (render : list ascii) (c : ascii) (st : hscan)
    : outcome hnext :=
  let! kw := if hs_prev_sep st then find_keyword render (hs_i st) (sx_keywords sx) else Ret None in
  match kw with
  | Some (klen, kw2) =>
      let! hl := bmemset (hs_hl st) (hs_i st) (if (kw2 : bool) then HL_KEYWORD2 else HL_KEYWORD1) klen in
      Ret (HMore (HScan (hs_i st + klen) false (hs_string st) (hs_comment st) hl))
  | None => Ret (HMore (HScan (hs_i st + 1) (is_separator c) (hs_string st) (hs_comment st) (hs_hl st)))
  end.

(** One round of the loop at a character [c] that is not NUL; [size] is
    [row->size]. *)
Definition scan_round (sx : editorSyntax) (render : list ascii) (size : Z) (c : ascii) (st : hscan)
    : outcome hnext :=
  let i := hs_i st in
  let! line_comment := if hs_prev_sep st then at_mark render i (sx_scs sx) else Ret false in
  if (line_comment : bool) then
    let! hl := bmemset (hs_hl st) i HL_COMMENT (size - i) in Ret (HReturn hl)
  else if hs_comment st then
    let! hl := bset (hs_hl st) i HL_MLCOMMENT in
    let! close := at_mark render i (sx_mce sx) in
    if (close : bool) then
      let! hl := bset hl (i + 1) HL_MLCOMMENT in
      Ret (HMore (HScan (i + 2) true (hs_string st) false hl))
    else Ret (HMore (HScan (i + 1) false (hs_string st) true hl))
  else
    let! open := at_mark render i (sx_mcs sx) in
    if (open : bool) then
      let! hl := bset (hs_hl st) i HL_MLCOMMENT in
      let! hl := bset hl (i + 1) HL_MLCOMMENT in
      Ret (HMore (HScan (i + 2) false (hs_string st) true hl))
    else if negb (Ascii.eqb (hs_string st) NUL) then scan_string c st
    else if Ascii.eqb c (ascii_of_nat 34) || Ascii.eqb c "'"%char then scan_one HL_STRING c st
    else if negb (isprint c) then scan_one HL_NONPRINT NUL st
    else
      let! num := is_number c st in
      if (num : bool) then scan_one HL_NUMBER NUL st else scan_word sx render c st.

(** The loop up to the NUL: [inl hl] at the end of the text, [inr hl] for an
    early return. *)
Fixpoint scan_loop (fuel : nat) (sx : editorSyntax) (render : list ascii) (size : Z) (st : hscan)
    : outcome (list Z + list Z) :=
  match fuel with
  | O => Spin
  | S fuel =>
      let! c := bget render (hs_i st) in
      if Ascii.eqb c NUL then Ret (inl (hs_hl st))
      else
        let! r := scan_round sx render size c st in
        match r with
        | HReturn hl => Ret (inr hl)
        | HMore st => scan_loop fuel sx render size st
        end
  end.

Fixpoint skip_spaces (fuel : nat) (render : list ascii) (i : Z) : outcome Z :=
  match fuel with
  | O => Spin
  | S fuel =>
      let! c := bget render i in
      if negb (Ascii.eqb c NUL) && isspace c then skip_spaces fuel render (i + 1) else Ret i
  end.

(** [fuel] bounds the rows a change of the open comment is propagated to. *)
Fixpoint editorUpdateSyntax (fuel : nat) (k : Z) (E : editor) : outcome editor :=
  match fuel with
  | O => Spin
  | S fuel =>
      let! row := row_at E k in
      let hl := replicate (Z.to_nat (r_rsize row)) HL_NORMAL in
      let! E := put_row k (set_hl hl row) E in
      match e_syntax E with
      | None => Ret E
      | Some sx =>
          let n := S (length (r_render row)) in
          let! i := skip_spaces n (r_render row) 0 in
          let! com :=
            if 0 <? r_idx row then
              let! prev := row_at E (r_idx row - 1) in editorRowHasOpenComment prev
            else Ret false in
          let! r := scan_loop n sx (r_render row) (r_size row) (HScan i true NUL com hl) in
          match r with
          | inr hl => put_row k (set_hl hl row) E
          | inl hl =>
              let row := set_hl hl row in
              let! E := put_row k row E in
              let! oc := editorRowHasOpenComment row in
              let! E :=
                if negb (Bool.eqb (r_hl_oc row) oc) && (r_idx row + 1 <? e_numrows E)
                then editorUpdateSyntax fuel (r_idx row + 1) E else Ret E in
              let! row := row_at E k in
              put_row k (set_hl_oc oc row) E
          end
      end
  end.

Definition syntax_fuel (E : editor) : nat := S (length (e_row E)).

(** [strstr]: the text from the first occurrence of [pat] on. *)
Fixpoint strstr (s pat : list ascii) : option (list ascii) :=
  if decide (take (length pat) s = pat) then Some s
  else match s with [] => None | _ :: s => strstr s pat end.

(** A pattern that starts with a dot must be at the end. *)
Definition file_matches (filename pat : string) : bool :=
  match strstr (chars_of filename) (chars_of pat) with
  | Some p => negb (String.prefix "." pat) || (length p =? length (chars_of pat))%nat
  | None => false
  end.

Definition editorSelectSyntaxHighlight (filename : string) (E : editor) : editor :=
  match List.find (λ s, existsb (file_matches filename) (sx_filematch s)) HLDB with
  | Some s => set_file (e_filename E) (Some s) E
  | None => E
  end.

(** ** Rows *)
Section rows.
Variable junk : ascii.

Definition count_tabs (cs : list ascii) : Z := blen (filter (λ c, c = TAB) cs).

(** [while((idx+1) % 8 != 0) row->render[idx++] = ' ';] *)
Fixpoint pad_tab (fuel : nat) (render : list ascii) (idx : Z) : outcome (list ascii * Z) :=
  match fuel with
  | O => Spin
  | S fuel =>
      if (idx + 1) mod 8 =? 0 then Ret (render, idx)
      else let! render := bset render idx SP in pad_tab fuel render (idx + 1)
  end.

Fixpoint render_loop (cs : list ascii) (render : list ascii) (idx : Z) : outcome (list ascii * Z) :=
  match cs with
  | [] => Ret (render, idx)
  | c :: cs =>
      if Ascii.eqb c TAB then
        let! render := bset render idx SP in
        let! r := pad_tab 8 render (idx + 1) in
        render_loop cs r.1 r.2
      else
        let! render := bset render idx c in
        render_loop cs render (idx + 1)
  end.

Definition editorUpdateRow (k : Z) (E : editor) : outcome editor :=
  let! row := row_at E k in
  if negb (in_buf (r_chars row) 0 (r_size row)) then Stuck OutOfBounds
  else
    let cs := slice (r_chars row) 0 (r_size row) in
    let render := balloc junk (r_size row + count_tabs cs * 8 + 1) in
    let! r := render_loop cs render 0 in
    let! render := bset r.1 r.2 NUL in
    let! E := put_row k (set_render render r.2 row) E in
    editorUpdateSyntax (syntax_fuel E) k E.

Definition bump (r : erow) : erow := set_idx (r_idx r + 1) r.

(** [s] points to an array with at least [len + 1] bytes. *)
Definition editorInsertRow (at_ : Z) (s : list ascii) (len : Z) (E : editor) : outcome editor :=
  if e_numrows E <? at_ then Ret E
  else if at_ <? 0 then Stuck OutOfBounds
  else
    let! chars := bmemcpy (balloc junk (len + 1)) 0 s 0 (len + 1) in
    let new := ERow at_ len 0 chars [] None false in
    let n := Z.to_nat at_ in
    let rows := take n (e_row E) ++ new :: (bump <$> drop n (e_row E)) in
    let! E := editorUpdateRow at_ (set_rows rows (e_numrows E) E) in
    Ret (touch (set_rows (e_row E) (e_numrows E + 1) E)).

Definition editorDelRow (at_ : Z) (E : editor) : outcome editor :=
  if e_numrows E <=? at_ then Ret E
  else
    let! _ := row_at E at_ in
    let n := Z.to_nat at_ in
    let rows := take n (e_row E) ++ (bump <$> drop (S n) (e_row E)) in
    Ret (touch (set_rows rows (e_numrows E - 1) E)).

(** The text with a line feed behind every row, and its length. *)
Fixpoint rows_to_string (rows : list erow) : outcome (list ascii) :=
  match rows with
  | [] => Ret []
  | r :: rows =>
      if negb (in_buf (r_chars r) 0 (r_size r)) then Stuck OutOfBounds
      else
        let! rest := rows_to_string rows in
        Ret (slice (r_chars r) 0 (r_size r) ++ LF :: rest)
  end.

Definition editorRowsToString (E : editor) : outcome (list ascii * Z) :=
  let! s := rows_to_string (take (Z.to_nat (e_numrows E)) (e_row E)) in
  Ret (s, blen s).

(** Make room for one character at [at_]: the characters and the new size. *)
Definition make_room (chars : list ascii) (size at_ : Z) : outcome (list ascii * Z) :=
  if size <? at_ then
    let padlen := at_ - size in
    let chars := brealloc junk chars (size + padlen + 2) in
    let! chars := bmemset chars size SP padlen in
    let! chars := bset chars (size + padlen + 1) NUL in
    Ret (chars, size + padlen + 1)
  else
    let chars := brealloc junk chars (size + 2) in
    let! chars := bmemmove chars (at_ + 1) at_ (size - at_ + 1) in
    Ret (chars, size + 1).

Definition editorRowInsertChar (k at_ : Z) (c : Z) (E : editor) : outcome editor :=
  let! row := row_at E k in
  let! r := make_room (r_chars row) (r_size row) at_ in
  let! chars := bset r.1 at_ (to_char c) in
  let! E := put_row k (set_chars chars r.2 row) E in
  let! E := editorUpdateRow k E in
  Ret (touch E).

Definition editorRowAppendString (k : Z) (s : list ascii) (len : Z) (E : editor) : outcome editor :=
  let! row := row_at E k in
  let size := r_size row in
  let chars := brealloc junk (r_chars row) (size + len + 1) in
  let! chars := bmemcpy chars size s 0 len in
  let! chars := bset chars (size + len) NUL in
  let! E := put_row k (set_chars chars (size + len) row) E in
  let! E := editorUpdateRow k E in
  Ret (touch E).

Definition editorRowDelChar (k at_ : Z) (E : editor) : outcome editor :=
  let! row := row_at E k in
  if r_size row <=? at_ then Ret E
  else
    let! chars := bmemmove (r_chars row) at_ (at_ + 1) (r_size row - at_) in
    let! E := put_row k (set_chars chars (r_size row) row) E in
    let! E := editorUpdateRow k E in
    let! row := row_at E k in
    let! E := put_row k (set_chars (r_chars row) (r_size row - 1) row) E in
    Ret (touch E).

(** ** Editing at the cursor *)

(** Empty rows up to [filerow]. *)
Fixpoint add_rows (fuel : nat) (filerow : Z) (E : editor) : outcome editor :=
  match fuel with
  | O => Spin
  | S fuel =>
      if e_numrows E <=? filerow then
        let! E := editorInsertRow (e_numrows E) [NUL] 0 E in add_rows fuel filerow E
      else Ret E
  end.

Definition editorInsertChar (c : Z) (E : editor) : outcome editor :=
  let filerow := e_rowoff E + e_cy E in
  let filecol := e_coloff E + e_cx E in
  let! E := add_rows (S (Z.to_nat (filerow + 1 - e_numrows E))) filerow E in
  let! E := editorRowInsertChar filerow filecol c E in
  let E := if e_cx E =? e_screencols E - 1
           then set_cursor (e_cx E) (e_cy E) (e_rowoff E) (e_coloff E + 1) E
           else set_cursor (e_cx E + 1) (e_cy E) (e_rowoff E) (e_coloff E) E in
  Ret (touch E).

(** The label [fixcursor]. *)
Definition fixcursor (E : editor) : editor :=
  if e_cy E =? e_screenrows E - 1
  then set_cursor 0 (e_cy E) (e_rowoff E + 1) 0 E
  else set_cursor 0 (e_cy E + 1) (e_rowoff E) 0 E.

Definition editorInsertNewline (E : editor) : outcome editor :=
  let filerow := e_rowoff E + e_cy E in
  let filecol := e_coloff E + e_cx E in
  if e_numrows E <=? filerow then
    if filerow =? e_numrows E then
      let! E := editorInsertRow filerow [NUL] 0 E in Ret (fixcursor E)
    else Ret E
  else
    let! row := row_at E filerow in
    let filecol := if r_size row <=? filecol then r_size row else filecol in
    let! E :=
      if filecol =? 0 then editorInsertRow filerow [NUL] 0 E
      else if filecol <? 0 then Stuck OutOfBounds
      else
        let! E := editorInsertRow (filerow + 1) (drop (Z.to_nat filecol) (r_chars row))
                                  (r_size row - filecol) E in
        let! row := row_at E filerow in
        let! chars := bset (r_chars row) filecol NUL in
        let! E := put_row filerow (set_chars chars filecol row) E in
        editorUpdateRow filerow E in
    Ret (fixcursor E).

Definition editorDelChar (E : editor) : outcome editor :=
  let filerow := e_rowoff E + e_cy E in
  let filecol := e_coloff E + e_cx E in
  if e_numrows E <=? filerow then Ret E
  else if (filecol =? 0) && (filerow =? 0) then Ret E
  else
    let! row := row_at E filerow in
    if filecol =? 0 then
      let! prev := row_at E (filerow - 1) in
      let filecol := r_size prev in
      let! E := editorRowAppendString (filerow - 1) (r_chars row) (r_size row) E in
      let! E := editorDelRow filerow E in
      let E := if e_cy E =? 0 then set_cursor (e_cx E) (e_cy E) (e_rowoff E - 1) (e_coloff E) E
               else set_cursor (e_cx E) (e_cy E - 1) (e_rowoff E) (e_coloff E) E in
      let E := set_cursor filecol (e_cy E) (e_rowoff E) (e_coloff E) E in
      let E := if e_screencols E <=? e_cx E then
                 let shift := e_screencols E - e_cx E + 1 in
                 set_cursor (e_cx E - shift) (e_cy E) (e_rowoff E) (e_coloff E + shift) E
               else E in
      Ret (touch E)
    else
      let! E := editorRowDelChar filerow (filecol - 1) E in
      let E := if (e_cx E =? 0) && negb (e_coloff E =? 0)
               then set_cursor (e_cx E) (e_cy E) (e_rowoff E) (e_coloff E - 1) E
               else set_cursor (e_cx E - 1) (e_cy E) (e_rowoff E) (e_coloff E) E in
      let! E := editorUpdateRow filerow E in
      Ret (touch E).

(** ** Files *)

(** [getline]: a line with its line feed; [None] at the end. *)
Fixpoint getline (text : list ascii) : list ascii * list ascii :=
  match text with
  | [] => ([], [])
  | c :: text =>
      if Ascii.eqb c LF then ([c], text) else let '(l, r) := getline text in (c :: l, r)
  end.

(** One line feed or carriage return at the end is dropped. *)
Definition chomp (line : list ascii) : list ascii :=
  match last line with
  | Some c => if Ascii.eqb c LF || Ascii.eqb c CR then removelast line else line
  | None => line
  end.

Fixpoint read_rows (fuel : nat) (text : list ascii) (E : editor) : outcome editor :=
  match fuel with
  | O => Spin
  | S fuel =>
      match text with
      | [] => Ret E
      | _ =>
          let '(line, rest) := getline text in
          let line := chomp line in
          let! E := editorInsertRow (e_numrows E) (line ++ [NUL]) (blen line) E in
          read_rows fuel rest E
      end
  end.

(** [file]: the text, or the [errno] of the failure to open it (true: ENOENT). *)
Definition editorOpen (filename : string) (file : list ascii + bool) (E : editor)
    : outcome (Z * editor) :=
  let E := set_dirty 0 (set_file (Some filename) (e_syntax E) E) in
  match file with
  | inr enoent => if (enoent : bool) then Ret (1, E) else Halt 1
  | inl text =>
      let! E := read_rows (S (length text)) text E in
      Ret (0, set_dirty 0 E)
  end.

Definition editorSetStatusMessage (msg : string) (now : Z) (E : editor) : editor :=
  Editor (e_cx E) (e_cy E) (e_rowoff E) (e_coloff E) (e_screenrows E) (e_screencols E) (e_numrows E)
         (e_row E) (e_dirty E) (e_filename E) (str_take 79 msg) now (e_syntax E).

(** What the system answers: does [open] succeed, does [ftruncate], and how many
    bytes [write] writes; [err] is the text of [errno].  The third result is the
    text that is written in the file, if it is. *)
Definition editorSave (opens truncates : bool) (writes : Z → Z) (err : string) (now : Z) (E : editor)
    : outcome (Z * editor * option (list ascii)) :=
  let! r := editorRowsToString E in
  let '(buf, len) := r in
  let failed := editorSetStatusMessage ("Can't save! I/O error: " ++ err) now E in
  if negb opens then Ret (1, failed, None)
  else if negb truncates then Ret (1, failed, None)
  else
    let n := writes len in
    if negb (n =? len) then Ret (1, failed, Some (take (Z.to_nat n) buf))
    else Ret (0, editorSetStatusMessage (fmt_d len ++ " bytes written on disk") now (set_dirty 0 E),
              Some buf).
End rows.
