(* ===== verification/KiloFacts.v ===== *)
(** * The text editor: rows against lines of text

    [row_ok r l]: the row [r] holds the line [l], its rendered form and a
    highlight array of the same length.  The lemmas describe the row operations
    without a syntax (the scan for highlights is treated on its own). *)
From S2P Require Import Prelude CStd Buf Term Kilo.
From Stdlib Require Import Ascii.

Local Open Scope Z_scope.

(** ** Rendering *)

(** The width of a tab at column [idx]. *)
Definition tab_width (idx : Z) : Z := 1 + (6 - idx) mod 8.

Fixpoint expand (idx : Z) (cs : list ascii) : list ascii :=
  match cs with
  | [] => []
  | c :: cs =>
      if Ascii.eqb c TAB then
        replicate (Z.to_nat (tab_width idx)) SP ++ expand (idx + tab_width idx) cs
      else c :: expand (idx + 1) cs
  end.

Lemma tab_width_range idx : 1 ≤ tab_width idx ≤ 8.
Proof. unfold tab_width. pose proof (Z.mod_pos_bound (6 - idx) 8). lia. Qed.

(** The blanks from [idx] up to the next stop. *)
Definition pad (idx : Z) : Z := (7 - idx) mod 8.

Lemma pad_cases idx :
  if (idx + 1) mod 8 =? 0 then pad idx = 0 else pad idx = 1 + pad (idx + 1).
Proof. unfold pad. destruct (Z.eqb_spec ((idx + 1) mod 8) 0); Z.to_euclidean_division_equations; lia. Qed.
Lemma tab_width_pad idx : tab_width idx = 1 + pad (idx + 1).
Proof. unfold tab_width, pad. do 2 f_equal. lia. Qed.
Lemma pad_range idx : 0 ≤ pad idx ≤ 7.
Proof. unfold pad. pose proof (Z.mod_pos_bound (7 - idx) 8). lia. Qed.

Lemma replicate_Zsucc {A} (x : A) n :
  0 ≤ n → replicate (Z.to_nat (1 + n)) x = x :: replicate (Z.to_nat n) x.
Proof. intros. by rewrite Z.add_comm, Z2Nat.inj_add, Nat.add_comm by lia. Qed.

(** Blanks are written over the next [pad] elements. *)
Lemma pad_tab_ok fuel : ∀ pre mid post idx,
  idx = blen pre → blen mid = pad idx → pad idx < Z.of_nat fuel →
  pad_tab fuel (pre ++ mid ++ post) idx =
    Ret (pre ++ replicate (Z.to_nat (pad idx)) SP ++ post, idx + pad idx).
Proof.
  induction fuel as [|fuel IH]; intros pre mid post idx Hi Hm Hf.
  { pose proof (pad_range idx). lia. }
  cbn [pad_tab]. pose proof (pad_cases idx) as Hc. pose proof (pad_range (idx + 1)) as Hr.
  destruct ((idx + 1) mod 8 =? 0).
  - rewrite Hc in *. destruct mid; [|unfold blen in Hm; cbn in Hm; lia].
    cbn. by rewrite Z.add_0_r.
  - destruct mid as [|x mid]; [unfold blen in Hm; cbn in Hm; lia|].
    rewrite blen_cons in Hm. subst idx. cbn [app]. rewrite bset_app. cbn [obind].
    change (pre ++ SP :: mid ++ post) with (pre ++ [SP] ++ mid ++ post).
    rewrite (assoc_L app pre [SP]), IH; [|by rewrite blen_app|lia|lia].
    rewrite Hc, replicate_Zsucc by lia. rewrite <- (assoc_L app). do 2 f_equal. lia.
Qed.

Lemma render_loop_ok cs : ∀ pre mid post idx,
  idx = blen pre → length mid = length (expand idx cs) →
  render_loop cs (pre ++ mid ++ post) idx =
    Ret (pre ++ expand idx cs ++ post, idx + blen (expand idx cs)).
Proof.
  induction cs as [|c cs IH]; intros pre mid post idx Hi Hm; cbn [render_loop expand] in *.
  { destruct mid; [|done]. unfold blen. cbn. by rewrite Z.add_0_r. }
  destruct (Ascii.eqb c TAB).
  - pose proof (tab_width_range idx) as Hw. rewrite length_app, length_replicate in Hm.
    destruct mid as [|x mid]; [cbn in Hm; lia|].
    subst idx. cbn [app]. rewrite bset_app. cbn [obind].
    rewrite tab_width_pad in *. pose proof (pad_range (blen pre + 1)) as Hp.
    set (n := Z.to_nat (pad (blen pre + 1))). cbn [length] in Hm.
    assert (mid = take n mid ++ drop n mid) as Hmid by by rewrite take_drop.
    assert (length (take n mid) = n) as Htk by (rewrite length_take; lia).
    change (pre ++ SP :: mid ++ post) with (pre ++ [SP] ++ mid ++ post). rewrite Hmid.
    rewrite <- (assoc_L app (take n mid)), (assoc_L app pre [SP]), pad_tab_ok;
      [|by rewrite blen_app|unfold blen in *; lia|lia].
    cbn [obind fst snd]. rewrite (assoc_L app (pre ++ [SP])).
    rewrite IH.
    + rewrite replicate_Zsucc by lia. rewrite !blen_app, blen_cons.
      rewrite <- !(assoc_L app). cbn [app]. rewrite (Z.add_assoc (blen pre) 1).
      do 2 f_equal. rewrite blen_replicate by lia. lia.
    + rewrite !blen_app, blen_replicate by lia. unfold blen. cbn [length]. lia.
    + rewrite length_drop. rewrite Z.add_assoc in Hm. lia.
  - destruct mid as [|x mid]; [done|]. subst idx. cbn [app]. rewrite bset_app. cbn [obind].
    change (pre ++ c :: mid ++ post) with (pre ++ [c] ++ mid ++ post).
    rewrite (assoc_L app pre [c]), IH; [|by rewrite blen_app|cbn in Hm; lia].
    rewrite <- (assoc_L app), blen_cons. do 2 f_equal. lia.
Qed.

Lemma expand_length cs idx : 0 ≤ blen (expand idx cs) ≤ blen cs + count_tabs cs * 7.
Proof.
  revert idx. induction cs as [|c cs IH]; intros idx; cbn [expand]; [done|].
  unfold count_tabs in *. rewrite filter_cons, blen_cons.
  destruct (Ascii.eqb_spec c TAB) as [->|Hc].
  - rewrite decide_True by done. rewrite blen_app, blen_cons.
    pose proof (tab_width_range idx). rewrite blen_replicate by lia.
    specialize (IH (idx + tab_width idx)). lia.
  - rewrite decide_False by done. rewrite blen_cons. specialize (IH (idx + 1)). lia.
Qed.

(** ** Rows *)
Record row_ok (r : erow) (l : list ascii) : Prop := RowOk {
  row_size : r_size r = blen l;
  row_chars : ∃ rest, r_chars r = l ++ NUL :: rest;
  row_render : ∃ rest, r_render r = expand 0 l ++ NUL :: rest;
  row_rsize : r_rsize r = blen (expand 0 l);
  row_hl : ∃ hl, r_hl r = Some hl ∧ blen hl = r_rsize r
}.

Lemma put_row_some k r0 r E :
  row_at E k = Ret r0 → put_row k r E = Ret (set_rows (<[Z.to_nat k := r]> (e_row E)) (e_numrows E) E).
Proof.
  unfold row_at, put_row, bget, bset. destruct (Z.ltb_spec k 0); [done|].
  destruct (e_row E !! Z.to_nat k) eqn:Hl; [|done]. intros _. apply lookup_lt_Some in Hl.
  unfold blen. destruct (Z.leb_spec 0 k), (Z.ltb_spec k (Z.of_nat (length (e_row E)))); try lia. done.
Qed.

Lemma row_at_set k r0 r n E :
  row_at E k = Ret r0 → row_at (set_rows (<[Z.to_nat k := r]> (e_row E)) n E) k = Ret r.
Proof.
  unfold row_at, bget. destruct (Z.ltb_spec k 0); [done|]. cbn [set_rows e_row].
  destruct (e_row E !! Z.to_nat k) eqn:Hl; [|done]. intros _.
  apply lookup_lt_Some in Hl. by rewrite list_lookup_insert_eq.
Qed.

Lemma in_buf_prefix {A} (l rest : list A) : in_buf (l ++ rest) 0 (blen l) = true.
Proof. apply in_buf_true; unfold blen; rewrite ?length_app; lia. Qed.
Lemma slice_prefix {A} (l rest : list A) : slice (l ++ rest) 0 (blen l) = l.
Proof. unfold slice, blen. change (Z.to_nat 0) with 0%nat. by rewrite Nat2Z.id, drop_0, take_app_length. Qed.

(** The row after an update of its rendering, without a syntax. *)
Definition updated (r : erow) (l rest : list ascii) : erow :=
  ERow (r_idx r) (r_size r) (blen (expand 0 l)) (r_chars r) (expand 0 l ++ NUL :: rest)
       (Some (replicate (Z.to_nat (blen (expand 0 l))) HL_NORMAL)) (r_hl_oc r).

Lemma set_rows_set_rows a b m n E : set_rows a m (set_rows b n E) = set_rows a m E.
Proof. done. Qed.

Lemma update_syntax_none k r fuel E :
  row_at E k = Ret r → e_syntax E = None → fuel ≠ O →
  editorUpdateSyntax fuel k E =
    Ret (set_rows (<[Z.to_nat k := set_hl (replicate (Z.to_nat (r_rsize r)) HL_NORMAL) r]> (e_row E))
                  (e_numrows E) E).
Proof.
  intros Hr Hs Hf. destruct fuel as [|fuel]; [done|]. cbn [editorUpdateSyntax].
  rewrite Hr. cbn [obind]. rewrite (put_row_some _ _ _ _ Hr). cbn [obind set_rows e_syntax].
  by rewrite Hs.
Qed.

(** Rendering a row: the highlights are updated last. *)
Lemma render_row_ok junk k E r l rest :
  row_at E k = Ret r → r_size r = blen l → r_chars r = l ++ rest →
  ∃ rest', editorUpdateRow junk k E =
    let E1 := set_rows (<[Z.to_nat k := set_render (expand 0 l ++ NUL :: rest') (blen (expand 0 l)) r]> (e_row E))
                       (e_numrows E) E in
    editorUpdateSyntax (syntax_fuel E1) k E1.
Proof.
  intros Hr Hsz Hc. unfold editorUpdateRow. rewrite Hr. cbn [obind].
  rewrite Hsz, Hc, in_buf_prefix, slice_prefix. cbn [negb].
  pose proof (expand_length l 0) as He. pose proof (blen_nonneg l) as Hl.
  set (n := blen l + count_tabs l * 8 + 1).
  assert (0 ≤ count_tabs l) as Ht by apply blen_nonneg.
  set (post := replicate (Z.to_nat (n - blen (expand 0 l) - 1)) junk).
  assert (balloc junk n = [] ++ replicate (length (expand 0 l)) junk ++ junk :: post) as ->.
  { unfold balloc, post. cbn [app]. change (junk :: ?l) with (replicate 1 junk ++ l).
    rewrite (assoc_L app), <- !replicate_add. f_equal. unfold n, blen in *. lia. }
  rewrite render_loop_ok by (done || by rewrite length_replicate). cbn [obind fst snd app].
  assert (0 + blen (expand 0 l) = blen (expand 0 l)) as -> by lia.
  rewrite bset_app. cbn [obind]. rewrite (put_row_some _ _ _ _ Hr). cbn [obind]. by exists post.
Qed.

Lemma update_row_ok junk k E r l rest :
  row_at E k = Ret r → e_syntax E = None → r_size r = blen l → r_chars r = l ++ rest →
  ∃ rest', editorUpdateRow junk k E =
    Ret (set_rows (<[Z.to_nat k := updated r l rest']> (e_row E)) (e_numrows E) E).
Proof.
  intros Hr Hs Hsz Hc. destruct (render_row_ok junk k E r l rest Hr Hsz Hc) as (post & ->).
  set (E1 := set_rows _ _ E). cbv zeta.
  assert (row_at E1 k = Ret (set_render (expand 0 l ++ NUL :: post) (blen (expand 0 l)) r)) as Hr1
    by (eapply row_at_set; exact Hr).
  rewrite (update_syntax_none k _ _ E1 Hr1 Hs) by done.
  exists post. unfold E1 at 1 2 3. cbn [set_rows e_row e_numrows r_rsize set_render].
  rewrite list_insert_insert_eq. done.
Qed.

Lemma updated_ok r l rest rest' :
  r_size r = blen l → r_chars r = l ++ NUL :: rest → row_ok (updated r l rest') l.
Proof.
  intros Hs Hc. split; cbn [updated r_size r_chars r_render r_rsize r_hl]; eauto.
  eexists. split; [done|]. apply blen_replicate, blen_nonneg.
Qed.

Lemma bump_ok r l : row_ok r l → row_ok (bump r) l.
Proof. by intros [? ? ? ? ?]. Qed.

(** ** The whole text *)
Record text_ok (E : editor) (ls : list (list ascii)) : Prop := TextOk {
  to_rows : Forall2 row_ok (e_row E) ls;
  to_num : e_numrows E = blen ls;
  to_syntax : e_syntax E = None
}.

Lemma text_row E ls k l :
  text_ok E ls → 0 ≤ k → ls !! Z.to_nat k = Some l → ∃ r, row_at E k = Ret r ∧ row_ok r l.
Proof.
  intros [Hr _ _] Hk Hl. destruct (Forall2_lookup_r _ _ _ _ _ Hr Hl) as (r & Hr' & Hok).
  exists r. split; [|done]. unfold row_at. by apply bget_ok.
Qed.

(** What an operation leaves besides the rows: everything of [E] but the row
    array, the row count, the dirty count and the cursor. *)
Definition kept (E E' : editor) : Prop :=
  e_screenrows E' = e_screenrows E ∧ e_screencols E' = e_screencols E ∧
  e_filename E' = e_filename E ∧ e_statusmsg E' = e_statusmsg E.
Definition at_cursor (E E' : editor) : Prop :=
  e_cx E' = e_cx E ∧ e_cy E' = e_cy E ∧ e_rowoff E' = e_rowoff E ∧ e_coloff E' = e_coloff E.

Lemma text_put E ls k r' l' d :
  text_ok E ls → 0 ≤ k → is_Some (ls !! Z.to_nat k) → row_ok r' l' →
  text_ok (set_dirty d (set_rows (<[Z.to_nat k := r']> (e_row E)) (e_numrows E) E))
          (<[Z.to_nat k := l']> ls).
Proof.
  intros [Hr Hn Hs] Hk Hl Hok. split; cbn; [by apply Forall2_insert| |done].
  rewrite Hn. unfold blen. by rewrite length_insert.
Qed.

(** An operation on the text: it returns, the rows hold [ls], the cursor and
    the settings are as before. *)
Definition does (o : outcome editor) (E : editor) (ls : list (list ascii)) : Prop :=
  ∃ E', o = Ret E' ∧ text_ok E' ls ∧ at_cursor E E' ∧ kept E E'.

Lemma kept_refl E : kept E E.
Proof. done. Qed.
Lemma at_cursor_refl E : at_cursor E E.
Proof. done. Qed.

Lemma Forall2_bump rows ls : Forall2 row_ok rows ls → Forall2 row_ok (bump <$> rows) ls.
Proof. induction 1; constructor; auto using bump_ok. Qed.

Lemma insert_row_ok junk k s l x rest E ls :
  text_ok E ls → 0 ≤ k ≤ e_numrows E → s = l ++ x :: rest → x = NUL →
  does (editorInsertRow junk k s (blen l) E) E (take (Z.to_nat k) ls ++ l :: drop (Z.to_nat k) ls).
Proof.
  intros [Hr Hn Hs] Hk -> ->. unfold editorInsertRow. pose proof (blen_nonneg l) as Hl.
  destruct (Z.ltb_spec (e_numrows E) k), (Z.ltb_spec k 0); try lia.
  assert (bmemcpy (balloc junk (blen l + 1)) 0 (l ++ NUL :: rest) 0 (blen l + 1) = Ret (l ++ [NUL])) as ->.
  { unfold bmemcpy. rewrite !in_buf_true; try (unfold blen, balloc; rewrite ?length_app, ?length_replicate; cbn; lia).
    cbn [andb]. f_equal. unfold overwrite, slice. change (Z.to_nat 0) with 0%nat. rewrite drop_0.
    replace (Z.to_nat (blen l + 1)) with (length (l ++ [NUL])) by (rewrite length_app; unfold blen; cbn; lia).
    replace (l ++ NUL :: rest) with ((l ++ [NUL]) ++ rest) by by rewrite <- (assoc_L app).
    rewrite take_app_length.
    cbn [take app]. rewrite drop_ge; [by rewrite app_nil_r|].
    unfold balloc. rewrite length_replicate, length_app. unfold blen. cbn. lia. }
  cbn [obind]. set (n := Z.to_nat k). set (new := ERow _ _ _ _ _ _ _).
  assert (n ≤ length (e_row E))%nat as Hle.
  { rewrite (Forall2_length _ _ _ Hr). unfold blen in Hn. lia. }
  assert (n ≤ length ls)%nat as Hle' by (by rewrite <- (Forall2_length _ _ _ Hr)).
  set (rows := take n (e_row E) ++ new :: (bump <$> drop n (e_row E))).
  set (E1 := set_rows rows (e_numrows E) E).
  assert (rows !! n = Some new) as Hnew.
  { unfold rows. rewrite lookup_app_r; rewrite length_take_le; [|done..]. by rewrite Nat.sub_diag. }
  assert (row_at E1 k = Ret new) as Hat by by (apply bget_ok; [lia|exact Hnew]).
  destruct (update_row_ok junk k E1 new l [NUL] Hat Hs eq_refl eq_refl) as (rest' & ->).
  cbn [obind]. eexists. split; [done|]. split; [|split; done].
  split; cbn [touch set_dirty set_rows e_row e_numrows e_syntax].
  - unfold E1, rows. cbn [set_rows e_row]. fold n. rewrite insert_app_r_alt; rewrite length_take_le; try lia.
    rewrite Nat.sub_diag. cbn [insert list_insert].
    apply Forall2_app; [by apply Forall2_take|]. constructor; [|by apply Forall2_bump, Forall2_drop].
    by apply (updated_ok new l [] rest').
  - unfold E1, blen in *. cbn [set_rows e_numrows]. rewrite length_app. cbn [length]. rewrite length_take, length_drop. lia.
  - done.
Qed.

Lemma del_row_ok k E ls :
  text_ok E ls → 0 ≤ k < e_numrows E → does (editorDelRow k E) E (delete (Z.to_nat k) ls).
Proof.
  intros [Hr Hn Hs] Hk. unfold editorDelRow. destruct (Z.leb_spec (e_numrows E) k); [lia|].
  assert (Z.to_nat k < length (e_row E))%nat as Hlt.
  { rewrite (Forall2_length _ _ _ Hr). unfold blen in Hn. lia. }
  destruct (lookup_lt_is_Some_2 _ _ Hlt) as [r Hat].
  assert (row_at E k = Ret r) as -> by (apply bget_ok; [lia|done]). cbn [obind].
  eexists. split; [done|]. split; [|split; done].
  split; cbn [touch set_dirty set_rows e_row e_numrows e_syntax]; [|unfold blen in *; rewrite length_delete; [lia|]|done].
  - rewrite delete_take_drop. apply Forall2_app; [by apply Forall2_take|by apply Forall2_bump, Forall2_drop].
  - apply lookup_lt_is_Some_2. unfold blen in Hn. lia.
Qed.

(** A row gets new characters and is rendered again. *)
Lemma rerender_ok junk k E ls r l' rest :
  text_ok E ls → 0 ≤ k → row_at E k = Ret r → is_Some (ls !! Z.to_nat k) →
  does (let! E := put_row k (set_chars (l' ++ NUL :: rest) (blen l') r) E in
        editorUpdateRow junk k E) E (<[Z.to_nat k := l']> ls).
Proof.
  intros Ht Hk Hr Hl. rewrite (put_row_some _ _ _ _ Hr). cbn [obind]. set (r' := set_chars _ _ r).
  set (E1 := set_rows _ _ E).
  assert (row_at E1 k = Ret r') as Hr1 by (eapply row_at_set; exact Hr).
  destruct (update_row_ok junk k E1 r' l' (NUL :: rest) Hr1 (to_syntax _ _ Ht) eq_refl eq_refl) as (rest' & ->).
  eexists. split; [done|]. split; [|split; done].
  unfold E1. cbn [set_rows e_row e_numrows]. rewrite list_insert_insert_eq, set_rows_set_rows.
  assert (row_ok (updated r' l' rest') l') as Hok by by apply (updated_ok r' l' rest).
  exact (text_put E ls k _ l' (e_dirty E) Ht Hk Hl Hok).
Qed.

Lemma does_touch o E ls : does o E ls → does (let! E := o in Ret (touch E)) E ls.
Proof. intros (E' & -> & [] & ? & ?). exists (touch E'). by split_and!. Qed.

Lemma rewrite_row_ok junk k E ls r l' rest :
  text_ok E ls → 0 ≤ k → row_at E k = Ret r → is_Some (ls !! Z.to_nat k) →
  does (let! E := put_row k (set_chars (l' ++ NUL :: rest) (blen l') r) E in
        let! E := editorUpdateRow junk k E in Ret (touch E)) E (<[Z.to_nat k := l']> ls).
Proof.
  intros Ht Hk Hr Hl. pose proof (does_touch _ _ _ (rerender_ok junk k E ls r l' rest Ht Hk Hr Hl)) as Hd.
  by destruct (put_row _ _ _).
Qed.

(** ** Characters *)

(** The line [l] with [c] at [i], padded with blanks if it is too short. *)
Definition put_char (l : list ascii) (i : Z) (c : ascii) : list ascii :=
  take (Z.to_nat i) (l ++ replicate (Z.to_nat (i - blen l)) SP) ++ c :: drop (Z.to_nat i) l.

Lemma split_at {A} (l : list A) i :
  0 ≤ i ≤ blen l → ∃ l1 l2, l = l1 ++ l2 ∧ blen l1 = i ∧ take (Z.to_nat i) l = l1 ∧ drop (Z.to_nat i) l = l2.
Proof.
  intros Hi. exists (take (Z.to_nat i) l), (drop (Z.to_nat i) l). split_and!; [by rewrite take_drop| |done|done].
  unfold blen in *. rewrite length_take. lia.
Qed.

Lemma make_room_ok junk l rest i :
  0 ≤ i →
  ∃ x tl, make_room junk (l ++ NUL :: rest) (blen l) i =
    Ret (take (Z.to_nat i) (l ++ replicate (Z.to_nat (i - blen l)) SP) ++ x :: drop (Z.to_nat i) l ++ NUL :: tl,
         Z.max i (blen l) + 1).
Proof.
  intros Hi. unfold make_room. cbv zeta. pose proof (blen_nonneg l) as H0.
  destruct (Z.ltb_spec (blen l) i) as [Hlt|Hge].
  - destruct (brealloc_keeps junk l (NUL :: rest) (blen l + (i - blen l) + 2)) as (tl & -> & Htl); [lia|].
    assert (∃ sp a b, tl = sp ++ [a; b] ∧ blen sp = i - blen l) as (sp & a & b & -> & Hsp).
    { destruct tl as [|b tl _] using rev_ind; [unfold blen in *; cbn in Htl; lia|].
      destruct tl as [|a tl _] using rev_ind; [unfold blen in *; cbn in Htl; lia|].
      exists tl, a, b. rewrite <- (assoc_L app). split; [done|].
      rewrite !blen_app in Htl. unfold blen in *. cbn in Htl. lia. }
    rewrite bmemset_app by done. cbn [obind].
    set (sps := replicate (Z.to_nat (i - blen l)) SP).
    assert (blen l + (i - blen l) + 1 = blen ((l ++ sps) ++ [a])) as Hpos.
    { rewrite !blen_app. unfold sps. rewrite blen_replicate by lia. unfold blen. cbn. lia. }
    replace (l ++ sps ++ [a; b]) with (((l ++ sps) ++ [a]) ++ b :: []) by by rewrite <- !(assoc_L app).
    rewrite Hpos, bset_app. cbn [obind]. exists a, []. rewrite <- Hpos. do 2 f_equal; [|lia].
    rewrite drop_ge by (unfold blen in Hlt; lia). rewrite take_ge.
    + by rewrite <- !(assoc_L app).
    + rewrite length_app. unfold sps. rewrite length_replicate. unfold blen in *. lia.
  - destruct (split_at l i) as (l1 & l2 & -> & Hl1 & Ht & Hd); [lia|].
    destruct (brealloc_keeps junk ((l1 ++ l2) ++ [NUL]) rest (blen (l1 ++ l2) + 2)) as (tl & Hre & Htl).
    { rewrite blen_app. unfold blen at 2. cbn. lia. }
    rewrite <- (assoc_L app _ [NUL]) in Hre. cbn [app] in Hre. rewrite Hre.
    assert (∃ y, tl = [y]) as [y ->].
    { rewrite !blen_app in Htl. unfold blen in *. destruct tl as [|y [|]]; cbn in Htl; try lia. by exists y. }
    assert (∃ x m, l2 ++ [NUL] = x :: m) as (x & m & Hx) by (destruct l2; eauto; cbn; eauto).
    assert (i + 1 = blen (l1 ++ [x])) as -> by (rewrite blen_app, Hl1; done).
    assert (blen (l1 ++ l2) - i + 1 = blen (l2 ++ [NUL])) as ->.
    { rewrite !blen_app. unfold blen at 4. cbn. lia. }
    subst i. rewrite (bmemmove_app _ l1 (l2 ++ [NUL]) [y] (l1 ++ [x]) (m ++ [y]) []).
    + cbn [obind]. exists x, []. rewrite Hd. do 2 f_equal; [|lia].
      rewrite take_app_le by (unfold blen in *; lia). rewrite Ht. by rewrite <- !(assoc_L app).
    + by rewrite <- !(assoc_L app).
    + rewrite app_nil_r, <- !(assoc_L app). rewrite (assoc_L app l2), Hx. done.
    + rewrite Hx, length_app. cbn. lia.
Qed.

Lemma row_insert_char_ok junk k i c E ls l :
  text_ok E ls → 0 ≤ k → 0 ≤ i → ls !! Z.to_nat k = Some l →
  does (editorRowInsertChar junk k i c E) E (<[Z.to_nat k := put_char l i (to_char c)]> ls).
Proof.
  intros Ht Hk Hi Hl. destruct (text_row _ _ _ _ Ht Hk Hl) as (r & Hr & [Hsz [rest Hc] _ _ _]).
  unfold editorRowInsertChar. rewrite Hr. cbn [obind]. rewrite Hsz, Hc.
  destruct (make_room_ok junk l rest i Hi) as (x & tl & ->). cbn [obind fst snd].
  set (pre := take _ _). assert (blen pre = i) as Hpre.
  { unfold pre, blen. rewrite length_take, length_app, length_replicate. unfold blen. lia. }
  rewrite (bset_at _ _ _ _ _ Hpre). cbn [obind].
  assert (pre ++ to_char c :: drop (Z.to_nat i) l ++ NUL :: tl = put_char l i (to_char c) ++ NUL :: tl) as ->.
  { unfold put_char. fold pre. by rewrite <- (assoc_L app). }
  assert (Z.max i (blen l) + 1 = blen (put_char l i (to_char c))) as ->.
  { unfold put_char. fold pre. rewrite blen_app, blen_cons, Hpre. unfold blen. rewrite length_drop. lia. }
  eapply rewrite_row_ok; [done|done|done|by eexists].
Qed.

Lemma row_append_ok junk k E ls l s l2 rest2 :
  text_ok E ls → 0 ≤ k → ls !! Z.to_nat k = Some l → s = l2 ++ rest2 →
  does (editorRowAppendString junk k s (blen l2) E) E (<[Z.to_nat k := l ++ l2]> ls).
Proof.
  intros Ht Hk Hl ->. destruct (text_row _ _ _ _ Ht Hk Hl) as (r & Hr & [Hsz [rest Hc] _ _ _]).
  unfold editorRowAppendString. rewrite Hr. cbn [obind]. rewrite Hsz, Hc.
  pose proof (blen_nonneg l) as H0. pose proof (blen_nonneg l2) as H2.
  destruct (brealloc_keeps junk l (NUL :: rest) (blen l + blen l2 + 1)) as (tl & -> & Htl); [lia|].
  assert (∃ m y, tl = m ++ [y] ∧ blen m = blen l2) as (m & y & -> & Hm).
  { destruct tl as [|y m _] using rev_ind; [unfold blen in *; cbn in Htl; lia|].
    exists m, y. split; [done|]. rewrite blen_app in Htl. unfold blen in *. cbn in Htl. lia. }
  rewrite (bmemcpy_app l m [y] [] l2 rest2) by done. cbn [obind].
  rewrite (assoc_L app), (bset_at (l ++ l2)) by apply blen_app. cbn [obind].
  rewrite <- blen_app. eapply rewrite_row_ok; [done|done|done|by eexists].
Qed.

(** The character before the cursor is removed; the row is rendered too early
    and has to be rendered again. *)
Lemma row_del_char_ok junk k i E ls l :
  text_ok E ls → 0 ≤ k → 0 ≤ i < blen l → ls !! Z.to_nat k = Some l →
  ∃ r' rest, editorRowDelChar junk k i E =
      Ret (touch (set_rows (<[Z.to_nat k := r']> (e_row E)) (e_numrows E) E)) ∧
    r_chars r' = delete (Z.to_nat i) l ++ NUL :: rest ∧ r_size r' = blen (delete (Z.to_nat i) l).
Proof.
  intros Ht Hk Hi Hl. destruct (text_row _ _ _ _ Ht Hk Hl) as (r & Hr & [Hsz [rest Hc] _ _ _]).
  unfold editorRowDelChar. rewrite Hr. cbn [obind]. rewrite Hsz, Hc.
  destruct (Z.leb_spec (blen l) i); [lia|].
  destruct (split_at l i) as (l1 & l2' & -> & Hl1 & _ & _); [lia|]. subst i.
  destruct l2' as [|c l2]; [rewrite app_nil_r in Hi; lia|].
  assert (delete (Z.to_nat (blen l1)) (l1 ++ c :: l2) = l1 ++ l2) as ->.
  { unfold blen. rewrite Nat2Z.id. apply delete_middle. }
  assert (blen l1 + 1 = blen (l1 ++ [c])) as -> by by rewrite blen_app.
  assert (blen (l1 ++ c :: l2) - blen l1 = blen (l2 ++ [NUL])) as ->.
  { unfold blen. rewrite !length_app. cbn [length]. lia. }
  rewrite (bmemmove_app _ (l1 ++ [c]) (l2 ++ [NUL]) rest l1 (c :: l2) (NUL :: rest)).
  2, 3: by rewrite <- !(assoc_L app). 2: rewrite length_app; cbn; lia.
  cbn [obind]. rewrite (put_row_some _ _ _ _ Hr). cbn [obind]. set (r1 := set_chars _ _ r).
  set (E1 := set_rows _ _ E). assert (row_at E1 k = Ret r1) as Hr1 by (eapply row_at_set; exact Hr).
  destruct (update_row_ok junk k E1 r1 (l1 ++ l2 ++ [NUL]) (NUL :: rest) Hr1 (to_syntax _ _ Ht))
    as (rest' & ->).
  { cbn. unfold blen. rewrite !length_app. cbn [length]. lia. }
  { cbn. by rewrite <- !(assoc_L app). }
  cbn [obind]. set (E2 := set_rows _ _ E1). set (r2 := updated r1 _ _) in *.
  assert (row_at E2 k = Ret r2) as Hr2 by (eapply row_at_set; exact Hr1).
  rewrite Hr2. cbn [obind]. rewrite (put_row_some _ _ _ _ Hr2). cbn [obind].
  unfold E2, E1. cbn [set_rows e_row e_numrows]. rewrite !list_insert_insert_eq, !set_rows_set_rows.
  eexists _, (NUL :: rest). split; [done|]. cbn. split.
  - by rewrite <- !(assoc_L app).
  - rewrite !blen_app, blen_cons. lia.
Qed.

(** ** Text files *)
Definition text_of (ls : list (list ascii)) : list ascii := mjoin ((λ l, l ++ [LF]) <$> ls).

Lemma text_of_cons l ls : text_of (l :: ls) = l ++ LF :: text_of ls.
Proof. unfold text_of. cbn. by rewrite <- (assoc_L app). Qed.

Lemma getline_ok l rest : LF ∉ l → getline (l ++ LF :: rest) = (l ++ [LF], rest).
Proof.
  induction l as [|c l IH]; intros Hl; [done|]. cbn [app getline].
  destruct (Ascii.eqb_spec c LF) as [->|]; [set_solver|]. rewrite IH by set_solver. done.
Qed.

Lemma chomp_ok l : chomp (l ++ [LF]) = l.
Proof. unfold chomp. rewrite last_snoc. change (Ascii.eqb LF LF) with true. cbn [orb]. apply removelast_last. Qed.
