(* ===== verification/KiloEdit.v ===== *)
(** * The text editor: editing refines lines and a position

    The abstract editor is a list of lines and a position in it; the cursor of
    the real one is a position on the screen and the offset of the screen, whose
    sums are the abstract position. *)
From S2P Require Import Prelude CStd Buf Term Kilo KiloFacts.
From Stdlib Require Import Ascii.

Local Open Scope Z_scope.

(** ** The abstract editor *)
Record doc := Doc { doc_lines : list (list ascii); doc_row : nat; doc_col : nat }.

Definition pad_lines (ls : list (list ascii)) (r : nat) : list (list ascii) :=
  ls ++ replicate (S r - length ls) [].

Definition doc_char (c : ascii) (d : doc) : doc :=
  let ls := pad_lines (doc_lines d) (doc_row d) in
  let l := default [] (ls !! doc_row d) in
  Doc (<[doc_row d := put_char l (Z.of_nat (doc_col d)) c]> ls) (doc_row d) (S (doc_col d)).

(** The line is split at the position, or at its end if that is before it. *)
Definition doc_newline (d : doc) : doc :=
  let '(Doc ls r k) := d in
  match ls !! r with
  | Some l => Doc (take r ls ++ take k l :: drop k l :: drop (S r) ls) (S r) 0
  | None => if decide (r = length ls) then Doc (ls ++ [[]]) (S r) 0 else d
  end.

(** The character before the position is removed; at the beginning of a line the
    line is joined to the one before. *)
Definition doc_delete (d : doc) : doc :=
  let '(Doc ls r k) := d in
  match ls !! r, k, r with
  | None, _, _ => d
  | Some l, O, O => d
  | Some l, O, S r' =>
      let prev := default [] (ls !! r') in
      Doc (delete r (<[r' := prev ++ l]> ls)) r' (length prev)
  | Some l, S k', _ => Doc (<[r := delete k' l]> ls) r k'
  end.

(** ** Refinement *)
Record shows (E : editor) (d : doc) : Prop := Shows {
  sh_text : text_ok E (doc_lines d);
  sh_row : e_rowoff E + e_cy E = Z.of_nat (doc_row d);
  sh_col : e_coloff E + e_cx E = Z.of_nat (doc_col d);
  sh_cx : 0 ≤ e_cx E;
  sh_coloff : 0 ≤ e_coloff E;
  sh_cy : 0 ≤ e_cy E;
  sh_rowoff : 0 ≤ e_rowoff E
}.

Lemma text_cursor E ls cx cy ro co : text_ok E ls → text_ok (set_cursor cx cy ro co E) ls.
Proof. by intros [? ? ?]. Qed.
Lemma text_touch E ls : text_ok E ls → text_ok (touch E) ls.
Proof. by intros [? ? ?]. Qed.

Lemma shows_touch E d : shows E d → shows (touch E) d.
Proof. intros [? ? ? ? ? ? ?]. by split; [apply text_touch|..]. Qed.
Lemma shows_cursor E ls r k cx cy ro co :
  text_ok E ls → ro + cy = Z.of_nat r → co + cx = Z.of_nat k → 0 ≤ cx → 0 ≤ co → 0 ≤ cy → 0 ≤ ro →
  shows (set_cursor cx cy ro co E) (Doc ls r k).
Proof. intros. by split; [apply text_cursor|..]. Qed.

Lemma does_trans o E ls f ls' :
  does o E ls → (∀ E', text_ok E' ls → at_cursor E E' → kept E E' → does (f E') E' ls') →
  does (obind o f) E ls'.
Proof.
  intros (E1 & -> & Ht & Hc & Hk) Hf. cbn [obind]. destruct (Hf E1 Ht Hc Hk) as (E2 & -> & Ht2 & Hc2 & Hk2).
  exists E2. split; [done|]. split; [done|]. unfold at_cursor, kept in *. intuition congruence.
Qed.

Lemma does_ret E ls : text_ok E ls → does (Ret E) E ls.
Proof. intros Ht. exists E. split_and!; try done; by split_and!. Qed.

Lemma add_rows_ok junk fuel : ∀ r E ls,
  text_ok E ls → (S r - length ls < fuel)%nat →
  does (add_rows junk fuel (Z.of_nat r) E) E (pad_lines ls r).
Proof.
  induction fuel as [|fuel IH]; intros r E ls Ht Hf; [lia|]. cbn [add_rows].
  pose proof (to_num _ _ Ht) as Hn. unfold blen in Hn. unfold pad_lines.
  destruct (Z.leb_spec (e_numrows E) (Z.of_nat r)) as [Hle|Hgt].
  - eapply does_trans; [eapply (insert_row_ok junk (e_numrows E) [NUL] [] NUL [] E ls Ht); [lia|done|done]|].
    intros E' Ht' _ _. rewrite Hn, Nat2Z.id, take_ge, drop_ge in Ht' by lia.
    replace (S r - length ls)%nat with (S (S r - length (ls ++ [[]])))%nat by (rewrite length_app; cbn; lia).
    cbn [replicate]. change (ls ++ [] :: ?x) with (ls ++ [[]] ++ x). rewrite (assoc_L app).
    apply IH; [done|]. rewrite length_app. cbn. lia.
  - replace (S r - length ls)%nat with O by lia. cbn. rewrite app_nil_r. by apply does_ret.
Qed.

Lemma pad_lines_lookup ls r : ∃ l, pad_lines ls r !! r = Some l.
Proof.
  apply lookup_lt_is_Some_2. unfold pad_lines. rewrite length_app, length_replicate. lia.
Qed.

Lemma insert_char_ok junk c E d :
  shows E d → ∃ E', editorInsertChar junk c E = Ret E' ∧ shows E' (doc_char (to_char c) d) ∧ kept E E'.
Proof.
  intros [Ht Hr Hc Hcx Hco Hcy Hro]. unfold editorInsertChar. rewrite Hr, Hc.
  destruct (add_rows_ok junk (S (Z.to_nat (Z.of_nat (doc_row d) + 1 - e_numrows E))) (doc_row d) E _ Ht)
    as (E1 & -> & Ht1 & Hcur1 & Hk1).
  { pose proof (to_num _ _ Ht) as Hn. unfold blen in Hn. lia. }
  cbn [obind]. destruct (pad_lines_lookup (doc_lines d) (doc_row d)) as [l Hl].
  destruct (row_insert_char_ok junk (Z.of_nat (doc_row d)) (Z.of_nat (doc_col d)) c E1 _ l Ht1)
    as (E2 & -> & Ht2 & Hcur2 & Hk2); [lia|lia|by rewrite Nat2Z.id|].
  cbn [obind]. rewrite Nat2Z.id in Ht2. unfold at_cursor, kept in *.
  eexists. split; [done|]. split.
  - unfold doc_char. rewrite Hl. cbn [default]. apply shows_touch.
    case_match; apply shows_cursor; cbn; (done || lia).
  - unfold touch, kept. destruct (_ =? _); cbn; intuition congruence.
Qed.

(** [l] cut at [k]: the characters get a NUL there. *)
Lemma cut_row junk k i E ls l :
  text_ok E ls → 0 ≤ k → 0 ≤ i ≤ blen l → ls !! Z.to_nat k = Some l →
  does (let! row := row_at E k in
        let! chars := bset (r_chars row) i NUL in
        let! E := put_row k (set_chars chars i row) E in
        editorUpdateRow junk k E) E (<[Z.to_nat k := take (Z.to_nat i) l]> ls).
Proof.
  intros Ht Hk Hi Hl. destruct (text_row _ _ _ _ Ht Hk Hl) as (r & Hr & [Hsz [rest Hc] _ _ _]).
  rewrite Hr. cbn [obind]. rewrite Hc. destruct (split_at l i Hi) as (l1 & l2 & -> & Hl1 & -> & _).
  assert (∃ rest', bset ((l1 ++ l2) ++ NUL :: rest) i NUL = Ret (l1 ++ NUL :: rest')) as [rest' ->].
  { rewrite <- (assoc_L app). destruct l2 as [|c l2]; cbn [app]; rewrite (bset_at _ _ _ _ _ Hl1); eauto. }
  cbn [obind]. rewrite <- Hl1. eapply rerender_ok; [done|done|done|by eexists].
Qed.

Lemma fixcursor_ok E ls r :
  text_ok E ls → e_rowoff E + e_cy E = Z.of_nat r → 0 ≤ e_cy E → 0 ≤ e_rowoff E →
  shows (fixcursor E) (Doc ls (S r) 0).
Proof. intros Ht Hr ? ?. unfold fixcursor. case_match; apply shows_cursor; (done || lia). Qed.
Lemma fixcursor_kept E : kept E (fixcursor E).
Proof. unfold fixcursor. by case_match. Qed.

(** The rows after a split at [fc > 0]. *)
Lemma split_row_ok junk r fc E ls l row :
  text_ok E ls → ls !! r = Some l → row_at E (Z.of_nat r) = Ret row → row_ok row l → 0 < fc ≤ blen l →
  does (let! E := editorInsertRow junk (Z.of_nat r + 1) (drop (Z.to_nat fc) (r_chars row))
                                  (r_size row - fc) E in
        let! row := row_at E (Z.of_nat r) in
        let! chars := bset (r_chars row) fc NUL in
        let! E := put_row (Z.of_nat r) (set_chars chars fc row) E in
        editorUpdateRow junk (Z.of_nat r) E) E
       (take r ls ++ take (Z.to_nat fc) l :: drop (Z.to_nat fc) l :: drop (S r) ls).
Proof.
  intros Ht Hl Hr [Hsz [rest Hc] _ _ _] Hfc. pose proof (to_num _ _ Ht) as Hn. unfold blen in Hn.
  pose proof (lookup_lt_Some _ _ _ Hl) as Hlt.
  destruct (split_at l fc) as (l1 & l2 & Hsp & Hl1 & Htk & Hdr); [lia|].
  assert (r_size row - fc = blen l2) as -> by (rewrite Hsz, Hsp, blen_app; lia).
  eapply does_trans.
  - eapply (insert_row_ok junk _ _ l2 NUL rest E ls Ht); [lia| |done].
    rewrite Hc, Hsp, <- (assoc_L app), <- Hl1. unfold blen. by rewrite Nat2Z.id, drop_app_length.
  - intros E' Ht' _ _. replace (Z.to_nat (Z.of_nat r + 1)) with (S r) in Ht' by lia.
    assert ((take (S r) ls ++ l2 :: drop (S r) ls) !! Z.to_nat (Z.of_nat r) = Some l) as Hl'.
    { rewrite Nat2Z.id, lookup_app_l by (rewrite length_take; lia). by rewrite lookup_take_lt by lia. }
    pose proof (cut_row junk (Z.of_nat r) fc E' _ l Ht' ltac:(lia) ltac:(lia) Hl') as Hcut.
    rewrite Nat2Z.id in Hcut. erewrite take_S_r in Hcut by done. rewrite <- (assoc_L app) in Hcut.
    cbn [app] in Hcut. rewrite insert_app_r_alt in Hcut by (rewrite length_take; lia).
    rewrite length_take_le, Nat.sub_diag in Hcut by lia. cbn [insert list_insert] in Hcut.
    by rewrite Hdr.
Qed.

Lemma insert_empty_ok junk r E ls :
  text_ok E ls → (r ≤ length ls)%nat →
  does (editorInsertRow junk (Z.of_nat r) [NUL] 0 E) E (take r ls ++ [] :: drop r ls).
Proof.
  intros Ht Hr. pose proof (to_num _ _ Ht) as Hn. unfold blen in Hn.
  pose proof (insert_row_ok junk (Z.of_nat r) [NUL] [] NUL [] E ls Ht ltac:(lia) eq_refl eq_refl) as Hd.
  by rewrite Nat2Z.id in Hd.
Qed.

Lemma insert_newline_ok junk E d :
  shows E d → ∃ E', editorInsertNewline junk E = Ret E' ∧ shows E' (doc_newline d) ∧ kept E E'.
Proof.
  destruct d as [ls r k]. intros [Ht Hr Hc Hcx Hco Hcy Hro]. cbn [doc_lines doc_row doc_col] in *.
  pose proof (to_num _ _ Ht) as Hn. unfold blen in Hn. unfold editorInsertNewline. rewrite Hr, Hc.
  assert (∀ o ls', does o E ls' → ∃ E', (let! E := o in Ret (fixcursor E)) = Ret E' ∧
    shows E' (Doc ls' (S r) 0) ∧ kept E E') as Hfix.
  { intros o ls' (E1 & -> & Ht1 & Hcur & Hk). cbn [obind]. eexists. split; [done|].
    unfold at_cursor in Hcur. split; [destruct Hcur as (? & ? & ? & ?); apply fixcursor_ok; [done|lia..]|].
    pose proof (fixcursor_kept E1). unfold kept in *. intuition congruence. }
  cbn [doc_newline]. destruct (ls !! r) as [l|] eqn:Hl.
  - pose proof (lookup_lt_Some _ _ _ Hl) as Hlt. destruct (Z.leb_spec (e_numrows E) (Z.of_nat r)); [lia|].
    destruct (text_row E ls (Z.of_nat r) l Ht ltac:(lia)) as (row & Hrow & Hok); [by rewrite Nat2Z.id|].
    rewrite Hrow. cbn [obind]. pose proof Hok as [Hsz _ _ _ _]. rewrite Hsz.
    set (fc := if blen l <=? Z.of_nat k then blen l else Z.of_nat k).
    assert (0 ≤ fc ≤ blen l ∧ take (Z.to_nat fc) l = take k l ∧ drop (Z.to_nat fc) l = drop k l)
      as (Hfc & Htk & Hdr).
    { unfold fc. unfold blen. destruct (Z.leb_spec (Z.of_nat (length l)) (Z.of_nat k)); rewrite Nat2Z.id.
      - rewrite !take_ge, !drop_ge by lia. split_and!; (done || lia).
      - split_and!; (done || lia). }
    rewrite <- Htk, <- Hdr. apply Hfix. destruct (Z.eqb_spec fc 0) as [E0|Hne].
    + rewrite E0. change (Z.to_nat 0) with 0%nat. rewrite take_0, drop_0.
      replace (l :: drop (S r) ls) with (drop r ls) by by apply drop_S.
      apply insert_empty_ok; [done|lia].
    + destruct (Z.ltb_spec fc 0); [lia|]. rewrite <- Hsz. by eapply split_row_ok; eauto; lia.
  - apply lookup_ge_None in Hl. destruct (Z.leb_spec (e_numrows E) (Z.of_nat r)); [|lia].
    rewrite Hn. destruct (Z.eqb_spec (Z.of_nat r) (Z.of_nat (length ls))) as [E'|Hne].
    + apply Nat2Z.inj in E'. rewrite decide_True by done. apply Hfix.
      replace (ls ++ [[]]) with (take r ls ++ [] :: drop r ls) by by rewrite take_ge, drop_ge by lia.
      apply insert_empty_ok; [done|lia].
    + rewrite decide_False by lia. exists E. by split_and!; [|constructor|].
Qed.

Lemma delete_ge {A} (l : list A) i : (length l ≤ i)%nat → delete i l = l.
Proof. intros Hi. rewrite delete_take_drop, take_ge, drop_ge, app_nil_r by lia. done. Qed.

(** The row is taken apart but not rendered again yet. *)
Lemma del_step junk r k' E ls l :
  text_ok E ls → ls !! r = Some l →
  ∃ E1 r' rest, editorRowDelChar junk (Z.of_nat r) (Z.of_nat k') E = Ret E1 ∧
    e_row E1 = <[r := r']> (e_row E) ∧ e_numrows E1 = e_numrows E ∧ e_syntax E1 = None ∧
    at_cursor E E1 ∧ kept E E1 ∧
    r_chars r' = delete k' l ++ NUL :: rest ∧ r_size r' = blen (delete k' l).
Proof.
  intros Ht Hl. destruct (decide (k' < length l)%nat) as [Hlt|Hge].
  - destruct (row_del_char_ok junk (Z.of_nat r) (Z.of_nat k') E ls l Ht) as (r' & rest & -> & Hc & Hs);
      [lia|unfold blen; lia|by rewrite Nat2Z.id|].
    rewrite !Nat2Z.id in *. eexists _, r', rest. split; [done|]. by split_and!; try done; apply Ht.
  - destruct (text_row E ls (Z.of_nat r) l Ht ltac:(lia)) as (row & Hrow & [Hs [rest Hc] _ _ _]);
      [by rewrite Nat2Z.id|].
    unfold editorRowDelChar. rewrite Hrow. cbn [obind]. rewrite Hs.
    destruct (Z.leb_spec (blen l) (Z.of_nat k')); [|unfold blen in *; lia].
    exists E, row, rest. rewrite delete_ge by lia. split_and!; try done; [|apply Ht].
    symmetry. apply list_insert_id. unfold row_at, bget in Hrow.
    destruct (Z.ltb_spec (Z.of_nat r) 0); [done|]. rewrite Nat2Z.id in Hrow.
    by destruct (e_row E !! r); [injection Hrow as ->|].
Qed.

Lemma rerender_step junk r E ls l' r' rest E1 :
  text_ok E ls → is_Some (ls !! r) → e_row E1 = <[r := r']> (e_row E) →
  e_numrows E1 = e_numrows E → e_syntax E1 = None →
  r_chars r' = l' ++ NUL :: rest → r_size r' = blen l' →
  does (editorUpdateRow junk (Z.of_nat r) E1) E1 (<[r := l']> ls).
Proof.
  intros [Hrows Hn _] Hl Hr1 Hn1 Hs1 Hc Hs.
  assert (row_at E1 (Z.of_nat r) = Ret r') as Hat.
  { unfold row_at. apply bget_ok; [lia|]. rewrite Nat2Z.id, Hr1, list_lookup_insert_eq; [done|].
    rewrite (Forall2_length _ _ _ Hrows). by apply lookup_lt_is_Some. }
  destruct (update_row_ok junk (Z.of_nat r) E1 r' l' (NUL :: rest) Hat Hs1 Hs Hc) as (rest' & ->).
  eexists. split; [done|]. split; [|split; done]. split; cbn [set_rows e_row e_numrows e_syntax].
  - rewrite Nat2Z.id, Hr1, list_insert_insert_eq. apply Forall2_insert; [done|]. by eapply updated_ok.
  - rewrite Hn1, Hn. unfold blen. by rewrite length_insert.
  - done.
Qed.

(** Removing a character inside of a line. *)
Lemma delete_inside junk E ls r k' l :
  shows E (Doc ls r (S k')) → ls !! r = Some l →
  ∃ E', editorDelChar junk E = Ret E' ∧ shows E' (Doc (<[r := delete k' l]> ls) r k') ∧ kept E E'.
Proof.
  intros [Ht Hr Hc Hcx Hco Hcy Hro] Hl. cbn [doc_lines doc_row doc_col] in *.
  pose proof (to_num _ _ Ht) as Hn. unfold blen in Hn. pose proof (lookup_lt_Some _ _ _ Hl) as Hlt.
  unfold editorDelChar. rewrite Hr, Hc.
  destruct (Z.leb_spec (e_numrows E) (Z.of_nat r)); [lia|].
  destruct (Z.eqb_spec (Z.of_nat (S k')) 0); [lia|]. cbn [andb].
  destruct (text_row E ls (Z.of_nat r) l Ht ltac:(lia)) as (row & Hrow & _); [by rewrite Nat2Z.id|].
  rewrite Hrow. cbn [obind]. replace (Z.of_nat (S k') - 1) with (Z.of_nat k') by lia.
  destruct (del_step junk r k' E ls l Ht Hl) as (E1 & r' & rest & -> & Hr1 & Hn1 & Hs1 & Hcur & Hk & Hch & Hsz).
  cbn [obind]. unfold at_cursor in Hcur. destruct Hcur as (Ecx & Ecy & Ero & Eco).
  set (E2 := if (e_cx E1 =? 0) && negb (e_coloff E1 =? 0) then _ else _).
  assert (e_row E2 = e_row E1 ∧ e_numrows E2 = e_numrows E1 ∧ e_syntax E2 = e_syntax E1 ∧ kept E1 E2 ∧
    e_rowoff E2 + e_cy E2 = Z.of_nat r ∧ e_coloff E2 + e_cx E2 = Z.of_nat k' ∧
    0 ≤ e_cx E2 ∧ 0 ≤ e_coloff E2 ∧ 0 ≤ e_cy E2 ∧ 0 ≤ e_rowoff E2)
    as (A1 & A2 & A3 & A4 & A5 & A6 & A7 & A8 & A9 & A10).
  { unfold E2. destruct (Z.eqb_spec (e_cx E1) 0), (Z.eqb_spec (e_coloff E1) 0); cbn; split_and!; (done || lia). }
  destruct (rerender_step junk r E ls (delete k' l) r' rest E2 Ht ltac:(by eexists) ltac:(congruence)
    ltac:(congruence) ltac:(congruence) Hch Hsz) as (E3 & -> & Ht3 & (B1 & B2 & B3 & B4) & Hk3).
  cbn [obind]. eexists. split; [done|]. split.
  - apply shows_touch. by split; cbn [doc_lines doc_row doc_col]; [|lia..].
  - unfold kept, touch in *. cbn. intuition congruence.
Qed.

(** Joining a line to the one before; the screen must be wide enough for that
    line. *)
Lemma delete_join junk E ls r' l prev :
  shows E (Doc ls (S r') 0) → ls !! S r' = Some l → ls !! r' = Some prev →
  0 < e_screencols E → blen prev ≤ e_screencols E + 1 →
  ∃ E', editorDelChar junk E = Ret E' ∧
    shows E' (Doc (delete (S r') (<[r' := prev ++ l]> ls)) r' (length prev)) ∧ kept E E'.
Proof.
  intros [Ht Hr Hc Hcx Hco Hcy Hro] Hl Hp Hsc Hw. cbn [doc_lines doc_row doc_col] in *.
  pose proof (to_num _ _ Ht) as Hn. unfold blen in Hn. pose proof (lookup_lt_Some _ _ _ Hl) as Hlt.
  unfold editorDelChar. rewrite Hr, Hc.
  destruct (Z.leb_spec (e_numrows E) (Z.of_nat (S r'))); [lia|].
  destruct (Z.eqb_spec (Z.of_nat (S r')) 0); [lia|]. cbn [Z.of_nat Z.eqb andb].
  destruct (text_row E ls (Z.of_nat (S r')) l Ht ltac:(lia)) as (row & Hrow & [Hs [rest Hch] _ _ _]);
    [by rewrite Nat2Z.id|].
  destruct (text_row E ls (Z.of_nat r') prev Ht ltac:(lia)) as (prow & Hprow & [Hps _ _ _ _]);
    [by rewrite Nat2Z.id|].
  rewrite Hrow. cbn [obind]. replace (Z.of_nat (S r') - 1) with (Z.of_nat r') by lia.
  rewrite Hprow. cbn [obind]. rewrite Hs, Hch, Hps.
  destruct (row_append_ok junk (Z.of_nat r') E ls prev (l ++ NUL :: rest) l (NUL :: rest) Ht)
    as (E1 & -> & Ht1 & (B1 & B2 & B3 & B4) & Hk1); [lia|by rewrite Nat2Z.id|done|].
  cbn [obind]. rewrite Nat2Z.id in Ht1. pose proof (to_num _ _ Ht1) as Hn1.
  unfold blen in Hn1. rewrite length_insert in Hn1.
  destruct (del_row_ok (Z.of_nat (S r')) E1 _ Ht1) as (E2 & -> & Ht2 & (C1 & C2 & C3 & C4) & Hk2); [lia|].
  cbn [obind]. rewrite Nat2Z.id in Ht2. cbv zeta.
  pose proof Hk1 as (Sr1 & Sc1 & _). pose proof Hk2 as (Sr2 & Sc2 & _).
  eexists. split; [done|]. split.
  - apply shows_touch. unfold blen in Hw.
    destruct (Z.eqb_spec (e_cy E2) 0);
      cbn [set_cursor e_cx e_cy e_rowoff e_coloff e_screencols e_screenrows];
      unfold blen; destruct (Z.leb_spec (e_screencols E2) (Z.of_nat (length prev)));
      (split; [repeat apply text_cursor; exact Ht2|cbn; lia..]).
  - unfold kept, touch in *. repeat case_match; cbn; intuition congruence.
Qed.

(** A join happens on a line that fits on the screen. *)
Definition join_fits (cols : Z) (d : doc) : Prop :=
  match d with
  | Doc ls (S r') O => 0 < cols ∧ ∀ prev, ls !! r' = Some prev → blen prev ≤ cols + 1
  | _ => True
  end.

Lemma delete_char_ok junk E d :
  shows E d → join_fits (e_screencols E) d →
  ∃ E', editorDelChar junk E = Ret E' ∧ shows E' (doc_delete d) ∧ kept E E'.
Proof.
  destruct d as [ls r k]. intros Hsh Hf. cbn [doc_delete].
  pose proof Hsh as [Ht Hr Hc Hcx Hco Hcy Hro]. cbn [doc_lines doc_row doc_col] in *.
  destruct (ls !! r) as [l|] eqn:Hl; [destruct k as [|k']; [destruct r as [|r']|]|].
  - exists E. unfold editorDelChar. rewrite Hr, Hc. split_and!; [|done|done].
    by destruct (e_numrows E <=? Z.of_nat 0).
  - pose proof (lookup_lt_Some _ _ _ Hl). destruct (lookup_lt_is_Some_2 ls r') as [prev Hp]; [lia|].
    rewrite Hp. cbn [default]. destruct Hf as [? Hf]. eapply delete_join; eauto.
  - by apply delete_inside.
  - exists E. apply lookup_ge_None in Hl. unfold editorDelChar. rewrite Hr.
    pose proof (to_num _ _ Ht) as Hn. unfold blen in Hn.
    by destruct (Z.leb_spec (e_numrows E) (Z.of_nat r)); [|lia].
Qed.
