(* ===== verification/KiloUi.v ===== *)
(** * The text editor: keys, screen, search and the main loop (src/kilo.c)

    The terminal is a record: the input is a list of what each one-byte [read]
    answers (a byte, or [None] when it times out with 0 bytes), the output the
    text written so far.  An exhausted input is a terminal that never answers
    again.  The other answers of the system are variables of the sections. *)
From S2P Require Import Prelude CStd Buf Term Kilo.
From Stdlib Require Import Ascii.

Local Open Scope Z_scope.

(** ** Keys *)
Definition KEY_NULL : Z := 0.
Definition CTRL_C : Z := 3.
Definition CTRL_F : Z := 6.
Definition CTRL_H : Z := 8.
Definition CTRL_L : Z := 12.
Definition ENTER : Z := 13.
Definition CTRL_Q : Z := 17.
Definition CTRL_S : Z := 19.
Definition ESC : Z := 27.
Definition BACKSPACE : Z := 127.
Definition ARROW_LEFT : Z := 1000.
Definition ARROW_RIGHT : Z := 1001.
Definition ARROW_UP : Z := 1002.
Definition ARROW_DOWN : Z := 1003.
Definition DEL_KEY : Z := 1004.
Definition HOME_KEY : Z := 1005.
Definition END_KEY : Z := 1006.
Definition PAGE_UP : Z := 1007.
Definition PAGE_DOWN : Z := 1008.

Record tty := Tty { tt_in : list (option ascii); tt_out : list ascii }.

(** The key of the two bytes after ESC; [more] is the answer to the third
    [read], made only for a digit.  [inl] is a key, [inr] the input left when the
    sequence is not known. *)
Definition csi_key (seq1 : ascii) (inp : list (option ascii))
    : outcome ((Z * list (option ascii)) + list (option ascii)) :=
  if isdigit_c seq1 then
    match inp with
    | [] => Spin
    | None :: inp => Ret (inl (ESC, inp))
    | Some seq2 :: inp =>
        if Ascii.eqb seq2 "~"%char then
          if Ascii.eqb seq1 "3"%char then Ret (inl (DEL_KEY, inp))
          else if Ascii.eqb seq1 "5"%char then Ret (inl (PAGE_UP, inp))
          else if Ascii.eqb seq1 "6"%char then Ret (inl (PAGE_DOWN, inp))
          else Ret (inr inp)
        else Ret (inr inp)
    end
  else if Ascii.eqb seq1 "A"%char then Ret (inl (ARROW_UP, inp))
  else if Ascii.eqb seq1 "B"%char then Ret (inl (ARROW_DOWN, inp))
  else if Ascii.eqb seq1 "C"%char then Ret (inl (ARROW_RIGHT, inp))
  else if Ascii.eqb seq1 "D"%char then Ret (inl (ARROW_LEFT, inp))
  else if Ascii.eqb seq1 "H"%char then Ret (inl (HOME_KEY, inp))
  else if Ascii.eqb seq1 "F"%char then Ret (inl (END_KEY, inp))
  else Ret (inr inp).

(** [while(1)] with [c == ESC]: an unknown sequence is dropped and the next two
    bytes are taken for the rest of another one. *)
Fixpoint escape_loop (fuel : nat) (inp : list (option ascii)) : outcome (Z * list (option ascii)) :=
  match fuel with
  | O => Spin
  | S fuel =>
      match inp with
      | [] => Spin
      | None :: inp => Ret (ESC, inp)
      | Some _ :: [] => Spin
      | Some _ :: None :: inp => Ret (ESC, inp)
      | Some seq0 :: Some seq1 :: inp =>
          if Ascii.eqb seq0 "["%char then
            let! r := csi_key seq1 inp in
            match r with inl k => Ret k | inr inp => escape_loop fuel inp end
          else if Ascii.eqb seq0 "O"%char then
            if Ascii.eqb seq1 "H"%char then Ret (HOME_KEY, inp)
            else if Ascii.eqb seq1 "F"%char then Ret (END_KEY, inp)
            else escape_loop fuel inp
          else escape_loop fuel inp
      end
  end.

(** The [char] read is returned as an [int]: bytes from 128 on are negative. *)
Fixpoint editorReadKey (inp : list (option ascii)) : outcome (Z * list (option ascii)) :=
  match inp with
  | [] => Spin
  | None :: inp => editorReadKey inp
  | Some c :: inp =>
      if schar c =? ESC then escape_loop (S (length inp)) inp else Ret (schar c, inp)
  end.

(** ** The screen *)
Definition KILO_VERSION : string := "0.0.1".

Definition editorSyntaxToColor (hl : Z) : Z :=
  if (hl =? HL_COMMENT) || (hl =? HL_MLCOMMENT) then 36
  else if hl =? HL_KEYWORD1 then 33
  else if hl =? HL_KEYWORD2 then 32
  else if hl =? HL_STRING then 35
  else if hl =? HL_NUMBER then 31
  else if hl =? HL_MATCH then 34
  else 37.

(** The [n] characters of a row from [j] on, each in its colour. *)
Fixpoint draw_chars (n : nat) (c : list ascii) (hl : list Z) (j color : Z) : outcome (list ascii) :=
  match n with
  | O => Ret []
  | S n =>
      let! h := bget hl j in
      let! x := bget c j in
      if h =? HL_NONPRINT then
        let sym := if schar x <=? 26 then to_char (64 + schar x) else "?"%char in
        let! rest := draw_chars n c hl (j + 1) color in
        Ret (esc "[7m" ++ sym :: esc "[0m" ++ rest)
      else if h =? HL_NORMAL then
        let! rest := draw_chars n c hl (j + 1) (-1) in
        Ret ((if color =? -1 then [] else esc "[39m") ++ x :: rest)
      else
        let col := editorSyntaxToColor h in
        let! rest := draw_chars n c hl (j + 1) col in
        Ret ((if col =? color then [] else esc ("[" ++ fmt_d col ++ "m")) ++ x :: rest)
  end.

(** One row of the text; the number of its characters on the screen is computed
    from the rendered size and the horizontal offset. *)
Definition draw_row (E : editor) (r : erow) : outcome (list ascii) :=
  let len := r_rsize r - e_coloff E in
  let! text :=
    if 0 <? len then
      let len := if e_screencols E <? len then e_screencols E else len in
      if len <=? 0 then Ret []
      else
        let! hl := need NullDeref (r_hl r) in
        draw_chars (Z.to_nat len) (r_render r) hl (e_coloff E) (-1)
    else Ret [] in
  Ret (text ++ esc "[39m" ++ esc "[0K" ++ CRLF).

(** The centred welcome line.  On a screen narrower than the line the padding is
    negative and [while(padding--)] counts down until it overflows. *)
Definition draw_welcome (E : editor) : outcome (list ascii) :=
  let welcome := chars_of ("Kilo editor -- verison " ++ KILO_VERSION) ++ esc "[0K" ++ CRLF in
  let padding := Z.quot (e_screencols E - blen welcome) 2 in
  let '(start, padding) := if padding =? 0 then ([], 0) else (["~"%char], padding - 1) in
  if padding <? 0 then Stuck SignedOverflow
  else Ret (start ++ replicate (Z.to_nat padding) SP ++ welcome).

(** The rows of the screen from [y] on, [n] of them. *)
Fixpoint draw_rows (n : nat) (y : Z) (E : editor) : outcome (list ascii) :=
  match n with
  | O => Ret []
  | S n =>
      let filerow := e_rowoff E + y in
      let! line :=
        if e_numrows E <=? filerow then
          if (e_numrows E =? 0) && (y =? Z.quot (e_screenrows E) 3) then draw_welcome E
          else Ret ("~"%char :: esc "[0K" ++ CRLF)
        else let! r := row_at E filerow in draw_row E r in
      let! rest := draw_rows n (y + 1) E in
      Ret (line ++ rest)
  end.

(** [while(len < E.screencols)] of the status line. *)
Fixpoint fill_status (fuel : nat) (len cols : Z) (rstatus : list ascii) : outcome (list ascii) :=
  match fuel with
  | O => Spin
  | S fuel =>
      if len <? cols then
        if cols - len =? blen rstatus then Ret rstatus
        else let! rest := fill_status fuel (len + 1) cols rstatus in Ret (SP :: rest)
      else Ret []
  end.

Definition draw_status (E : editor) : outcome (list ascii) :=
  let! filename := need NullDeref (e_filename E) in
  let status := take 79 (chars_of (str_take 20 filename ++ " - " ++ fmt_d (e_numrows E) ++ " lines " ++
                                   (if e_dirty E =? 0 then "" else "(modified)"))) in
  let rstatus := chars_of (fmt_d (e_rowoff E + e_cy E + 1) ++ "/" ++ fmt_d (e_numrows E)) in
  let len := if e_screencols E <? blen status then e_screencols E else blen status in
  if len <? 0 then Stuck OutOfBounds
  else
    let! fill := fill_status (S (Z.to_nat (e_screencols E - len))) len (e_screencols E) rstatus in
    Ret (take (Z.to_nat len) status ++ fill).

(** The column of the cursor, tabs counted: [n] characters from [j] on. *)
Fixpoint cursor_column (n : nat) (row : erow) (j cx : Z) : outcome Z :=
  match n with
  | O => Ret cx
  | S n =>
      let! tab := if j <? r_size row then let! c := bget (r_chars row) j in Ret (Ascii.eqb c TAB)
                  else Ret false in
      let cx := if (tab : bool) then cx + (7 - Z.rem cx 8) else cx in
      cursor_column n row (j + 1) (cx + 1)
  end.

(** All that is written to the terminal; [now] is [time(NULL)]. *)
Definition editorRefreshScreen (now : Z) (E : editor) : outcome (list ascii) :=
  let! rows := draw_rows (Z.to_nat (e_screenrows E)) 0 E in
  let! status := draw_status E in
  let msg := chars_of (e_statusmsg E) in
  let! shown :=
    if negb (blen msg =? 0) && (now - e_statusmsg_time E <? 5) then
      if blen msg <=? e_screencols E then Ret msg
      else if e_screencols E <? 0 then Stuck OutOfBounds
      else Ret (take (Z.to_nat (e_screencols E)) msg)
    else Ret [] in
  let filerow := e_rowoff E + e_cy E in
  let! cx :=
    if e_numrows E <=? filerow then Ret 1
    else let! row := row_at E filerow in
         cursor_column (Z.to_nat (e_cx E)) row (e_coloff E) 1 in
  Ret (esc "[?25l" ++ esc "[H" ++ rows ++ esc "[0K" ++ esc "[7m" ++ status ++ esc "[0m" ++ CRLF ++
       esc "[0K" ++ shown ++ esc ("[" ++ fmt_d (e_cy E + 1) ++ ";" ++ fmt_d cx ++ "H") ++ esc "[?25h").

(** ** Moving the cursor *)
Definition rowlen_at (filerow : Z) (E : editor) : outcome Z :=
  if e_numrows E <=? filerow then Ret 0 else let! row := row_at E filerow in Ret (r_size row).

(** Fix cx if the current line has not enough chars. *)
Definition clamp_cursor (E : editor) : outcome editor :=
  let filecol := e_coloff E + e_cx E in
  let! rowlen := rowlen_at (e_rowoff E + e_cy E) E in
  if rowlen <? filecol then
    let cx := e_cx E - (filecol - rowlen) in
    if cx <? 0 then Ret (set_cursor 0 (e_cy E) (e_rowoff E) (e_coloff E + cx) E)
    else Ret (set_cursor cx (e_cy E) (e_rowoff E) (e_coloff E) E)
  else Ret E.

(** The [switch] on the key. *)
Definition move_switch (key : Z) (E : editor) : outcome editor :=
  let filerow := e_rowoff E + e_cy E in
  let filecol := e_coloff E + e_cx E in
  if key =? ARROW_LEFT then
    if e_cx E =? 0 then
      if negb (e_coloff E =? 0) then
        Ret (set_cursor (e_cx E) (e_cy E) (e_rowoff E) (e_coloff E - 1) E)
      else if 0 <? filerow then
        let! prev := row_at E (filerow - 1) in
        let cx := r_size prev in
        if e_screencols E - 1 <? cx then
          Ret (set_cursor (e_screencols E - 1) (e_cy E - 1) (e_rowoff E) (cx - e_screencols E + 1) E)
        else Ret (set_cursor cx (e_cy E - 1) (e_rowoff E) (e_coloff E) E)
      else Ret E
    else Ret (set_cursor (e_cx E - 1) (e_cy E) (e_rowoff E) (e_coloff E) E)
  else if key =? ARROW_RIGHT then
    if e_numrows E <=? filerow then Ret E
    else
      let! row := row_at E filerow in
      if filecol <? r_size row then
        if e_cx E =? e_screencols E - 1
        then Ret (set_cursor (e_cx E) (e_cy E) (e_rowoff E) (e_coloff E + 1) E)
        else Ret (set_cursor (e_cx E + 1) (e_cy E) (e_rowoff E) (e_coloff E) E)
      else if filecol =? r_size row then
        if e_cy E =? e_screenrows E - 1
        then Ret (set_cursor 0 (e_cy E) (e_rowoff E + 1) 0 E)
        else Ret (set_cursor 0 (e_cy E + 1) (e_rowoff E) 0 E)
      else Ret E
  else if key =? ARROW_UP then
    if e_cy E =? 0 then
      if negb (e_rowoff E =? 0)
      then Ret (set_cursor (e_cx E) (e_cy E) (e_rowoff E - 1) (e_coloff E) E) else Ret E
    else Ret (set_cursor (e_cx E) (e_cy E - 1) (e_rowoff E) (e_coloff E) E)
  else if key =? ARROW_DOWN then
    if filerow <? e_numrows E then
      if e_cy E =? e_screenrows E - 1
      then Ret (set_cursor (e_cx E) (e_cy E) (e_rowoff E + 1) (e_coloff E) E)
      else Ret (set_cursor (e_cx E) (e_cy E + 1) (e_rowoff E) (e_coloff E) E)
    else Ret E
  else Ret E.

Definition editorMoveCursor (key : Z) (E : editor) : outcome editor :=
  let! E := move_switch key E in clamp_cursor E.

Fixpoint move_times (n : nat) (key : Z) (E : editor) : outcome editor :=
  match n with
  | O => Ret E
  | S n => let! E := editorMoveCursor key E in move_times n key E
  end.

(** ** Searching *)
Definition KILO_QUERY_LEN : Z := 256.

(** The local variables of [editorFind]; [f_saved] is the row whose highlights
    are saved, with the copy. *)
Record finder := Finder {
  f_query : list ascii; f_last_match : Z; f_saved : option (Z * list Z)
}.

(** FIND_RESTORE_HL *)
Definition restore_hl (f : finder) (E : editor) : outcome (finder * editor) :=
  match f_saved f with
  | None => Ret (f, E)
  | Some (k, hl) =>
      let! row := row_at E k in
      let! old := need NullDeref (r_hl row) in
      let! hl := bmemcpy old 0 hl 0 (r_rsize row) in
      let! E := put_row k (set_hl hl row) E in
      Ret (Finder (f_query f) (f_last_match f) None, E)
  end.

(** The next row in the direction [dir] whose rendered text has the query: its
    index and the offset of the match. *)
Fixpoint find_row (n : nat) (dir current : Z) (query : list ascii) (E : editor)
    : outcome (option (Z * Z)) :=
  match n with
  | O => Ret None
  | S n =>
      let current := current + dir in
      let current := if current =? -1 then e_numrows E - 1
                     else if current =? e_numrows E then 0 else current in
      let! row := row_at E current in
      let! text := cstr (r_render row) in
      match strstr text query with
      | Some rest => Ret (Some (current, blen text - blen rest))
      | None => find_row n dir current query E
      end
  end.

Definition show_match (current offset : Z) (f : finder) (E : editor) : outcome (finder * editor) :=
  let! row := row_at E current in
  let! r :=
    match r_hl row with
    | Some hl =>
        let! saved := bmemcpy (balloc 0 (r_rsize row)) 0 hl 0 (r_rsize row) in
        let! marked := bmemset hl offset HL_MATCH (blen (f_query f)) in
        let! E := put_row current (set_hl marked row) E in
        Ret (Finder (f_query f) current (Some (current, saved)), E)
    | None => Ret (Finder (f_query f) current (f_saved f), E)
    end in
  let '(f, E) := r in
  if e_screencols E <? offset then
    let diff := offset - e_screencols E in
    Ret (f, set_cursor (offset - diff) 0 current diff E)
  else Ret (f, set_cursor offset 0 current 0 E).

(** Search occurrence, in the direction [find_next] if it is not 0. *)
Definition find_step (find_next : Z) (f : finder) (E : editor) : outcome (finder * editor) :=
  let find_next := if f_last_match f =? -1 then 1 else find_next in
  if find_next =? 0 then Ret (f, E)
  else
    let! m := find_row (Z.to_nat (e_numrows E)) find_next (f_last_match f) (f_query f) E in
    let! r := restore_hl f E in
    match m with
    | Some (current, offset) => show_match current offset r.1 r.2
    | None => Ret r
    end.

(** What a key changes in the query: the query, the last match and the
    direction. *)
Definition find_key (c : Z) (f : finder) : finder * Z :=
  if (c =? DEL_KEY) || (c =? CTRL_H) || (c =? BACKSPACE) then
    (Finder (removelast (f_query f)) (-1) (f_saved f), 0)
  else if (c =? ARROW_RIGHT) || (c =? ARROW_DOWN) then (f, 1)
  else if (c =? ARROW_LEFT) || (c =? ARROW_UP) then (f, -1)
  else if (32 <=? c) && (c <=? 126) then
    if blen (f_query f) <? KILO_QUERY_LEN
    then (Finder (f_query f ++ [to_char c]) (-1) (f_saved f), 0)
    else (f, 0)
  else (f, 0).

Section session.
(** [time(NULL)] as a function of the number of terminal events still to come. *)
Variable clock : nat → Z.

Definition now (t : tty) : Z := clock (length (tt_in t)).

Definition refresh (t : tty) (E : editor) : outcome tty :=
  let! screen := editorRefreshScreen (now t) E in Ret (Tty (tt_in t) (tt_out t ++ screen)).

Definition read_key (t : tty) : outcome (Z * tty) :=
  let! r := editorReadKey (tt_in t) in Ret (r.1, Tty r.2 (tt_out t)).

Definition find_message (query : list ascii) : string :=
  "Search: " ++ String.string_of_list_ascii query ++ " (Use ESC/Arrows/Enter)".

(** [E0] is the editor at the start, for the saved cursor. *)
Fixpoint find_loop (fuel : nat) (E0 : editor) (f : finder) (t : tty) (E : editor)
    : outcome (tty * editor) :=
  match fuel with
  | O => Spin
  | S fuel =>
      let E := editorSetStatusMessage (find_message (f_query f)) (now t) E in
      let! t := refresh t E in
      let! r := read_key t in
      let '(c, t) := r in
      if (c =? ESC) || (c =? ENTER) then
        let E := if c =? ESC then set_cursor (e_cx E0) (e_cy E0) (e_rowoff E0) (e_coloff E0) E else E in
        let! r := restore_hl f E in
        Ret (t, editorSetStatusMessage "" (now t) r.2)
      else
        let '(f, find_next) := find_key c f in
        let! r := find_step find_next f E in
        find_loop fuel E0 r.1 t r.2
  end.

Definition editorFind (t : tty) (E : editor) : outcome (tty * editor) :=
  find_loop (S (length (tt_in t))) E (Finder [] (-1) None) t E.

(** ** The main loop *)
Variable junk : ascii.
(** The answers of the file system when the text is saved. *)
Variables (opens truncates : bool) (writes : Z → Z) (err : string).

(** The editor with the static variables [quit_times] and [kilo_exiting], the
    terminal and the text last written in the file. *)
Record kilo := Kilo {
  k_editor : editor; k_quit_times : Z; k_exiting : bool; k_tty : tty; k_disk : option (list ascii)
}.

Definition KILO_QUIT_TIMES : Z := 3.

(** What a key does to the editor and the terminal, CTRL_Q apart. *)
Definition key_switch (c : Z) (k : kilo) : outcome kilo :=
  let '(Kilo E q x t disk) := k in
  let edited o := let! E := o in Ret (Kilo E q x t disk) in
  if c =? ENTER then edited (editorInsertNewline junk E)
  else if c =? CTRL_C then Ret k
  else if c =? CTRL_S then
    let! r := editorSave opens truncates writes err (now t) E in
    let '(_, E, text) := r in
    Ret (Kilo E q x t (match text with Some _ => text | None => disk end))
  else if c =? CTRL_F then let! r := editorFind t E in Ret (Kilo r.2 q x r.1 disk)
  else if (c =? BACKSPACE) || (c =? CTRL_H) || (c =? DEL_KEY) then edited (editorDelChar junk E)
  else if (c =? PAGE_UP) || (c =? PAGE_DOWN) then
    let cy := if (c =? PAGE_UP) && negb (e_cy E =? 0) then 0
              else if (c =? PAGE_DOWN) && negb (e_cy E =? e_screenrows E - 1) then e_screenrows E - 1
              else e_cy E in
    let E := set_cursor (e_cx E) cy (e_rowoff E) (e_coloff E) E in
    if e_screenrows E <? 0 then Stuck SignedOverflow
    else edited (move_times (Z.to_nat (e_screenrows E)) (if c =? PAGE_UP then ARROW_UP else ARROW_DOWN) E)
  else if (c =? ARROW_UP) || (c =? ARROW_DOWN) || (c =? ARROW_LEFT) || (c =? ARROW_RIGHT) then
    edited (editorMoveCursor c E)
  else if (c =? CTRL_L) || (c =? ESC) then Ret k
  else edited (editorInsertChar junk c E).

Definition quit_message (n : Z) : string :=
  "WARNING!!! File has unsaved changes. Press Ctrl-Q " ++ fmt_d n ++ " more times to quit.".

Definition editorProcessKeypress (k : kilo) : outcome kilo :=
  let '(Kilo E q x t disk) := k in
  let! r := read_key t in
  let '(c, t) := r in
  if c =? CTRL_Q then
    if negb (e_dirty E =? 0) && negb (q =? 0) then
      Ret (Kilo (editorSetStatusMessage (quit_message q) (now t) E) (q - 1) x t disk)
    else Ret (Kilo E KILO_QUIT_TIMES true t disk)
  else
    let! k := key_switch c (Kilo E q x t disk) in
    Ret (Kilo (k_editor k) KILO_QUIT_TIMES (k_exiting k) (k_tty k) (k_disk k)).

Definition editorFileWasModified (E : editor) : Z := e_dirty E.

(** [size]: the answer of [getWindowSize], if there is one.  The flag is set
    when the size is not known. *)
Definition initEditor (size : option (Z * Z)) (E : editor) : editor * bool :=
  let '(rows, cols) := default (e_screenrows E, e_screencols E) size in
  (Editor 0 0 0 0 (rows - 2) cols 0 [] 0 None (e_statusmsg E) (e_statusmsg_time E) None,
   match size with Some _ => false | None => true end).

Fixpoint kilo_loop (fuel : nat) (k : kilo) : outcome kilo :=
  match fuel with
  | O => Spin
  | S fuel =>
      if k_exiting k then Ret k
      else
        let! t := refresh (k_tty k) (k_editor k) in
        let! k := editorProcessKeypress (Kilo (k_editor k) (k_quit_times k) (k_exiting k) t (k_disk k)) in
        kilo_loop fuel k
  end.

Definition help_message : string := "HELP: Ctrl-S = save | Ctrl-Q = quit | Ctrl-F = find".

(** [k] is the state that earlier runs left. *)
Definition kilo_main (filename : string) (file : list ascii + bool) (size : option (Z * Z)) (k : kilo)
    : outcome kilo :=
  let '(E, failed) := initEditor size (k_editor k) in
  let E := editorSelectSyntaxHighlight filename E in
  let! r := editorOpen junk filename file E in
  let E := editorSetStatusMessage help_message (now (k_tty k)) r.2 in
  let! k := kilo_loop (S (length (tt_in (k_tty k))))
              (Kilo E (k_quit_times k) (k_exiting k || failed) (k_tty k) (k_disk k)) in
  Ret (Kilo (k_editor k) (k_quit_times k) false (k_tty k) (k_disk k)).
End session.
