(* ===== verification/KiloHl.v ===== *)
(** * The text editor: the scan for highlights

    On a text without tabs, backslashes and NULs the scan of a row ends and
    stays inside of the arrays; with them it does not (KiloSpec.v). *)
From S2P Require Import Prelude CStd Buf Term Kilo KiloFacts.
From Stdlib Require Import Ascii.

Local Open Scope Z_scope.

(** ** What a syntax must be like *)
Definition word_ok (kw : string) : Prop := NUL ∉ (split_kw kw).1 ∧ (split_kw kw).1 ≠ [].
Record syntax_ok (sx : editorSyntax) : Prop := SyntaxOk {
  sx_words : Forall word_ok (sx_keywords sx);
  sx_open : (sx_mcs sx).2 ≠ NUL;
  sx_close : (sx_mce sx).2 ≠ NUL
}.

Lemma C_syntax_ok : syntax_ok C_syntax.
Proof. split; [apply (bool_decide_unpack _); vm_compute; exact I|done|done]. Qed.

(** ** One row *)
Section scan.
Context (sx : editorSyntax) (Hsx : syntax_ok sx).
Context (l rest : list ascii) (Hnul : NUL ∉ l) (Hbs : "\"%char ∉ l).
Abbreviation render := (l ++ NUL :: rest).

Lemma render_get i : 0 ≤ i ≤ blen l →
  ∃ c, bget render i = Ret c ∧ (c ≠ NUL → i < blen l) ∧ (i < blen l → c ≠ NUL ∧ c ≠ "\"%char).
Proof.
  intros Hi. destruct (decide (i < blen l)) as [Hlt|].
  - destruct (lookup_lt_is_Some_2 l (Z.to_nat i)) as [c Hc]; [unfold blen in *; lia|].
    exists c. split_and!; [|done|intros _; apply list_elem_of_lookup_2 in Hc; split; by intros ->].
    apply bget_ok; [lia|]. by rewrite lookup_app_l by (eapply lookup_lt_Some; eauto).
  - exists NUL. assert (i = blen l) as -> by lia. split_and!; [apply bget_app|done|lia].
Qed.

Lemma mark_get i m : 0 ≤ i < blen l →
  ∃ b, at_mark render i m = Ret b ∧ (b = true → m.2 ≠ NUL → i + 2 ≤ blen l).
Proof.
  intros Hi. unfold at_mark. destruct (render_get i) as (c & -> & _ & _); [lia|]. cbn [obind].
  destruct (Ascii.eqb c m.1); [|by eexists].
  destruct (render_get (i + 1)) as (d & -> & Hd & _); [lia|]. cbn [obind].
  eexists. split; [done|]. intros ->%Ascii.eqb_eq Hm. specialize (Hd Hm). lia.
Qed.

Lemma word_get kw : ∀ i, 0 ≤ i ≤ blen l → NUL ∉ kw →
  ∃ b, at_word render i kw = Ret b ∧ (b = true → i + blen kw ≤ blen l).
Proof.
  induction kw as [|k kw IH]; intros i Hi Hk; cbn [at_word].
  { eexists. split; [done|]. intros _. unfold blen in *. cbn. lia. }
  destruct (render_get i) as (c & -> & Hc & _); [lia|]. cbn [obind].
  destruct (Ascii.eqb_spec c k) as [->|]; [|by eexists].
  assert (i < blen l) by (apply Hc; set_solver).
  destruct (IH (i + 1)) as (b & -> & Hb); [lia|set_solver|].
  eexists. split; [done|]. intros E. specialize (Hb E). rewrite blen_cons. lia.
Qed.

Lemma keyword_get i kws : 0 ≤ i ≤ blen l → Forall word_ok kws →
  ∃ o, find_keyword render i kws = Ret o ∧
       (∀ n b, o = Some (n, b) → 0 < n ∧ i + n ≤ blen l).
Proof.
  intros Hi. induction 1 as [|kw kws [Hk Hne] _ IH]; cbn [find_keyword]; [by eexists|].
  destruct (split_kw kw) as [w kw2]. cbn [fst] in *.
  destruct (word_get w i Hi Hk) as (b & -> & Hb). cbn [obind].
  destruct b; cbn [obind]; [|apply IH]. specialize (Hb eq_refl).
  destruct (render_get (i + blen w)) as (c & -> & _ & _); [unfold blen in *; lia|]. cbn [obind].
  destruct (is_separator c); [|apply IH]. eexists. split; [done|]. intros n b [= <- <-].
  split; [|done]. destruct w; [done|]. unfold blen. cbn. lia.
Qed.

Lemma bset_len {A} (b : list A) i v : 0 ≤ i < blen b → ∃ b', bset b i v = Ret b' ∧ blen b' = blen b.
Proof.
  intros [Hi Hl]. unfold bset. destruct (Z.leb_spec 0 i), (Z.ltb_spec i (blen b)); try lia.
  eexists. split; [done|]. unfold blen. by rewrite length_insert.
Qed.

Lemma bmemset_len {A} (b : list A) i v n :
  0 ≤ i → 0 ≤ n → i + n ≤ blen b → ∃ b', bmemset b i v n = Ret b' ∧ blen b' = blen b.
Proof.
  intros ???. unfold bmemset. rewrite in_buf_true by done. eexists. split; [done|].
  unfold overwrite, blen in *. rewrite !length_app, length_take, length_replicate, length_drop. lia.
Qed.

Lemma bget_some {A} (b : list A) i : 0 ≤ i < blen b → ∃ v, bget b i = Ret v.
Proof.
  intros [Hi Hl]. destruct (lookup_lt_is_Some_2 b (Z.to_nat i)) as [v Hv]; [unfold blen in *; lia|].
  exists v. by apply bget_ok.
Qed.

(** The state of the scan: the highlights have the length of the text, and only
    at the start is there no character before. *)
Record scan_ok (st : hscan) : Prop := ScanOk {
  sc_pos : 0 ≤ hs_i st ≤ blen l;
  sc_len : blen (hs_hl st) = blen l;
  sc_sep : hs_prev_sep st = false → 1 ≤ hs_i st
}.

(** A round returns: the function is left, or the next state is further. *)
Definition round_ok (st : hscan) (o : outcome hnext) : Prop :=
  ∃ r, o = Ret r ∧
    match r with
    | HReturn hl => blen hl = blen l
    | HMore st' => scan_ok st' ∧ hs_i st < hs_i st'
    end.

Ltac more := eexists; split; [reflexivity|split; [split; cbn; first [lia|congruence|intros; lia]|cbn; lia]].

Lemma scan_one_ok h q st : scan_ok st → hs_i st < blen l → round_ok st (scan_one h q st).
Proof.
  intros [Hi Hl _] Hlt. unfold scan_one.
  destruct (bset_len (hs_hl st) (hs_i st) h) as (hl & -> & Hhl); [lia|]. cbn [obind]. more.
Qed.

Lemma scan_string_ok c st :
  scan_ok st → hs_i st < blen l → c ≠ "\"%char → round_ok st (scan_string c st).
Proof.
  intros [Hi Hl Hs] Hlt Hc. unfold scan_string.
  destruct (bset_len (hs_hl st) (hs_i st) HL_STRING) as (hl & -> & Hhl); [lia|]. cbn [obind].
  destruct (Ascii.eqb_spec c "\"%char); [done|]. more.
Qed.

Lemma is_number_ok c st : scan_ok st → ∃ b, is_number c st = Ret b.
Proof.
  intros [Hi Hl Hs]. unfold is_number.
  assert (1 ≤ hs_i st → ∃ b, (let! h := bget (hs_hl st) (hs_i st - 1) in Ret (h =? HL_NUMBER)) = Ret b) as Hp.
  { intros. destruct (bget_some (hs_hl st) (hs_i st - 1)) as [v ->]; [lia|]. by eexists. }
  assert (∃ d, (if isdigit_c c then if hs_prev_sep st then Ret true
    else let! h := bget (hs_hl st) (hs_i st - 1) in Ret (h =? HL_NUMBER) else Ret false) = Ret d) as [d ->].
  { destruct (isdigit_c c), (hs_prev_sep st); eauto. }
  cbn [obind]. destruct d; [by eexists|].
  destruct (Ascii.eqb c "."%char), (Z.ltb_spec 0 (hs_i st)); cbn [andb]; eauto. apply Hp. lia.
Qed.

Lemma scan_word_ok c st : scan_ok st → hs_i st < blen l → round_ok st (scan_word sx render c st).
Proof.
  intros [Hi Hl Hs] Hlt. unfold scan_word.
  destruct (keyword_get (hs_i st) (sx_keywords sx) Hi (sx_words _ Hsx)) as (o & Ho & Hn).
  assert (∃ o', (if hs_prev_sep st then find_keyword render (hs_i st) (sx_keywords sx) else Ret None) = Ret o' ∧
    ∀ n b, o' = Some (n, b) → 0 < n ∧ hs_i st + n ≤ blen l) as (o' & -> & Hn').
  { destruct (hs_prev_sep st); [by exists o|by exists None]. }
  cbn [obind]. destruct o' as [[n b]|].
  - destruct (Hn' _ _ eq_refl). destruct (bmemset_len (hs_hl st) (hs_i st)
      (if b then HL_KEYWORD2 else HL_KEYWORD1) n) as (hl & -> & Hhl); [lia..|]. cbn [obind]. more.
  - more.
Qed.

Lemma scan_round_ok c st :
  scan_ok st → hs_i st < blen l → c ≠ "\"%char → round_ok st (scan_round sx render (blen l) c st).
Proof.
  intros Hst Hlt Hc. pose proof Hst as [Hi Hl Hs]. unfold scan_round. cbv zeta.
  destruct (mark_get (hs_i st) (sx_scs sx)) as (b1 & Hb1 & _); [lia|].
  assert (∃ b, (if hs_prev_sep st then at_mark render (hs_i st) (sx_scs sx) else Ret false) = Ret b)
    as [lc ->] by (destruct (hs_prev_sep st); eauto).
  cbn [obind]. destruct lc.
  { destruct (bmemset_len (hs_hl st) (hs_i st) HL_COMMENT (blen l - hs_i st)) as (hl & -> & Hhl); [lia..|].
    cbn [obind]. eexists. split; [done|]. congruence. }
  assert (∀ v, ∃ hl, bset (hs_hl st) (hs_i st) v = Ret hl ∧ blen hl = blen l) as Hset.
  { intros v. destruct (bset_len (hs_hl st) (hs_i st) v) as (hl & -> & ?); [lia|]. exists hl. split; [done|lia]. }
  destruct (hs_comment st).
  - destruct (Hset HL_MLCOMMENT) as (hl & -> & Hhl). cbn [obind].
    destruct (mark_get (hs_i st) (sx_mce sx)) as (b & -> & Hb); [lia|]. cbn [obind].
    destruct b; [|more]. specialize (Hb eq_refl (sx_close _ Hsx)).
    destruct (bset_len hl (hs_i st + 1) HL_MLCOMMENT) as (hl2 & -> & ?); [lia|]. cbn [obind]. more.
  - destruct (mark_get (hs_i st) (sx_mcs sx)) as (b & -> & Hb); [lia|]. cbn [obind]. destruct b.
    + specialize (Hb eq_refl (sx_open _ Hsx)). destruct (Hset HL_MLCOMMENT) as (hl & -> & Hhl). cbn [obind].
      destruct (bset_len hl (hs_i st + 1) HL_MLCOMMENT) as (hl2 & -> & ?); [lia|]. cbn [obind]. more.
    + repeat case_match; eauto using scan_string_ok, scan_one_ok.
      destruct (is_number_ok c st Hst) as [num ->]. cbn [obind].
      destruct num; [by apply scan_one_ok|by apply scan_word_ok].
Qed.

Lemma scan_loop_ok fuel : ∀ st,
  scan_ok st → blen l - hs_i st < Z.of_nat fuel →
  ∃ r, scan_loop fuel sx render (blen l) st = Ret r ∧
       blen (match r with inl hl => hl | inr hl => hl end) = blen l.
Proof.
  induction fuel as [|fuel IH]; intros st Hst Hf; pose proof Hst as [Hi Hl _]; [lia|]. cbn [scan_loop].
  destruct (render_get (hs_i st) Hi) as (c & -> & Hn & Hc). cbn [obind].
  destruct (Ascii.eqb_spec c NUL) as [|Hne]; [by eexists|]. specialize (Hn Hne). destruct (Hc Hn) as [_ Hb].
  destruct (scan_round_ok c st Hst Hn Hb) as (r & -> & Hr). cbn [obind].
  destruct r as [st'|hl]; [|by eexists]. destruct Hr. apply IH; [done|lia].
Qed.

Lemma skip_spaces_ok fuel : ∀ i,
  0 ≤ i ≤ blen l → blen l - i < Z.of_nat fuel →
  ∃ j, skip_spaces fuel render i = Ret j ∧ 0 ≤ j ≤ blen l.
Proof.
  induction fuel as [|fuel IH]; intros i Hi Hf; [lia|]. cbn [skip_spaces].
  destruct (render_get i Hi) as (c & -> & Hn & _). cbn [obind].
  destruct (Ascii.eqb_spec c NUL) as [|Hne]; cbn [negb andb]; [by exists i|].
  specialize (Hn Hne). destruct (isspace c); [|by exists i]. apply IH; lia.
Qed.
End scan.

(** ** The rows of a text *)
Definition plain (l : list ascii) : Prop := TAB ∉ l ∧ NUL ∉ l ∧ "\"%char ∉ l.

(** The row [k] holds [l], which is rendered as it is; its highlights, if there
    are any, have the length of [l]. *)
Record hl_row (k : nat) (r : erow) (l : list ascii) : Prop := HlRow {
  hr_idx : r_idx r = Z.of_nat k;
  hr_size : r_size r = blen l;
  hr_chars : ∃ rest, r_chars r = l ++ NUL :: rest;
  hr_rsize : r_rsize r = blen l;
  hr_render : ∃ rest, r_render r = l ++ NUL :: rest;
  hr_hl : ∀ hl, r_hl r = Some hl → blen hl = blen l
}.

Record hl_text (E : editor) (ls : list (list ascii)) : Prop := HlText {
  ht_rows : ∀ k l, ls !! k = Some l → ∃ r, e_row E !! k = Some r ∧ hl_row k r l;
  ht_length : length (e_row E) = length ls;
  ht_plain : Forall plain ls;
  ht_num : e_numrows E ≤ blen ls
}.

(** Only the rows change. *)
Definition same_but_rows (E E' : editor) : Prop := E' = set_rows (e_row E') (e_numrows E) E.

Lemma same_refl E : same_but_rows E E.
Proof. by destruct E. Qed.
Lemma same_trans E1 E2 E3 : same_but_rows E1 E2 → same_but_rows E2 E3 → same_but_rows E1 E3.
Proof. unfold same_but_rows. intros H1 H2. rewrite H2 at 1. by rewrite H1. Qed.

Lemma expand_plain l i : TAB ∉ l → expand i l = l.
Proof.
  revert i. induction l as [|c l IH]; intros i Hl; [done|]. cbn [expand].
  destruct (Ascii.eqb_spec c TAB) as [->|]; [set_solver|]. rewrite IH by set_solver. done.
Qed.

Lemma open_comment_ok k r l : hl_row k r l → ∃ b, editorRowHasOpenComment r = Ret b.
Proof.
  intros [_ _ _ Hr [rest Hrn] Hhl]. unfold editorRowHasOpenComment. rewrite Hr, Hrn.
  destruct (r_hl r) as [hl|]; [|by eexists]. specialize (Hhl hl eq_refl).
  pose proof (blen_nonneg l). destruct (Z.eqb_spec (blen l) 0); [by eexists|].
  destruct (bget_some hl (blen l - 1)) as [h ->]; [lia|]. cbn [obind].
  destruct (negb (h =? HL_MLCOMMENT)); [by eexists|]. destruct (Z.ltb_spec (blen l) 2); [by eexists|].
  assert (blen l < blen (l ++ NUL :: rest)) by (rewrite blen_app, blen_cons; pose proof (blen_nonneg rest); lia).
  destruct (bget_some (l ++ NUL :: rest) (blen l - 2)) as [a ->]; [lia|]. cbn [obind].
  destruct (bget_some (l ++ NUL :: rest) (blen l - 1)) as [b ->]; [lia|]. cbn [obind]. by eexists.
Qed.

Lemma hl_row_at E ls k l :
  hl_text E ls → ls !! k = Some l → ∃ r, row_at E (Z.of_nat k) = Ret r ∧ hl_row k r l.
Proof.
  intros [Hr _ _ _] Hl. destruct (Hr k l Hl) as (r & Hk & Hok). exists r. split; [|done].
  unfold row_at. apply bget_ok; [lia|]. by rewrite Nat2Z.id.
Qed.

(** A row is replaced by one for the same line. *)
Lemma hl_put E ls k l r0 r :
  hl_text E ls → ls !! k = Some l → row_at E (Z.of_nat k) = Ret r0 → hl_row k r l →
  ∃ E', put_row (Z.of_nat k) r E = Ret E' ∧ hl_text E' ls ∧ same_but_rows E E' ∧
        e_row E' = <[k := r]> (e_row E).
Proof.
  intros [Hr Hlen Hp Hn] Hl Hr0 Hok. rewrite (put_row_some _ _ _ _ Hr0), Nat2Z.id.
  eexists. split; [done|]. split; [|done]. split; cbn [set_rows e_row e_numrows]; [|by rewrite length_insert|done..].
  intros j lj Hj. destruct (decide (j = k)) as [->|].
  - exists r. simplify_eq. split; [|done]. apply list_lookup_insert_eq. rewrite Hlen. by eapply lookup_lt_Some.
  - destruct (Hr j lj Hj) as (rj & ? & ?). exists rj. by rewrite list_lookup_insert_ne.
Qed.

Lemma hl_set k r l hl : hl_row k r l → blen hl = blen l → hl_row k (set_hl hl r) l.
Proof. intros [? ? ? ? ? ?] Hh. split; cbn; try done. by intros ? [= <-]. Qed.
Lemma hl_set_oc k r l b : hl_row k r l → hl_row k (set_hl_oc b r) l.
Proof. by intros [? ? ? ? ? ?]. Qed.

(** The scan of a row and, if the comment open at its end changes, of the rows
    below it: there is fuel enough and no array is left. *)
Lemma update_syntax_ok sx fuel : ∀ k l E ls,
  syntax_ok sx → e_syntax E = Some sx → hl_text E ls → ls !! k = Some l →
  (length ls - k < fuel)%nat →
  ∃ E', editorUpdateSyntax fuel (Z.of_nat k) E = Ret E' ∧ hl_text E' ls ∧ same_but_rows E E'.
Proof.
  induction fuel as [|fuel IH]; intros k l E ls Hsx Hs Ht Hl Hf; [lia|]. cbn [editorUpdateSyntax].
  destruct (hl_row_at _ _ _ _ Ht Hl) as (r & Hr & Hok). rewrite Hr. cbn [obind].
  pose proof Hok as [Hidx Hsz _ Hrs [rest Hrn] _].
  assert (plain l) as (Htab & Hnul & Hbs) by (eapply Forall_lookup; [apply Ht|done]).
  pose proof (blen_nonneg l) as Hl0.
  set (hl0 := replicate (Z.to_nat (r_rsize r)) HL_NORMAL).
  assert (blen hl0 = blen l) as Hhl0 by (unfold hl0; rewrite Hrs; by apply blen_replicate).
  destruct (hl_put E ls k l r (set_hl hl0 r) Ht Hl Hr) as (E1 & -> & Ht1 & Hb1 & _); [by apply hl_set|].
  cbn [obind]. rewrite Hb1. cbn [set_rows e_syntax]. rewrite Hs, <- Hb1. rewrite Hrn.
  assert (blen l < Z.of_nat (S (length (l ++ NUL :: rest)))) as Hfl
    by (unfold blen; rewrite length_app; cbn [length]; lia).
  destruct (skip_spaces_ok l rest Hnul Hbs (S (length (l ++ NUL :: rest))) 0) as (i & -> & Hi); [lia|lia|].
  cbn [obind]. rewrite Hidx.
  assert (∃ com, (if 0 <? Z.of_nat k then let! prev := row_at E1 (Z.of_nat k - 1) in editorRowHasOpenComment prev
    else Ret false) = Ret com) as [com ->].
  { destruct k as [|k']; [by eexists|]. destruct (Z.ltb_spec 0 (Z.of_nat (S k'))); [|lia].
    replace (Z.of_nat (S k') - 1) with (Z.of_nat k') by lia.
    destruct (lookup_lt_is_Some_2 ls k') as [lp Hlp]; [apply lookup_lt_Some in Hl; lia|].
    destruct (hl_row_at _ _ _ _ Ht1 Hlp) as (rp & -> & Hp). by eapply open_comment_ok. }
  cbn [obind]. rewrite Hsz.
  destruct (scan_loop_ok sx Hsx l rest Hnul Hbs (S (length (l ++ NUL :: rest))) (HScan i true NUL com hl0))
    as (res & -> & Hres); [by split|cbn; lia|].
  cbn [obind]. destruct (hl_row_at _ _ _ _ Ht1 Hl) as (r1 & Hr1 & Hok1).
  destruct res as [hl|hl]; (destruct (hl_put E1 ls k l r1 (set_hl hl r) Ht1 Hl Hr1)
    as (E2 & -> & Ht2 & Hb2 & He2); [by apply hl_set|]); [|eauto using same_trans].
  cbn [obind]. destruct (open_comment_ok k (set_hl hl r) l) as [oc ->]; [by apply hl_set|]. cbn [obind].
  assert (∃ E3, (if negb (Bool.eqb (r_hl_oc (set_hl hl r)) oc) && (r_idx (set_hl hl r) + 1 <? e_numrows E2)
    then editorUpdateSyntax fuel (r_idx (set_hl hl r) + 1) E2 else Ret E2) = Ret E3 ∧
    hl_text E3 ls ∧ same_but_rows E2 E3) as (E3 & -> & Ht3 & Hb3).
  { cbn [set_hl r_idx r_hl_oc]. rewrite Hidx.
    destruct (negb _); cbn [andb]; [|exists E2; eauto using same_refl].
    destruct (Z.ltb_spec (Z.of_nat k + 1) (e_numrows E2)) as [Hlt|]; [|exists E2; eauto using same_refl].
    replace (Z.of_nat k + 1) with (Z.of_nat (S k)) by lia. pose proof (ht_num _ _ Ht2) as Hn2.
    destruct (lookup_lt_is_Some_2 ls (S k)) as [l' Hl']; [unfold blen in Hn2; lia|].
    pose proof (lookup_lt_Some _ _ _ Hl). eapply IH; eauto; [|lia]. rewrite Hb2, Hb1. exact Hs. }
  cbn [obind]. destruct (hl_row_at _ _ _ _ Ht3 Hl) as (r3 & Hr3 & Hok3). rewrite Hr3. cbn [obind].
  destruct (hl_put E3 ls k l r3 (set_hl_oc oc r3) Ht3 Hl Hr3) as (E4 & -> & Ht4 & Hb4 & _);
    [by apply hl_set_oc|].
  exists E4. split_and!; [done|done|].
  eapply same_trans; [exact Hb1|]. eapply same_trans; [exact Hb2|]. by eapply same_trans.
Qed.

Lemma row_insert_hl junk E ls l sx :
  hl_text E ls → e_numrows E = blen ls → e_syntax E = Some sx → syntax_ok sx → plain l →
  ∃ E', editorInsertRow junk (e_numrows E) (l ++ [NUL]) (blen l) E = Ret E' ∧
        hl_text E' (ls ++ [l]) ∧ e_numrows E' = blen (ls ++ [l]) ∧ e_syntax E' = Some sx.
Proof.
  intros [Hr Hlen Hp _] Hn Hs Hsx Hl. unfold editorInsertRow. pose proof (blen_nonneg l) as Hl0.
  assert (Z.to_nat (e_numrows E) = length ls) as Hnl by (rewrite Hn; unfold blen; lia).
  destruct (Z.ltb_spec (e_numrows E) (e_numrows E)), (Z.ltb_spec (e_numrows E) 0); try (unfold blen in Hn; lia).
  assert (bmemcpy (balloc junk (blen l + 1)) 0 (l ++ [NUL]) 0 (blen l + 1) = Ret (l ++ [NUL])) as ->.
  { pose proof (bmemcpy_app [] (balloc junk (blen l + 1)) [] [] (l ++ [NUL]) [] (blen l + 1)) as Hc.
    rewrite !app_nil_r in Hc. apply Hc; [unfold balloc; apply blen_replicate; lia|by rewrite blen_app]. }
  cbn [obind]. rewrite Hnl, <- Hlen. set (new := ERow _ _ _ _ _ _ _).
  rewrite take_ge, drop_ge by lia. set (E1 := set_rows _ _ E).
  assert (row_at E1 (e_numrows E) = Ret new) as Hat.
  { unfold row_at. apply bget_ok; [lia|]. rewrite Hnl, <- Hlen. unfold E1. cbn [set_rows e_row].
    by rewrite lookup_app_r, Nat.sub_diag by lia. }
  destruct (render_row_ok junk (e_numrows E) E1 new l [NUL] Hat eq_refl eq_refl) as (rest & ->).
  destruct Hl as (Htab & Hl). rewrite expand_plain by done. cbv zeta. rewrite Hnl.
  set (E2 := set_rows _ _ E1).
  assert (hl_text E2 (ls ++ [l])) as Ht2.
  { unfold E2, E1. cbn [set_rows e_row e_numrows]. rewrite insert_app_r_alt, Hlen, Nat.sub_diag by lia.
    cbn [insert list_insert]. split; cbn [set_rows e_row e_numrows].
    - intros k lk [Hk|(Hk & Hk')]%lookup_app_Some.
      + destruct (Hr k lk Hk) as (r & ? & ?). exists r. split; [|done]. by apply lookup_app_l_Some.
      + apply list_lookup_singleton_Some in Hk' as [Hk0 <-]. assert (k = length ls) as -> by lia.
        eexists. split; [by rewrite lookup_app_r, Hlen, Nat.sub_diag by lia|].
        split; cbn; rewrite ?Hn; unfold blen; try (done || lia); eauto.
    - rewrite !length_app. cbn. lia.
    - by apply Forall_app; split; [|apply Forall_singleton].
    - rewrite Hn, blen_app. unfold blen. lia. }
  rewrite Hn. unfold blen at 1.
  destruct (update_syntax_ok sx (syntax_fuel E2) (length ls) l E2 (ls ++ [l]) Hsx Hs Ht2) as (E3 & -> & Ht3 & Hb3).
  { by rewrite lookup_app_r, Nat.sub_diag by lia. }
  { unfold syntax_fuel. rewrite (ht_length _ _ Ht2). lia. }
  cbn [obind]. eexists. split; [reflexivity|].
  assert (e_numrows E3 = blen ls ∧ e_syntax E3 = Some sx) as [Hn3 Hs3] by (rewrite Hb3; split; [exact Hn|exact Hs]).
  destruct Ht3 as [Hr3 Hl3 Hp3 _]. unfold touch. cbn. rewrite Hn3, blen_app.
  split_and!; [|done|done]. split; cbn; [done..|]. rewrite ?Hn3, blen_app. unfold blen. cbn. lia.
Qed.

Lemma read_rows_hl junk sx fuel : ∀ ls ls0 E,
  hl_text E ls0 → e_numrows E = blen ls0 → e_syntax E = Some sx → syntax_ok sx →
  Forall plain ls → Forall (λ l, LF ∉ l) ls → (length (text_of ls) < fuel)%nat →
  ∃ E', read_rows junk fuel (text_of ls) E = Ret E' ∧ hl_text E' (ls0 ++ ls) ∧
        e_numrows E' = blen (ls0 ++ ls) ∧ e_syntax E' = Some sx.
Proof.
  induction fuel as [|fuel IH]; intros ls ls0 E Ht Hn Hs Hsx Hp Hls Hf; [lia|].
  destruct ls as [|l ls]; cbn [read_rows].
  { rewrite app_nil_r. by exists E. }
  apply Forall_cons in Hls as [Hl Hls], Hp as [Hpl Hp].
  destruct (text_of (l :: ls)) as [|c tl] eqn:Etext; [by destruct l|]. rewrite <- Etext in *.
  rewrite text_of_cons in *. rewrite getline_ok, chomp_ok by done.
  destruct (row_insert_hl junk E ls0 l sx Ht Hn Hs Hsx Hpl) as (E1 & -> & Ht1 & Hn1 & Hs1). cbn [obind].
  destruct (IH ls (ls0 ++ [l]) E1) as (E2 & -> & Ht2 & ?); try done.
  { rewrite length_app in Hf. cbn [length] in Hf. lia. }
  exists E2. rewrite <- (assoc_L app) in Ht2. by rewrite <- (assoc_L app) in *.
Qed.

(** Any row can be rendered again. *)
Lemma update_row_hl junk sx k l E ls :
  hl_text E ls → e_syntax E = Some sx → syntax_ok sx → ls !! k = Some l →
  ∃ E', editorUpdateRow junk (Z.of_nat k) E = Ret E' ∧ hl_text E' ls.
Proof.
  intros Ht Hs Hsx Hl. destruct (hl_row_at _ _ _ _ Ht Hl) as (r & Hr & Hok).
  pose proof Hok as [? Hsz [rest Hc] ? ? ?].
  assert (plain l) as (Htab & _) by (eapply Forall_lookup; [apply Ht|done]).
  destruct (render_row_ok junk (Z.of_nat k) E r l (NUL :: rest) Hr Hsz Hc) as (rest' & ->).
  rewrite expand_plain by done. cbv zeta. set (r' := set_render _ _ r).
  destruct (hl_put E ls k l r r' Ht Hl Hr) as (E1 & Hput & Ht1 & _ & _).
  { split; cbn; try done; eauto. }
  rewrite (put_row_some _ _ _ _ Hr) in Hput. injection Hput as <-.
  edestruct update_syntax_ok as (E2 & -> & Ht2 & _); [exact Hsx|exact Hs|exact Ht1|exact Hl| |by exists E2].
  unfold syntax_fuel. rewrite (ht_length _ _ Ht1). lia.
Qed.
