(* ===== verification/KiloSpec.v ===== *)
(** * The text editor: the theorems

    The keys of the editor refine operations on lines of text and a position;
    saving and opening again gives the same lines; and the states in which the
    position leaves the text. *)
From S2P Require Import Prelude CStd Buf Term Kilo KiloFacts KiloEdit KiloHl KiloUi.
From Stdlib Require Import Ascii.

Local Open Scope Z_scope.

(** ** The abstract effect of a key *)
Definition line_len (ls : list (list ascii)) (r : nat) : nat := length (default [] (ls !! r)).

(** The position does not go beyond the end of its line. *)
Definition doc_clamp (d : doc) : doc :=
  Doc (doc_lines d) (doc_row d) (Nat.min (doc_col d) (line_len (doc_lines d) (doc_row d))).

Definition doc_left (d : doc) : doc :=
  let '(Doc ls r k) := d in
  match k with
  | S k => Doc ls r k
  | O => match r with S r => Doc ls r (line_len ls r) | O => d end
  end.

Definition doc_right (d : doc) : doc :=
  let '(Doc ls r k) := d in
  if decide (r < length ls)%nat then
    if decide (k < line_len ls r)%nat then Doc ls r (S k)
    else if decide (k = line_len ls r) then Doc ls (S r) 0 else d
  else d.

Definition doc_down (d : doc) : doc :=
  let '(Doc ls r k) := d in if decide (r < length ls)%nat then Doc ls (S r) k else d.

Definition is_arrow (c : Z) : bool :=
  (c =? ARROW_UP) || (c =? ARROW_DOWN) || (c =? ARROW_LEFT) || (c =? ARROW_RIGHT).

Definition doc_move (c : Z) (d : doc) : doc :=
  doc_clamp
    (if c =? ARROW_LEFT then doc_left d
     else if c =? ARROW_RIGHT then doc_right d
     else if c =? ARROW_UP then Doc (doc_lines d) (pred (doc_row d)) (doc_col d)
     else doc_down d).

Definition is_delete (c : Z) : bool := (c =? BACKSPACE) || (c =? CTRL_H) || (c =? DEL_KEY).

Definition doc_key (c : Z) (d : doc) : doc :=
  if c =? ENTER then doc_newline d
  else if is_delete c then doc_delete d
  else if is_arrow c then doc_move c d
  else if (c =? CTRL_C) || (c =? CTRL_L) || (c =? ESC) then d
  else doc_char (to_char c) d.

(** When a key does what it should: a line that is joined fits on the screen; to
    the left of a line there is a line in the text that is on the screen.  Saving,
    searching, quitting and paging are not editing. *)
Definition left_fits (E : editor) (d : doc) : Prop :=
  doc_col d = O → doc_row d ≠ O →
  0 < e_screencols E ∧ (doc_row d ≤ length (doc_lines d))%nat ∧ (e_cy E = 0 → e_rowoff E = 0).

Definition key_fits (c : Z) (E : editor) (d : doc) : Prop :=
  (c ∉ [CTRL_S; CTRL_F; CTRL_Q; PAGE_UP; PAGE_DOWN]) ∧
  (is_delete c = true → join_fits (e_screencols E) d) ∧
  (c = ARROW_LEFT → left_fits E d).

(** ** Moving *)
Lemma rowlen_ok E d : shows E d →
  rowlen_at (e_rowoff E + e_cy E) E = Ret (Z.of_nat (line_len (doc_lines d) (doc_row d))).
Proof.
  intros [Ht Hr _ _ _ _ _]. rewrite Hr. unfold rowlen_at, line_len. pose proof (to_num _ _ Ht) as Hn.
  unfold blen in Hn. destruct (Z.leb_spec (e_numrows E) (Z.of_nat (doc_row d))).
  - by rewrite lookup_ge_None_2 by lia.
  - destruct (lookup_lt_is_Some_2 (doc_lines d) (doc_row d)) as [l Hl]; [lia|].
    destruct (text_row E _ (Z.of_nat (doc_row d)) l Ht) as (row & -> & [Hs _ _ _ _]); [lia|by rewrite Nat2Z.id|].
    rewrite Hl. cbn [obind]. by rewrite Hs.
Qed.

Lemma clamp_ok E d : shows E d → ∃ E', clamp_cursor E = Ret E' ∧ shows E' (doc_clamp d) ∧ kept E E'.
Proof.
  intros Hsh. unfold clamp_cursor. rewrite (rowlen_ok _ _ Hsh). cbn [obind].
  destruct d as [ls r k], Hsh as [Ht Hr Hc Hcx Hco Hcy Hro]. unfold doc_clamp.
  cbn [doc_lines doc_row doc_col] in *. set (n := line_len ls r).
  destruct (Z.ltb_spec (Z.of_nat n) (e_coloff E + e_cx E)).
  - destruct (Z.ltb_spec (e_cx E - (e_coloff E + e_cx E - Z.of_nat n)) 0);
      (eexists; split; [done|split; [apply shows_cursor; (done || lia)|done]]).
  - exists E. split_and!; [done| |done]. by split; cbn [doc_lines doc_row doc_col]; (done || lia).
Qed.

Lemma shows_col E d : shows E d → e_cx E = 0 → e_coloff E = 0 → doc_col d = O.
Proof. intros [_ _ ? _ _ _ _] ? ?. lia. Qed.

(** Ends of the cases: the new cursor is given. *)
Ltac cursor_to := eexists; split; [reflexivity|split; [apply shows_cursor; (done || lia)|done]].

Lemma left_ok E d : shows E d → left_fits E d →
  ∃ E', move_switch ARROW_LEFT E = Ret E' ∧ shows E' (doc_left d) ∧ kept E E'.
Proof.
  intros Hsh Hf. destruct d as [ls r k]. unfold left_fits in Hf. cbn [doc_lines doc_row doc_col] in Hf.
  pose proof Hsh as [Ht Hr Hc Hcx Hco Hcy Hro]. cbn [doc_lines doc_row doc_col] in *.
  unfold move_switch. change (ARROW_LEFT =? ARROW_LEFT) with true. cbn iota.
  destruct (Z.eqb_spec (e_cx E) 0) as [E0|]; [|destruct k as [|k]; [lia|]; cbn [doc_left]; cursor_to].
  destruct (Z.eqb_spec (e_coloff E) 0); cbn [negb];
    [|destruct k as [|k]; [lia|]; cbn [doc_left]; cursor_to].
  destruct k as [|k]; [|lia]. rewrite Hr. destruct r as [|r']; cbn [doc_left].
  { exists E. by split_and!. }
  destruct Hf as (Hsc & Hle & Htop); [done|done|]. pose proof (to_num _ _ Ht) as Hn. unfold blen in Hn.
  destruct (lookup_lt_is_Some_2 ls r') as [l Hl]; [lia|].
  destruct (text_row E ls (Z.of_nat r') l Ht) as (row & Hrow & [Hs _ _ _ _]); [lia|by rewrite Nat2Z.id|].
  destruct (Z.ltb_spec 0 (Z.of_nat (S r'))); [|lia].
  replace (Z.of_nat (S r') - 1) with (Z.of_nat r') by lia. rewrite Hrow. cbn [obind]. rewrite Hs.
  unfold line_len. rewrite Hl. cbn [default]. unfold id, blen.
  assert (1 ≤ e_cy E) by lia.
  destruct (Z.ltb_spec (e_screencols E - 1) (Z.of_nat (length l))); cursor_to.
Qed.

Lemma right_ok E d : shows E d →
  ∃ E', move_switch ARROW_RIGHT E = Ret E' ∧ shows E' (doc_right d) ∧ kept E E'.
Proof.
  intros Hsh. destruct d as [ls r k]. pose proof Hsh as [Ht Hr Hc Hcx Hco Hcy Hro].
  cbn [doc_lines doc_row doc_col] in *. pose proof (to_num _ _ Ht) as Hn. unfold blen in Hn.
  unfold move_switch. change (ARROW_RIGHT =? ARROW_LEFT) with false.
  change (ARROW_RIGHT =? ARROW_RIGHT) with true. cbn iota. cbn [doc_right]. rewrite Hr.
  destruct (Z.leb_spec (e_numrows E) (Z.of_nat r)).
  { exists E. rewrite decide_False by lia. by split_and!. }
  rewrite decide_True by lia. destruct (lookup_lt_is_Some_2 ls r) as [l Hl]; [lia|].
  destruct (text_row E ls (Z.of_nat r) l Ht) as (row & -> & [Hs _ _ _ _]); [lia|by rewrite Nat2Z.id|].
  cbn [obind]. rewrite Hs, Hc. unfold line_len. rewrite Hl. cbn [default]. unfold id, blen.
  destruct (Z.ltb_spec (Z.of_nat k) (Z.of_nat (length l))).
  { rewrite decide_True by lia. case_match; cursor_to. }
  rewrite decide_False by lia. destruct (Z.eqb_spec (Z.of_nat k) (Z.of_nat (length l))).
  - rewrite decide_True by lia. case_match; cursor_to.
  - rewrite decide_False by lia. exists E. by split_and!.
Qed.

Lemma up_ok E d : shows E d →
  ∃ E', move_switch ARROW_UP E = Ret E' ∧
        shows E' (Doc (doc_lines d) (pred (doc_row d)) (doc_col d)) ∧ kept E E'.
Proof.
  intros Hsh. destruct d as [ls r k]. pose proof Hsh as [Ht Hr Hc Hcx Hco Hcy Hro].
  cbn [doc_lines doc_row doc_col] in *. unfold move_switch.
  change (ARROW_UP =? ARROW_LEFT) with false. change (ARROW_UP =? ARROW_RIGHT) with false.
  change (ARROW_UP =? ARROW_UP) with true. cbn iota.
  destruct (Z.eqb_spec (e_cy E) 0); [|cursor_to].
  destruct (Z.eqb_spec (e_rowoff E) 0); cbn [negb]; [|cursor_to].
  replace (pred r) with r by lia. exists E. by split_and!.
Qed.

Lemma down_ok E d : shows E d →
  ∃ E', move_switch ARROW_DOWN E = Ret E' ∧ shows E' (doc_down d) ∧ kept E E'.
Proof.
  intros Hsh. destruct d as [ls r k]. pose proof Hsh as [Ht Hr Hc Hcx Hco Hcy Hro].
  cbn [doc_lines doc_row doc_col] in *. pose proof (to_num _ _ Ht) as Hn. unfold blen in Hn.
  unfold move_switch. change (ARROW_DOWN =? ARROW_LEFT) with false.
  change (ARROW_DOWN =? ARROW_RIGHT) with false. change (ARROW_DOWN =? ARROW_UP) with false.
  change (ARROW_DOWN =? ARROW_DOWN) with true. cbn iota. cbn [doc_down]. rewrite Hr.
  destruct (Z.ltb_spec (Z.of_nat r) (e_numrows E)).
  - rewrite decide_True by lia. case_match; cursor_to.
  - rewrite decide_False by lia. exists E. by split_and!.
Qed.

Lemma kept_trans E1 E2 E3 : kept E1 E2 → kept E2 E3 → kept E1 E3.
Proof. unfold kept. intuition congruence. Qed.

Lemma move_key_ok c E d :
  shows E d → is_arrow c = true → (c = ARROW_LEFT → left_fits E d) →
  ∃ E', editorMoveCursor c E = Ret E' ∧ shows E' (doc_move c d) ∧ kept E E'.
Proof.
  intros Hsh Ha Hf. unfold editorMoveCursor, doc_move.
  assert (∃ E1, move_switch c E = Ret E1 ∧ shows E1 (if c =? ARROW_LEFT then doc_left d
     else if c =? ARROW_RIGHT then doc_right d
     else if c =? ARROW_UP then Doc (doc_lines d) (pred (doc_row d)) (doc_col d)
     else doc_down d) ∧ kept E E1) as (E1 & -> & Hsh1 & Hk1).
  { destruct (Z.eqb_spec c ARROW_LEFT) as [->|]; [apply left_ok; auto|].
    destruct (Z.eqb_spec c ARROW_RIGHT) as [->|]; [by apply right_ok|].
    destruct (Z.eqb_spec c ARROW_UP) as [->|]; [by apply up_ok|].
    unfold is_arrow in Ha. assert (c = ARROW_DOWN) as -> by lia. by apply down_ok. }
  cbn [obind]. destruct (clamp_ok _ _ Hsh1) as (E2 & -> & ? & ?). eauto using kept_trans.
Qed.

(** ** Keys *)
Section keys.
Variables (clock : nat → Z) (junk : ascii) (opens truncates : bool) (writes : Z → Z) (err : string).
Abbreviation process := (editorProcessKeypress clock junk opens truncates writes err).

(** The input is read as the keys [cs] and then [rest]. *)
Fixpoint decodes (inp : list (option ascii)) (cs : list Z) (rest : list (option ascii)) : Prop :=
  match cs with
  | [] => inp = rest
  | c :: cs => ∃ inp', editorReadKey inp = Ret (c, inp') ∧ decodes inp' cs rest
  end.

Fixpoint process_n (n : nat) (k : kilo) : outcome kilo :=
  match n with
  | O => Ret k
  | S n => let! k := process k in process_n n k
  end.

(** Every key fits the state in which it is typed. *)
Fixpoint keys_fit (cs : list Z) (k : kilo) (d : doc) : Prop :=
  match cs with
  | [] => True
  | c :: cs => key_fits c (k_editor k) d ∧ ∀ k', process k = Ret k' → keys_fit cs k' (doc_key c d)
  end.

Lemma key_switch_ok c k d :
  shows (k_editor k) d → key_fits c (k_editor k) d →
  ∃ E', key_switch clock junk opens truncates writes err c k =
          Ret (Kilo E' (k_quit_times k) (k_exiting k) (k_tty k) (k_disk k)) ∧
        shows E' (doc_key c d).
Proof.
  destruct k as [E q x t disk]. cbn [k_editor k_quit_times k_exiting k_tty k_disk].
  intros Hsh (Hno & Hdel & Hleft). unfold key_switch, doc_key.
  assert (c ≠ CTRL_S ∧ c ≠ CTRL_F ∧ c ≠ PAGE_UP ∧ c ≠ PAGE_DOWN) as (N1 & N2 & N3 & N4).
  { split_and!; intros ->; apply Hno; set_solver. }
  destruct (Z.eqb_spec c ENTER) as [->|].
  { destruct (insert_newline_ok junk E d Hsh) as (E' & -> & ? & _). by eexists. }
  destruct (Z.eqb_spec c CTRL_C) as [->|]; [by exists E|].
  apply Z.eqb_neq in N1, N2, N3, N4. rewrite N1, N2, N3, N4. cbn [orb].
  change ((c =? BACKSPACE) || (c =? CTRL_H) || (c =? DEL_KEY)) with (is_delete c).
  change ((c =? ARROW_UP) || (c =? ARROW_DOWN) || (c =? ARROW_LEFT) || (c =? ARROW_RIGHT)) with (is_arrow c).
  destruct (is_delete c) eqn:Ed.
  { destruct (delete_char_ok junk E d Hsh (Hdel eq_refl)) as (E' & -> & ? & _). by eexists. }
  destruct (is_arrow c) eqn:Ea.
  { destruct (move_key_ok c E d Hsh Ea Hleft) as (E' & -> & ? & _). by eexists. }
  destruct ((c =? CTRL_L) || (c =? ESC)); [by exists E|].
  destruct (insert_char_ok junk c E d Hsh) as (E' & -> & ? & _). by eexists.
Qed.

Lemma process_ok c inp k d :
  editorReadKey (tt_in (k_tty k)) = Ret (c, inp) →
  shows (k_editor k) d → key_fits c (k_editor k) d →
  ∃ E', process k = Ret (Kilo E' KILO_QUIT_TIMES (k_exiting k) (Tty inp (tt_out (k_tty k))) (k_disk k)) ∧
        shows E' (doc_key c d).
Proof.
  destruct k as [E q x t disk]. cbn [k_editor k_quit_times k_exiting k_tty k_disk].
  intros Hin Hsh Hf. unfold editorProcessKeypress, read_key. rewrite Hin. cbn [obind fst snd].
  destruct (Z.eqb_spec c CTRL_Q) as [->|]; [destruct Hf as [Hno _]; exfalso; apply Hno; set_solver|].
  destruct (key_switch_ok c (Kilo E q x (Tty inp (tt_out t)) disk) d Hsh Hf) as (E' & -> & ?).
  by exists E'.
Qed.
End keys.


(** ** Sample sessions *)
Definition keys (s : string) : list (option ascii) := Some <$> chars_of s.
Definition esc_keys (s : string) : list (option ascii) := Some (ascii_of_nat 27) :: keys s.
Definition byte_key (n : nat) : list (option ascii) := [Some (ascii_of_nat n)].
Definition lines_of (l : list string) : list ascii := mjoin ((λ s, chars_of s ++ [LF]) <$> l).

(** The editor before its first run. *)
Definition kilo0 (inp : list (option ascii)) : kilo :=
  Kilo (Editor 0 0 0 0 0 0 0 [] 0 None "" 0 None) KILO_QUIT_TIMES false (Tty inp []) None.

(** A run on the given file, screen size and input. *)
Definition session (name : string) (file : list ascii) (rows cols : Z) (inp : list (option ascii))
    : outcome kilo :=
  kilo_main (λ _, 0) NUL true true (λ n, n) "" name (inl file) (Some (rows, cols)) (kilo0 inp).

Definition empty_kilo (inp : list (option ascii)) : kilo :=
  Kilo (Editor 0 0 0 0 22 80 0 [] 0 (Some "notes")%string "" 0 None) KILO_QUIT_TIMES false (Tty inp []) None.

Lemma empty_shows inp : shows (k_editor (empty_kilo inp)) (Doc [] 0 0).
Proof. split; cbn; [split; cbn; [constructor|done|done]|lia..]. Qed.

Definition demo_inp : list (option ascii) :=
  keys "ab" ++ esc_keys "[D" ++ byte_key 13 ++ keys "c" ++ byte_key 127 ++ byte_key 127.
Definition demo_keys : list Z := [97; 98; ARROW_LEFT; ENTER; 99; BACKSPACE; BACKSPACE].

(** The next key of a sample fits. *)
Ltac next_key :=
  split; [split; [set_solver|split; intros Hc;
    first [discriminate Hc
          |exact I
          |intros Hcol; discriminate Hcol
          |split; [reflexivity|intros prev Hp; vm_compute in Hp; injection Hp as <-; vm_compute; discriminate]]]
         |intros ? Heq; vm_compute in Heq; injection Heq as <-].


(** ** Saving and opening *)
Lemma rows_to_string_ok rows ls : Forall2 row_ok rows ls → rows_to_string rows = Ret (text_of ls).
Proof.
  induction 1 as [|r l rows ls [Hs [rest Hc] _ _ _] _ IH]; [done|]. cbn [rows_to_string].
  rewrite Hs, Hc, in_buf_prefix, slice_prefix, IH. cbn [negb obind].
  by rewrite text_of_cons.
Qed.

Lemma read_rows_ok junk fuel : ∀ ls ls0 E,
  text_ok E ls0 → Forall (λ l, LF ∉ l) ls → (length (text_of ls) < fuel)%nat →
  does (read_rows junk fuel (text_of ls) E) E (ls0 ++ ls).
Proof.
  induction fuel as [|fuel IH]; intros ls ls0 E Ht Hls Hf; [lia|].
  destruct ls as [|l ls]; cbn [read_rows].
  { rewrite app_nil_r. by apply does_ret. }
  apply Forall_cons in Hls as [Hl Hls].
  destruct (text_of (l :: ls)) as [|c tl] eqn:Etext; [by destruct l|]. rewrite <- Etext in *.
  rewrite text_of_cons in *. rewrite getline_ok, chomp_ok by done.
  pose proof (to_num _ _ Ht) as Hn.
  replace (ls0 ++ l :: ls) with ((ls0 ++ [l]) ++ ls) by by rewrite <- (assoc_L app).
  eapply does_trans.
  - apply (insert_row_ok junk (e_numrows E) (l ++ [NUL]) l NUL [] E ls0 Ht); [unfold blen in Hn; lia|done|done].
  - intros E' Ht' _ _. rewrite Hn in Ht'. unfold blen in Ht'.
    rewrite Nat2Z.id, take_ge, drop_ge in Ht' by lia.
    apply IH; [done|done|]. rewrite length_app in Hf. cbn [length] in Hf. lia.
Qed.

Lemma to_string_ok E ls : text_ok E ls → editorRowsToString E = Ret (text_of ls, blen (text_of ls)).
Proof.
  intros [Hr Hn _]. unfold editorRowsToString.
  rewrite take_ge by (rewrite (Forall2_length _ _ _ Hr); unfold blen in Hn; lia).
  by rewrite (rows_to_string_ok _ _ Hr).
Qed.


Definition two_lines : list (list ascii) := [chars_of "ab"; chars_of "c"].


(** ** Highlights *)


Definition c_lines : list (list ascii) :=
  [chars_of "int x = 42; /* one"; chars_of "two */ return 'c'; // done"; []].


(** ** Where the editor leaves its arrays *)

