(* ===== verification/Linenoise.v ===== *)
(** * Line editing (src/linenoise.c)

    The state of the line that is edited and the history are one record; the
    buffer is the whole array of the caller.  What the terminal answers to the
    one-byte reads is a list of events; behind its end the terminal is closed.
    The callbacks of the application, the multi-line mode and the limit of the
    history do not change while a line is edited: they are variables of the
    section. *)
From S2P Require Import Prelude CStd Buf Term.
From Stdlib Require Import Ascii.

Local Open Scope Z_scope.

(** ** Data *)
Definition LINENOISE_DEFAULT_HISTORY_MAX_LEN : Z := 100.
Definition LINENOISE_MAX_LINE : Z := 4096.

Definition CTRL_A : Z := 1.
Definition CTRL_B : Z := 2.
Definition CTRL_C : Z := 3.
Definition CTRL_D : Z := 4.
Definition CTRL_E : Z := 5.
Definition CTRL_F : Z := 6.
Definition CTRL_H : Z := 8.
Definition KEY_TAB : Z := 9.
Definition CTRL_K : Z := 11.
Definition CTRL_L : Z := 12.
Definition ENTER : Z := 13.
Definition CTRL_N : Z := 14.
Definition CTRL_P : Z := 16.
Definition CTRL_T : Z := 20.
Definition CTRL_U : Z := 21.
Definition CTRL_W : Z := 23.
Definition ESC : Z := 27.
Definition BACKSPACE : Z := 127.

(** The answer to a [read] of one byte: a byte, 0 bytes, or -1. *)
Inductive input : Type := Byte (c : ascii) | Eof | Err.

Record lstate := LState {
  l_buf : list ascii; l_buflen : Z;
  l_prompt : list ascii; l_plen : Z;
  l_pos : Z; l_oldpos : Z; l_len : Z;
  l_cols : Z; l_maxrows : Z;
  l_history_index : Z;
  l_history : list (list ascii);  (** oldest first; its length is [history_len] *)
  l_out : list ascii              (** written to the terminal *)
}.

Definition with_text (buf : list ascii) (pos len : Z) (l : lstate) : lstate :=
  LState buf (l_buflen l) (l_prompt l) (l_plen l) pos (l_oldpos l) len (l_cols l) (l_maxrows l)
         (l_history_index l) (l_history l) (l_out l).
Definition with_rows (oldpos maxrows : Z) (l : lstate) : lstate :=
  LState (l_buf l) (l_buflen l) (l_prompt l) (l_plen l) (l_pos l) oldpos (l_len l) (l_cols l) maxrows
         (l_history_index l) (l_history l) (l_out l).
Definition with_history (h : list (list ascii)) (i : Z) (l : lstate) : lstate :=
  LState (l_buf l) (l_buflen l) (l_prompt l) (l_plen l) (l_pos l) (l_oldpos l) (l_len l) (l_cols l)
         (l_maxrows l) i h (l_out l).
Definition print (s : list ascii) (l : lstate) : lstate :=
  LState (l_buf l) (l_buflen l) (l_prompt l) (l_plen l) (l_pos l) (l_oldpos l) (l_len l) (l_cols l)
         (l_maxrows l) (l_history_index l) (l_history l) (l_out l ++ s).
Definition with_pos (pos : Z) (l : lstate) : lstate := with_text (l_buf l) pos (l_len l) l.

(** A hint for the text of the buffer: its text, colour and weight. *)
Definition hints_callback : Type := list ascii → option (list ascii * Z * Z).
Definition completion_callback : Type := list ascii → list (list ascii).
(** [copied], [grown]: do [malloc] and [realloc] succeed. *)
Definition linenoiseAddCompletion (copied grown : bool) (str : list ascii) (lc : list (list ascii)) : list (list ascii) :=
  if copied && grown then lc ++ [str] else lc.

(** ** Drawing *)

(** [abAppend(ab, b + off, len)] with an [int] length: a negative one is a huge
    size for [memcpy]. *)
Definition append_part (b : list ascii) (off len : Z) : outcome (list ascii) :=
  if in_buf b off (sint32 len) then Ret (slice b off (sint32 len)) else Stuck OutOfBounds.

Definition refreshShowHints (hints : option hints_callback) (plen : Z) (l : lstate) : outcome (list ascii) :=
  match hints with
  | None => Ret []
  | Some f =>
      if plen + l_len l <? l_cols l then
        let! text := cstr (l_buf l) in
        match f text with
        | None => Ret []
        | Some (hint, color, bold) =>
            let hintmaxlen := l_cols l - (plen + l_len l) in
            let hintlen := if hintmaxlen <? blen hint then hintmaxlen else blen hint in
            let color := if (bold =? 1) && (color =? -1) then 37 else color in
            let styled := negb (color =? -1) || negb (bold =? 0) in
            Ret ((if styled then esc ("[" ++ fmt_d bold ++ ";" ++ fmt_d color ++ ";49m") else []) ++
                 take (Z.to_nat hintlen) hint ++ (if styled then esc "[0m" else []))
        end
      else Ret []
  end.

(** [while((plen+pos) >= l->cols) { buf++; len--; pos--; }] on [size_t]. *)
Fixpoint scroll_left (fuel : nat) (plen cols off len pos : Z) : outcome (Z * Z * Z) :=
  match fuel with
  | O => Spin
  | S fuel =>
      if cols <=? wrap64 (plen + pos)
      then scroll_left fuel plen cols (off + 1) (wrap64 (len - 1)) (wrap64 (pos - 1))
      else Ret (off, len, pos)
  end.

(** [while (plen+len > l->cols) len--;] *)
Fixpoint trim_right (fuel : nat) (plen cols len : Z) : outcome Z :=
  match fuel with
  | O => Spin
  | S fuel =>
      if cols <? wrap64 (plen + len) then trim_right fuel plen cols (wrap64 (len - 1)) else Ret len
  end.

Definition refreshSingleLine (hints : option hints_callback) (l : lstate) : outcome lstate :=
  let plen := blen (l_prompt l) in
  let! r := scroll_left (S (Z.to_nat (plen + l_pos l))) plen (l_cols l) 0 (l_len l) (l_pos l) in
  let '(off, len, pos) := r in
  let! len := trim_right (S (Z.to_nat (plen + l_len l))) plen (l_cols l) len in
  let! text := append_part (l_buf l) off len in
  let! hint := refreshShowHints hints plen l in
  Ret (print (CR :: l_prompt l ++ text ++ hint ++ esc "[0K" ++
              CR :: esc ("[" ++ fmt_d (sint32 (wrap64 (pos + plen))) ++ "C")) l).

Definition refreshMultiLine (hints : option hints_callback) (l : lstate) : outcome lstate :=
  if l_cols l =? 0 then Stuck DivByZero
  else
    let plen := blen (l_prompt l) in
    let rows := Z.div (plen + l_len l + l_cols l - 1) (l_cols l) in
    let rpos := Z.div (plen + l_oldpos l + l_cols l) (l_cols l) in
    let old_rows := l_maxrows l in
    let maxrows := if l_maxrows l <? rows then rows else l_maxrows l in
    let down := if 0 <? old_rows - rpos then esc ("[" ++ fmt_d (old_rows - rpos) ++ "B") else [] in
    let clear := mjoin (replicate (Z.to_nat (old_rows - 1)) (CR :: esc "[0K" ++ esc "[1A")) in
    let! text := append_part (l_buf l) 0 (l_len l) in
    let! hint := refreshShowHints hints plen l in
    let full := negb (l_pos l =? 0) && (l_pos l =? l_len l) && (Z.modulo (l_pos l + plen) (l_cols l) =? 0) in
    let rows := if full then rows + 1 else rows in
    let maxrows := if full && (maxrows <? rows) then rows else maxrows in
    let rpos2 := Z.div (plen + l_pos l + l_cols l) (l_cols l) in
    let up := if 0 <? rows - rpos2 then esc ("[" ++ fmt_d (rows - rpos2) ++ "A") else [] in
    let col := Z.modulo (plen + l_pos l) (l_cols l) in
    let column := if col =? 0 then [CR] else CR :: esc ("[" ++ fmt_d col ++ "C") in
    Ret (print (down ++ clear ++ CR :: esc "[0K" ++ l_prompt l ++ text ++ hint ++
                (if full then [LF; CR] else []) ++ up ++ column)
               (with_rows (l_pos l) maxrows l)).

(** ** History *)

Definition linenoiseHistoryAdd (history_max_len : Z) (line : list ascii) (h : list (list ascii))
    : Z * list (list ascii) :=
  if history_max_len =? 0 then (0, h)
  else if bool_decide (last h = Some line) then (0, h)
  else
    let h := if blen h =? history_max_len then tail h else h in
    (1, h ++ [line]).

(** The result, the new limit and the history. *)
Definition linenoiseHistorySetMaxLen (len history_max_len : Z) (h : list (list ascii))
    : Z * Z * list (list ascii) :=
  if len <? 1 then (0, history_max_len, h)
  else (1, len, if len <? blen h then drop (Z.to_nat (blen h - len)) h else h).

(** [opens]: does [fopen] succeed; the second result is the file, if it does. *)
Definition linenoiseHistorySave (opens : bool) (h : list (list ascii)) : Z * option (list ascii) :=
  if opens then (0, Some (mjoin ((λ line, line ++ [LF]) <$> h))) else (-1, None).

(** [fgets] into [n + 1] bytes: up to [n] bytes, a line feed ends it. *)
Fixpoint fgets_chars (n : nat) (text : list ascii) : list ascii * list ascii :=
  match n, text with
  | S n, c :: text =>
      if Ascii.eqb c LF then ([c], text)
      else let '(line, rest) := fgets_chars n text in (c :: line, rest)
  | _, _ => ([], text)
  end.

(** The text before the first [c], if there is one. *)
Fixpoint before_char (c : ascii) (s : list ascii) : option (list ascii) :=
  match s with
  | [] => None
  | x :: s => if Ascii.eqb x c then Some [] else (cons x) <$> before_char c s
  end.

(** A string of the buffer ends at its first NUL. *)
Definition cut_nul (s : list ascii) : list ascii := default s (before_char NUL s).

(** The line without its end: cut at a carriage return, or else at a line feed. *)
Definition cut_line (s : list ascii) : list ascii :=
  let s := cut_nul s in
  match before_char CR s with Some s' => s' | None => default s (before_char LF s) end.

Fixpoint history_load (fuel : nat) (history_max_len : Z) (text : list ascii) (h : list (list ascii))
    : outcome (list (list ascii)) :=
  match fuel with
  | O => Spin
  | S fuel =>
      match text with
      | [] => Ret h
      | _ =>
          let '(line, rest) := fgets_chars (Z.to_nat (LINENOISE_MAX_LINE - 1)) text in
          history_load fuel history_max_len rest (linenoiseHistoryAdd history_max_len (cut_line line) h).2
      end
  end.

(** [file]: the text of the file, if it can be opened. *)
Definition linenoiseHistoryLoad (history_max_len : Z) (file : option (list ascii)) (h : list (list ascii))
    : outcome (Z * list (list ascii)) :=
  match file with
  | None => Ret (-1, h)
  | Some text => let! h := history_load (S (length text)) history_max_len text h in Ret (0, h)
  end.

(** ** Editing *)
Section edit.
Variable mlmode : bool.
Variable hintsCallback : option hints_callback.
Variable completionCallback : option completion_callback.
Variable history_max_len : Z.
(** Does a [write] of one byte to the terminal succeed? *)
Variable writes : bool.
(** The contents of uninitialised variables. *)
Variable junk : ascii.

Definition refresh_with (hints : option hints_callback) (l : lstate) : outcome lstate :=
  if mlmode then refreshMultiLine hints l else refreshSingleLine hints l.
Definition refreshLine (l : lstate) : outcome lstate := refresh_with hintsCallback l.

Definition linenoiseEditInsert (c : ascii) (l : lstate) : outcome (Z * lstate) :=
  if l_len l <? l_buflen l then
    if l_len l =? l_pos l then
      let! buf := bset (l_buf l) (l_pos l) c in
      let! buf := bset buf (l_len l + 1) NUL in
      let l := with_text buf (l_pos l + 1) (l_len l + 1) l in
      if negb mlmode && (l_plen l + l_len l <? l_cols l) &&
         match hintsCallback with None => true | Some _ => false end
      then if writes then Ret (0, print [c] l) else Ret (-1, l)
      else let! l := refreshLine l in Ret (0, l)
    else
      let! buf := bmemmove (l_buf l) (l_pos l + 1) (l_pos l) (l_len l - l_pos l) in
      let! buf := bset buf (l_pos l) c in
      let! buf := bset buf (l_len l + 1) NUL in
      let! l := refreshLine (with_text buf (l_pos l + 1) (l_len l + 1) l) in
      Ret (0, l)
  else Ret (0, l).

Definition linenoiseEditMoveLeft (l : lstate) : outcome lstate :=
  if 0 <? l_pos l then refreshLine (with_pos (l_pos l - 1) l) else Ret l.
Definition linenoiseEditMoveRight (l : lstate) : outcome lstate :=
  if negb (l_pos l =? l_len l) then refreshLine (with_pos (l_pos l + 1) l) else Ret l.
Definition linenoiseEditMoveHome (l : lstate) : outcome lstate :=
  if negb (l_pos l =? 0) then refreshLine (with_pos 0 l) else Ret l.
Definition linenoiseEditMoveEnd (l : lstate) : outcome lstate :=
  if negb (l_pos l =? l_len l) then refreshLine (with_pos (l_len l) l) else Ret l.

(** strncpy(buf, s, n): the rest of the [n] bytes is filled with NULs. *)
Definition strncpy (buf s : list ascii) (n : Z) : outcome (list ascii) :=
  let s := take (Z.to_nat n) s in
  bmemcpy buf 0 (s ++ replicate (Z.to_nat n - length s) NUL) 0 n.

(** [prev]: LINENOISE_HISTORY_PREV *)
Definition linenoiseEditHistoryNext (prev : bool) (l : lstate) : outcome lstate :=
  let history_len := blen (l_history l) in
  if 1 <? history_len then
    let! line := cstr (l_buf l) in
    let! h := bset (l_history l) (history_len - 1 - l_history_index l) line in
    let index := if prev then l_history_index l + 1 else l_history_index l - 1 in
    if index <? 0 then Ret (with_history h 0 l)
    else if history_len <=? index then Ret (with_history h (history_len - 1) l)
    else
      let! entry := bget h (history_len - 1 - index) in
      let! buf := strncpy (l_buf l) entry (l_buflen l) in
      let! buf := bset buf (l_buflen l - 1) NUL in
      let! text := cstr buf in
      refreshLine (with_text buf (blen text) (blen text) (with_history h index l))
  else Ret l.

Definition linenoiseEditDelete (l : lstate) : outcome lstate :=
  if (0 <? l_len l) && (l_pos l <? l_len l) then
    let! buf := bmemmove (l_buf l) (l_pos l) (l_pos l + 1) (l_len l - l_pos l - 1) in
    let! buf := bset buf (l_len l - 1) NUL in
    refreshLine (with_text buf (l_pos l) (l_len l - 1) l)
  else Ret l.

Definition linenoiseEditBackspace (l : lstate) : outcome lstate :=
  if (0 <? l_pos l) && (0 <? l_len l) then
    let! buf := bmemmove (l_buf l) (l_pos l - 1) (l_pos l) (l_len l - l_pos l) in
    let! buf := bset buf (l_len l - 1) NUL in
    refreshLine (with_text buf (l_pos l - 1) (l_len l - 1) l)
  else Ret l.

(** [while (l->pos > 0 && (l->buf[l->pos-1] == ' ') == blank) l->pos--;] *)
Fixpoint skip_back (fuel : nat) (blank : bool) (buf : list ascii) (pos : Z) : outcome Z :=
  match fuel with
  | O => Spin
  | S fuel =>
      if 0 <? pos then
        let! c := bget buf (pos - 1) in
        if Bool.eqb (Ascii.eqb c SP) blank then skip_back fuel blank buf (pos - 1) else Ret pos
      else Ret pos
  end.

Definition linenoiseEditDeletePrevWord (l : lstate) : outcome lstate :=
  let old_pos := l_pos l in
  let fuel := S (Z.to_nat old_pos) in
  let! pos := skip_back fuel true (l_buf l) old_pos in
  let! pos := skip_back fuel false (l_buf l) pos in
  let diff := old_pos - pos in
  let! buf := bmemmove (l_buf l) pos old_pos (l_len l - old_pos + 1) in
  refreshLine (with_text buf pos (l_len l - diff) l).

(** CTRL_T *)
Definition swap_chars (l : lstate) : outcome lstate :=
  if (0 <? l_pos l) && (l_pos l <? l_len l) then
    let! a := bget (l_buf l) (l_pos l - 1) in
    let! b := bget (l_buf l) (l_pos l) in
    let! buf := bset (l_buf l) (l_pos l - 1) b in
    let! buf := bset buf (l_pos l) a in
    let pos := if negb (l_pos l =? l_len l - 1) then l_pos l + 1 else l_pos l in
    refreshLine (with_text buf pos (l_len l) l)
  else Ret l.

(** CTRL_U *)
Definition kill_line (l : lstate) : outcome lstate :=
  let! buf := bset (l_buf l) 0 NUL in refreshLine (with_text buf 0 0 l).

(** CTRL_K *)
Definition kill_end (l : lstate) : outcome lstate :=
  let! buf := bset (l_buf l) (l_pos l) NUL in refreshLine (with_text buf (l_pos l) (l_pos l) l).

(** *** Completion *)
Definition beep : list ascii := [ascii_of_nat 7].

(** [read]: the answer and the events that are left. *)
Definition read (inp : list input) : input * list input :=
  match inp with [] => (Eof, []) | e :: inp => (e, inp) end.

(** The line with a completion in place of its text is drawn. *)
Definition show_completion (s : list ascii) (l : lstate) : outcome lstate :=
  let! l' := refreshLine (with_text (s ++ [NUL]) (blen s) (blen s) l) in
  Ret (with_text (l_buf l) (l_pos l) (l_len l) l').

(** [snprintf(ls->buf, ls->buflen, "%s", s)]: the length is that of [s], even if
    it does not fit. *)
Definition accept_completion (s : list ascii) (l : lstate) : outcome lstate :=
  let part := take (Z.to_nat (l_buflen l - 1)) s ++ [NUL] in
  let! buf := bmemcpy (l_buf l) 0 part 0 (blen part) in
  Ret (with_text buf (blen s) (blen s) l).

(** The loop at the completion [i]: the result is the [char] that is handled
    next, -1 when the terminal is closed.  A byte from 128 on is a negative
    [char]. *)
Fixpoint complete_loop (fuel : nat) (cvec : list (list ascii)) (i : Z) (inp : list input) (l : lstate)
    : outcome (Z * list input * lstate) :=
  match fuel with
  | O => Spin
  | S fuel =>
      let! l :=
        if i <? blen cvec then let! s := bget cvec i in show_completion s l else refreshLine l in
      let '(e, inp) := read inp in
      match e with
      | Byte c =>
          if uchar c =? KEY_TAB then
            let i := (i + 1) mod (blen cvec + 1) in
            complete_loop fuel cvec i inp (if i =? blen cvec then print beep l else l)
          else if uchar c =? ESC then
            let! l := if i <? blen cvec then refreshLine l else Ret l in
            Ret (schar c, inp, l)
          else
            let! l :=
              if i <? blen cvec then let! s := bget cvec i in accept_completion s l else Ret l in
            Ret (schar c, inp, l)
      | _ => Ret (-1, inp, l)
      end
  end.

Definition completeLine (callback : completion_callback) (inp : list input) (l : lstate)
    : outcome (Z * list input * lstate) :=
  let! text := cstr (l_buf l) in
  let cvec := callback text in
  if blen cvec =? 0 then Ret (0, inp, print beep l)
  else complete_loop (S (length inp)) cvec 0 inp l.

(** *** The loop *)

(** How a round ends: go on with the next key, or return. *)
Inductive after_key : Type := More (inp : list input) (l : lstate) | Done (result : Z) (inp : list input) (l : lstate).

Definition more (inp : list input) (o : outcome lstate) : outcome after_key :=
  let! l := o in Ret (More inp l).

(** [history_len--; free(history[history_len]);] *)
Definition drop_last_entry (l : lstate) : outcome lstate :=
  if blen (l_history l) =? 0 then Stuck OutOfBounds
  else Ret (with_history (removelast (l_history l)) (l_history_index l) l).

(** One byte of an escape sequence; [None] leaves the [switch]. *)
Definition read_seq (inp : list input) : option ascii * list input :=
  let '(e, inp) := read inp in
  (match e with Byte c => Some c | Eof => Some junk | Err => None end, inp).

Definition escape_key (inp : list input) (l : lstate) : outcome after_key :=
  let '(s0, inp) := read_seq inp in
  match s0 with
  | None => Ret (More inp l)
  | Some seq0 =>
      let '(s1, inp) := read_seq inp in
      match s1 with
      | None => Ret (More inp l)
      | Some seq1 =>
          if Ascii.eqb seq0 "["%char then
            if isdigit_c seq1 then
              let '(s2, inp) := read_seq inp in
              match s2 with
              | None => Ret (More inp l)
              | Some seq2 =>
                  if Ascii.eqb seq2 "~"%char && Ascii.eqb seq1 "3"%char
                  then more inp (linenoiseEditDelete l) else Ret (More inp l)
              end
            else if Ascii.eqb seq1 "A"%char then more inp (linenoiseEditHistoryNext true l)
            else if Ascii.eqb seq1 "B"%char then more inp (linenoiseEditHistoryNext false l)
            else if Ascii.eqb seq1 "C"%char then more inp (linenoiseEditMoveRight l)
            else if Ascii.eqb seq1 "D"%char then more inp (linenoiseEditMoveLeft l)
            else if Ascii.eqb seq1 "H"%char then more inp (linenoiseEditMoveHome l)
            else if Ascii.eqb seq1 "F"%char then more inp (linenoiseEditMoveEnd l)
            else Ret (More inp l)
          else if Ascii.eqb seq0 "O"%char then
            if Ascii.eqb seq1 "H"%char then more inp (linenoiseEditMoveHome l)
            else if Ascii.eqb seq1 "F"%char then more inp (linenoiseEditMoveEnd l)
            else Ret (More inp l)
          else Ret (More inp l)
      end
  end.

Definition enter_key (inp : list input) (l : lstate) : outcome after_key :=
  let! l := drop_last_entry l in
  let! l := if mlmode then linenoiseEditMoveEnd l else Ret l in
  let! l := match hintsCallback with Some _ => refresh_with None l | None => Ret l end in
  Ret (Done (l_len l) inp l).

(** The [switch] on the key. *)
Definition edit_key (c : Z) (inp : list input) (l : lstate) : outcome after_key :=
  if c =? ENTER then enter_key inp l
  else if c =? CTRL_C then Ret (Done (-1) inp l)
  else if (c =? BACKSPACE) || (c =? CTRL_H) then more inp (linenoiseEditBackspace l)
  else if c =? CTRL_D then
    if 0 <? l_len l then more inp (linenoiseEditDelete l)
    else let! l := drop_last_entry l in Ret (Done (-1) inp l)
  else if c =? CTRL_T then more inp (swap_chars l)
  else if c =? CTRL_B then more inp (linenoiseEditMoveLeft l)
  else if c =? CTRL_F then more inp (linenoiseEditMoveRight l)
  else if c =? CTRL_P then more inp (linenoiseEditHistoryNext true l)
  else if c =? CTRL_N then more inp (linenoiseEditHistoryNext false l)
  else if c =? ESC then escape_key inp l
  else if c =? CTRL_U then more inp (kill_line l)
  else if c =? CTRL_K then more inp (kill_end l)
  else if c =? CTRL_A then more inp (linenoiseEditMoveHome l)
  else if c =? CTRL_E then more inp (linenoiseEditMoveEnd l)
  else if c =? CTRL_L then more inp (refreshLine (print (esc "[H" ++ esc "[2J") l))
  else if c =? CTRL_W then more inp (linenoiseEditDeletePrevWord l)
  else
    let! r := linenoiseEditInsert (to_char c) l in
    if r.1 =? 0 then Ret (More inp r.2) else Ret (Done (-1) inp r.2).

(** One round of [while(1)]. *)
Definition edit_round (inp : list input) (l : lstate) : outcome after_key :=
  let '(e, inp) := read inp in
  match e with
  | Byte c =>
      match completionCallback with
      | Some callback =>
          if uchar c =? KEY_TAB then
            let! r := completeLine callback inp l in
            let '(c, inp, l) := r in
            if c <? 0 then Ret (Done (l_len l) inp l)
            else if c =? 0 then Ret (More inp l)
            else edit_key c inp l
          else edit_key (schar c) inp l
      | None => edit_key (schar c) inp l
      end
  | _ => Ret (Done (l_len l) inp l)
  end.

Fixpoint edit_loop (fuel : nat) (inp : list input) (l : lstate) : outcome (Z * list input * lstate) :=
  match fuel with
  | O => Spin
  | S fuel =>
      let! r := edit_round inp l in
      match r with
      | More inp l => edit_loop fuel inp l
      | Done n inp l => Ret (n, inp, l)
      end
  end.

(** [buf] is the array of the caller, [buflen] its size, [cols] what
    [getColumns] answers. *)
Definition linenoiseEdit (buf : list ascii) (buflen cols : Z) (prompt : list ascii)
    (history : list (list ascii)) (inp : list input) : outcome (Z * list input * lstate) :=
  let! buf := bset buf 0 NUL in
  let history := (linenoiseHistoryAdd history_max_len [] history).2 in
  if writes then
    edit_loop (S (length inp)) inp
      (LState buf (buflen - 1) prompt (blen prompt) 0 0 0 cols 0 0 history prompt)
  else Ret (-1, inp, LState buf (buflen - 1) prompt (blen prompt) 0 0 0 cols 0 0 history []).

(** *** The entry points *)

(** [raw]: can the terminal be put in raw mode?  The result is the line, the
    input that is left and the state. *)
Definition linenoiseRaw (raw : bool) (buf : list ascii) (cols : Z) (prompt : list ascii)
    (history : list (list ascii)) (inp : list input) : outcome (Z * list input * option lstate) :=
  if blen buf =? 0 then Ret (-1, inp, None)
  else if negb raw then Ret (-1, inp, None)
  else let! r := linenoiseEdit buf (blen buf) cols prompt history inp in Ret (r.1.1, r.1.2, Some r.2).

(** A line of a file or pipe, in an array that is doubled when it is full. *)
Fixpoint no_tty_loop (fuel : nat) (line : list ascii) (len maxlen : Z) (text : list ascii)
    : outcome (option (list ascii) * list ascii) :=
  match fuel with
  | O => Spin
  | S fuel =>
      let maxlen' := if len =? maxlen then (if maxlen =? 0 then 16 else maxlen) * 2 else maxlen in
      let line := if len =? maxlen then brealloc junk line maxlen' else line in
      match text with
      | [] =>
          if len =? 0 then Ret (None, [])
          else let! line := bset line len NUL in Ret (Some line, [])
      | c :: text =>
          if Ascii.eqb c LF then let! line := bset line len NUL in Ret (Some line, text)
          else let! line := bset line len c in no_tty_loop fuel line (len + 1) maxlen' text
      end
  end.

Definition linenoiseNoTTY (text : list ascii) : outcome (option (list ascii) * list ascii) :=
  no_tty_loop (S (length text)) [] 0 0 text.

(** The end of the line is dropped: every line feed and carriage return. *)
Fixpoint strip_line_end (rev_line : list ascii) : list ascii :=
  match rev_line with
  | c :: r => if Ascii.eqb c LF || Ascii.eqb c CR then strip_line_end r else rev_line
  | [] => []
  end.

(** The standard input: no terminal, one that is in the list of terminals without
    escape sequences, or one with a width and keys ([raw]: can it be put in raw
    mode?). *)
Inductive stdin : Type :=
  | NoTty (text : list ascii)
  | Unsupported (text : list ascii)
  | Terminal (raw : bool) (cols : Z) (keys : list input).

(** The line, if there is one, and the history. *)
Definition linenoise (prompt : list ascii) (history : list (list ascii)) (input : stdin)
    : outcome (option (list ascii) * list (list ascii)) :=
  match input with
  | NoTty text =>
      let! r := linenoiseNoTTY text in
      match r.1 with
      | Some line => let! s := cstr line in Ret (Some s, history)
      | None => Ret (None, history)
      end
  | Unsupported text =>
      match fgets_chars (Z.to_nat (LINENOISE_MAX_LINE - 1)) text with
      | ([], _) => Ret (None, history)
      | (line, _) => Ret (Some (rev (strip_line_end (rev (cut_nul line)))), history)
      end
  | Terminal raw cols keys =>
      let buf := replicate (Z.to_nat LINENOISE_MAX_LINE) junk in
      let! r := linenoiseRaw raw buf cols prompt history keys in
      let '(count, _, l) := r in
      let history := match l with Some l => l_history l | None => history end in
      if count =? -1 then Ret (None, history)
      else
        match l with
        | Some l => let! s := cstr (l_buf l) in Ret (Some s, history)
        | None => Ret (None, history)
        end
  end.
End edit.
