(* ===== verification/LinenoiseFacts.v ===== *)
(** * Line editing: drawing, and the buffer against a zipper

    The line is abstractly what is before and what is behind the cursor, with the
    history and the entry that is edited. *)
From S2P Require Import Prelude CStd Buf Term Linenoise.
From Stdlib Require Import Ascii.

Local Open Scope Z_scope.

(** ** The window that a single line is drawn in *)
Lemma wrap64_add a b : wrap64 (a + wrap64 b) = wrap64 (a + b).
Proof. unfold wrap64. by rewrite Zplus_mod_idemp_r. Qed.
Lemma wrap64_sub a : wrap64 (wrap64 a - 1) = wrap64 (a - 1).
Proof. unfold wrap64. by rewrite Zminus_mod_idemp_l. Qed.

(** The columns that are scrolled out on the left. *)
Definition scrolled (plen cols pos : Z) : Z := Z.max 0 (plen + pos - cols + 1).

Lemma scroll_left_ok fuel : ∀ plen cols off len pos,
  0 < cols → 0 ≤ plen + pos < 2 ^ 64 → scrolled plen cols pos < Z.of_nat fuel →
  let k := scrolled plen cols pos in
  scroll_left fuel plen cols off (wrap64 len) (wrap64 pos) =
    Ret (off + k, wrap64 (len - k), wrap64 (pos - k)).
Proof.
  unfold scrolled. induction fuel as [|fuel IH]; intros plen cols off len pos Hc Hp Hf; [lia|].
  cbn [scroll_left]. rewrite wrap64_add, (wrap64_small (plen + pos)) by done.
  destruct (Z.leb_spec cols (plen + pos)).
  - rewrite !wrap64_sub. cbv zeta in IH. rewrite IH by lia.
    replace (Z.max 0 (plen + pos - cols + 1)) with (1 + Z.max 0 (plen + (pos - 1) - cols + 1)) by lia.
    set (m := Z.max _ _). by rewrite !Z.sub_add_distr, Z.add_assoc.
  - rewrite Z.max_l by lia. by rewrite Z.add_0_r, !Z.sub_0_r.
Qed.

Lemma trim_right_ok fuel : ∀ plen cols len,
  0 < cols → 0 ≤ plen + len < 2 ^ 64 → plen + len - cols < Z.of_nat fuel →
  trim_right fuel plen cols (wrap64 len) = Ret (wrap64 (Z.min len (cols - plen))) ∨ fuel = O.
Proof.
  induction fuel as [|fuel IH]; intros plen cols len Hc Hp Hf; [by right|]. left.
  cbn [trim_right]. rewrite wrap64_add, (wrap64_small (plen + len)) by done.
  destruct (Z.ltb_spec cols (plen + len)).
  - rewrite wrap64_sub. destruct (IH plen cols (len - 1)) as [-> | ->]; [lia|lia|lia| |lia].
    do 2 f_equal. lia.
  - by rewrite Z.min_l by lia.
Qed.

Lemma sint32_wrap64 z : - 2 ^ 31 ≤ z < 2 ^ 31 → sint32 (wrap64 z) = z.
Proof.
  intros Hz. unfold sint32, wrap64. rewrite <- Zplus_mod_idemp_l.
  assert ((z mod 2 ^ 64) mod 2 ^ 32 = z mod 2 ^ 32) as ->.
  { apply Z.mod_mod_divide. by exists (2 ^ 32). }
  rewrite Zplus_mod_idemp_l, Z.mod_small by lia. lia.
Qed.

(** The hint behind a line. *)
Definition hint_ok (hints : option hints_callback) (l : lstate) (hint : list ascii) : Prop :=
  refreshShowHints hints (blen (l_prompt l)) l = Ret hint.

(** What [refreshSingleLine] writes: the part of the buffer that fits between the
    prompt and the right margin, moved so that the cursor is inside. *)
Definition window_start (l : lstate) : Z := scrolled (blen (l_prompt l)) (l_cols l) (l_pos l).
Definition window_length (l : lstate) : Z :=
  Z.min (l_len l - window_start l) (l_cols l - blen (l_prompt l)).
Definition single_line (l : lstate) (hint : list ascii) : list ascii :=
  CR :: l_prompt l ++ slice (l_buf l) (window_start l) (window_length l) ++ hint ++ esc "[0K" ++
  CR :: esc ("[" ++ fmt_d (l_pos l + blen (l_prompt l) - window_start l) ++ "C").

(** The sizes of a terminal and a line. *)
Record sizes_ok (l : lstate) : Prop := SizesOk {
  sz_cols : 0 < l_cols l < 2 ^ 30;
  sz_prompt : blen (l_prompt l) < 2 ^ 30;
  sz_pos : 0 ≤ l_pos l ≤ l_len l;
  sz_len : l_len l < 2 ^ 30;
  sz_buf : l_len l ≤ blen (l_buf l)
}.

Lemma single_line_ok hints l hint :
  sizes_ok l → hint_ok hints l hint →
  refreshSingleLine hints l =
    if window_length l <? 0 then Stuck OutOfBounds else Ret (print (single_line l hint) l).
Proof.
  intros [Hc Hpr Hpos Hlen Hbuf] Hh. unfold refreshSingleLine, single_line, window_length, window_start.
  set (plen := blen (l_prompt l)). pose proof (blen_nonneg (l_prompt l)) as Hp0. fold plen in Hp0, Hpr.
  set (k := scrolled plen (l_cols l) (l_pos l)).
  assert (0 ≤ k ≤ plen + l_pos l) as Hk by (unfold k, scrolled; lia).
  rewrite <- (wrap64_small (l_len l)) at 1 by lia. rewrite <- (wrap64_small (l_pos l)) at 2 by lia.
  rewrite scroll_left_ok by (fold k; lia). fold k. cbn [obind]. rewrite Z.add_0_l.
  destruct (trim_right_ok (S (Z.to_nat (plen + l_len l))) plen (l_cols l) (l_len l - k)) as [-> |];
    [lia|unfold k, scrolled; lia|lia| |done].
  cbn [obind]. unfold append_part. rewrite sint32_wrap64 by lia.
  set (n := Z.min (l_len l - k) (l_cols l - plen)).
  destruct (Z.ltb_spec n 0) as [Hn|Hn].
  { unfold in_buf. destruct (Z.leb_spec 0 n); [lia|]. by rewrite andb_false_r. }
  rewrite in_buf_true by lia. cbn [obind]. unfold hint_ok in Hh. fold plen in Hh. rewrite Hh. cbn [obind].
  rewrite (Z.add_comm _ plen), wrap64_add, sint32_wrap64 by (unfold k, scrolled; lia).
  by replace (plen + (l_pos l - k)) with (l_pos l + plen - k) by lia.
Qed.

(** ** The abstract line *)
Record zip := Zip {
  z_before : list ascii; z_after : list ascii;
  z_history : list (list ascii); z_index : nat;
  z_limit : Z  (** the longest text *)
}.
Definition z_text (z : zip) : list ascii := z_before z ++ z_after z.
Definition set_text (b a : list ascii) (z : zip) : zip :=
  Zip b a (z_history z) (z_index z) (z_limit z).
Definition set_entry (h : list (list ascii)) (i : nat) (z : zip) : zip :=
  Zip (z_before z) (z_after z) h i (z_limit z).

(** The buffer holds the text, ended by a NUL; the terminal is wider than the
    prompt. *)
Record line_ok (l : lstate) (z : zip) : Prop := LineOk {
  lo_text : ∃ rest, l_buf l = z_before z ++ z_after z ++ NUL :: rest;
  lo_size : blen (l_buf l) = l_buflen l + 1;
  lo_pos : l_pos l = blen (z_before z);
  lo_len : l_len l = blen (z_before z) + blen (z_after z);
  lo_fits : l_len l ≤ l_buflen l;
  lo_bound : 1 ≤ l_buflen l < 2 ^ 30;
  lo_cols : blen (l_prompt l) < l_cols l < 2 ^ 30;
  lo_history : l_history l = z_history z;
  lo_index : l_history_index l = Z.of_nat (z_index z);
  lo_limit : l_buflen l = z_limit z
}.

Lemma before_char_app c s rest :
  before_char c (s ++ c :: rest) = Some (default s (before_char c s)).
Proof.
  induction s as [|x s IH]; cbn [app before_char].
  { by destruct (Ascii.eqb_spec c c). }
  destruct (Ascii.eqb x c); [done|]. rewrite IH. by destruct (before_char c s).
Qed.

Lemma cstr_before s : cstr s = match before_char NUL s with Some s' => Ret s' | None => Stuck OutOfBounds end.
Proof.
  induction s as [|x s IH]; [done|]. cbn [cstr before_char]. destruct (Ascii.eqb x NUL); [done|].
  rewrite IH. by destruct (before_char NUL s).
Qed.

Lemma cstr_ok s rest : cstr (s ++ NUL :: rest) = Ret (cut_nul s).
Proof. by rewrite cstr_before, before_char_app. Qed.

Lemma line_cstr l z : line_ok l z → cstr (l_buf l) = Ret (cut_nul (z_text z)).
Proof. intros [[rest ->] _ _ _ _ _ _ _ _ _]. rewrite (assoc_L app). apply cstr_ok. Qed.

Lemma line_sizes l z : line_ok l z → sizes_ok l.
Proof.
  intros [_ Hs Hp Hl Hf Hb Hc _ _ _]. pose proof (blen_nonneg (z_before z)). pose proof (blen_nonneg (z_after z)).
  pose proof (blen_nonneg (l_prompt l)). split; lia.
Qed.

Lemma line_print s l z : line_ok l z → line_ok (print s l) z.
Proof. by intros [? ? ? ? ? ? ? ? ? ?]. Qed.
Lemma line_rows a b l z : line_ok l z → line_ok (with_rows a b l) z.
Proof. by intros [? ? ? ? ? ? ? ? ? ?]. Qed.

(** Drawing succeeds on a terminal that is wider than the prompt; it only changes
    what is recorded of the screen. *)
Lemma draw_ok ml hints l s rest :
  sizes_ok l → blen (l_prompt l) < l_cols l → l_buf l = s ++ NUL :: rest →
  ∃ out a b, refresh_with ml hints l = Ret (print out (with_rows a b l)).
Proof.
  intros Hsz Hw Hbuf.
  assert (∃ hint, hint_ok hints l hint) as [hint Hh].
  { unfold hint_ok, refreshShowHints. destruct hints as [f|]; [|by eexists].
    destruct (_ <? _); [|by eexists]. rewrite Hbuf, cstr_ok. cbn [obind].
    destruct (f _) as [[[hint color] bold]|]; by eexists. }
  pose proof Hsz as [Hc Hpr Hpos Hlen Hbl]. unfold refresh_with. destruct ml.
  - unfold refreshMultiLine. destruct (Z.eqb_spec (l_cols l) 0); [lia|].
    unfold append_part. rewrite sint32_small by lia. rewrite in_buf_true by lia. cbn [obind].
    unfold hint_ok in Hh. rewrite Hh. cbn [obind]. by eexists _, _, _.
  - rewrite (single_line_ok hints l hint) by done. unfold window_length, window_start, scrolled.
    destruct (Z.ltb_spec (Z.min (l_len l - Z.max 0 (blen (l_prompt l) + l_pos l - l_cols l + 1))
      (l_cols l - blen (l_prompt l))) 0); [lia|].
    exists (single_line l hint), (l_oldpos l), (l_maxrows l). by destruct l.
Qed.

Lemma refresh_ok ml hints l z : line_ok l z → ∃ l', refresh_with ml hints l = Ret l' ∧ line_ok l' z.
Proof.
  intros Hl. destruct (lo_text _ _ Hl) as [rest Hbuf]. rewrite (assoc_L app) in Hbuf.
  destruct (draw_ok ml hints l (z_text z) rest (line_sizes _ _ Hl)) as (out & a & b & ->);
    [apply (lo_cols _ _ Hl)|done|].
  eexists. split; [done|]. by apply line_print, line_rows.
Qed.

(** ** The operations on the zipper *)
Definition z_insert (c : ascii) (z : zip) : zip :=
  if blen (z_text z) <? z_limit z then set_text (z_before z ++ [c]) (z_after z) z else z.
Definition z_left (z : zip) : zip :=
  match last (z_before z) with
  | Some c => set_text (removelast (z_before z)) (c :: z_after z) z
  | None => z
  end.
Definition z_right (z : zip) : zip :=
  match z_after z with c :: a => set_text (z_before z ++ [c]) a z | [] => z end.
Definition z_home (z : zip) : zip := set_text [] (z_text z) z.
Definition z_end (z : zip) : zip := set_text (z_text z) [] z.
Definition z_delete (z : zip) : zip := set_text (z_before z) (tail (z_after z)) z.
Definition z_backspace (z : zip) : zip := set_text (removelast (z_before z)) (z_after z) z.
Definition z_clear (z : zip) : zip := set_text [] [] z.
Definition z_cut (z : zip) : zip := set_text (z_before z) [] z.
(** The two characters around the cursor change places; the cursor moves on, but
    not to the end of the line. *)
Definition z_swap (z : zip) : zip :=
  match last (z_before z), z_after z with
  | Some x, [y] => set_text (removelast (z_before z) ++ [y]) [x] z
  | Some x, y :: a => set_text (removelast (z_before z) ++ [y; x]) a z
  | _, _ => z
  end.
(** The part of a reversed text that is left when its first word is dropped. *)
Fixpoint drop_run (blank : bool) (rev_text : list ascii) : list ascii :=
  match rev_text with
  | c :: r => if Bool.eqb (Ascii.eqb c SP) blank then drop_run blank r else rev_text
  | [] => []
  end.
Definition z_word (z : zip) : zip :=
  set_text (rev (drop_run false (drop_run true (rev (z_before z))))) (z_after z) z.
(** The line takes the place of its entry, and another entry is shown. *)
Definition z_other (prev : bool) (z : zip) : zip :=
  let m := length (z_history z) in
  if (m <=? 1)%nat then z
  else
    let h := <[(m - 1 - z_index z)%nat := cut_nul (z_text z)]> (z_history z) in
    let show i :=
      let entry := default [] (h !! (m - 1 - i)%nat) in
      set_text (cut_nul (take (Z.to_nat (z_limit z - 1)) entry)) [] (set_entry h i z) in
    if prev then if decide (S (z_index z) < m)%nat then show (S (z_index z))
                 else set_entry h (z_index z) z
    else match z_index z with O => set_entry h O z | S i => show i end.
