(* ===== verification/LinenoiseOps.v ===== *)
(** * Line editing: every operation against the zipper *)
From S2P Require Import Prelude CStd Buf Term Linenoise LinenoiseFacts.
From Stdlib Require Import Ascii.

Local Open Scope Z_scope.

(** ** Moving parts of a buffer *)

(** [src] is moved over the gap [w] before it. *)
Lemma close_gap {A} (b0 w src s2 : list A) :
  ∃ gap, bmemmove (b0 ++ w ++ src ++ s2) (blen b0) (blen b0 + blen w) (blen src) = Ret (b0 ++ src ++ gap ++ s2) ∧
         length gap = length w.
Proof.
  exists (drop (length src) (w ++ src)). split; [|rewrite length_drop, length_app; lia].
  rewrite <- (blen_app b0 w). apply (bmemmove_app _ _ _ s2 _ (take (length src) (w ++ src))).
  - by rewrite <- (assoc_L app).
  - f_equal. by rewrite !(assoc_L app), take_drop.
  - rewrite length_take, length_app. lia.
Qed.

(** [src] is moved by one place; the buffer has a place for it. *)
Lemma open_gap {A} (b0 src : list A) y s2 :
  ∃ x, bmemmove (b0 ++ src ++ y :: s2) (blen b0 + 1) (blen b0) (blen src) = Ret (b0 ++ x :: src ++ s2).
Proof.
  destruct src as [|x src].
  - exists y. pose proof (bmemmove_app (b0 ++ y :: s2) b0 [] (y :: s2) (b0 ++ [y]) [] s2) as H.
    rewrite blen_app in H. change (blen [y]) with 1 in H. cbn [app] in *. rewrite H; try done.
    + by rewrite <- (assoc_L app).
    + by rewrite <- (assoc_L app).
  - exists x. pose proof (bmemmove_app (b0 ++ (x :: src) ++ y :: s2) b0 (x :: src) (y :: s2) (b0 ++ [x])
      (src ++ [y]) s2) as H.
    rewrite blen_app in H. change (blen [x]) with 1 in H. rewrite H; try done.
    + by rewrite <- (assoc_L app).
    + cbn [app]. by rewrite <- !(assoc_L app).
    + rewrite length_app. cbn. lia.
Qed.

Lemma skip_back_ok fuel : ∀ blank rb rest,
  blen rb < Z.of_nat fuel →
  skip_back fuel blank (rev rb ++ rest) (blen rb) = Ret (blen (drop_run blank rb)).
Proof.
  induction fuel as [|fuel IH]; intros blank rb rest Hf; [pose proof (blen_nonneg rb); lia|].
  cbn [skip_back]. destruct rb as [|c rb]; [done|]. rewrite blen_cons in *.
  pose proof (blen_nonneg rb). destruct (Z.ltb_spec 0 (1 + blen rb)); [|lia].
  cbn [rev drop_run]. rewrite <- (assoc_L app). cbn [app].
  replace (1 + blen rb - 1) with (blen (rev rb)) by (unfold blen; rewrite length_rev; lia).
  rewrite bget_app. cbn [obind]. destruct (Bool.eqb _ _); [|by rewrite blen_cons].
  replace (blen (rev rb)) with (blen rb) by (unfold blen; by rewrite length_rev). apply IH. lia.
Qed.

Lemma drop_run_suffix blank rb : ∃ w, rb = w ++ drop_run blank rb.
Proof.
  induction rb as [|c rb [w IH]]; cbn [drop_run]; [by exists []|].
  destruct (Bool.eqb _ _); [|by exists []]. exists (c :: w). cbn. by rewrite <- IH.
Qed.

(** ** The operations *)
Section ops.
Context (ml : bool) (hints : option hints_callback).
Context (completions : option completion_callback) (hmax : Z) (writes : bool) (junk : ascii).

(** The line with new text. *)
Lemma line_set l z b a buf :
  line_ok l z → (∃ rest, buf = b ++ a ++ NUL :: rest) → blen buf = blen (l_buf l) →
  line_ok (with_text buf (blen b) (blen b + blen a) l) (set_text b a z).
Proof.
  intros [_ Hs _ _ _ Hb Hc Hh Hi Hm] [rest ->] Hbuf. split; cbn; try done; [by eexists|lia|].
  rewrite !blen_app, blen_cons in Hbuf. pose proof (blen_nonneg rest). lia.
Qed.

Definition refines (o : outcome lstate) (z : zip) : Prop := ∃ l', o = Ret l' ∧ line_ok l' z.

Lemma refines_ret l z : line_ok l z → refines (Ret l) z.
Proof. by exists l. Qed.
Lemma refines_refresh l z : line_ok l z → refines (refreshLine ml hints l) z.
Proof. apply refresh_ok. Qed.

(** The same text with another cursor. *)
Lemma line_move_ok l z b a pos :
  line_ok l z → z_text z = b ++ a → pos = blen b →
  refines (refreshLine ml hints (with_pos pos l)) (set_text b a z).
Proof.
  intros Hl Ht ->. apply refines_refresh. unfold with_pos.
  pose proof (f_equal blen Ht) as Hlen. unfold z_text in Hlen. rewrite !blen_app in Hlen.
  rewrite (lo_len _ _ Hl), Hlen. apply line_set; [done| |done].
  destruct (lo_text _ _ Hl) as [rest ->]. exists rest. unfold z_text in Ht.
  by rewrite !(assoc_L app), Ht.
Qed.

Lemma set_text_id z : set_text (z_before z) (z_after z) z = z.
Proof. by destruct z. Qed.

Lemma line_left_ok l z : line_ok l z → refines (linenoiseEditMoveLeft ml hints l) (z_left z).
Proof.
  intros Hl. unfold linenoiseEditMoveLeft, z_left. rewrite (lo_pos _ _ Hl).
  destruct (z_before z) as [|c b _] eqn:Hb using rev_ind; [by apply refines_ret|].
  rewrite last_snoc, removelast_last, blen_app. change (blen [c]) with 1.
  pose proof (blen_nonneg b). destruct (Z.ltb_spec 0 (blen b + 1)); [|lia].
  apply line_move_ok; [done| |lia]. unfold z_text. rewrite Hb. by rewrite <- (assoc_L app).
Qed.

Lemma line_right_ok l z : line_ok l z → refines (linenoiseEditMoveRight ml hints l) (z_right z).
Proof.
  intros Hl. unfold linenoiseEditMoveRight, z_right. rewrite (lo_pos _ _ Hl), (lo_len _ _ Hl).
  destruct (z_after z) as [|c a] eqn:Ha.
  { change (blen []) with 0. rewrite Z.add_0_r, Z.eqb_refl. by apply refines_ret. }
  rewrite blen_cons. pose proof (blen_nonneg a). destruct (Z.eqb_spec (blen (z_before z)) (blen (z_before z) + (1 + blen a))); [lia|].
  apply line_move_ok; [done| |by rewrite blen_app]. unfold z_text. rewrite Ha. by rewrite <- (assoc_L app).
Qed.

Lemma home_ok l z : line_ok l z → refines (linenoiseEditMoveHome ml hints l) (z_home z).
Proof.
  intros Hl. unfold linenoiseEditMoveHome, z_home, z_text. rewrite (lo_pos _ _ Hl).
  destruct (Z.eqb_spec (blen (z_before z)) 0) as [E|]; cbn [negb]; [|by apply line_move_ok].
  destruct (z_before z) eqn:Hb; [|rewrite blen_cons in E; pose proof (blen_nonneg l0); lia].
  rewrite app_nil_l, <- Hb, set_text_id. by apply refines_ret.
Qed.

Lemma end_ok l z : line_ok l z → refines (linenoiseEditMoveEnd ml hints l) (z_end z).
Proof.
  intros Hl. unfold linenoiseEditMoveEnd, z_end. rewrite (lo_pos _ _ Hl), (lo_len _ _ Hl).
  destruct (Z.eqb_spec (blen (z_before z)) (blen (z_before z) + blen (z_after z))) as [E|]; cbn [negb].
  - destruct (z_after z) eqn:Ha; [|rewrite blen_cons in E; pose proof (blen_nonneg l0); lia].
    unfold z_text. rewrite Ha, app_nil_r, <- Ha, set_text_id. by apply refines_ret.
  - apply line_move_ok; [done|by rewrite app_nil_r|unfold z_text; by rewrite blen_app].
Qed.

(** The end of an edit: the new buffer, drawn. *)
Lemma edit_ok l z b a buf pos len :
  line_ok l z → (∃ rest, buf = b ++ a ++ NUL :: rest) → blen buf = blen (l_buf l) →
  pos = blen b → len = blen b + blen a →
  refines (refreshLine ml hints (with_text buf pos len l)) (set_text b a z).
Proof. intros. subst pos len. by apply refines_refresh, line_set. Qed.

Lemma remove_char_ok l z b x a rest pos :
  line_ok l z → l_buf l = b ++ x :: a ++ NUL :: rest → l_len l = blen b + 1 + blen a → pos = blen b →
  ∃ buf, (let! buf := bmemmove (l_buf l) pos (pos + 1) (l_len l - pos - 1) in
          bset buf (l_len l - 1) NUL) = Ret buf ∧
         (∃ rest, buf = b ++ a ++ NUL :: rest) ∧ blen buf = blen (l_buf l).
Proof.
  intros Hl Hbuf Hlen ->. destruct (close_gap b [x] a (NUL :: rest)) as (gap & Hm & Hg).
  rewrite Hbuf, Hlen. change (blen [x]) with 1 in Hm.
  replace (blen b + 1 + blen a - blen b - 1) with (blen a) by lia.
  change (b ++ x :: a ++ NUL :: rest) with (b ++ [x] ++ a ++ NUL :: rest). rewrite Hm. cbn [obind].
  destruct gap as [|y [|? ?]]; cbn in Hg; try lia. cbn [app].
  rewrite (assoc_L app b a), bset_at by (rewrite blen_app; lia).
  eexists. split; [done|]. split; [exists (NUL :: rest); by rewrite <- (assoc_L app)|].
  rewrite !blen_app, !blen_cons. rewrite !blen_app, !blen_cons. lia.
Qed.

Lemma edit_delete_ok l z : line_ok l z → refines (linenoiseEditDelete ml hints l) (z_delete z).
Proof.
  intros Hl. unfold linenoiseEditDelete, z_delete. destruct (lo_text _ _ Hl) as [rest Hbuf].
  pose proof (lo_len _ _ Hl) as Hlen. rewrite (lo_pos _ _ Hl). pose proof (blen_nonneg (z_before z)) as H0.
  destruct (z_after z) as [|x a] eqn:Ha; cbn [tail].
  - change (blen []) with 0 in Hlen. destruct (Z.ltb_spec (blen (z_before z)) (l_len l)); [lia|].
    rewrite andb_false_r, <- Ha, set_text_id. by apply refines_ret.
  - rewrite blen_cons in Hlen. pose proof (blen_nonneg a).
    destruct (Z.ltb_spec 0 (l_len l)), (Z.ltb_spec (blen (z_before z)) (l_len l)); try lia. cbn [andb].
    destruct (remove_char_ok l z (z_before z) x a rest (blen (z_before z)) Hl Hbuf ltac:(lia) eq_refl) as (buf & Hb & Hr & Hs).
    destruct (bmemmove _ _ _ _) as [buf0| | |]; cbn [obind] in *; try done. rewrite Hb. cbn [obind].
    apply edit_ok; try done. lia.
Qed.

Lemma edit_backspace_ok l z : line_ok l z → refines (linenoiseEditBackspace ml hints l) (z_backspace z).
Proof.
  intros Hl. unfold linenoiseEditBackspace, z_backspace. destruct (lo_text _ _ Hl) as [rest Hbuf].
  pose proof (lo_len _ _ Hl) as Hlen. rewrite (lo_pos _ _ Hl). pose proof (blen_nonneg (z_after z)) as H0.
  destruct (z_before z) as [|x b _] eqn:Hb using rev_ind.
  - cbn [removelast]. change (blen []) with 0. cbn [Z.ltb Z.compare andb].
    rewrite <- Hb, set_text_id. by apply refines_ret.
  - rewrite removelast_last. rewrite blen_app in *. change (blen [x]) with 1 in *. pose proof (blen_nonneg b).
    destruct (Z.ltb_spec 0 (blen b + 1)), (Z.ltb_spec 0 (l_len l)); try lia. cbn [andb].
    rewrite <- (assoc_L app) in Hbuf.
    destruct (remove_char_ok l z b x (z_after z) rest (blen b) Hl Hbuf Hlen eq_refl) as (buf & Hbs & Hr & Hs).
    replace (blen b + 1 - 1) with (blen b) by lia.
    replace (l_len l - (blen b + 1)) with (l_len l - blen b - 1) by lia.
    destruct (bmemmove _ _ _ _) as [buf0| | |]; cbn [obind] in *; try done. rewrite Hbs. cbn [obind].
    apply edit_ok; try done. lia.
Qed.

(** Room for a character: the text is not at the end of the buffer. *)
Lemma room l z rest :
  line_ok l z → l_buf l = z_before z ++ z_after z ++ NUL :: rest → l_len l < l_buflen l →
  ∃ x rest', rest = x :: rest'.
Proof.
  intros Hl Hbuf Hlt. pose proof (lo_size _ _ Hl) as Hs. pose proof (lo_len _ _ Hl) as Hlen.
  rewrite Hbuf, !blen_app, blen_cons in Hs. destruct rest; [change (blen []) with 0 in Hs; lia|eauto].
Qed.

Lemma insert_ok l z c :
  line_ok l z → ∃ l', linenoiseEditInsert ml hints true c l = Ret (0, l') ∧ line_ok l' (z_insert c z).
Proof.
  intros Hl. unfold linenoiseEditInsert, z_insert, z_text. rewrite blen_app, <- (lo_len _ _ Hl), <- (lo_limit _ _ Hl).
  destruct (Z.ltb_spec (l_len l) (l_buflen l)) as [Hlt|]; [|by exists l].
  destruct (lo_text _ _ Hl) as [rest Hbuf]. destruct (room l z rest Hl Hbuf Hlt) as (x & rest' & ->).
  pose proof (lo_len _ _ Hl) as Hlen. rewrite (lo_pos _ _ Hl).
  assert (∀ buf, buf = (z_before z ++ [c]) ++ z_after z ++ NUL :: rest' →
    line_ok (with_text buf (blen (z_before z) + 1) (l_len l + 1) l) (set_text (z_before z ++ [c]) (z_after z) z)) as Hset.
  { intros buf ->. rewrite Hlen. replace (blen (z_before z) + 1) with (blen (z_before z ++ [c])) by by rewrite blen_app.
    replace (blen (z_before z) + blen (z_after z) + 1) with (blen (z_before z ++ [c]) + blen (z_after z))
      by (rewrite blen_app; change (blen [c]) with 1; lia).
    apply line_set; [done|by eexists|]. rewrite Hbuf, !blen_app, !blen_cons. change (blen (@nil ascii)) with 0. lia. }
  destruct (Z.eqb_spec (l_len l) (blen (z_before z))) as [E|E].
  - assert (z_after z = []) as Ha.
    { destruct (z_after z) as [|y a]; [done|]. rewrite blen_cons in Hlen. pose proof (blen_nonneg a). lia. }
    rewrite Hbuf, Ha. cbn [app]. rewrite bset_app. cbn [obind].
    replace (z_before z ++ c :: x :: rest') with ((z_before z ++ [c]) ++ x :: rest') by by rewrite <- (assoc_L app).
    rewrite bset_at by (rewrite blen_app; change (blen [c]) with 1; lia). cbn [obind].
    rewrite Ha in Hset. specialize (Hset _ eq_refl). cbn [app] in Hset.
    set (l1 := with_text _ _ _ l) in *. destruct (negb ml && _ && _); [by eexists; split; [|apply line_print]|].
    destruct (refines_refresh l1 _ Hset) as (l2 & -> & ?). by eexists.
  - rewrite Hbuf. replace (l_len l - blen (z_before z)) with (blen (z_after z)) by lia.
    replace (z_before z ++ z_after z ++ NUL :: x :: rest')
      with (z_before z ++ z_after z ++ NUL :: (x :: rest')) by done.
    destruct (open_gap (z_before z) (z_after z) NUL (x :: rest')) as (y & ->). cbn [obind].
    rewrite bset_app. cbn [obind].
    replace (z_before z ++ c :: z_after z ++ x :: rest') with ((z_before z ++ c :: z_after z) ++ x :: rest')
      by by rewrite <- (assoc_L app).
    rewrite bset_at by (rewrite blen_app, blen_cons; lia). cbn [obind].
    destruct (refines_refresh _ _ (Hset ((z_before z ++ c :: z_after z) ++ NUL :: rest') ltac:(by rewrite <- !(assoc_L app))))
      as (l2 & -> & ?). by eexists.
Qed.

Lemma clear_ok l z : line_ok l z → refines (kill_line ml hints l) (z_clear z).
Proof.
  intros Hl. unfold kill_line. destruct (lo_text _ _ Hl) as [rest Hbuf].
  destruct (l_buf l) as [|c buf] eqn:E; [by destruct (z_before z), (z_after z)|].
  pose proof (bset_app [] c buf NUL) as Hs. cbn [app] in Hs. change (blen []) with 0 in Hs.
  rewrite Hs. cbn [obind]. apply (edit_ok l z [] []); [done|by eexists|by rewrite E, !blen_cons|done|done].
Qed.

Lemma cut_ok l z : line_ok l z → refines (kill_end ml hints l) (z_cut z).
Proof.
  intros Hl. unfold kill_end. destruct (lo_text _ _ Hl) as [rest Hbuf]. rewrite (lo_pos _ _ Hl), Hbuf.
  assert (∃ rest', bset (z_before z ++ z_after z ++ NUL :: rest) (blen (z_before z)) NUL =
    Ret (z_before z ++ [] ++ NUL :: rest') ∧ length rest' = length (z_after z ++ rest)) as (rest' & -> & Hr).
  { destruct (z_after z) as [|x a]; cbn [app]; rewrite bset_app; eexists; (split; [done|]); [done|].
    rewrite !length_app; cbn [length app]; rewrite ?length_app; lia. }
  cbn [obind]. apply edit_ok; [done|by eexists| |done|change (blen []) with 0; lia].
  rewrite Hbuf. unfold blen. rewrite length_app in Hr. rewrite !length_app. cbn [length app]. lia.
Qed.

Lemma swap_ok l z : line_ok l z → refines (swap_chars ml hints l) (z_swap z).
Proof.
  intros Hl. unfold swap_chars, z_swap. destruct (lo_text _ _ Hl) as [rest Hbuf].
  pose proof (lo_len _ _ Hl) as Hlen. rewrite (lo_pos _ _ Hl).
  destruct (z_before z) as [|x b _] eqn:Hb using rev_ind; [by apply refines_ret|].
  rewrite last_snoc, removelast_last. rewrite blen_app in *. change (blen [x]) with 1 in *.
  pose proof (blen_nonneg b). destruct (Z.ltb_spec 0 (blen b + 1)); [|lia]. cbn [andb].
  destruct (z_after z) as [|y a] eqn:Ha.
  { change (blen []) with 0 in Hlen. destruct (Z.ltb_spec (blen b + 1) (l_len l)); [lia|]. by apply refines_ret. }
  rewrite blen_cons in Hlen. pose proof (blen_nonneg a). destruct (Z.ltb_spec (blen b + 1) (l_len l)); [|lia].
  replace (blen b + 1 - 1) with (blen b) by lia. rewrite Hbuf, <- (assoc_L app). cbn [app].
  rewrite bget_app. cbn [obind].
  replace (b ++ x :: y :: a ++ NUL :: rest) with ((b ++ [x]) ++ y :: a ++ NUL :: rest) by by rewrite <- (assoc_L app).
  rewrite bget_at by by rewrite blen_app. cbn [obind]. rewrite <- (assoc_L app). cbn [app].
  rewrite bset_app. cbn [obind].
  replace (b ++ y :: y :: a ++ NUL :: rest) with ((b ++ [y]) ++ y :: a ++ NUL :: rest) by by rewrite <- (assoc_L app).
  rewrite bset_at by by rewrite blen_app. cbn [obind].
  assert (blen ((b ++ [y]) ++ x :: a ++ NUL :: rest) = blen (l_buf l)) as Hsize.
  { rewrite Hbuf. unfold blen. rewrite !length_app. cbn [length app]. rewrite !length_app. cbn. lia. }
  destruct a as [|w a].
  - change (blen []) with 0 in Hlen. destruct (Z.eqb_spec (blen b + 1) (l_len l - 1)); [|lia]. cbn [negb].
    apply edit_ok; [done|by eexists|done|by rewrite blen_app|]. rewrite blen_app. exact Hlen.
  - rewrite blen_cons in Hlen. pose proof (blen_nonneg a).
    destruct (Z.eqb_spec (blen b + 1) (l_len l - 1)); [lia|]. cbn [negb].
    apply edit_ok; [done| |done| |].
    + exists rest. by rewrite <- !(assoc_L app).
    + rewrite blen_app. change (blen [y; x]) with 2. lia.
    + rewrite blen_app, (blen_cons w). change (blen [y; x]) with 2. lia.
Qed.

Lemma word_ok l z : line_ok l z → refines (linenoiseEditDeletePrevWord ml hints l) (z_word z).
Proof.
  intros Hl. unfold linenoiseEditDeletePrevWord, z_word. destruct (lo_text _ _ Hl) as [rest Hbuf].
  pose proof (lo_len _ _ Hl) as Hlen. rewrite (lo_pos _ _ Hl), Hbuf.
  set (rb := rev (z_before z)). set (rb1 := drop_run true rb). set (rb2 := drop_run false rb1).
  destruct (drop_run_suffix true rb) as [w1 Hw1], (drop_run_suffix false rb1) as [w2 Hw2]. fold rb1 in Hw1. fold rb2 in Hw2.
  assert (∀ r : list ascii, blen (rev r) = blen r) as Hrev by (intros; unfold blen; by rewrite length_rev).
  assert (z_before z = rev rb1 ++ rev w1) as Hb1 by (rewrite <- rev_app_distr, <- Hw1; symmetry; apply rev_involutive).
  assert (rev rb1 = rev rb2 ++ rev w2) as Hb2 by (rewrite <- rev_app_distr, <- Hw2; done).
  pose proof (f_equal blen Hb1) as Hl1. pose proof (f_equal blen Hb2) as Hl2.
  rewrite blen_app, ?Hrev in Hl1. rewrite blen_app, ?Hrev in Hl2. rewrite ?Hrev in Hl1, Hl2. pose proof (blen_nonneg w1). pose proof (blen_nonneg w2).
  set (fuel := S (Z.to_nat (blen (z_before z)))).
  assert (skip_back fuel true (z_before z ++ z_after z ++ NUL :: rest) (blen (z_before z)) = Ret (blen rb1)) as ->.
  { pose proof (skip_back_ok fuel true rb (z_after z ++ NUL :: rest)) as Hs. unfold rb in Hs at 2.
    rewrite rev_involutive in Hs. replace (blen (z_before z)) with (blen rb) by (unfold rb; apply Hrev).
    apply Hs. unfold rb, fuel. rewrite Hrev. lia. }
  cbn [obind].
  assert (skip_back fuel false (z_before z ++ z_after z ++ NUL :: rest) (blen rb1) = Ret (blen rb2)) as ->.
  { rewrite Hb1, <- (assoc_L app). apply skip_back_ok. unfold fuel. lia. }
  cbn [obind]. destruct (close_gap (rev rb2) (rev w2 ++ rev w1) (z_after z ++ [NUL]) rest) as (gap & Hm & Hg).
  assert (z_before z ++ z_after z ++ NUL :: rest = rev rb2 ++ (rev w2 ++ rev w1) ++ (z_after z ++ [NUL]) ++ rest) as Heq
    by (rewrite Hb1, Hb2, <- !(assoc_L app); done).
  rewrite Heq. rewrite !blen_app, !Hrev in Hm. change (blen [NUL]) with 1 in Hm.
  replace (l_len l - blen (z_before z) + 1) with (blen (z_after z) + 1) by lia.
  replace (blen (z_before z)) with (blen rb2 + (blen w2 + blen w1)) by lia. rewrite Hm. cbn [obind].
  apply edit_ok; [done|exists (gap ++ rest); by rewrite <- !(assoc_L app)| |by rewrite Hrev|rewrite Hrev; lia].
  rewrite Hbuf, Heq. unfold blen. rewrite !length_app in *. rewrite Hg. lia.
Qed.

Lemma before_char_prefix c s s' : before_char c s = Some s' → ∃ t, s = s' ++ c :: t.
Proof.
  revert s'. induction s as [|x s IH]; intros s'; cbn [before_char]; [done|].
  destruct (Ascii.eqb_spec x c) as [->|]; [intros [= <-]; by exists s|].
  destruct (before_char c s) as [s0|]; [|done]. cbn. intros [= <-].
  destruct (IH s0 eq_refl) as [t ->]. by exists t.
Qed.

Lemma cut_nul_prefix s : ∃ t, s = cut_nul s ++ t ∧ (t = [] ∨ ∃ t', t = NUL :: t').
Proof.
  unfold cut_nul. destruct (before_char NUL s) as [s'|] eqn:E; cbn; unfold id.
  - apply before_char_prefix in E as [t ->]. eexists. split; [done|]. right. by eexists.
  - exists []. rewrite app_nil_r. by split; [|left].
Qed.

Lemma before_char_cut s : NUL ∉ cut_nul s.
Proof.
  unfold cut_nul. induction s as [|x s IH]; [set_solver|]. cbn [before_char].
  destruct (Ascii.eqb_spec x NUL) as [->|Hne]; cbn; unfold id; [set_solver|].
  destruct (before_char NUL s); cbn in *; unfold id in *; apply not_elem_of_cons; (split; [by intros <-|done]).
Qed.

(** The entry in the buffer, cut to its size. *)
Lemma strncpy_ok buf s n :
  1 ≤ n → blen buf = n + 1 →
  ∃ buf', (let! b := strncpy buf s n in bset b (n - 1) NUL) = Ret buf' ∧ blen buf' = blen buf ∧
          ∃ rest, buf' = cut_nul (take (Z.to_nat (n - 1)) s) ++ NUL :: rest.
Proof.
  intros Hn Hb. unfold strncpy. set (part := take (Z.to_nat n) s ++ _).
  assert (blen part = n) as Hpl.
  { unfold part, blen. rewrite length_app, length_replicate, length_take. lia. }
  assert (bmemcpy buf 0 part 0 n = Ret (part ++ drop (Z.to_nat n) buf)) as ->.
  { pose proof (bmemcpy_app [] (take (Z.to_nat n) buf) (drop (Z.to_nat n) buf) [] part [] n) as Hc.
    rewrite app_nil_r in Hc. cbn [app] in Hc. rewrite take_drop in Hc. apply Hc; [|done].
    unfold blen in *. rewrite length_take. lia. }
  cbn [obind]. assert (∃ m, take (Z.to_nat (n - 1)) part = take (Z.to_nat (n - 1)) s ++ replicate m NUL) as [m Hpre].
  { unfold part. rewrite take_app, take_take, take_replicate, Nat.min_l by lia. by eexists. }
  destruct part as [|x part' _] eqn:Epart using rev_ind; [change (blen []) with 0 in Hpl; lia|].
  rewrite blen_app in Hpl. change (blen [x]) with 1 in Hpl.
  rewrite take_app_length' in Hpre by (unfold blen in Hpl; lia).
  rewrite <- (assoc_L app). cbn [app]. rewrite bset_at by lia.
  eexists. split; [done|]. split.
  { rewrite blen_app, blen_cons. unfold blen in *. rewrite length_drop. lia. }
  rewrite Hpre. destruct (cut_nul_prefix (take (Z.to_nat (n - 1)) s)) as (t & Ht & Hcase).
  replace (take (Z.to_nat (n - 1)) s ++ replicate m NUL)
    with (cut_nul (take (Z.to_nat (n - 1)) s) ++ t ++ replicate m NUL) by by rewrite (assoc_L app), <- Ht.
  rewrite <- !(assoc_L app). destruct Hcase as [->|[t' ->]]; [|by eexists].
  cbn [app]. destruct m; cbn [replicate app]; by eexists.
Qed.

(** The other entry is shown. *)
Lemma show_entry_ok l z h i entry :
  line_ok l z → h !! Z.to_nat (blen h - 1 - Z.of_nat i) = Some entry → (i < length h)%nat →
  refines (let! entry := bget h (blen h - 1 - Z.of_nat i) in
           let! buf := strncpy (l_buf l) entry (l_buflen l) in
           let! buf := bset buf (l_buflen l - 1) NUL in
           let! text := cstr buf in
           refreshLine ml hints (with_text buf (blen text) (blen text) (with_history h (Z.of_nat i) l)))
          (set_text (cut_nul (take (Z.to_nat (z_limit z - 1)) entry)) [] (set_entry h i z)).
Proof.
  intros Hl Hentry Hi. rewrite <- (lo_limit _ _ Hl). rewrite (bget_ok _ _ entry) by (done || unfold blen; lia). cbn [obind].
  pose proof (lo_bound _ _ Hl) as Hb.
  destruct (strncpy_ok (l_buf l) entry (l_buflen l)) as (buf & Hbuf & Hsize & rest & Hrest);
    [lia|apply (lo_size _ _ Hl)|].
  destruct (strncpy _ _ _) as [buf0| | |]; cbn [obind] in *; try done. rewrite Hbuf. cbn [obind].
  set (text := cut_nul (take _ entry)) in *.
  assert (cut_nul text = text) as Hcut.
  { unfold text. unfold cut_nul at 1. destruct (before_char NUL (cut_nul _)) as [s'|] eqn:E; [exfalso|done].
    apply before_char_prefix in E as [t E]. pose proof (before_char_cut (take (Z.to_nat (l_buflen l - 1)) entry)) as Hn.
    apply Hn. rewrite E. set_solver. }
  rewrite Hrest, cstr_ok, Hcut. cbn [obind]. rewrite <- Hrest.
  apply refines_refresh. destruct Hl as [_ Hs _ _ _ Hbd Hc _ _ Hm].
  split; cbn; try done; [by exists rest|lia|change (blen (@nil ascii)) with 0; lia|].
  rewrite Hrest, blen_app, blen_cons in Hsize. pose proof (blen_nonneg rest). lia.
Qed.

Lemma history_next_ok prev l z :
  line_ok l z → (z_index z < length (z_history z))%nat →
  refines (linenoiseEditHistoryNext ml hints prev l) (z_other prev z).
Proof.
  intros Hl Hi. unfold linenoiseEditHistoryNext, z_other. rewrite (lo_history _ _ Hl), (lo_index _ _ Hl).
  set (m := length (z_history z)) in *.
  destruct (Z.ltb_spec 1 (blen (z_history z))) as [H1|H1], (Nat.leb_spec m 1);
    try (unfold blen in H1; lia); [|by apply refines_ret].
  rewrite (line_cstr l z Hl). cbn [obind]. unfold bset. unfold blen in *. fold m.
  destruct (Z.leb_spec 0 (Z.of_nat m - 1 - Z.of_nat (z_index z))),
    (Z.ltb_spec (Z.of_nat m - 1 - Z.of_nat (z_index z)) (Z.of_nat m)); try lia. cbn [andb obind].
  replace (Z.to_nat (Z.of_nat m - 1 - Z.of_nat (z_index z))) with (m - 1 - z_index z)%nat by lia.
  set (h := <[_ := _]> (z_history z)). assert (length h = m) as Hh by (unfold h; by rewrite length_insert).
  assert (∀ i, (i < m)%nat → ∃ e, h !! (m - 1 - i)%nat = Some e) as Hent
    by (intros i ?; apply lookup_lt_is_Some_2; lia).
  assert (∀ i, (i < m)%nat → refines
    (let! entry := bget h (Z.of_nat m - 1 - Z.of_nat i) in
     let! buf := strncpy (l_buf l) entry (l_buflen l) in
     let! buf := bset buf (l_buflen l - 1) NUL in
     let! text := cstr buf in
     refreshLine ml hints (with_text buf (blen text) (blen text) (with_history h (Z.of_nat i) l)))
    (set_text (cut_nul (take (Z.to_nat (z_limit z - 1)) (default [] (h !! (m - 1 - i)%nat)))) [] (set_entry h i z))) as Hshow.
  { intros i Him. destruct (Hent i Him) as [e He]. rewrite He. cbn [default].
    pose proof (show_entry_ok l z h i e Hl) as Hs. unfold blen in Hs at 1 2. rewrite Hh in Hs. apply Hs; [|lia].
    by replace (Z.to_nat (Z.of_nat m - 1 - Z.of_nat i)) with (m - 1 - i)%nat by lia. }
  assert (line_ok (with_history h (Z.of_nat (z_index z)) l) (set_entry h (z_index z) z)) as Hkeep
    by by destruct Hl.
  destruct prev.
  - destruct (Z.ltb_spec (Z.of_nat (z_index z) + 1) 0); [lia|]. destruct (decide _).
    + destruct (Z.leb_spec (Z.of_nat m) (Z.of_nat (z_index z) + 1)); [lia|].
      replace (Z.of_nat (z_index z) + 1) with (Z.of_nat (S (z_index z))) by lia. by apply Hshow.
    + destruct (Z.leb_spec (Z.of_nat m) (Z.of_nat (z_index z) + 1)); [|lia].
      replace (Z.of_nat m - 1) with (Z.of_nat (z_index z)) by lia. by apply refines_ret.
  - destruct (z_index z) as [|i] eqn:Ei; [by apply refines_ret|].
    replace (Z.of_nat (S i) - 1) with (Z.of_nat i) by lia.
    destruct (Z.ltb_spec (Z.of_nat i) 0), (Z.leb_spec (Z.of_nat m) (Z.of_nat i)); try lia. apply Hshow. lia.
Qed.
End ops.
