(* ===== verification/LinenoiseSpec.v ===== *)
(** * Line editing: the theorems *)
From S2P Require Import Prelude CStd Buf Term Linenoise LinenoiseFacts LinenoiseOps.
From Stdlib Require Import Ascii.

Local Open Scope Z_scope.

(** ** The abstract editor *)
Inductive zres : Type := ZMore (inp : list input) (z : zip) | ZDone (result : Z) (inp : list input) (z : zip).

Definition z_drop (z : zip) : zip := set_entry (removelast (z_history z)) (z_index z) z.

Section spec.
Context (ml : bool) (completions : option completion_callback) (junk : ascii).
Definition z_escape (inp : list input) (z : zip) : zres :=
  let '(s0, inp) := read_seq junk inp in
  match s0 with
  | None => ZMore inp z
  | Some seq0 =>
      let '(s1, inp) := read_seq junk inp in
      match s1 with
      | None => ZMore inp z
      | Some seq1 =>
          if Ascii.eqb seq0 "["%char then
            if isdigit_c seq1 then
              let '(s2, inp) := read_seq junk inp in
              match s2 with
              | None => ZMore inp z
              | Some seq2 =>
                  ZMore inp (if Ascii.eqb seq2 "~"%char && Ascii.eqb seq1 "3"%char then z_delete z else z)
              end
            else ZMore inp
              (if Ascii.eqb seq1 "A"%char then z_other true z
               else if Ascii.eqb seq1 "B"%char then z_other false z
               else if Ascii.eqb seq1 "C"%char then z_right z
               else if Ascii.eqb seq1 "D"%char then z_left z
               else if Ascii.eqb seq1 "H"%char then z_home z
               else if Ascii.eqb seq1 "F"%char then z_end z
               else z)
          else if Ascii.eqb seq0 "O"%char then ZMore inp
              (if Ascii.eqb seq1 "H"%char then z_home z else if Ascii.eqb seq1 "F"%char then z_end z else z)
          else ZMore inp z
      end
  end.

Definition z_key (c : Z) (inp : list input) (z : zip) : zres :=
  if c =? ENTER then ZDone (blen (z_text z)) inp ((if ml then z_end else id) (z_drop z))
  else if c =? CTRL_C then ZDone (-1) inp z
  else if (c =? BACKSPACE) || (c =? CTRL_H) then ZMore inp (z_backspace z)
  else if c =? CTRL_D then
    if 0 <? blen (z_text z) then ZMore inp (z_delete z) else ZDone (-1) inp (z_drop z)
  else if c =? CTRL_T then ZMore inp (z_swap z)
  else if c =? CTRL_B then ZMore inp (z_left z)
  else if c =? CTRL_F then ZMore inp (z_right z)
  else if c =? CTRL_P then ZMore inp (z_other true z)
  else if c =? CTRL_N then ZMore inp (z_other false z)
  else if c =? ESC then z_escape inp z
  else if c =? CTRL_U then ZMore inp (z_clear z)
  else if c =? CTRL_K then ZMore inp (z_cut z)
  else if c =? CTRL_A then ZMore inp (z_home z)
  else if c =? CTRL_E then ZMore inp (z_end z)
  else if c =? CTRL_L then ZMore inp z
  else if c =? CTRL_W then ZMore inp (z_word z)
  else ZMore inp (z_insert (to_char c) z).

(** Tabs go through the completions and back to the text; another key takes the
    one that is shown. *)
Fixpoint z_choose (cvec : list (list ascii)) (i : Z) (inp : list input) (z : zip) : Z * list input * zip :=
  match inp with
  | Byte c :: inp =>
      if uchar c =? KEY_TAB then z_choose cvec ((i + 1) mod (blen cvec + 1)) inp z
      else if uchar c =? ESC then (schar c, inp, z)
      else (schar c, inp, match cvec !! Z.to_nat i with Some s => set_text s [] z | None => z end)
  | _ :: inp => (-1, inp, z)
  | [] => (-1, [], z)
  end.

Definition z_complete (callback : completion_callback) (inp : list input) (z : zip)
    : Z * list input * zip :=
  let cvec := callback (cut_nul (z_text z)) in
  if blen cvec =? 0 then (0, inp, z) else z_choose cvec 0 inp z.

Definition z_round (inp : list input) (z : zip) : zres :=
  let '(e, inp) := read inp in
  match e with
  | Byte c =>
      match completions with
      | Some callback =>
          if uchar c =? KEY_TAB then
            let '(c, inp, z) := z_complete callback inp z in
            if c <? 0 then ZDone (blen (z_text z)) inp z
            else if c =? 0 then ZMore inp z
            else z_key c inp z
          else z_key (schar c) inp z
      | None => z_key (schar c) inp z
      end
  | _ => ZDone (blen (z_text z)) inp z
  end.

Fixpoint z_loop (fuel : nat) (inp : list input) (z : zip) : outcome (Z * list input * zip) :=
  match fuel with
  | O => Spin
  | S fuel =>
      match z_round inp z with
      | ZMore inp z => z_loop fuel inp z
      | ZDone r inp z => Ret (r, inp, z)
      end
  end.

(** ** Refinement *)
Context (hints : option hints_callback).

(** The longest text, and completions that fit in it. *)
Context (n : Z).
Context (Hcomp : ∀ f t s, completions = Some f → s ∈ f t → NUL ∉ s ∧ blen s < n).

(** The entry that is edited exists. *)
Definition live (z : zip) : Prop := (z_index z < length (z_history z))%nat ∧ z_limit z = n.

(** The end of a round refines the abstract one; the input gets no longer. *)
Definition round_refines (inp : list input) (o : outcome after_key) (r : zres) : Prop :=
  match r with
  | ZMore inp' z => (∃ l, o = Ret (More inp' l) ∧ line_ok l z) ∧ live z ∧ (length inp' ≤ length inp)%nat
  | ZDone k inp' z => ∃ l, o = Ret (Done k inp' l) ∧ line_ok l z ∧ z_limit z = n
  end.

Lemma more_ok inp inp' o z :
  refines o z → live z → (length inp' ≤ length inp)%nat →
  round_refines inp (more inp' o) (ZMore inp' z).
Proof. intros (l & -> & Hl) Hz Hi. split_and!; [by exists l|done|done]. Qed.

Lemma read_length inp : (length (read inp).2 ≤ length inp)%nat.
Proof. destruct inp; cbn; lia. Qed.
Lemma read_seq_length inp s inp' : read_seq junk inp = (s, inp') → (length inp' ≤ length inp)%nat.
Proof.
  unfold read_seq. pose proof (read_length inp). destruct (read inp) as [e i]. intros [= <- <-]. done.
Qed.

Lemma live_other prev z : live z → live (z_other prev z).
Proof.
  unfold live, z_other. intros [Hz Hn]. destruct (_ <=? _)%nat; [done|].
  destruct prev; [destruct (decide _); cbn; by rewrite length_insert|].
  destruct (z_index z); cbn; rewrite length_insert; split; (done || lia).
Qed.

Lemma live_text b a z : live z → live (set_text b a z).
Proof. done. Qed.
Lemma live_cases z :
  live z → live (z_left z) ∧ live (z_right z) ∧ live (z_swap z) ∧ ∀ c, live (z_insert c z).
Proof.
  intros Hz. unfold z_left, z_right, z_swap, z_insert. split_and!; [..|intros]; by repeat case_match.
Qed.

Lemma escape_ok inp l z :
  line_ok l z → live z → round_refines inp (escape_key ml hints junk inp l) (z_escape inp z).
Proof.
  intros Hl Hz. unfold escape_key, z_escape. pose proof (live_cases z Hz) as (L1 & L2 & _ & _).
  assert (∀ inp', (length inp' ≤ length inp)%nat → round_refines inp (Ret (More inp' l)) (ZMore inp' z)) as Hnone
    by (intros; split_and!; [by exists l|done|done]).
  destruct (read_seq junk inp) as [s0 inp0] eqn:E0. apply read_seq_length in E0.
  destruct s0 as [seq0|]; [|by apply Hnone].
  destruct (read_seq junk inp0) as [s1 inp1] eqn:E1. apply read_seq_length in E1.
  destruct s1 as [seq1|]; [|apply Hnone; lia].
  destruct (Ascii.eqb seq0 "["%char).
  - destruct (isdigit_c seq1).
    + destruct (read_seq junk inp1) as [s2 inp2] eqn:E2. apply read_seq_length in E2.
      destruct s2 as [seq2|]; [|apply Hnone; lia].
      destruct (_ && _); [|apply Hnone; lia]. apply more_ok; [by apply edit_delete_ok|done|lia].
    + repeat match goal with |- context [if Ascii.eqb seq1 ?c then _ else _] => destruct (Ascii.eqb seq1 c) end;
        first [apply Hnone; lia
              |apply more_ok; [|first [assumption|by apply live_other]|lia];
               first [apply history_next_ok; [done|apply Hz]|by apply line_right_ok|by apply line_left_ok|by apply home_ok|by apply end_ok]].
  - destruct (Ascii.eqb seq0 "O"%char); [|apply Hnone; lia].
    repeat match goal with |- context [if Ascii.eqb seq1 ?c then _ else _] => destruct (Ascii.eqb seq1 c) end;
      first [apply Hnone; lia
            |apply more_ok; [|done|lia]; first [by apply home_ok|by apply end_ok]].
Qed.

Lemma drop_ok l z : line_ok l z → live z → refines (drop_last_entry l) (z_drop z).
Proof.
  intros Hl [Hz _]. unfold drop_last_entry. rewrite (lo_history _ _ Hl).
  destruct (Z.eqb_spec (blen (z_history z)) 0) as [E|]; [unfold blen in E; lia|].
  eexists. split; [done|]. by destruct Hl.
Qed.

Lemma done_ok inp inp' l z :
  line_ok l z → z_limit z = n →
  round_refines inp (Ret (Done (l_len l) inp' l)) (ZDone (blen (z_text z)) inp' z).
Proof. intros Hl Hn. exists l. split; [|done]. unfold z_text. by rewrite blen_app, (lo_len _ _ Hl). Qed.

Lemma enter_ok inp l z :
  line_ok l z → live z →
  round_refines inp (enter_key ml hints inp l) (ZDone (blen (z_text z)) inp ((if ml then z_end else id) (z_drop z))).
Proof.
  intros Hl Hz. unfold enter_key. destruct (drop_ok l z Hl Hz) as (l1 & -> & H1). cbn [obind].
  assert (∃ l2, (if ml then linenoiseEditMoveEnd ml hints l1 else Ret l1) = Ret l2 ∧
    line_ok l2 ((if ml then z_end else id) (z_drop z))) as (l2 & -> & H2).
  { destruct ml; [by apply end_ok|by exists l1]. }
  cbn [obind]. set (z2 := (if ml then z_end else id) (z_drop z)) in *.
  assert (z_text z2 = z_text z) as <-.
  { unfold z2. destruct ml; cbn; [|done]. unfold z_text. cbn. apply app_nil_r. }
  assert (∃ l3, (match hints with Some _ => refresh_with ml None l2 | None => Ret l2 end) = Ret l3 ∧ line_ok l3 z2)
    as (l3 & -> & H3).
  { destruct hints; [by apply refresh_ok|by exists l2]. }
  cbn [obind]. apply done_ok; [done|]. destruct Hz as [_ <-]. unfold z2. by destruct ml.
Qed.

Lemma key_ok c inp l z :
  line_ok l z → live z →
  round_refines inp (edit_key ml hints true junk c inp l) (z_key c inp z).
Proof.
  intros Hl Hz. unfold edit_key, z_key. pose proof (live_cases z Hz) as (L1 & L2 & L3 & L4).
  destruct (c =? ENTER); [by apply enter_ok|].
  destruct (c =? CTRL_C); [exists l; by destruct Hz|].
  destruct ((c =? BACKSPACE) || (c =? CTRL_H)); [apply more_ok; [by apply edit_backspace_ok|done|lia]|].
  destruct (c =? CTRL_D).
  { unfold z_text. rewrite blen_app, <- (lo_len _ _ Hl). destruct (0 <? l_len l).
    - apply more_ok; [by apply edit_delete_ok|done|lia].
    - destruct (drop_ok l z Hl Hz) as (l1 & -> & H1). exists l1. by destruct Hz. }
  destruct (c =? ESC); repeat match goal with |- context [if c =? ?k then more _ _ else _] => destruct (c =? k) end;
    try (apply more_ok; [|first [assumption|by apply live_other]|lia];
         first [by apply swap_ok|by apply line_left_ok|by apply line_right_ok|apply history_next_ok; [done|apply Hz]
               |by apply clear_ok|by apply cut_ok|by apply home_ok|by apply end_ok
               |by apply refines_refresh, line_print|by apply word_ok]);
    [by apply escape_ok|].
  destruct (insert_ok ml hints l z (to_char c) Hl) as (l1 & -> & H1). cbn [obind fst snd Z.eqb].
  split_and!; [by exists l1|done|lia].
Qed.

(** ** Completion *)
Lemma show_completion_ok s l z :
  line_ok l z → live z → NUL ∉ s → blen s < n →
  ∃ l', show_completion ml hints s l = Ret l' ∧ line_ok l' z.
Proof.
  intros Hl [_ Hlim] Hs Hn. unfold show_completion, refreshLine.
  pose proof (lo_bound _ _ Hl) as Hb. pose proof (lo_cols _ _ Hl) as Hc. pose proof (lo_limit _ _ Hl) as Hm.
  pose proof (blen_nonneg s). pose proof (blen_nonneg (l_prompt l)).
  destruct (draw_ok ml hints (with_text (s ++ [NUL]) (blen s) (blen s) l) s []) as (out & a & b & ->).
  - split; cbn; try lia. rewrite blen_app. change (blen [NUL]) with 1. lia.
  - cbn. lia.
  - done.
  - cbn [obind]. eexists. split; [done|]. destruct Hl. by split; cbn.
Qed.

Lemma accept_completion_ok s l z :
  line_ok l z → live z → NUL ∉ s → blen s < n →
  ∃ l', accept_completion s l = Ret l' ∧ line_ok l' (set_text s [] z).
Proof.
  intros Hl [_ Hlim] Hs Hn. unfold accept_completion. pose proof (lo_limit _ _ Hl) as Hm.
  rewrite take_ge by (unfold blen in *; lia). pose proof (lo_size _ _ Hl) as Hsize.
  set (k := S (length s)). assert (blen (s ++ [NUL]) = Z.of_nat k) as Hk by (unfold blen, k; rewrite length_app; cbn; lia).
  pose proof (bmemcpy_app [] (take k (l_buf l)) (drop k (l_buf l)) [] (s ++ [NUL]) [] (blen (s ++ [NUL]))) as Hc.
  rewrite app_nil_r in Hc. cbn [app] in Hc. rewrite take_drop in Hc. change (blen []) with 0 in Hc.
  rewrite Hc; [|unfold blen in *; rewrite length_take; lia|done]. cbn [obind]. eexists. split; [done|].
  pose proof (line_set l z s [] ((s ++ [NUL]) ++ drop k (l_buf l)) Hl) as Hset.
  change (blen []) with 0 in Hset. rewrite Z.add_0_r in Hset. apply Hset.
  - exists (drop k (l_buf l)). by rewrite <- (assoc_L app).
  - rewrite blen_app, Hk. unfold blen in *. rewrite length_drop. lia.
Qed.

Lemma complete_loop_ok cvec fuel : ∀ i inp l z,
  (∀ s, s ∈ cvec → NUL ∉ s ∧ blen s < n) → 0 ≤ i ≤ blen cvec → (length inp < fuel)%nat →
  line_ok l z → live z →
  let '(c, inp', z') := z_choose cvec i inp z in
  ∃ l', complete_loop ml hints fuel cvec i inp l = Ret (c, inp', l') ∧ line_ok l' z' ∧ live z' ∧
        (length inp' ≤ length inp)%nat.
Proof.
  induction fuel as [|fuel IH]; intros i inp l z Hfit Hi Hf Hl Hz; [lia|]. cbn [complete_loop].
  assert (∃ l1, (if i <? blen cvec then let! s := bget cvec i in show_completion ml hints s l
    else refreshLine ml hints l) = Ret l1 ∧ line_ok l1 z) as (l1 & -> & H1).
  { destruct (Z.ltb_spec i (blen cvec)); [|by apply refines_refresh].
    destruct (lookup_lt_is_Some_2 cvec (Z.to_nat i)) as [s Hs]; [unfold blen in *; lia|].
    rewrite (bget_ok _ _ s) by (done || lia). cbn [obind].
    destruct (Hfit s) as [? ?]; [by eapply list_elem_of_lookup_2|]. by apply show_completion_ok. }
  cbn [obind]. destruct inp as [|[c| |] inp]; cbn [read z_choose]; try (exists l1; split_and!; (done || cbn; lia)).
  cbn [length] in Hf. destruct (uchar c =? KEY_TAB).
  - assert (0 ≤ (i + 1) mod (blen cvec + 1) ≤ blen cvec) as Hi'
      by (pose proof (Z.mod_pos_bound (i + 1) (blen cvec + 1)); lia).
    set (l2 := if _ =? blen cvec then _ else l1). assert (line_ok l2 z) as H2 by (unfold l2; case_match; [by apply line_print|done]).
    pose proof (IH _ inp l2 z Hfit Hi' ltac:(lia) H2 Hz) as IH'.
    destruct (z_choose cvec _ inp z) as [[c' inp'] z']. destruct IH' as (l' & -> & ? & ? & ?).
    exists l'. split_and!; (done || cbn; lia).
  - destruct (uchar c =? ESC).
    + assert (∃ l2, (if i <? blen cvec then refreshLine ml hints l1 else Ret l1) = Ret l2 ∧ line_ok l2 z)
        as (l2 & -> & H2) by (case_match; [by apply refines_refresh|by exists l1]).
      cbn [obind]. exists l2. split_and!; (done || cbn; lia).
    + destruct (Z.ltb_spec i (blen cvec)) as [Hlt|Hge].
      * destruct (lookup_lt_is_Some_2 cvec (Z.to_nat i)) as [s Hs]; [unfold blen in *; lia|].
        rewrite (bget_ok _ _ s), Hs by (done || lia). cbn [obind].
        destruct (Hfit s) as [? ?]; [by eapply list_elem_of_lookup_2|].
        destruct (accept_completion_ok s l1 z H1 Hz) as (l2 & -> & H2); [done|done|]. cbn [obind].
        exists l2. split_and!; (done || cbn; lia).
      * rewrite lookup_ge_None_2 by (unfold blen in *; lia). cbn [obind].
        exists l1. split_and!; (done || cbn; lia).
Qed.

Lemma complete_ok f inp l z :
  completions = Some f → line_ok l z → live z →
  let '(c, inp', z') := z_complete f inp z in
  ∃ l', completeLine ml hints f inp l = Ret (c, inp', l') ∧ line_ok l' z' ∧ live z' ∧
        (length inp' ≤ length inp)%nat.
Proof.
  intros Hf Hl Hz. unfold completeLine, z_complete. rewrite (line_cstr l z Hl). cbn [obind].
  destruct (blen (f (cut_nul (z_text z))) =? 0).
  - eexists. split; [done|]. split_and!; [by apply line_print|done|lia].
  - apply complete_loop_ok; [by intros s Hs; eapply Hcomp| |lia|done|done].
    split; [lia|apply blen_nonneg].
Qed.

(** ** The loop *)
Definition round_shrinks (inp : list input) (o : outcome after_key) (r : zres) : Prop :=
  match r with
  | ZMore inp' z => (∃ l, o = Ret (More inp' l) ∧ line_ok l z) ∧ live z ∧ (length inp' < length inp)%nat
  | ZDone k inp' z => ∃ l, o = Ret (Done k inp' l) ∧ line_ok l z ∧ z_limit z = n
  end.

Lemma refines_shrinks c inp inp' o r :
  round_refines inp' o r → (length inp' ≤ length inp)%nat → round_shrinks (Byte c :: inp) o r.
Proof. destruct r; cbn; [|done]. intros (? & ? & ?) ?. split_and!; [done|done|lia]. Qed.

Lemma round_ok inp l z :
  line_ok l z → live z →
  round_shrinks inp (edit_round ml hints completions true junk inp l) (z_round inp z).
Proof.
  intros Hl Hz. unfold edit_round, z_round.
  destruct inp as [|[c| |] inp]; cbn [read]; try exact (done_ok [] _ l z Hl (proj2 Hz)).
  assert (∀ c' inp' l z, line_ok l z → live z → (length inp' ≤ length inp)%nat →
    round_shrinks (Byte c :: inp) (edit_key ml hints true junk c' inp' l) (z_key c' inp' z)) as Hkey.
  { intros. eapply refines_shrinks; [by apply key_ok|done]. }
  pose proof (λ f H, complete_ok f inp l z H Hl Hz) as Hcompl.
  destruct completions as [f|]; [|by apply Hkey].
  destruct (uchar c =? KEY_TAB); [|by apply Hkey]. specialize (Hcompl f eq_refl) as Hc.
  destruct (z_complete f inp z) as [[c' inp'] z']. destruct Hc as (l' & -> & Hl' & Hz' & Hlen). cbn [obind].
  destruct (c' <? 0); [exact (done_ok inp _ l' z' Hl' (proj2 Hz'))|]. destruct (c' =? 0).
  - split_and!; [by exists l'|done|cbn; lia].
  - by apply Hkey.
Qed.

Lemma loop_ok fuel : ∀ inp l z,
  line_ok l z → live z → (length inp < fuel)%nat →
  ∃ r inp' l' z', edit_loop ml hints completions true junk fuel inp l = Ret (r, inp', l') ∧
    z_loop fuel inp z = Ret (r, inp', z') ∧ line_ok l' z' ∧ z_limit z' = n.
Proof.
  induction fuel as [|fuel IH]; intros inp l z Hl Hz Hf; [lia|]. cbn [edit_loop z_loop].
  pose proof (round_ok inp l z Hl Hz) as Hr. destruct (z_round inp z) as [inp' z'|r inp' z'].
  - destruct Hr as ((l' & -> & Hl') & Hz' & Hlen). cbn [obind]. apply IH; [done|done|lia].
  - destruct Hr as (l' & -> & Hl' & Hn). cbn [obind]. by exists r, inp', l', z'.
Qed.
End spec.

(** C21: Editing a line refines a zipper of the text around the cursor: on a
    terminal that is wider than the prompt, for every sequence of input events
    - keys, escape sequences, completion, history, end of file, errors - the
    editor returns, with the result, the rest of the input, the text (ended by a
    NUL in the buffer of the caller, never longer than the buffer allows) and the
    history that the abstract editor gives.  The completions offered must fit in
    the buffer. *)
Theorem linenoise_edit_refines ml hints completions hmax junk buf cols prompt history inp :
  2 ≤ blen buf < 2 ^ 30 → blen prompt < cols < 2 ^ 30 → 0 < hmax →
  (∀ f t s, completions = Some f → s ∈ f t → NUL ∉ s ∧ blen s < blen buf - 1) →
  let h := (linenoiseHistoryAdd hmax [] history).2 in
  ∃ r inp' l z,
    linenoiseEdit ml hints completions hmax true junk buf (blen buf) cols prompt history inp = Ret (r, inp', l) ∧
    z_loop ml completions junk (S (length inp)) inp (Zip [] [] h 0 (blen buf - 1)) = Ret (r, inp', z) ∧
    (∃ rest, l_buf l = z_text z ++ NUL :: rest) ∧ blen (l_buf l) = blen buf ∧
    blen (z_text z) < blen buf ∧ l_history l = z_history z.
Proof.
  intros Hbuf Hcols Hmax Hcomp h. unfold linenoiseEdit.
  destruct buf as [|c buf]; [unfold blen in Hbuf; cbn in Hbuf; lia|].
  pose proof (bset_app [] c buf NUL) as Hset. cbn [app] in Hset. change (blen []) with 0 in Hset.
  rewrite Hset. cbn [obind]. fold h. set (l0 := LState _ _ _ _ _ _ _ _ _ _ _ _).
  set (z0 := Zip _ _ _ _ _).
  assert (line_ok l0 z0) as Hl0.
  { pose proof (blen_nonneg prompt). rewrite blen_cons in *.
    split; cbn; rewrite ?blen_cons; try done; [by exists buf|lia|lia|lia]. }
  assert (live (blen (c :: buf) - 1) z0) as Hz0.
  { split; [|done]. cbn. unfold h, linenoiseHistoryAdd. destruct (Z.eqb_spec hmax 0); [lia|].
    case_bool_decide as Hlast; cbn; [|rewrite length_app; cbn; lia]. by destruct history; [|cbn; lia]. }
  destruct (loop_ok ml completions junk hints _ Hcomp (S (length inp)) inp l0 z0 Hl0 Hz0) 
    as (r & inp' & l & z & He & Hzl & Hl & Hn); [lia|].
  exists r, inp', l, z. pose proof (lo_size _ _ Hl) as Hs. pose proof (lo_limit _ _ Hl) as Hlim.
  pose proof (lo_fits _ _ Hl) as Hfit. rewrite (lo_len _ _ Hl), <- blen_app in Hfit.
  split_and!; [exact He|exact Hzl| |lia|unfold z_text; lia|apply (lo_history _ _ Hl)].
  destruct (lo_text _ _ Hl) as [rest ->]. exists rest. unfold z_text. by rewrite <- (assoc_L app).
Qed.

(** A session: history, moving, inserting, completion. *)
Definition type (s : string) : list input := Byte <$> chars_of s.
Definition key (k : nat) : list input := [Byte (ascii_of_nat k)].
Definition demo_history : list (list ascii) := chars_of <$> ["one"; "two words"]%string.
Definition demo_events : list input :=
  type "ab" ++ key 27 ++ type "[D" ++ type "X" ++ key 9 ++ key 9 ++ type "!" ++ key 16 ++ key 23 ++ key 13.
Definition demo_callback : completion_callback := λ _, [chars_of "help"; chars_of "hello"].

Lemma linenoise_edit_refines_witness :
  ∃ l, linenoiseEdit false None (Some demo_callback) 100 true NUL (replicate 16 NUL) 16 80 (chars_of "> ")
         demo_history demo_events = Ret (4, [], l) ∧
       (∃ rest, l_buf l = chars_of "two " ++ NUL :: rest) ∧ l_history l = demo_history.
Proof.
  destruct (linenoise_edit_refines false None (Some demo_callback) 100 NUL (replicate 16 NUL) 80 (chars_of "> ")
    demo_history demo_events) as (r & inp & l & z & He & Hz & Ht & _ & _ & Hh).
  - split; reflexivity || discriminate.
  - split; reflexivity.
  - reflexivity.
  - intros f t s [= <-] Hs. unfold demo_callback in Hs. apply elem_of_cons in Hs as [->|Hs%list_elem_of_singleton];
      [|subst s]; (split; [apply (bool_decide_unpack _); vm_compute; exact I|reflexivity]).
  - vm_compute in Hz. injection Hz as <- <- <-. exists l. split; [exact He|]. split; [exact Ht|exact Hh].
Defined.

(** ** Drawing *)

(** C22: Drawing a single line writes the prompt, the part of the text that is
    scrolled so that the cursor is in it, the hint and the position of the
    cursor.  If the prompt leaves a column free the cursor is on the screen and
    nothing outside of the text is read.  If it does not, a line with the cursor
    at its end - every line that is typed - makes the length that is copied
    negative, which is undefined. *)
Theorem linenoise_draws_window hints l hint :
  sizes_ok l → hint_ok hints l hint →
  (blen (l_prompt l) < l_cols l →
     refreshSingleLine hints l = Ret (print (single_line l hint) l) ∧
     0 ≤ window_start l ≤ l_pos l ∧
     l_pos l ≤ window_start l + window_length l ≤ l_len l ∧
     blen (l_prompt l) + window_length l ≤ l_cols l ∧
     blen (l_prompt l) + (l_pos l - window_start l) < l_cols l) ∧
  (l_cols l ≤ blen (l_prompt l) → l_pos l = l_len l → refreshSingleLine hints l = Stuck OutOfBounds).
Proof.
  intros Hsz Hh. rewrite (single_line_ok hints l hint) by done. destruct Hsz as [Hc Hp Hpos Hl Hb].
  pose proof (blen_nonneg (l_prompt l)). unfold window_length, window_start, scrolled.
  split.
  - intros Hw. destruct (Z.ltb_spec (Z.min (l_len l - Z.max 0 (blen (l_prompt l) + l_pos l - l_cols l + 1))
      (l_cols l - blen (l_prompt l))) 0); [lia|]. split; [done|lia].
  - intros Hw He. destruct (Z.ltb_spec (Z.min (l_len l - Z.max 0 (blen (l_prompt l) + l_pos l - l_cols l + 1))
      (l_cols l - blen (l_prompt l))) 0); [done|lia].
Qed.

Definition sample_line (cols : Z) : lstate :=
  LState (chars_of "abcdef" ++ [NUL; NUL]) 7 (chars_of "> ") 2 6 0 6 cols 0 0 [] [].

Lemma linenoise_draws_window_witness :
  refreshSingleLine None (sample_line 6) =
    Ret (print (CR :: chars_of "> def" ++ esc "[0K" ++ CR :: esc "[5C") (sample_line 6)) ∧
  refreshSingleLine None (sample_line 2) = Stuck OutOfBounds.
Proof.
  assert (∀ cols, 0 < cols < 2 ^ 30 → sizes_ok (sample_line cols)) as Hs
    by (intros cols Hc; split; [exact Hc|reflexivity|split; discriminate|reflexivity|discriminate]).
  split.
  - apply (linenoise_draws_window None (sample_line 6) []); [apply Hs; split; reflexivity|reflexivity|reflexivity].
  - apply (linenoise_draws_window None (sample_line 2) []);
      [apply Hs; split; reflexivity|reflexivity|discriminate|reflexivity].
Defined.

(** ** History *)

(** No entry is followed by an equal one. *)
Fixpoint no_repeat (h : list (list ascii)) : Prop :=
  match h with
  | a :: (b :: _) as t => a ≠ b ∧ no_repeat t
  | _ => True
  end.

(** An entry that fits in one line of the file. *)
Definition entry_ok (s : list ascii) : Prop :=
  LF ∉ s ∧ CR ∉ s ∧ NUL ∉ s ∧ blen s < LINENOISE_MAX_LINE - 1.

Lemma no_repeat_tail h : no_repeat h → no_repeat (tail h).
Proof. destruct h as [|a [|b h]]; cbn; tauto. Qed.

Lemma no_repeat_drop k h : no_repeat h → no_repeat (drop k h).
Proof.
  revert h. induction k as [|k IH]; intros h Hh; [by rewrite drop_0|].
  destruct h as [|a h]; [done|]. cbn [drop]. apply IH, (no_repeat_tail (a :: h) Hh).
Qed.

Lemma no_repeat_snoc h s : no_repeat h → last h ≠ Some s → no_repeat (h ++ [s]).
Proof.
  induction h as [|a h IH]; intros Hh Hl; [done|]. destruct h as [|b h].
  - cbn. split; [|done]. intros ->. by apply Hl.
  - destruct Hh as [Hab Hh]. cbn [app no_repeat]. split; [done|]. apply IH; [done|]. by rewrite last_cons_cons in Hl.
Qed.

Lemma history_add_ok hmax h line rc h' :
  0 < hmax → no_repeat h → blen h ≤ hmax → linenoiseHistoryAdd hmax line h = (rc, h') →
  no_repeat h' ∧ blen h' ≤ hmax ∧ last h' = Some line ∧
  (rc = 0 ∧ h' = h ∨ rc = 1 ∧ (h' = h ++ [line] ∨ blen h = hmax ∧ h' = tail h ++ [line])).
Proof.
  intros Hmax Hnr Hlen. unfold linenoiseHistoryAdd. destruct (Z.eqb_spec hmax 0); [lia|].
  case_bool_decide as Hl; [intros [= <- <-]; split_and!; tauto|].
  intros [= <- <-]. rewrite last_snoc, blen_app. change (blen [line]) with 1.
  destruct (Z.eqb_spec (blen h) hmax) as [E|]; [|split_and!; try tauto; [by apply no_repeat_snoc|lia]].
  destruct h as [|a h]; [unfold blen in E; cbn in E; lia|]. cbn [tail]. pose proof E as E0. rewrite blen_cons in E0.
  split_and!; try tauto; [|lia]. apply no_repeat_snoc; [exact (no_repeat_tail _ Hnr)|].
  destruct h; [done|]. by rewrite last_cons_cons in Hl.
Qed.

Lemma fgets_entry s rest m : LF ∉ s → (length s < m)%nat → fgets_chars m (s ++ LF :: rest) = (s ++ [LF], rest).
Proof.
  revert m. induction s as [|c s IH]; intros m Hs Hm; (destruct m as [|m]; [cbn in Hm; lia|]); [done|].
  cbn [app fgets_chars]. destruct (Ascii.eqb_spec c LF) as [->|]; [set_solver|].
  rewrite IH; [done|set_solver|cbn in Hm; lia].
Qed.

Lemma before_char_none c s : c ∉ s → before_char c s = None.
Proof.
  induction s as [|x s IH]; intros Hc; [done|]. cbn [before_char].
  destruct (Ascii.eqb_spec x c) as [->|]; [set_solver|]. by rewrite IH by set_solver.
Qed.

Lemma cut_line_entry s : entry_ok s → cut_line (s ++ [LF]) = s.
Proof.
  intros (Hl & Hc & Hn & _). unfold cut_line, cut_nul.
  rewrite (before_char_none NUL), (before_char_none CR) by (cbn; set_solver). cbn [default].
  unfold id. rewrite before_char_app, (before_char_none LF) by done. done.
Qed.

Lemma history_load_ok hmax fuel : ∀ h h0,
  Forall entry_ok h → no_repeat (h0 ++ h) → blen (h0 ++ h) ≤ hmax → 0 < hmax →
  (length (mjoin ((λ s, s ++ [LF]) <$> h)) < fuel)%nat →
  history_load fuel hmax (mjoin ((λ s, s ++ [LF]) <$> h)) h0 = Ret (h0 ++ h).
Proof.
  induction fuel as [|fuel IH]; intros h h0 Hok Hnr Hlen Hmax Hf; [lia|]. cbn [history_load].
  destruct h as [|s h]; cbn [fmap list_fmap mjoin list_join] in *; [by rewrite app_nil_r|].
  apply Forall_cons in Hok as [Hs Hok]. rewrite <- (assoc_L app) in *. cbn [app] in *.
  pose proof Hs as (Hlf & _ & _ & Hsl).
  destruct (s ++ LF :: _) as [|c tl] eqn:E; [by destruct s|]. rewrite <- E in *.
  rewrite fgets_entry by (done || (unfold blen, LINENOISE_MAX_LINE in *; lia)).
  rewrite cut_line_entry by done. unfold linenoiseHistoryAdd.
  destruct (Z.eqb_spec hmax 0); [lia|].
  replace (h0 ++ s :: h) with ((h0 ++ [s]) ++ h) in * by by rewrite <- (assoc_L app).
  assert (last h0 ≠ Some s) as Hlast.
  { intros (h1 & ->)%last_Some. clear -Hnr. rewrite <- !(assoc_L app) in Hnr. cbn [app] in Hnr.
    induction h1 as [|a h1 IH]; [by destruct Hnr|]. apply IH.
    exact (no_repeat_tail _ Hnr). }
  rewrite bool_decide_false by done.
  assert (blen h0 ≠ hmax) by (unfold blen in *; rewrite !length_app in Hlen; cbn in Hlen; lia).
  destruct (Z.eqb_spec (blen h0) hmax); [done|]. cbn [snd].
  apply IH; try done. rewrite length_app in Hf. cbn [length] in Hf.
  assert (∀ a b c, a + S b < S c → b < c)%nat as Hlt by lia. exact (Hlt _ _ _ Hf).
Qed.



(** ** Lines of a file or pipe *)

(** There is room for one more character. *)
Lemma room_to_read (junk : ascii) (pre tail : list ascii) len maxlen :
  blen pre = len → len + blen tail = maxlen →
  let m := if len =? maxlen then (if maxlen =? 0 then 16 else maxlen) * 2 else maxlen in
  ∃ x tail', (if len =? maxlen then brealloc junk (pre ++ tail) m else pre ++ tail) = pre ++ x :: tail' ∧
             len + blen (x :: tail') = m.
Proof.
  intros Hp Ht. cbv zeta. pose proof (blen_nonneg pre). pose proof (blen_nonneg tail).
  destruct (Z.eqb_spec len maxlen) as [E|].
  - set (m := (if maxlen =? 0 then 16 else maxlen) * 2). assert (len < m) as Hm
      by (unfold m; destruct (Z.eqb_spec maxlen 0); lia).
    destruct (brealloc_keeps junk pre tail m) as (tl & -> & Htl); [lia|].
    destruct tl as [|x tl]; [unfold blen in Htl; cbn in Htl; unfold blen in Hp; lia|].
    exists x, tl. split; [done|lia].
  - destruct tail as [|x tl]; [unfold blen in Ht at 1; cbn in Ht; lia|]. by exists x, tl.
Qed.

Lemma no_tty_ok junk s fuel : ∀ pre tail len maxlen rest end_,
  LF ∉ s → blen pre = len → len + blen tail = maxlen → (length s < fuel)%nat →
  (end_ = LF :: rest ∨ (end_ = [] ∧ rest = [] ∧ pre ++ s ≠ [])) →
  ∃ tail', no_tty_loop junk fuel (pre ++ tail) len maxlen (s ++ end_) =
    Ret (Some (pre ++ s ++ NUL :: tail'), rest).
Proof.
  revert fuel. induction s as [|c s IH]; intros fuel pre tail len maxlen rest end_ Hs Hp Ht Hf He;
    (destruct fuel as [|fuel]; [cbn in Hf; lia|]); cbn [no_tty_loop];
    destruct (room_to_read junk pre tail len maxlen Hp Ht) as (x & tl & -> & Hsize).
  - cbn [app]. rewrite (bset_at _ _ _ _ _ Hp). cbn [obind].
    destruct He as [->|(-> & -> & Hne)]; [by eexists|].
    destruct (Z.eqb_spec len 0) as [E|]; [|by eexists].
    destruct pre; [done|]. rewrite blen_cons in Hp. pose proof (blen_nonneg pre). lia.
  - cbn [app]. destruct (Ascii.eqb_spec c LF) as [->|]; [set_solver|].
    rewrite (bset_at _ _ _ _ _ Hp). cbn [obind].
    destruct (IH fuel (pre ++ [c]) tl (len + 1) (if len =? maxlen then (if maxlen =? 0 then 16 else maxlen) * 2
      else maxlen) rest end_) as (tail' & Hr).
    + set_solver.
    + rewrite blen_app. change (blen [c]) with 1. lia.
    + rewrite blen_cons in Hsize. lia.
    + cbn in Hf. lia.
    + by rewrite <- (assoc_L app).
    + exists tail'. rewrite <- !(assoc_L app) in Hr. exact Hr.
Qed.

(** Without a terminal a line of any length is read: the array grows in time,
    the line is ended by a NUL and the rest of the input is left; at the end of
    the input there is no line. *)
Theorem linenoise_no_tty junk s rest :
  LF ∉ s →
  (∃ tail, linenoiseNoTTY junk (s ++ LF :: rest) = Ret (Some (s ++ NUL :: tail), rest)) ∧
  (s ≠ [] → ∃ tail, linenoiseNoTTY junk s = Ret (Some (s ++ NUL :: tail), [])) ∧
  linenoiseNoTTY junk [] = Ret (None, []).
Proof.
  intros Hs. unfold linenoiseNoTTY. split_and!; [| |done].
  - apply (no_tty_ok junk s _ [] []); [done|done|done|rewrite length_app; lia|by left].
  - intros Hne. destruct (no_tty_ok junk s (S (length s)) [] [] 0 0 [] []) as (tail & Hr); [done|done|done|lia|by right|].
    cbn [app] in Hr. rewrite app_nil_r in Hr. by exists tail.
Qed.

Lemma linenoise_no_tty_witness :
  ∃ tail, linenoiseNoTTY NUL (chars_of "pkg load a" ++ LF :: chars_of "quit") =
          Ret (Some (chars_of "pkg load a" ++ NUL :: tail), chars_of "quit").
Proof. apply linenoise_no_tty. apply (bool_decide_unpack _). vm_compute. exact I. Defined.
