(* ===== verification/List.v ===== *)
(** * Lists of copied values (lsd/list.c, lsd/list.h)

    The nodes have the three fields of the nodes of Dlink.v, whose store and
    accesses are used here.  The values are copies in memory of their own; the
    addresses that [mem_alloc] gives are arguments, 0 when there is no memory
    (which [mem_alloc] then clears). *)
From S2P Require Import Prelude Buf Dlink.
From Stdlib Require Import Ascii.

Local Open Scope Z_scope.

Record heap := Heap { h_nodes : nodes; h_data : gmap Z (list ascii) }.
Record list_t := ListT { li_length : Z; li_first : Z; li_last : Z }.
Record list_iter := Iter { it_current : Z; it_started : bool }.

Definition FRONT : Z := 0.
Definition BACK : Z := 1.

Definition set_nodes (n : nodes) (h : heap) : heap := Heap n (h_data h).

(** [mem_free] of a node and of a value: NULL fails the assertion. *)
Definition free_node (p : Z) (h : heap) : outcome heap :=
  if p =? 0 then Stuck FailedAssert
  else let! _ := need BadPointer (h_nodes h !! p) in Ret (Heap (delete p (h_nodes h)) (h_data h)).
Definition free_value (p : Z) (h : heap) : outcome heap :=
  if p =? 0 then Stuck FailedAssert
  else let! _ := need BadPointer (h_data h !! p) in Ret (Heap (h_nodes h) (delete p (h_data h))).

(** The first [n] bytes of a little-endian integer. *)
Definition le_bytes (n : nat) (z : Z) : list ascii :=
  (λ i, ascii_of_N (Z.to_N (z / 2 ^ (8 * Z.of_nat i) mod 256))) <$> seq 0 n.

Definition create_list (p : Z) : outcome list_t :=
  if p =? 0 then Stuck NullDeref else Ret (ListT 0 0 0).

(** [p]: what [mem_alloc] gives for the iterator. *)
Definition list_iterator (p : Z) (l : list_t) (init : Z) : outcome (option list_iter) :=
  if p =? 0 then Stuck NullDeref
  else if init =? FRONT then Ret (Some (Iter (li_first l) false))
  else if init =? BACK then Ret (Some (Iter (li_last l) false))
  else Ret None.

(** [m], [d]: the addresses of the node and of the copy. *)
Definition list_add (h : heap) (l : list_t) (data : list ascii) (size m d : Z) : outcome (heap * list_t) :=
  if (m =? 0) || (d =? 0) then Stuck NullDeref
  else if negb (in_buf data 0 size) then Stuck OutOfBounds
  else
    let n := <[m := DNode d 0 0]> (h_nodes h) in
    let copies := <[d := slice data 0 size]> (h_data h) in
    let! r :=
      if li_first l =? 0 then
        let! n := store_prev n m 0 in
        let! n := store_next n m 0 in
        Ret (n, m)
      else
        let! n := store_next n (li_last l) m in
        let! n := store_prev n m (li_last l) in
        let! n := store_next n m 0 in
        Ret (n, li_first l) in
    Ret (Heap r.1 copies, ListT (li_length l + 1) r.2 m).

Definition list_current (h : heap) (it : list_iter) : outcome Z :=
  if it_started it && negb (it_current it =? 0)
  then let! n := load (h_nodes h) (it_current it) in Ret (dn_data n) else Ret 0.

(** [list_next] and [list_prev] differ in the link they follow. *)
Definition list_step (link : dlink_node → Z) (h : heap) (it : list_iter) : outcome (Z * list_iter) :=
  if negb (it_started it) && negb (it_current it =? 0) then
    let! n := load (h_nodes h) (it_current it) in Ret (dn_data n, Iter (it_current it) true)
  else if negb (it_current it =? 0) then
    let! n := load (h_nodes h) (it_current it) in
    let it := Iter (link n) (it_started it) in
    let! data := list_current h it in Ret (data, it)
  else Ret (0, it).
Definition list_next : heap → list_iter → outcome (Z * list_iter) := list_step dn_next.
Definition list_prev : heap → list_iter → outcome (Z * list_iter) := list_step dn_prev.

Definition list_first (h : heap) (l : list_t) : outcome Z :=
  let! n := load (h_nodes h) (li_first l) in Ret (dn_data n).
Definition list_last (h : heap) (l : list_t) : outcome Z :=
  let! n := load (h_nodes h) (li_last l) in Ret (dn_data n).

Definition list_pop (h : heap) (l : list_t) : outcome (Z * heap * list_t) :=
  if li_last l =? 0 then Ret (0, h, l)
  else
    let! last := load (h_nodes h) (li_last l) in
    let! n := store_next (h_nodes h) (dn_prev last) 0 in
    let! h := free_node (li_last l) (set_nodes n h) in
    Ret (dn_data last, h, ListT (li_length l) (li_first l) (dn_prev last)).

Definition list_poll (h : heap) (l : list_t) : outcome (Z * heap * list_t) :=
  if li_first l =? 0 then Ret (0, h, l)
  else
    let! first := load (h_nodes h) (li_first l) in
    let! n := store_prev (h_nodes h) (dn_next first) 0 in
    let! h := free_node (li_first l) (set_nodes n h) in
    Ret (dn_data first, h, ListT (li_length l) (dn_next first) (li_last l)).

Definition list_remove (h : heap) (l : list_t) (end_ : Z) : outcome (heap * list_t) :=
  let take o := let! r := o in
    let '(data, h, l) := r in let! h := free_value data h in Ret (h, l) in
  if end_ =? FRONT then take (list_poll h l)
  else if end_ =? BACK then take (list_pop h l)
  else Ret (h, l).

Fixpoint destroy_loop (fuel : nat) (cur : Z) (h : heap) : outcome heap :=
  match fuel with
  | O => Spin
  | S fuel =>
      if cur =? 0 then Ret h
      else
        let! n := load (h_nodes h) cur in
        let! h := free_value (dn_data n) h in
        let! h := free_node cur h in
        destroy_loop fuel (dn_next n) h
  end.

(** The nodes are those of [h]: the fuel is one more than their number. *)
Definition destroy_list (h : heap) (l : list_t) : outcome heap :=
  destroy_loop (S (size (h_nodes h))) (li_first l) h.
