(* ===== verification/ListSpec.v ===== *)
(** * Lists of copied values: the theorem *)
From S2P Require Import Prelude CStd Buf Term Dlink DlinkSpec List.
From Stdlib Require Import Ascii.

Local Open Scope Z_scope.

(** The list holds the nodes [xs] (address and address of the value); every
    value is there. *)
Record lrep (h : heap) (l : list_t) (xs : list (Z * Z)) : Prop := LRep {
  lr_seg : lseg (h_nodes h) 0 xs 0;
  lr_nodup : NoDup xs.*1;
  lr_first : li_first l = hd 0 xs.*1;
  lr_last : li_last l = lastp 0 xs;
  lr_values : ∀ d, d ∈ xs.*2 → d ≠ 0 ∧ is_Some (h_data h !! d);
  lr_apart : NoDup xs.*2
}.

Lemma le_bytes_length n z : length (le_bytes n z) = n.
Proof. unfold le_bytes. by rewrite length_fmap, length_seq. Qed.

(** What [n] steps of an iterator give. *)
Fixpoint walk (n : nat) (step : heap → list_iter → outcome (Z * list_iter)) (h : heap) (it : list_iter)
    : outcome (list Z) :=
  match n with
  | O => Ret []
  | S n => let! r := step h it in let! rest := walk n step h r.2 in Ret (r.1 :: rest)
  end.

Lemma lrep_nonempty h l m d xs : lrep h l ((m, d) :: xs) → li_first l = m ∧ m ≠ 0 ∧ li_last l ≠ 0.
Proof.
  intros [Hs _ Hf Hl _ _]. split_and!; [done|by destruct Hs|].
  rewrite Hl. eapply lseg_nonzero; [exact Hs|]. by apply lastp_elem.
Qed.

Lemma lrep_fresh h l xs n d : lrep h l xs → h_nodes h !! n = None → h_data h !! d = None →
  (n ∉ xs.*1) ∧ (d ∉ xs.*2).
Proof.
  intros [Hs _ _ _ Hv _] Hn Hd. split.
  - intros Hin. destruct (lseg_nonzero _ _ _ _ _ Hs Hin) as [_ [? ?]]. congruence.
  - intros Hin. destruct (Hv _ Hin) as [_ [? ?]]. congruence.
Qed.

Lemma list_add_ok h l xs data size m d :
  lrep h l xs → m ≠ 0 → d ≠ 0 → m ∉ xs.*1 → d ∉ xs.*2 → 0 ≤ size ≤ blen data →
  ∃ h' l', list_add h l data size m d = Ret (h', l') ∧ lrep h' l' (xs ++ [(m, d)]) ∧
    h_data h' !! d = Some (take (Z.to_nat size) data) ∧ li_length l' = li_length l + 1 ∧
    (∀ d', d' ≠ d → h_data h' !! d' = h_data h !! d').
Proof.
  intros Hrep Hm Hd Hmx Hdx Hsz. pose proof Hrep as [Hs Hnd Hf Hl Hv Ha]. unfold list_add.
  destruct (Z.eqb_spec m 0), (Z.eqb_spec d 0); try done. cbn [orb].
  rewrite in_buf_true by lia. cbn [negb].
  assert (lseg (<[m := DNode d 0 0]> (h_nodes h)) 0 xs 0) as Hs1.
  { eapply lseg_frame; [exact Hs|apply frame_insert|]. intros a Ha'. set_solver. }
  assert (∃ n1 f, (if li_first l =? 0 then
        let! n := store_prev (<[m := DNode d 0 0]> (h_nodes h)) m 0 in let! n := store_next n m 0 in Ret (n, m)
      else
        let! n := store_next (<[m := DNode d 0 0]> (h_nodes h)) (li_last l) m in
        let! n := store_prev n m (li_last l) in
        let! n := store_next n m 0 in Ret (n, li_first l)) = Ret (n1, f) ∧
      lseg n1 0 (xs ++ [(m, d)]) 0 ∧ f = hd 0 (xs ++ [(m, d)]).*1) as (n1 & f & -> & Hseg & Hfirst).
  { rewrite Hf, Hl. destruct xs as [|x xs].
    - cbn. rewrite (store_prev_some _ m (DNode d 0 0)) by (done || apply lookup_insert_eq). cbn [obind].
      rewrite (store_next_some _ m (DNode d 0 0)) by (done || apply lookup_insert_eq). cbn [obind].
      eexists _, _. split; [done|]. split; [|done]. split_and!; [done|apply lookup_insert_eq|done].
    - destruct (set_next_last _ 0 (x :: xs) 0 m Hs1 Hnd) as (n2 & Hn2 & Hs2 & Hfr); [done|].
      destruct (Z.eqb_spec (hd 0 (x :: xs).*1) 0) as [E|].
      { exfalso. destruct x as [a b], Hs as [Hz _]. done. }
      rewrite Hn2. cbn [obind].
      assert (n2 !! m = Some (DNode d 0 0)) as Hm2.
      { rewrite Hfr; [apply lookup_insert_eq|]. intros ->%list_elem_of_singleton. by apply Hmx, lastp_elem. }
      rewrite (store_prev_some _ m (DNode d 0 0)) by done. cbn [obind].
      rewrite (store_next_some _ m (DNode d 0 (lastp 0 (x :: xs)))) by (done || apply lookup_insert_eq). cbn [obind].
      eexists _, _. split; [done|]. split; [|by destruct x]. apply lseg_app. split.
      + eapply lseg_frame; [exact Hs2|eapply frame_trans; apply frame_insert|]. intros a Ha'. set_solver.
      + split_and!; [done|apply lookup_insert_eq|done]. }
  cbn [obind fst snd]. eexists _, _. split; [done|]. cbn [h_data h_nodes li_length].
  split_and!; [|by rewrite lookup_insert_eq|done|intros; by rewrite lookup_insert_ne].
  split; cbn; try done.
  - rewrite fmap_app. apply NoDup_app. split_and!; [done|set_solver|apply NoDup_singleton].
  - unfold lastp. rewrite fmap_app. cbn. by rewrite last_snoc.
  - intros d'. rewrite fmap_app, elem_of_app. intros [Hd'|Hd'].
    + rewrite lookup_insert_ne by (intros ->; done). by apply Hv.
    + cbn in Hd'. apply list_elem_of_singleton in Hd' as ->. by rewrite lookup_insert_eq.
  - rewrite fmap_app. apply NoDup_app. split_and!; [done|set_solver|apply NoDup_singleton].
Qed.

(** Addresses that are not in use stay so. *)
Lemma list_add_unused h l data size m d h' l' a :
  list_add h l data size m d = Ret (h', l') → a ≠ m → h_nodes h !! a = None → h_nodes h' !! a = None.
Proof.
  unfold list_add. destruct (_ || _); [done|]. destruct (negb _); [done|]. intros H Ham Ha.
  apply bind_Ret_inv in H as ([n f] & Hn & [= <- <-]). cbn [h_nodes fst].
  assert (∀ g n p v n', (∀ a, h_nodes h !! a = None → a ≠ m → n !! a = None) →
    g n p v = Ret n' → (g = store_prev ∨ g = store_next) → ∀ a, h_nodes h !! a = None → a ≠ m → n' !! a = None) as Hg.
  { intros g n0 p v n' Hn0 Hst Hor b Hb Hbm. specialize (Hn0 b Hb Hbm).
    destruct Hor as [-> | ->]; unfold store_prev, store_next, load in Hst;
      apply bind_Ret_inv in Hst as (c & Hc & [= <-]);
      (destruct (decide (p = b)) as [->|]; [|by rewrite lookup_insert_ne]);
      rewrite Hn0 in Hc; by destruct (b =? 0). }
  assert (∀ a, h_nodes h !! a = None → a ≠ m → <[m := DNode d 0 0]> (h_nodes h) !! a = None) as H0
    by (intros; by rewrite lookup_insert_ne).
  destruct (li_first l =? 0).
  - apply bind_Ret_inv in Hn as (n1 & H1 & Hn). apply bind_Ret_inv in Hn as (n2 & H2 & [= <- <-]).
    exact (Hg _ _ _ _ _ (Hg _ _ _ _ _ H0 H1 (or_introl eq_refl)) H2 (or_intror eq_refl) a Ha Ham).
  - apply bind_Ret_inv in Hn as (n1 & H1 & Hn). apply bind_Ret_inv in Hn as (n2 & H2 & Hn).
    apply bind_Ret_inv in Hn as (n3 & H3 & [= <- <-]).
    exact (Hg _ _ _ _ _ (Hg _ _ _ _ _ (Hg _ _ _ _ _ H0 H1 (or_intror eq_refl)) H2 (or_introl eq_refl)) H3 (or_intror eq_refl) a Ha Ham).
Qed.

(** An end is taken away: the node is freed, the value is the caller's. *)
Lemma free_end h n l xs ys m nx pv :
  lrep h l xs → Permutation xs (m :: ys) → lseg n 0 ys 0 → n !! m.1 = Some (DNode m.2 nx pv) → m.1 ≠ 0 →
  lseg (delete m.1 n) 0 ys 0 ∧ NoDup ys.*1 ∧ NoDup ys.*2 ∧
  (∀ d, d ∈ ys.*2 → d ≠ 0 ∧ is_Some (h_data h !! d)) ∧ free_node m.1 (set_nodes n h) = Ret (Heap (delete m.1 n) (h_data h)).
Proof.
  intros [_ Hnd _ _ Hv Ha] Hp Hs Hm Hz.
  rewrite (fmap_Permutation fst _ _ Hp) in Hnd. rewrite (fmap_Permutation snd _ _ Hp) in Ha.
  cbn in Hnd, Ha. apply NoDup_cons in Hnd as [Hn1 Hnd], Ha as [Ha1 Ha].
  split_and!; [|done|done| |].
  - eapply lseg_ext; [exact Hs|]. intros a Hin. apply lookup_delete_ne. by intros <-.
  - intros d Hd. apply Hv. rewrite (fmap_Permutation snd _ _ Hp). cbn. set_solver.
  - unfold free_node. destruct (Z.eqb_spec m.1 0); [done|]. cbn [set_nodes h_nodes h_data]. by rewrite Hm.
Qed.

Lemma list_pop_ok h l xs m d :
  lrep h l (xs ++ [(m, d)]) →
  if decide (xs = []) then list_pop h l = Stuck NullDeref
  else ∃ h' l', list_pop h l = Ret (d, h', l') ∧ lrep h' l' xs ∧ h_data h' = h_data h ∧ li_length l' = li_length l.
Proof.
  intros Hrep. pose proof Hrep as [Hs Hnd Hf Hl Hv Ha]. apply lseg_app in Hs as [Hs1 (Hm & Hnm & _)].
  unfold list_pop. assert (li_last l = m) as Hlast by (rewrite Hl; unfold lastp; rewrite fmap_app; cbn; by rewrite last_snoc).
  rewrite Hlast. destruct (Z.eqb_spec m 0); [done|]. rewrite (load_some _ _ _ Hm Hnm). cbn [obind dn_prev dn_data hd fmap list_fmap fst snd] in *.
  destruct (decide (xs = [])) as [->|Hne]; [done|].
  rewrite fmap_app in Hnd. apply NoDup_app in Hnd as (Hnd1 & Hdis & _).
  destruct (set_next_last _ 0 xs m 0 Hs1 Hnd1 Hne) as (n1 & -> & Hs2 & Hfr). cbn [obind].
  assert (n1 !! m = Some (DNode d 0 (lastp 0 xs))) as Hm1.
  { rewrite Hfr; [done|]. intros ->%list_elem_of_singleton. apply (Hdis (lastp 0 xs)); [by apply lastp_elem|cbn; set_solver]. }
  assert (Permutation (xs ++ [(m, d)]) ((m, d) :: xs)) as Hp by (symmetry; apply Permutation_cons_append).
  destruct (free_end h n1 l _ xs (m, d) _ _ Hrep Hp Hs2 Hm1 Hm) as (H1 & H2 & H3 & H4 & H5).
  cbn [fst snd] in *. rewrite H5. cbn [obind]. eexists _, _. split; [done|]. split_and!; [|done|done].
  split; cbn; try done. rewrite Hf. by destruct xs.
Qed.

Lemma list_poll_ok h l xs m d :
  lrep h l ((m, d) :: xs) →
  if decide (xs = []) then list_poll h l = Stuck NullDeref
  else ∃ h' l', list_poll h l = Ret (d, h', l') ∧ lrep h' l' xs ∧ h_data h' = h_data h ∧ li_length l' = li_length l.
Proof.
  intros Hrep. pose proof Hrep as [(Hm & Hnm & Hs) Hnd Hf Hl Hv Ha].
  unfold list_poll. rewrite Hf. cbn [hd fmap list_fmap fst]. destruct (Z.eqb_spec m 0); [done|].
  rewrite (load_some _ _ _ Hm Hnm). cbn [obind dn_next dn_data].
  destruct xs as [|[a e] xs]; [done|]. rewrite decide_False by done. cbn [hd fmap list_fmap fst].
  cbn in Hnd. apply NoDup_cons in Hnd as [Hnin Hnd].
  destruct (set_prev_first _ m 0 a e xs 0 Hs Hnd) as (n1 & -> & Hs2 & Hfr). cbn [obind].
  assert (n1 !! m = Some (DNode d a 0)) as Hm1.
  { rewrite Hfr; [done|]. intros ->%list_elem_of_singleton. apply Hnin. cbn. set_solver. }
  destruct (free_end h n1 l _ ((a, e) :: xs) (m, d) _ _ Hrep (Permutation_refl _) Hs2 Hm1 Hm) as (H1 & H2 & H3 & H4 & H5).
  cbn [fst snd] in *. rewrite H5. cbn [obind]. eexists _, _. split; [done|]. split_and!; [|done|done].
  by split.
Qed.

Lemma walk_S n step h it :
  walk (S n) step h it = let! r := step h it in let! rest := walk n step h r.2 in Ret (r.1 :: rest).
Proof. done. Qed.

(** Walking from a node that has been visited. *)
Lemma walk_next h p xs : ∀ a d, lseg (h_nodes h) p ((a, d) :: xs) 0 →
  walk (S (length xs)) list_next h (Iter a true) = Ret (xs.*2 ++ [0]).
Proof.
  revert p. induction xs as [|[b e] xs IH]; intros p a d (Ha & Hn & Hs); rewrite walk_S; cbn [length];
    unfold list_next at 1, list_step; cbn [it_started it_current negb andb].
  - destruct (Z.eqb_spec a 0); [done|]. cbn [negb]. rewrite (load_some _ _ _ Ha Hn). done.
  - destruct (Z.eqb_spec a 0); [done|]. cbn [negb]. rewrite (load_some _ _ _ Ha Hn). cbn [obind dn_next hd fmap list_fmap fst].
    pose proof Hs as (Hb & Hnb & _). unfold list_current. cbn [it_started it_current andb].
    destruct (Z.eqb_spec b 0); [done|]. cbn [negb]. rewrite (load_some _ _ _ Hb Hnb). cbn [obind fst snd dn_data].
    by rewrite (IH a b e Hs).
Qed.

Lemma walk_prev h xs : ∀ a d post, lseg (h_nodes h) 0 (xs ++ (a, d) :: post) 0 →
  walk (S (length xs)) list_prev h (Iter a true) = Ret (reverse xs.*2 ++ [0]).
Proof.
  induction xs as [|[b e] xs IH] using rev_ind; intros a d post Hs; pose proof Hs as [_ (Ha & Hn & _)]%lseg_app.
  - rewrite walk_S. cbn [length]. unfold list_prev at 1, list_step. cbn [it_started it_current negb andb].
    destruct (Z.eqb_spec a 0); [done|]. cbn [negb]. rewrite (load_some _ _ _ Ha Hn). done.
  - rewrite length_app, Nat.add_comm. cbn [length Nat.add]. rewrite walk_S.
    unfold list_prev at 1, list_step. cbn [it_started it_current negb andb].
    destruct (Z.eqb_spec a 0); [done|]. cbn [negb]. rewrite (load_some _ _ _ Ha Hn). cbn [obind dn_prev].
    rewrite lastp_app. change (lastp (lastp 0 xs) [(b, e)]) with b.
    rewrite <- (assoc_L app) in Hs. pose proof Hs as [_ (Hb & Hnb & _)]%lseg_app.
    unfold list_current. cbn [it_started it_current andb].
    destruct (Z.eqb_spec b 0); [done|]. cbn [negb]. rewrite (load_some _ _ _ Hb Hnb). cbn [obind fst snd dn_data].
    rewrite (IH b e _ Hs). cbn [obind].
    by rewrite fmap_app, reverse_app.
Qed.

(** Every node and value of the list is freed, and nothing else. *)
Lemma destroy_loop_ok fuel : ∀ p xs h,
  lseg (h_nodes h) p xs 0 → NoDup xs.*1 → NoDup xs.*2 →
  (∀ d, d ∈ xs.*2 → d ≠ 0 ∧ is_Some (h_data h !! d)) → (length xs < fuel)%nat →
  ∃ h', destroy_loop fuel (hd 0 xs.*1) h = Ret h' ∧
    (∀ a, h_nodes h' !! a = if decide (a ∈ xs.*1) then None else h_nodes h !! a) ∧
    (∀ d, h_data h' !! d = if decide (d ∈ xs.*2) then None else h_data h !! d).
Proof.
  induction fuel as [|fuel IH]; intros p xs h Hs Hnd Ha Hv Hf; [lia|]. cbn [destroy_loop].
  destruct xs as [|[m d] xs]; [by exists h|]. destruct Hs as (Hm & Hn & Hs). cbn [hd fmap list_fmap fst snd] in *.
  apply NoDup_cons in Hnd as [Hn1 Hnd], Ha as [Ha1 Ha].
  destruct (Z.eqb_spec m 0); [done|]. rewrite (load_some _ _ _ Hm Hn). cbn [obind dn_data dn_next].
  destruct (Hv d) as [Hd [v Hval]]; [set_solver|]. unfold free_value. destruct (Z.eqb_spec d 0); [done|].
  rewrite Hval. cbn [need obind]. unfold free_node. destruct (Z.eqb_spec m 0); [done|]. cbn [h_nodes h_data].
  rewrite Hn. cbn [need obind].
  destruct (IH m xs (Heap (delete m (h_nodes h)) (delete d (h_data h)))) as (h' & -> & Hnodes & Hdata); cbn [h_nodes h_data].
  - eapply lseg_ext; [exact Hs|]. intros a Hin. apply lookup_delete_ne. by intros <-.
  - done.
  - done.
  - intros e He. rewrite lookup_delete_ne by by intros <-. apply Hv. set_solver.
  - cbn in Hf. lia.
  - cbn [h_nodes h_data] in *. exists h'. split; [done|].
    split; [intros a; rewrite Hnodes|intros a; rewrite Hdata].
    + destruct (decide (a = m)) as [->|]; [rewrite decide_False, lookup_delete_eq, decide_True by set_solver; done|].
      rewrite lookup_delete_ne by done. destruct (decide (a ∈ xs.*1)); [by rewrite decide_True by set_solver|].
      by rewrite decide_False by set_solver.
    + destruct (decide (a = d)) as [->|]; [rewrite decide_False, lookup_delete_eq, decide_True by set_solver; done|].
      rewrite lookup_delete_ne by done. destruct (decide (a ∈ xs.*2)); [by rewrite decide_True by set_solver|].
      by rewrite decide_False by set_solver.
Qed.


Definition one_value : heap := Heap {[16 := DNode 32 0 0]} {[32 := chars_of "v"]}.

Lemma one_value_rep : lrep one_value (ListT 1 16 16) [(16, 32)].
Proof.
  split; cbn; try done; try apply NoDup_singleton.
  intros d ->%list_elem_of_singleton. split; [done|]. by eexists.
Qed.

