(* ===== verification/Str.v ===== *)
(** * Strings (lsd/str.c)

    A string is in a buffer of characters and is changed in place; the pointers
    that the tokenizers store are offsets in that buffer.  An array of pointers
    that is filled from the front is the list of its elements. *)
From S2P Require Import Prelude CStd Buf Term.
From Stdlib Require Import Ascii.

Local Open Scope Z_scope.

Definition MAXPARA : Z := 15.

(** [strchr(m + i, c)] for a [c] that is not NUL: the offset. *)
Fixpoint strchr_at (fuel : nat) (m : list ascii) (c : ascii) (i : Z) : outcome (option Z) :=
  match fuel with
  | O => Spin
  | S fuel =>
      let! x := bget m i in
      if Ascii.eqb x c then Ret (Some i)
      else if Ascii.eqb x NUL then Ret None
      else strchr_at fuel m c (i + 1)
  end.

Definition str_fuel (m : list ascii) : nat := S (length m).

(** The table of [str_tohex]; a [char] that is negative has its low byte masked. *)
Definition hex_digit (d : Z) : ascii :=
  default NUL (chars_of "0123456789abcdef" !! Z.to_nat d).

(** The loop on the [n] characters of [src] from [i] on. *)
Fixpoint tohex_loop (n : nat) (dst src : list ascii) (i : Z) : outcome (list ascii) :=
  match n with
  | O => bset dst (2 * i) NUL
  | S n =>
      let! c := bget src i in
      let! dst := bset dst (2 * i) (hex_digit (Z.shiftr (Z.land (schar c) 240) 4)) in
      let! dst := bset dst (2 * i + 1) (hex_digit (Z.land (schar c) 15)) in
      tohex_loop n dst src (i + 1)
  end.
Definition str_tohex (dst src : list ascii) (length_ : Z) : outcome (list ascii) :=
  tohex_loop (Z.to_nat length_) dst src 0.

(** ** Tokenizers *)

(** The loop over additional delimiters. *)
Fixpoint skip_delim (fuel : nat) (m : list ascii) (delim : ascii) (i : Z) : outcome Z :=
  match fuel with
  | O => Spin
  | S fuel =>
      let! c := bget m i in
      if Ascii.eqb c delim then skip_delim fuel m delim (i + 1) else Ret i
  end.

(** The loop of both tokenizers: the message, the pointers stored and whether the
    limit stopped it. *)
Fixpoint token_loop (fuel : nat) (delim : ascii) (limit : Z) (m : list ascii) (next : Z) (parv : list Z)
    : outcome (list ascii * list Z * bool) :=
  match fuel with
  | O => Spin
  | S fuel =>
      let! c := bget m next in
      if Ascii.eqb c NUL then Ret (m, parv, false)
      else if blen parv =? limit then Ret (m, parv, true)
      else if Ascii.eqb c delim then
        let! m := bset m next NUL in
        let! next := skip_delim (str_fuel m) m delim (next + 1) in
        let! c := bget m next in
        if Ascii.eqb c NUL then Ret (m, parv, false)
        else token_loop fuel delim limit m next (parv ++ [next])
      else token_loop fuel delim limit m (next + 1) parv
  end.

(** A colon behind a blank: both become NULs and the text behind them is the last
    parameter. *)
Fixpoint find_trailing (fuel : nat) (m : list ascii) (pos : Z) : outcome (list ascii * option Z) :=
  match fuel with
  | O => Spin
  | S fuel =>
      let! p := strchr_at (str_fuel m) m ":"%char pos in
      match p with
      | None => Ret (m, None)
      | Some p =>
          let! c := bget m (p - 1) in
          if negb (Ascii.eqb c SP) then find_trailing fuel m (p + 1)
          else
            let! m := bset m (p - 1) NUL in
            let! m := bset m p NUL in
            Ret (m, Some (p + 1))
      end
  end.

(** The count is the number of pointers; NULL for the message is [None]. *)
Definition str_tokenize (message : option (list ascii)) : outcome (Z * list ascii * list Z) :=
  match message with
  | None => Ret (-1, [], [])
  | Some m =>
      let! r := find_trailing (str_fuel m) m 0 in
      let '(m, pos) := r in
      let! r := token_loop (str_fuel m) SP (MAXPARA - 1) m 0 [0] in
      let '(m, parv, full) := r in
      if (full : bool) then Ret (blen parv, m, parv)
      else
        let parv := match pos with Some p => parv ++ [p] | None => parv end in
        Ret (blen parv, m, parv)
  end.

Definition str_tokenize_generic (delim : ascii) (size : Z) (message : option (list ascii))
    : outcome (Z * list ascii * list Z) :=
  match message with
  | None => Ret (0, [], [])
  | Some m =>
      let! r := token_loop (str_fuel m) delim size m 0 [0] in
      let '(m, parv, _) := r in
      Ret (blen parv, m, parv)
  end.

(** ** In-place changes *)

Fixpoint tolower_loop (fuel : nat) (s : list ascii) (t : Z) : outcome (list ascii) :=
  match fuel with
  | O => Spin
  | S fuel =>
      let! c := bget s t in
      if Ascii.eqb c NUL then Ret s
      else let! s := bset s t (tolower c) in tolower_loop fuel s (t + 1)
  end.
Definition str_tolower (s : list ascii) : outcome (list ascii) := tolower_loop (str_fuel s) s 0.

Fixpoint lower_loop (fuel : nat) (s : list ascii) (t : Z) : outcome Z :=
  match fuel with
  | O => Spin
  | S fuel =>
      let! c := bget s t in
      if Ascii.eqb c NUL then Ret 1
      else if negb (islower c) then Ret 0
      else lower_loop fuel s (t + 1)
  end.
Definition is_lower (s : option (list ascii)) : outcome Z :=
  match s with None => Ret 1 | Some s => lower_loop (str_fuel s) s 0 end.

Definition str_strip (line : list ascii) : outcome (list ascii) :=
  let! c := strchr_at (str_fuel line) line CR 0 in
  match c with
  | Some i => bset line i NUL
  | None =>
      let! c := strchr_at (str_fuel line) line LF 0 in
      match c with Some i => bset line i NUL | None => Ret line end
  end.

Definition QUOTE : ascii := ascii_of_nat 34.

(** The text and the offset that is returned. *)
Definition str_unquote (str : option (list ascii)) : outcome (list ascii * Z) :=
  match str with
  | None => Stuck NullDeref
  | Some s =>
      let! c := bget s 0 in
      let start := if Ascii.eqb c QUOTE then 1 else 0 in
      let! e := strchr_at (str_fuel s) s QUOTE start in
      match e with
      | Some i => let! s := bset s i NUL in Ret (s, start)
      | None => Ret (s, start)
      end
  end.

Fixpoint whitespace_loop (fuel : nat) (s : list ascii) (i : Z) : outcome Z :=
  match fuel with
  | O => Spin
  | S fuel =>
      let! c := bget s i in
      if negb (Ascii.eqb c NUL) && (Ascii.eqb c SP || Ascii.eqb c TAB) then whitespace_loop fuel s (i + 1)
      else Ret i
  end.
Definition str_whitespace_skip (s : list ascii) : outcome Z := whitespace_loop (str_fuel s) s 0.

(** ** Copies *)

(** [copy]: what [strdup] returns, NULL when there is no memory. *)
Definition str_dup (copy : list ascii → option (list ascii)) (str : option (list ascii)) : option (list ascii) :=
  match str with None => None | Some s => copy s end.

(** [text]: what [localtime] and [strftime] make of the time; the static buffer has 32 bytes and stays as it
    was when the text does not fit. *)
Definition str_ctime (text : Z → list ascii) (stuff : Z) (buf : list ascii) : outcome (list ascii) :=
  let t := text stuff ++ [NUL] in
  if 32 <? blen t then Ret buf else bmemcpy buf 0 t 0 (blen t).

(** At most [n - 1] characters of [src] and a NUL, from [i] on. *)
Definition copy_at (dst : list ascii) (i : Z) (src : list ascii) (n : Z) : outcome (list ascii) :=
  let t := take (Z.to_nat (n - 1)) src ++ [NUL] in
  bmemcpy dst i t 0 (blen t).
Definition strlcpy (dst src : list ascii) (size : Z) : outcome (list ascii) :=
  if size =? 0 then Ret dst else copy_at dst 0 src size.

(** The length of the text in [s], looking at [n] characters only. *)
Fixpoint strnlen_loop (fuel : nat) (s : list ascii) (n i : Z) : outcome Z :=
  match fuel with
  | O => Spin
  | S fuel =>
      if i =? n then Ret i
      else
        let! c := bget s i in
        if Ascii.eqb c NUL then Ret i else strnlen_loop fuel s n (i + 1)
  end.
Definition strlcat (dst src : list ascii) (size : Z) : outcome (list ascii) :=
  let! d := strnlen_loop (str_fuel dst) dst size 0 in
  if d =? size then Ret dst else copy_at dst d src (size - d).

(** [i]: the next parameter; [max] is an [int] that becomes a [size_t]. *)
Fixpoint parv_loop (n : nat) (dest : list ascii) (max i : Z) (parv : list (option (list ascii))) : outcome (list ascii) :=
  match n with
  | O => Ret dest
  | S n =>
      let! dest := strlcat dest [SP] (wrap64 max) in
      let! p := bget parv i in
      let! p := need NullDeref p in
      let! dest := strlcat dest p (wrap64 max) in
      parv_loop n dest max (i + 1) parv
  end.
Definition str_parv_expand (dest : list ascii) (max initial parc : Z) (parv : list (option (list ascii))) : outcome (list ascii) :=
  let! p := bget parv initial in
  let! dest := match p with Some p => strlcpy dest p (wrap64 max) | None => Ret dest end in
  parv_loop (Z.to_nat (parc - (initial + 1))) dest max (initial + 1) parv.
