(* ===== verification/StrSpec.v ===== *)
(** * Strings: tokenizers against a reference, in-place changes *)
From S2P Require Import Prelude CStd Buf Term Str.
From Stdlib Require Import Ascii.

Local Open Scope Z_scope.

(** ** The reference tokenizer

    [words delim k w s]: the words of [s], the first of which continues [w] (with
    [None] the first is still to come); at most [k] words begin behind the first,
    and the last of these is the whole rest of the text.  The flag says that this
    happened. *)
Fixpoint words (delim : ascii) (k : nat) (w : option (list ascii)) (s : list ascii)
    : list (list ascii) * bool :=
  match s with
  | [] => (match w with Some w => [w] | None => [] end, false)
  | c :: t =>
      match w, k with
      | Some w, O => ([w ++ s], true)
      | Some w, S k =>
          if Ascii.eqb c delim then let r := words delim k None t in (w :: r.1, r.2)
          else words delim (S k) (Some (w ++ [c])) t
      | None, O => if Ascii.eqb c delim then words delim O None t else ([s], true)
      | None, S k => if Ascii.eqb c delim then words delim (S k) None t else words delim (S k) (Some [c]) t
      end
  end.

(** At most [k] words begin behind the first. *)
Lemma words_length delim k w s :
  (length (words delim k w s).1 <= S k)%nat.
Proof.
  revert k w. induction s as [|c s IH]; intros k w; [destruct w; cbn; lia|]. cbn [words].
  destruct w as [w|], k as [|k]; [cbn; lia| | |]; destruct (Ascii.eqb c delim).
  - cbn. specialize (IH k None). lia.
  - specialize (IH (S k) (Some (w ++ [c]))). cbn in *. lia.
  - apply (IH O None).
  - cbn. lia.
  - apply (IH (S k) None).
  - specialize (IH (S k) (Some [c])). cbn in *. lia.
Qed.

(** Concatenations to the right, without [++] behind a cons. *)
Ltac flat_app := repeat first [rewrite <- (assoc_L app) | progress cbn [app]].

(** The string at an offset. *)
Definition token (m : list ascii) (o : Z) : outcome (list ascii) := cstr (drop (Z.to_nat o) m).

Lemma cstr_app s rest : NUL ∉ s → cstr (s ++ NUL :: rest) = Ret s.
Proof.
  induction s as [|c s IH]; intros Hs; [done|]. cbn [app cstr].
  destruct (Ascii.eqb_spec c NUL) as [->|]; [set_solver|]. by rewrite IH by set_solver.
Qed.

Lemma token_at pre s rest o : NUL ∉ s → o = blen pre → token (pre ++ s ++ NUL :: rest) o = Ret s.
Proof.
  intros Hs ->. unfold token, blen. rewrite Nat2Z.id, drop_app_length. by apply cstr_app.
Qed.

(** The delimiters at the front. *)
Fixpoint ltrim (delim : ascii) (s : list ascii) : list ascii :=
  match s with c :: t => if Ascii.eqb c delim then ltrim delim t else s | [] => [] end.

Lemma ltrim_split delim s : ∃ ds, s = ds ++ ltrim delim s ∧ Forall (λ c, c = delim) ds.
Proof.
  induction s as [|c s (ds & IH & Hds)]; [by exists []|]. cbn [ltrim].
  destruct (Ascii.eqb_spec c delim) as [->|]; [|by exists []].
  exists (delim :: ds). cbn. rewrite <- IH. by split; [|constructor].
Qed.

Lemma words_trim delim k s :
  words delim k None s = match ltrim delim s with [] => ([], false) | t => words delim k (Some []) t end.
Proof.
  induction s as [|c s IH]; [done|]. cbn [words ltrim].
  destruct (Ascii.eqb c delim) eqn:E; [by destruct k|]. destruct k; cbn [words]; [done|]. by rewrite E.
Qed.

Lemma skip_delim_ok delim fuel : ∀ pre ds c rest i,
  i = blen pre → Forall (λ c, c = delim) ds → c ≠ delim → (length ds < fuel)%nat →
  skip_delim fuel (pre ++ ds ++ c :: rest) delim i = Ret (i + blen ds).
Proof.
  induction fuel as [|fuel IH]; intros pre ds c rest i Hi Hds Hc Hf; [lia|]. cbn [skip_delim].
  destruct ds as [|d ds]; cbn [app].
  - rewrite bget_at by done. cbn [obind]. destruct (Ascii.eqb_spec c delim); [done|]. by rewrite Z.add_0_r.
  - apply Forall_cons in Hds as [-> Hds]. rewrite bget_at by done. cbn [obind].
    rewrite Ascii.eqb_refl. replace (pre ++ delim :: ds ++ c :: rest) with ((pre ++ [delim]) ++ ds ++ c :: rest)
      by by rewrite <- (assoc_L app).
    rewrite IH; [rewrite blen_cons; f_equal; lia|rewrite blen_app; subst; done|done|done|cbn in Hf; lia].
Qed.

(** A delimiter becomes a NUL and the delimiters behind it are skipped. *)
Lemma skip_delims_run delim pre s rest : delim ≠ NUL →
  let m := pre ++ NUL :: s ++ NUL :: rest in
  ∃ ds, s = ds ++ ltrim delim s ∧ Forall (λ c, c = delim) ds ∧
    skip_delim (str_fuel m) m delim (blen pre + 1) = Ret (blen (pre ++ NUL :: ds)) ∧
    m = (pre ++ NUL :: ds) ++ ltrim delim s ++ NUL :: rest.
Proof.
  intros Hd m. destruct (ltrim_split delim s) as (ds & Hsp & Hds). exists ds.
  assert (m = (pre ++ NUL :: ds) ++ ltrim delim s ++ NUL :: rest) as Hm
    by (unfold m; rewrite Hsp at 1; by flat_app).
  assert (∃ x r, ltrim delim s ++ NUL :: rest = x :: r ∧ x ≠ delim) as (x & r & Hx & Hxd).
  { clear -Hd. induction s as [|a s IH]; [by exists NUL, rest|]. cbn [ltrim].
    destruct (Ascii.eqb_spec a delim); [done|]. by eexists _, _. }
  assert (m = (pre ++ [NUL]) ++ ds ++ x :: r) as Hm' by (rewrite <- Hx, Hm; by flat_app).
  split_and!; [done|done| |done].
  rewrite Hm' at 2. rewrite (skip_delim_ok delim _ (pre ++ [NUL]) ds x r); [|by rewrite blen_app|done|done|].
  - rewrite blen_app, blen_cons. f_equal. lia.
  - unfold str_fuel. rewrite Hm', !length_app. lia.
Qed.

(** The loop from the middle of a word: the pointers that it adds and the changed
    part of the message; the first word is at the offset of [pre]. *)
Lemma token_loop_ok delim limit fuel : ∀ k pre w s rest parv,
  delim ≠ NUL → NUL ∉ w → NUL ∉ s → limit - blen parv = Z.of_nat k → (length s < fuel)%nat →
  ∃ y news, token_loop fuel delim limit (pre ++ w ++ s ++ NUL :: rest) (blen pre + blen w) parv =
      Ret (pre ++ y ++ NUL :: rest, parv ++ news, (words delim k (Some w) s).2) ∧
    length y = length (w ++ s) ∧
    token (pre ++ y ++ NUL :: rest) <$> (blen pre :: news) = Ret <$> (words delim k (Some w) s).1.
Proof.
  induction fuel as [|fuel IH]; intros k pre w s rest parv Hd Hw Hs Hk Hf; [lia|]. cbn [token_loop].
  destruct s as [|c s].
  { exists w, []. rewrite app_nil_l, (assoc_L app pre w), bget_at by by rewrite blen_app.
    cbn [obind words fst snd]. change (Ascii.eqb NUL NUL) with true. cbn iota.
    rewrite !app_nil_r, <- (assoc_L app). split_and!; [done|done|]. cbn. by rewrite token_at. }
  assert (c ≠ NUL ∧ NUL ∉ s) as [Hc Hs'] by (split; [intros ->|]; set_solver).
  rewrite (assoc_L app pre w). cbn [app]. rewrite bget_at by by rewrite blen_app. cbn [obind].
  destruct (Ascii.eqb_spec c NUL); [done|].
  destruct k as [|k].
  { destruct (Z.eqb_spec (blen parv) limit); [|lia]. exists (w ++ c :: s), []. cbn [words fst snd].
    rewrite app_nil_r, <- !(assoc_L app). split_and!; [done|done|].
    cbn [fmap list_fmap]. replace (pre ++ w ++ (c :: s) ++ NUL :: rest) with (pre ++ (w ++ c :: s) ++ NUL :: rest)
      by by rewrite <- !(assoc_L app).
    rewrite token_at; [done|set_solver|done]. }
  destruct (Z.eqb_spec (blen parv) limit); [lia|]. cbn [words].
  destruct (Ascii.eqb_spec c delim) as [->|Hcd].
  - rewrite bset_at by by rewrite blen_app. cbn [obind]. cbn [fst snd]. rewrite words_trim.
    destruct (skip_delims_run delim (pre ++ w) s rest Hd) as (ds & Hsp & Hds & Hskip & Hm).
    rewrite <- (blen_app pre w), Hskip, Hm. cbn [obind]. clear Hskip Hm. set (t := ltrim delim s) in *.
    assert (length s = length ds + length t)%nat as Hlen by (rewrite Hsp at 1; apply length_app).
    clearbody t. destruct t as [|x u].
    + exists (w ++ NUL :: ds), []. cbn [app]. rewrite bget_app. cbn [obind]. change (Ascii.eqb NUL NUL) with true.
      cbn iota. rewrite app_nil_r. cbn [fst snd]. split_and!; [by flat_app| |].
      * rewrite !length_app. cbn in *. lia.
      * cbn. rewrite <- (assoc_L app). cbn [app]. by rewrite token_at.
    + assert (x ≠ NUL ∧ NUL ∉ x :: u) as [Hx Ht] by (rewrite Hsp in Hs'; split; [intros ->|]; set_solver).
      cbn [app]. rewrite bget_app. cbn [obind]. destruct (Ascii.eqb_spec x NUL); [done|].
      set (pre' := (pre ++ w) ++ NUL :: ds).
      destruct (IH k pre' [] (x :: u) rest (parv ++ [blen pre'])) as (y & news & Hr & Hy & Htok); try done.
      { set_solver. }
      { rewrite blen_app. change (blen [blen pre']) with 1. lia. }
      { cbn in *. lia. }
      cbn [app] in Hr. rewrite Z.add_0_r in Hr. rewrite Hr.
      exists (w ++ NUL :: ds ++ y), (blen pre' :: news). unfold pre' in *. split_and!; [by flat_app| |].
      * cbn in Hy, Hlen. rewrite !length_app. cbn. rewrite length_app. lia.
      * revert Htok. flat_app. intros Htok. rewrite fmap_cons, Htok. by rewrite token_at.
  - destruct (IH (S k) pre (w ++ [c]) s rest parv) as (y & news & Hr & Hy & Htok); try done.
    { set_solver. }
    { cbn in Hf. lia. }
    exists y, news. rewrite blen_app, Z.add_assoc, <- !(assoc_L app) in Hr. change (blen [c]) with 1 in Hr.
    cbn [app] in Hr. rewrite <- (assoc_L app), Hr. split_and!; [done| |done].
    rewrite Hy, !length_app. cbn. lia.
Qed.

(** ** strchr and the trailing parameter *)

Lemma strchr_hit c fuel : ∀ pre x y, c ≠ NUL → c ∉ x → NUL ∉ x → (length x < fuel)%nat →
  strchr_at fuel (pre ++ x ++ c :: y) c (blen pre) = Ret (Some (blen pre + blen x)).
Proof.
  induction fuel as [|fuel IH]; intros pre x y Hc Hx Hn Hf; [lia|]. cbn [strchr_at].
  destruct x as [|d x]; cbn [app]; rewrite bget_at by done; cbn [obind].
  - rewrite Ascii.eqb_refl. by rewrite Z.add_0_r.
  - destruct (Ascii.eqb_spec d c) as [->|]; [set_solver|].
    destruct (Ascii.eqb_spec d NUL) as [->|]; [set_solver|].
    replace (pre ++ d :: x ++ c :: y) with ((pre ++ [d]) ++ x ++ c :: y) by by flat_app.
    replace (blen pre + 1) with (blen (pre ++ [d])) by (rewrite blen_app; done).
    rewrite IH; [|done|set_solver|set_solver|cbn in Hf; lia].
    rewrite blen_app. change (blen [d]) with 1. rewrite blen_cons. f_equal. f_equal. lia.
Qed.

Lemma strchr_miss c fuel : ∀ pre x y, c ≠ NUL → c ∉ x → NUL ∉ x → (length x < fuel)%nat →
  strchr_at fuel (pre ++ x ++ NUL :: y) c (blen pre) = Ret None.
Proof.
  induction fuel as [|fuel IH]; intros pre x y Hc Hx Hn Hf; [lia|]. cbn [strchr_at].
  destruct x as [|d x]; cbn [app]; rewrite bget_at by done; cbn [obind].
  - by destruct (Ascii.eqb_spec NUL c).
  - destruct (Ascii.eqb_spec d c) as [->|]; [set_solver|].
    destruct (Ascii.eqb_spec d NUL) as [->|]; [set_solver|].
    replace (pre ++ d :: x ++ NUL :: y) with ((pre ++ [d]) ++ x ++ NUL :: y) by by flat_app.
    replace (blen pre + 1) with (blen (pre ++ [d])) by (rewrite blen_app; done).
    apply IH; [done|set_solver|set_solver|cbn in Hf; lia].
Qed.

(** The first occurrence of a character. *)
Lemma first_occurrence (c : ascii) s : c ∉ s ∨ ∃ x y, s = x ++ c :: y ∧ c ∉ x.
Proof.
  destruct (decide (c ∈ s)) as [Hin|]; [right|by left].
  apply list_elem_of_split_l in Hin as (x & y & -> & ?). by exists x, y.
Qed.

Definition COLON : ascii := ":"%char.

(** The text before the first blank that a colon follows, and the text behind them. *)
Fixpoint cut_trailing (s : list ascii) : list ascii * option (list ascii) :=
  match s with
  | [] => ([], None)
  | c :: t =>
      match t with
      | d :: b =>
          if Ascii.eqb c SP && Ascii.eqb d COLON then ([], Some b)
          else let r := cut_trailing t in (c :: r.1, r.2)
      | [] => ([c], None)
      end
  end.

Lemma cut_trailing_split s :
  s = (cut_trailing s).1 ++ match (cut_trailing s).2 with Some b => SP :: COLON :: b | None => [] end.
Proof.
  induction s as [|c s IH]; [done|]. cbn [cut_trailing]. destruct s as [|d s]; [done|].
  destruct (Ascii.eqb_spec c SP) as [->|]; [destruct (Ascii.eqb_spec d COLON) as [->|]; [done|]|];
    cbn [andb fst snd app]; f_equal; exact IH.
Qed.

Lemma cut_trailing_skip x t :
  COLON ∉ x → last x ≠ Some SP ∨ head t ≠ Some COLON →
  cut_trailing (x ++ t) = (x ++ (cut_trailing t).1, (cut_trailing t).2).
Proof.
  induction x as [|c x IH]; intros Hx Ho; [exact (surjective_pairing (cut_trailing t))|].
  destruct x as [|d x]; cbn [app].
  - destruct t as [|d b]; [done|]. cbn [cut_trailing].
    destruct (Ascii.eqb_spec c SP) as [->|]; [|done]. destruct (Ascii.eqb_spec d COLON) as [->|]; [|done].
    destruct Ho; done.
  - assert (COLON ∉ d :: x) as Hx' by set_solver. specialize (IH Hx' Ho). cbn [app] in IH.
    cbn [cut_trailing]. destruct (Ascii.eqb_spec d COLON) as [->|]; [set_solver|].
    rewrite andb_false_r. cbn [cut_trailing] in IH. by rewrite IH.
Qed.

(** The search from the position of [pre]. *)
Lemma find_trailing_ok fuel : ∀ pre s rest,
  NUL ∉ s → last pre ≠ Some SP → (pre = [] → head s ≠ Some COLON) → (length s < fuel)%nat →
  find_trailing fuel (pre ++ s ++ NUL :: rest) (blen pre) =
    let r := cut_trailing s in
    match r.2 with
    | None => Ret (pre ++ s ++ NUL :: rest, None)
    | Some b => Ret (pre ++ r.1 ++ NUL :: NUL :: b ++ NUL :: rest, Some (blen pre + blen r.1 + 2))
    end.
Proof.
  induction fuel as [|fuel IH]; intros pre s rest Hs Hp H0 Hf; [lia|]. cbn [find_trailing]. cbv zeta.
  change ":"%char with COLON.
  destruct (first_occurrence COLON s) as [Hno|(x & y & -> & Hx)].
  { rewrite strchr_miss; [|done|done|done|unfold str_fuel; rewrite !length_app; lia]. cbn [obind].
    pose proof (cut_trailing_skip s [] Hno) as E. rewrite app_nil_r in E. rewrite E by by right. done. }
  assert ((NUL ∉ x) ∧ NUL ∉ y) as [Hxn Hyn] by set_solver.
  replace ((x ++ COLON :: y) ++ NUL :: rest) with (x ++ COLON :: y ++ NUL :: rest) by by flat_app.
  rewrite strchr_hit; [|done|done|done|unfold str_fuel; rewrite !length_app; lia]. cbn [obind].
  set (m := pre ++ x ++ COLON :: y ++ NUL :: rest).
  assert (∃ z l, (pre ++ x = z ++ [l])) as (z & l & Hz).
  { destruct (pre ++ x) as [|a u] eqn:E using rev_ind; [|by eexists _, _].
    apply app_eq_nil in E as [-> ->]. by destruct H0. }
  assert (last x = None ∧ l ≠ SP ∨ last x = Some l) as Hl.
  { destruct x as [|d x _] using rev_ind.
    - left. rewrite app_nil_r in Hz. subst pre. rewrite last_snoc in Hp. split; [done|congruence].
    - right. rewrite (assoc_L app) in Hz. apply app_inj_tail in Hz as [_ ->]. by rewrite last_snoc. }
  assert (m = z ++ l :: COLON :: y ++ NUL :: rest) as Hm.
  { unfold m. rewrite (assoc_L app), Hz. by flat_app. }
  assert (blen pre + blen x - 1 = blen z) as Hb.
  { apply (f_equal blen) in Hz. rewrite !blen_app in Hz. change (blen [l]) with 1 in Hz. lia. }
  rewrite Hm, Hb, bget_at by done. cbn [obind]. destruct (Ascii.eqb_spec l SP) as [->|Hn]; cbn [negb].
  - destruct Hl as [[_ ?]|Hl]; [done|]. apply last_Some in Hl as [x0 ->].
    rewrite bset_at by done. cbn [obind].
    replace (z ++ NUL :: COLON :: y ++ NUL :: rest) with ((z ++ [NUL]) ++ COLON :: y ++ NUL :: rest)
      by by flat_app.
    rewrite bset_at by (rewrite blen_app; change (blen [NUL]) with 1; lia). cbn [obind].
    replace ((x0 ++ [SP]) ++ COLON :: y) with (x0 ++ SP :: COLON :: y) by by flat_app.
    rewrite cut_trailing_skip; [|set_solver|by right]. cbn [cut_trailing fst snd andb].
    rewrite !Ascii.eqb_refl. cbn [andb fst snd]. rewrite (assoc_L app) in Hz. apply app_inj_tail in Hz as [<- _].
    rewrite app_nil_r. rewrite !blen_app. change (blen [SP]) with 1. f_equal. f_equal; [by flat_app|f_equal; lia].
  - rewrite cut_trailing_skip; [|done|left; destruct Hl as [[-> _]| ->]; congruence].
    rewrite <- Hm. unfold m.
    replace (pre ++ x ++ COLON :: y ++ NUL :: rest) with ((pre ++ x ++ [COLON]) ++ y ++ NUL :: rest)
      by by flat_app.
    replace (blen pre + blen x + 1) with (blen (pre ++ x ++ [COLON]))
      by (rewrite !blen_app; change (blen [COLON]) with 1; lia).
    assert (cut_trailing (COLON :: y) = (COLON :: (cut_trailing y).1, (cut_trailing y).2)) as ->
      by by destruct y.
    rewrite IH; [|done| |intros E; by destruct pre, x|].
    + cbv zeta. cbn [fst snd app].
      destruct (cut_trailing y).2; [|by flat_app]. f_equal. f_equal; [by flat_app|].
      rewrite !blen_app. change (blen [COLON]) with 1. rewrite blen_cons. f_equal. lia.
    + rewrite (assoc_L app), last_snoc. done.
    + rewrite length_app in Hf. cbn in Hf. lia.
Qed.

(** ** The tokenizers *)

Lemma token_loop_start delim limit m s rest :
  delim ≠ NUL → NUL ∉ s → 1 ≤ limit → m = s ++ NUL :: rest →
  ∃ y news, token_loop (str_fuel m) delim limit m 0 [0] =
      Ret (y ++ NUL :: rest, 0 :: news, (words delim (Z.to_nat (limit - 1)) (Some []) s).2) ∧
    length y = length s ∧
    token (y ++ NUL :: rest) <$> (0 :: news) = Ret <$> (words delim (Z.to_nat (limit - 1)) (Some []) s).1.
Proof.
  intros Hd Hs Hl ->.
  destruct (token_loop_ok delim limit (str_fuel (s ++ NUL :: rest)) (Z.to_nat (limit - 1)) [] [] s rest [0])
    as (y & news & Hr & Hy & Ht); [done|set_solver|done| | |by exists y, news].
  - change (blen [0]) with 1. lia.
  - unfold str_fuel. rewrite length_app. lia.
Qed.

Lemma str_tokenize_generic_run delim size s rest :
  delim ≠ NUL → NUL ∉ s → 1 ≤ size →
  ∃ m parv, str_tokenize_generic delim size (Some (s ++ NUL :: rest)) = Ret (blen parv, m, parv) ∧
    length m = length (s ++ NUL :: rest) ∧ 1 ≤ blen parv ≤ size ∧
    token m <$> parv = Ret <$> (words delim (Z.to_nat (size - 1)) (Some []) s).1.
Proof.
  intros Hd Hs Hsz. unfold str_tokenize_generic.
  destruct (token_loop_start delim size _ s rest Hd Hs Hsz eq_refl) as (y & news & -> & Hy & Ht).
  cbn [obind]. exists (y ++ NUL :: rest), (0 :: news). split_and!; [done|rewrite !length_app; lia| | |done].
  - rewrite blen_cons. pose proof (blen_nonneg news). lia.
  - apply (f_equal length) in Ht. rewrite !length_fmap in Ht. unfold blen. rewrite Ht.
    pose proof (words_length delim (Z.to_nat (size - 1)) (Some []) s). cbn in *. lia.
Qed.

(** The parameters of a message: at most fourteen words of the text in front of the
    first blank and colon, and the text behind them unless the words are cut off. *)
Definition parameters (s : list ascii) : list (list ascii) :=
  let r := words SP (Z.to_nat (MAXPARA - 2)) (Some []) (cut_trailing s).1 in
  r.1 ++ (if r.2 then [] else option_list (cut_trailing s).2).

Lemma str_tokenize_leading_colon s rest : str_tokenize (Some (COLON :: s ++ NUL :: rest)) = Stuck OutOfBounds.
Proof. reflexivity. Qed.

Lemma str_tokenize_run s rest : NUL ∉ s → head s ≠ Some COLON →
  ∃ m parv, str_tokenize (Some (s ++ NUL :: rest)) = Ret (blen parv, m, parv) ∧
    token m <$> parv = Ret <$> parameters s.
Proof.
  intros Hs Hh. unfold str_tokenize, parameters.
  pose proof (cut_trailing_split s) as Hsp.
  rewrite (find_trailing_ok _ [] s rest) by (done || unfold str_fuel; rewrite length_app; lia).
  cbv zeta. destruct (cut_trailing s) as [a [b|]]; cbn [fst snd app obind option_list] in *.
  - assert (NUL ∉ a) as Ha by set_solver. assert (NUL ∉ b) as Hb by set_solver.
    destruct (token_loop_start SP (MAXPARA - 1) _ a (NUL :: b ++ NUL :: rest) ltac:(done) Ha ltac:(done) eq_refl)
      as (y & news & -> & Hy & Ht). change (MAXPARA - 1 - 1) with (MAXPARA - 2) in *. cbn [obind].
    destruct (words SP (Z.to_nat (MAXPARA - 2)) (Some []) a) as [ws full]. cbn [fst snd] in *.
    destruct full; [exists (y ++ NUL :: NUL :: b ++ NUL :: rest), (0 :: news); by rewrite app_nil_r|].
    eexists _, _. split; [done|]. rewrite !fmap_app, Ht. f_equal. cbn.
    replace (y ++ NUL :: NUL :: b ++ NUL :: rest) with ((y ++ [NUL; NUL]) ++ b ++ NUL :: rest) by by flat_app.
    rewrite token_at; [done|done|]. rewrite blen_app. change (blen [NUL; NUL]) with 2. unfold blen. cbn. lia.
  - rewrite app_nil_r in Hsp. subst a.
    destruct (token_loop_start SP (MAXPARA - 1) _ s rest ltac:(done) Hs ltac:(done) eq_refl)
      as (y & news & -> & Hy & Ht). change (MAXPARA - 1 - 1) with (MAXPARA - 2) in *. cbn [obind].
    destruct (words SP (Z.to_nat (MAXPARA - 2)) (Some []) s) as [ws full]. cbn [fst snd] in *.
    exists (y ++ NUL :: rest), (0 :: news). destruct full; by rewrite app_nil_r.
Qed.

Lemma str_tokenize_message s rest :
  NUL ∉ s →
  if decide (head s = Some COLON) then str_tokenize (Some (s ++ NUL :: rest)) = Stuck OutOfBounds
  else ∃ m parv, str_tokenize (Some (s ++ NUL :: rest)) = Ret (blen parv, m, parv) ∧
    1 ≤ blen parv ≤ MAXPARA ∧ token m <$> parv = Ret <$> parameters s.
Proof.
  intros Hs. destruct (decide _) as [Hh|Hh].
  - destruct s as [|c s]; [done|]. injection Hh as ->. apply str_tokenize_leading_colon.
  - destruct (str_tokenize_run s rest Hs Hh) as (m & parv & Hr & Ht). exists m, parv.
    split_and!; [done| | |done]; apply (f_equal length) in Ht; rewrite !length_fmap in Ht;
      unfold blen; rewrite Ht; unfold parameters; cbv zeta;
      set (r := words _ _ _ _); rewrite length_app.
    + enough (length r.1 ≠ O) by lia. unfold r. clear. generalize (Z.to_nat (MAXPARA - 2)).
      generalize (@nil ascii). induction (cut_trailing s).1 as [|c t IH]; intros w k; [done|]. cbn [words].
      destruct k; [done|]. destruct (Ascii.eqb c SP); [done|]. apply IH.
    + pose proof (words_length SP (Z.to_nat (MAXPARA - 2)) (Some []) (cut_trailing s).1) as Hw. fold r in Hw.
      change (S (Z.to_nat (MAXPARA - 2))) with 14%nat in Hw. change MAXPARA with 15.
      destruct r.2, (cut_trailing s).2; cbn; lia.
Qed.

(** C25: The tokenizers against the reference [words].  On a C string,
    [str_tokenize_generic] stores pointers to the text up to the first delimiter
    (empty when the text begins with one) and the words between runs of delimiters;
    when [size] pointers are stored the last one has the rest of the text uncut.
    [str_tokenize] stores pointers to the words before the first blank that a colon
    follows, and the text behind that colon as the last one; with fourteen words the
    last of them keeps the rest of the text and what is behind the colon is dropped.
    A message that begins with a colon makes it read the byte in front of the
    message. *)
Theorem str_tokenizers_ok s rest :
  NUL ∉ s →
  (∀ delim size, delim ≠ NUL → 1 ≤ size →
    ∃ m parv, str_tokenize_generic delim size (Some (s ++ NUL :: rest)) = Ret (blen parv, m, parv) ∧
      length m = length (s ++ NUL :: rest) ∧ 1 ≤ blen parv ≤ size ∧
      token m <$> parv = Ret <$> (words delim (Z.to_nat (size - 1)) (Some []) s).1) ∧
  if decide (head s = Some COLON) then str_tokenize (Some (s ++ NUL :: rest)) = Stuck OutOfBounds
  else ∃ m parv, str_tokenize (Some (s ++ NUL :: rest)) = Ret (blen parv, m, parv) ∧
    1 ≤ blen parv ≤ MAXPARA ∧ token m <$> parv = Ret <$> parameters s.
Proof.
  intros Hs. split; [|by apply str_tokenize_message].
  intros delim size Hd Hsz. by apply str_tokenize_generic_run.
Qed.

Lemma str_tokenizers_ok_witness :
  (let s := chars_of "a,,bc,d,e" in
   ∃ m parv, str_tokenize_generic ","%char 3 (Some (s ++ [NUL])) = Ret (blen parv, m, parv) ∧
    length m = length (s ++ [NUL]) ∧ 1 ≤ blen parv ≤ 3 ∧
    token m <$> parv = Ret <$> [chars_of "a"; chars_of "bc"; chars_of "d,e"]) ∧
  let s := chars_of "PRIVMSG  #a :b: c d" in
  ∃ m parv, str_tokenize (Some (s ++ [NUL])) = Ret (blen parv, m, parv) ∧ 1 ≤ blen parv ≤ MAXPARA ∧
    token m <$> parv = Ret <$> [chars_of "PRIVMSG"; chars_of "#a"; chars_of "b: c d"].
Proof.
  split.
  - exact (proj1 (str_tokenizers_ok (chars_of "a,,bc,d,e") [] ltac:(apply (bool_decide_unpack _); reflexivity))
      ","%char 3 ltac:(done) ltac:(done)).
  - exact (proj2 (str_tokenizers_ok (chars_of "PRIVMSG  #a :b: c d") []
      ltac:(apply (bool_decide_unpack _); reflexivity))).
Defined.

(** ** Joining parameters *)

Lemma copy_at_ok t mid rest src n : 1 ≤ n →
  blen mid = blen (take (Z.to_nat (n - 1)) src) + 1 →
  copy_at (t ++ mid ++ rest) (blen t) src n = Ret (t ++ (take (Z.to_nat (n - 1)) src ++ [NUL]) ++ rest).
Proof.
  intros Hn Hm. unfold copy_at. set (x := take _ _ ++ [NUL]). 
  pose proof (bmemcpy_app t mid rest [] x [] (blen x)) as H. rewrite app_nil_r in H. apply H; [|done].
  unfold x. rewrite blen_app. exact Hm.
Qed.

(** A text with its NUL in a buffer of [len] characters. *)
Definition holds_text (dst t : list ascii) (len : Z) : Prop :=
  ∃ rest, dst = t ++ NUL :: rest ∧ (NUL ∉ t) ∧ blen dst = len.

Lemma strnlen_ok n t : ∀ pre rest fuel, NUL ∉ t → (length t < fuel)%nat → blen (pre ++ t) < n →
  strnlen_loop fuel (pre ++ t ++ NUL :: rest) n (blen pre) = Ret (blen (pre ++ t)).
Proof.
  induction t as [|c t IH]; intros pre rest [|fuel] Hn Hf Hl; cbn [length] in Hf; try lia; cbn [strnlen_loop app].
  - rewrite app_nil_r in *. destruct (Z.eqb_spec (blen pre) n); [lia|]. by rewrite bget_app, bind_ret.
  - rewrite not_elem_of_cons in Hn. destruct Hn as [Hc Hn]. rewrite blen_app, blen_cons in Hl. pose proof (blen_nonneg t).
    destruct (Z.eqb_spec (blen pre) n); [lia|]. rewrite bget_app, bind_ret.
    destruct (Ascii.eqb_spec c NUL) as [->|]; [done|].
    specialize (IH (pre ++ [c]) rest fuel Hn). rewrite <- !(assoc_L app) in IH. cbn [app] in IH.
    rewrite <- IH; [by rewrite blen_app|lia|]. rewrite blen_app, blen_cons. lia.
Qed.

Lemma no_nul_take n t : NUL ∉ t → NUL ∉ take n t.
Proof. intros Ht Hin. apply Ht. eapply elem_of_take in Hin as (i & Hi & _). by eapply list_elem_of_lookup_2. Qed.

(** Appending cuts the text at the size of the buffer. *)
Lemma strlcat_ok dst t src size len : holds_text dst t len → NUL ∉ src → blen t < size ≤ len →
  ∃ dst', strlcat dst src size = Ret dst' ∧ holds_text dst' (take (Z.to_nat (size - 1)) (t ++ src)) len.
Proof.
  intros (rest & -> & Ht & Hlen) Hsrc Hs. unfold strlcat.
  pose proof (strnlen_ok size t [] rest (str_fuel (t ++ NUL :: rest)) Ht) as Hd. cbn [app] in Hd. change (blen []) with 0 in Hd. rewrite Hd; clear Hd;
    [|unfold str_fuel; rewrite length_app; lia|lia]. rewrite bind_ret.
  destruct (Z.eqb_spec (blen t) size); [lia|].
  assert (take (Z.to_nat (size - 1)) (t ++ src) = t ++ take (Z.to_nat (size - blen t - 1)) src) as E.
  { rewrite take_app, take_ge by (unfold blen in *; lia). do 2 f_equal. unfold blen in *. lia. }
  set (x := take (Z.to_nat (size - blen t - 1)) src) in *.
  rewrite blen_app, blen_cons in Hlen. pose proof (blen_nonneg rest).
  assert (blen x ≤ size - blen t - 1) as Hx by (unfold x, blen in *; rewrite length_take; lia).
  assert (blen x ≤ blen rest) as Hx2 by lia. set (k := length x).
  replace (t ++ NUL :: rest) with (t ++ (NUL :: take k rest) ++ drop k rest) by (cbn [app]; by rewrite take_drop).
  rewrite copy_at_ok; [|lia|].
  - eexists. split; [done|]. exists (drop k rest). fold x. rewrite E, <- !(assoc_L app). split; [done|]. split.
    + rewrite elem_of_app. intros [?|?]; [done|]. by apply (no_nul_take _ _ Hsrc) in H0.
    + rewrite !blen_app, blen_cons. cbn [app]. unfold k, blen in *. rewrite length_drop. cbn [length]. lia.
  - fold x. rewrite blen_cons. unfold k, blen in *. rewrite length_take. lia.
Qed.

(** The words with a blank in front of each. *)
Definition spaced (ws : list (list ascii)) : list ascii := concat ((λ w, SP :: w) <$> ws).

Lemma take_join n (t u v : list ascii) : take n (take n (t ++ u) ++ v) = take n (t ++ u ++ v).
Proof.
  rewrite !(assoc_L app). set (x := t ++ u). destruct (decide (n ≤ length x)%nat).
  - rewrite !take_app_le, take_take by (rewrite ?length_take; lia). f_equal. lia.
  - by rewrite (take_ge x) by lia.
Qed.

Lemma parv_loop_ok max ws : ∀ dest t pre post len,
  holds_text dest (take (Z.to_nat (max - 1)) t) len → 0 < max ≤ len → len < 2 ^ 64 → Forall (λ w, NUL ∉ w) ws →
  ∃ dest', parv_loop (length ws) dest max (blen pre) (pre ++ (Some <$> ws) ++ post) = Ret dest' ∧
    holds_text dest' (take (Z.to_nat (max - 1)) (t ++ spaced ws)) len.
Proof.
  induction ws as [|w ws IH]; intros dest t pre post len Hd Hm Hlen Hws; cbn [length parv_loop].
  { exists dest. unfold spaced. cbn. by rewrite app_nil_r. }
  apply Forall_cons in Hws as [Hw Hws]. rewrite (wrap64_small max) by lia.
  assert (∀ u : list ascii, blen (take (Z.to_nat (max - 1)) u) < max) as Hcut.
  { intros u. unfold blen. rewrite length_take. lia. }
  destruct (strlcat_ok dest _ [SP] max len Hd) as (d1 & -> & Hd1); [by intros [?|?%elem_of_nil]%elem_of_cons|split; [apply Hcut|lia]|].
  rewrite bind_ret. cbn [fmap list_fmap app]. rewrite bget_app, bind_ret. cbn [need]. rewrite bind_ret.
  destruct (strlcat_ok d1 _ w max len Hd1 Hw) as (d2 & -> & Hd2); [split; [apply Hcut|lia]|]. rewrite bind_ret.
  pose proof (take_join (Z.to_nat (max - 1)) t [] [SP]) as E1. rewrite app_nil_r in E1. cbn [app] in E1. rewrite E1, take_join in Hd2.
  destruct (IH d2 (t ++ [SP] ++ w) (pre ++ [Some w]) post len Hd2 Hm Hlen Hws) as (d3 & Hrun & Hd3).
  rewrite <- !(assoc_L app) in Hrun. cbn [app] in Hrun. rewrite blen_app in Hrun. change (blen [Some w]) with 1 in Hrun.
  exists d3. split; [exact Hrun|]. unfold spaced in *. cbn [fmap list_fmap concat]. by rewrite <- !(assoc_L app) in Hd3.
Qed.

(** The parameters from [initial] on are joined with blanks, cut at [max - 1] characters, and nothing is written behind
    them; when the first one is NULL the others are appended to what the buffer held. *)
Theorem str_parv_expand_joins dest max pre w ws t0 :
  0 < max ≤ blen dest → blen dest < 2 ^ 64 → Forall (λ w, NUL ∉ w) (w :: ws) →
  (∃ dest', str_parv_expand dest max (blen pre) (blen pre + 1 + blen ws) (pre ++ (Some <$> w :: ws)) = Ret dest' ∧
     holds_text dest' (take (Z.to_nat (max - 1)) (w ++ spaced ws)) (blen dest)) ∧
  (holds_text dest t0 (blen dest) → blen t0 < max →
   ∃ dest', str_parv_expand dest max (blen pre) (blen pre + 1 + blen ws) (pre ++ None :: (Some <$> ws)) = Ret dest' ∧
     holds_text dest' (take (Z.to_nat (max - 1)) (t0 ++ spaced ws)) (blen dest)).
Proof.
  intros Hm Hlen [Hw Hws]%Forall_cons. pose proof (blen_nonneg pre).
  assert (Z.to_nat (blen pre + 1 + blen ws - (blen pre + 1)) = length ws) as En by (unfold blen; lia).
  assert (∀ x d t, holds_text d (take (Z.to_nat (max - 1)) t) (blen dest) →
    ∃ dest', parv_loop (length ws) d max (blen pre + 1) (pre ++ x :: (Some <$> ws)) = Ret dest' ∧
      holds_text dest' (take (Z.to_nat (max - 1)) (t ++ spaced ws)) (blen dest)) as Hloop.
  { intros x d t Hd. destruct (parv_loop_ok max ws d t (pre ++ [x]) [] (blen dest) Hd Hm Hlen Hws) as (d' & Hrun & Hd').
    rewrite app_nil_r, <- (assoc_L app), blen_app in Hrun. by exists d'. }
  unfold str_parv_expand. rewrite En. split.
  - cbn [fmap list_fmap]. rewrite bget_app, bind_ret. unfold strlcpy. rewrite (wrap64_small max) by lia.
    destruct (Z.eqb_spec max 0); [lia|]. set (x := take (Z.to_nat (max - 1)) w).
    assert (blen x + 1 ≤ blen dest) as Hx by (unfold x, blen in *; rewrite length_take; lia).
    pose proof (copy_at_ok [] (take (S (length x)) dest) (drop (S (length x)) dest) w max) as Hc. cbn [app] in Hc.
    rewrite take_drop in Hc. change (blen []) with 0 in Hc. rewrite Hc; [|lia|fold x; unfold blen in *; rewrite length_take; lia]. rewrite bind_ret. fold x.
    apply Hloop. exists (drop (S (length x)) dest). fold x. rewrite <- (assoc_L app). split; [done|].
    split; [by apply no_nul_take|]. rewrite blen_app. cbn [app]. rewrite blen_cons. unfold blen in *. rewrite length_drop. lia.
  - intros Ht Hb. rewrite bget_app, !bind_ret. apply Hloop. rewrite take_ge by (unfold blen in *; lia). done.
Qed.

Lemma str_parv_expand_joins_witness :
  ∃ dest, str_parv_expand (replicate 8 "?"%char) 8 1 4 (Some <$> [["x"]; ["a"; "b"]; ["c"]; ["d"; "e"; "f"; "g"; "h"]]%char) = Ret dest ∧
    holds_text dest ["a"; "b"; " "; "c"; " "; "d"; "e"]%char 8.
Proof.
  apply (str_parv_expand_joins (replicate 8 "?"%char) 8 [Some ["x"%char]] ["a"; "b"]%char [["c"]; ["d"; "e"; "f"; "g"; "h"]]%char []).
  - done.
  - done.
  - repeat constructor; by apply (bool_decide_unpack _).
Defined.
