(* ===== verification/Atomicio.v ===== *)
(** * Complete transfers (lsd/atomicio.c)

    [atomicio] calls [read] or [write] until all the data is transferred.  The
    call is an argument: from the state of the device, the file descriptor, the
    offset of the pointer in the caller's buffer and the count to the result, the
    error number and the new state. *)
From S2P Require Import Prelude CStd Buf Term.
From Stdlib Require Import Ascii.

Local Open Scope Z_scope.

Definition EINTR : Z := 4.
Definition EAGAIN : Z := 11.

Section atomicio.
Context {D : Type}.
Variable f : D → Z → Z → Z → Z * Z * D.

(** The loop; a [-1] that is not transient falls through to the case of 0. *)
Fixpoint atomicio_loop (fuel : nat) (fd n pos : Z) (d : D) : outcome (Z * D) :=
  match fuel with
  | O => Spin
  | S fuel =>
      if wrap64 pos <? n then
        let '(res, errno, d) := f d fd pos (wrap64 (n - pos)) in
        if res =? -1 then
          if (errno =? EINTR) || (errno =? EAGAIN) then atomicio_loop fuel fd n pos d
          else Ret (res, d)
        else if res =? 0 then Ret (res, d)
        else
          let! pos := slong (pos + res) in
          atomicio_loop fuel fd n pos d
      else Ret (pos, d)
  end.

Definition atomicio (fuel : nat) (fd n : Z) (d : D) : outcome (Z * D) := atomicio_loop fuel fd n 0 d.

(** ** Calls that behave

    [moved d] is what has gone through the device, [data] the bytes behind the
    caller's pointer, [patience d] bounds the transient failures still to come. *)
Record well_behaved (data : list ascii) (moved : D → list ascii) (patience : D → nat) : Prop := {
  wb_result d fd off n res errno d' :
    f d fd off n = (res, errno, d') → 0 ≤ off → 0 < n → off + n ≤ blen data →
    (res = -1 ∧ moved d' = moved d ∧
       ((errno = EINTR ∨ errno = EAGAIN) → (patience d' < patience d)%nat)) ∨
    (0 ≤ res ≤ n ∧ moved d' = moved d ++ slice data off res ∧ (patience d' <= patience d)%nat)
}.

Lemma slice_split (b : list ascii) i j k :
  0 ≤ i → 0 ≤ j → 0 ≤ k → slice b i j ++ slice b (i + j) k = slice b i (j + k).
Proof.
  intros Hi Hj Hk. unfold slice. rewrite (Z2Nat.inj_add i j), (Z2Nat.inj_add j k) by done.
  by rewrite <- drop_drop, take_take_drop.
Qed.

Lemma atomicio_loop_ok data moved patience fd fuel : ∀ pos d,
  well_behaved data moved patience → 0 ≤ pos ≤ blen data → blen data < 2 ^ 63 →
  (Z.to_nat (blen data - pos) + patience d < fuel)%nat →
  ∃ res d' k, atomicio_loop fuel fd (blen data) pos d = Ret (res, d') ∧
    moved d' = moved d ++ slice data pos k ∧
    0 ≤ k ≤ blen data - pos ∧
    (res = blen data ∧ k = blen data - pos ∨ (res = -1 ∨ res = 0) ∧ k < blen data - pos).
Proof.
  induction fuel as [|fuel IH]; intros pos d Hf Hpos Hmax Hfuel; [lia|]. cbn [atomicio_loop].
  rewrite wrap64_small by lia. destruct (Z.ltb_spec pos (blen data)) as [Hlt|Hge].
  2:{ exists pos, d, 0. unfold slice at 1. cbn [Z.to_nat take]. rewrite app_nil_r. split_and!; [done|done|lia|lia|lia]. }
  rewrite wrap64_small by lia.
  destruct (f d fd pos (blen data - pos)) as [[res errno] d1] eqn:Ef.
  destruct (wb_result _ _ _ Hf _ _ _ _ _ _ _ Ef) as [(-> & Hm & Hp)|(Hr & Hm & Hp)]; [lia|lia|lia| |].
  - change (-1 =? -1) with true. cbn iota.
    destruct ((errno =? EINTR) || (errno =? EAGAIN)) eqn:Et.
    + apply orb_true_iff in Et. rewrite !Z.eqb_eq in Et.
      destruct (IH pos d1 Hf Hpos Hmax) as (res & d' & k & -> & Hm' & H); [specialize (Hp Et); lia|].
      exists res, d', k. by rewrite Hm', Hm.
    + exists (-1), d1, 0. unfold slice. cbn [Z.to_nat take]. rewrite app_nil_r.
      split_and!; [done|done|lia|lia|right; split; [by left|lia]].
  - destruct (Z.eqb_spec res (-1)); [lia|]. destruct (Z.eqb_spec res 0) as [->|].
    + exists 0, d1, 0. split_and!; [done|done|lia|lia|right; split; [by right|lia]].
    + rewrite slong_ok by lia. cbn [obind].
      destruct (IH (pos + res) d1 Hf ltac:(lia) Hmax) as (r & d' & k & -> & Hm' & Hk & H); [lia|].
      exists r, d', (res + k). split_and!; [done| |lia|lia|lia].
      rewrite Hm', Hm, <- (assoc_L app). by rewrite slice_split by lia.
Qed.
End atomicio.

(** A pipe that takes at most three bytes a call and interrupts every call that is
    not a retry: what it has taken, whether it interrupts, its patience. *)
Record pipe := Pipe { p_taken : list ascii; p_busy : bool; p_left : nat }.
Definition pipe_write (data : list ascii) (p : pipe) (fd off n : Z) : Z * Z * pipe :=
  match p_busy p, p_left p with
  | true, S more => (-1, EINTR, Pipe (p_taken p) false more)
  | _, more => let k := Z.min 3 n in (k, 0, Pipe (p_taken p ++ slice data off k) true more)
  end.

(** C34: [atomicio] over a call that moves at most what it is asked to and whose
    transient failures end: it returns, everything it has moved is the data from its
    start without gap or repetition, it is all the data exactly when the count is
    returned, and otherwise the result is -1 or 0 (and does not say how much was
    moved).  A call that always fails with EAGAIN makes it loop forever. *)
Theorem atomicio_transfers {D} (f : D → Z → Z → Z → Z * Z * D) data moved patience fd d fuel :
  well_behaved f data moved patience → blen data < 2 ^ 63 → (length data + patience d < fuel)%nat →
  (∃ res d' k, atomicio f fuel fd (blen data) d = Ret (res, d') ∧
    moved d' = moved d ++ take k data ∧ (k <= length data)%nat ∧
    (res = blen data ∧ k = length data ∨ (res = -1 ∨ res = 0) ∧ (k < length data)%nat)) ∧
  (∀ busy : D → Z → Z → Z → Z * Z * D, (∀ d fd off n, busy d fd off n = (-1, EAGAIN, d)) →
    ∀ n fuel, 0 < n < 2 ^ 64 → atomicio busy fuel fd n d = Spin).
Proof.
  intros Hf Hmax Hfuel. split.
  - destruct (atomicio_loop_ok f data moved patience fd fuel 0 d Hf) as (res & d' & k & Hr & Hm & Hk & H);
      [pose proof (blen_nonneg data); lia|done|unfold blen; lia|].
    exists res, d', (Z.to_nat k). unfold atomicio. rewrite Hr, Hm. unfold slice, blen in *. rewrite drop_0.
    split_and!; [done|done|lia|]. destruct H as [[-> ->]|[? ?]]; [left|right]; split; [done|lia|done|lia].
  - intros busy Hbusy n fuel' Hn. unfold atomicio. induction fuel' as [|fuel' IH]; [done|]. cbn [atomicio_loop].
    rewrite wrap64_small by lia. destruct (Z.ltb_spec 0 n); [|lia]. rewrite Hbusy. exact IH.
Qed.

Lemma atomicio_transfers_witness :
  ∃ res d' k, atomicio (pipe_write (chars_of "hello")) 30 4 5 (Pipe [] true 4) = Ret (res, d') ∧
    p_taken d' = [] ++ take k (chars_of "hello") ∧ (k <= 5)%nat ∧
    (res = 5 ∧ k = 5%nat ∨ (res = -1 ∨ res = 0) ∧ (k < 5)%nat).
Proof.
  refine (proj1 (atomicio_transfers (pipe_write (chars_of "hello")) (chars_of "hello") p_taken p_left 4
    (Pipe [] true 4) 30 _ _ _)); [|reflexivity|cbn; lia].
  split. intros [taken [] [|more]] fd off n res errno d' [= <- <- <-] Hoff Hn Hlen; cbn.
  - right. split_and!; [lia|lia|done|lia].
  - left. split_and!; [done|done|lia].
  - right. split_and!; [lia|lia|done|lia].
  - right. split_and!; [lia|lia|done|lia].
Defined.
