(* ===== verification/Proc.v ===== *)
(** * The process: log messages, signals, the pid file and the exit

    The log of src/shell.c, the handlers of src/unix.c and the exit of
    src/main.c share the configuration, the flag [conf.dying], the pid file and the
    output.  Every message looks the level of the log up in the configuration.
    What the system answers is an argument; the
    error numbers at the end of some messages are left out. *)
From S2P Require Import Prelude Store CStd Dict DictSpec Conf.

Local Open Scope Z_scope.

(** ** Log levels *)
Definition LOG_EMERG : Z := 0.
Definition LOG_ALERT : Z := 1.
Definition LOG_CRIT : Z := 2.
Definition LOG_ERR : Z := 3.
Definition LOG_WARNING : Z := 4.
Definition LOG_NOTICE : Z := 5.
Definition LOG_INFO : Z := 6.
Definition LOG_DEBUG : Z := 7.
Definition LOG_SHELL : Z := 65000.

(** The table, without the entry that ends it. *)
Definition log_levels : list (string * Z) := [
   ("debug", LOG_DEBUG); ("info", LOG_INFO); ("notice", LOG_NOTICE); ("warn", LOG_WARNING);
   ("error", LOG_ERR); ("crit", LOG_CRIT); ("alert", LOG_ALERT); ("emerg", LOG_EMERG);
   ("shell", LOG_SHELL)
]%string.

Definition LogName (level : Z) : option string :=
  fst <$> head (filter (λ lp, lp.2 = level) log_levels).
Definition LogLevel (name : string) : Z :=
  default (-1) (snd <$> head (filter (λ lp, lp.1 = name) log_levels)).

(** What the process does outside of its state; a message has its level's name. *)
Inductive event :=
  | EvLog (level : option string) (text : string)
  | EvPrint (line : string)
  | EvClear
  | EvEdit (path : string)
  | EvGc
  | EvReload
  | EvReap
  | EvUnwind
  | EvDlinkFini
  | EvUnlink (path : string).

(** [pr_pidfile]: is the pid file open; its name is empty when there is none. *)
Record proc := Proc {
  pr_conf : option dict;
  pr_dying : bool;
  pr_pidfile : bool;
  pr_pidname : string;
  pr_events : list event
}.
Definition emit (e : event) (p : proc) : proc :=
  Proc (pr_conf p) (pr_dying p) (pr_pidfile p) (pr_pidname p) (pr_events p ++ [e]).
Definition set_conf (c : option dict) (p : proc) : proc :=
  Proc c (pr_dying p) (pr_pidfile p) (pr_pidname p) (pr_events p).
Definition set_dying (p : proc) : proc :=
  Proc (pr_conf p) true (pr_pidfile p) (pr_pidname p) (pr_events p).
Definition set_pid (open : bool) (name : string) (p : proc) : proc :=
  Proc (pr_conf p) (pr_dying p) open name (pr_events p).

(** The configuration that is read; allocations do not matter for reading. *)
#[local] Existing Instance dict_store.
Definition conf_str (p : proc) (key : string) (def : option string) : outcome (option string) :=
  @dconf_get_str (option dict) (dict_store mem_ok 0) (pr_conf p) (Some key) def.
Definition conf_int (p : proc) (key : string) (def : Z) : outcome Z :=
  @dconf_get_int (option dict) (dict_store mem_ok 0) (pr_conf p) (Some key) def.
Definition conf_bool (p : proc) (key : string) (def : Z) : outcome Z :=
  @dconf_get_bool (option dict) (dict_store mem_ok 0) (pr_conf p) (Some key) def.

(** [snprintf] into [n] bytes. *)
Definition snprintf (n : nat) (text : string) : string := str_take (n - 1) text.

(** The text is formatted; the level that is looked up is not used, but its name
    is compared.  The time stamp and the target of the message are left out. *)
Definition Log (level : Z) (text : string) (p : proc) : outcome proc :=
  let! _ :=
    match pr_conf p with
    | Some _ =>
        let! name := conf_str p "log.level" (Some "info") in
        let! name := need NullDeref name in
        Ret (LogLevel name)
    | None => Ret (LogLevel "info")
    end in
  Ret (emit (EvLog (LogName level) (snprintf 4095 text)) p).

(** ** Signals and the exit *)
Definition SIGHUP : Z := 1.
Definition SIGQUIT : Z := 3.
Definition SIGKILL : Z := 9.
Definition SIGSEGV : Z := 11.
Definition SIGTERM : Z := 15.
Definition SIGCHLD : Z := 17.

Definition conf_reload (p : proc) : outcome proc :=
  let! p := Log LOG_INFO "conf_reload stub called" p in Ret (emit EvReload p).

Definition pidfile_close (p : proc) : outcome proc :=
  if negb (pr_pidfile p) then Stuck NullDeref
  else
    let p := emit (EvUnlink (pr_pidname p)) (set_pid false (pr_pidname p) p) in
    let! p := Log LOG_INFO ("Unlinked pidfile " ++ pr_pidname p) p in
    Ret (set_pid (pr_pidfile p) "" p).

(** [stat]: 0 or the error of the call; [errno]: the error left by an earlier one. *)
Definition ENOENT : Z := 2.
Definition file_exists (stat errno : Z) : bool :=
  negb ((if stat =? 0 then errno else stat) =? ENOENT).

(** [path] with the number of bytes that can be read at it; [opens]: does [fopen]
    succeed. *)
Definition pidfile_open (path : string) (readable stat errno : Z) (opens : bool) (pid : Z) (p : proc)
    : outcome (Z * proc) :=
  if negb (String.eqb (pr_pidname p) "") then
    let! p := Log LOG_DEBUG "it seems you've called pidfile_open() more than once..." p in Ret (-1, p)
  else if file_exists stat errno then Ret (-1, p)
  else
    let! p :=
      if opens then Ret (set_pid true (pr_pidname p) p)
      else Log LOG_EMERG ("pidfile_open: failed to open pid file " ++ path) (set_pid false (pr_pidname p) p) in
    if negb (pr_pidfile p) then Stuck NullDeref
    else
      let p := emit (EvPrint (fmt_d pid)) p in
      if readable <? PATH_MAX then Stuck OutOfBounds
      else
        let p := set_pid true path p in
        let! p := Log LOG_INFO ("Wrote pid file " ++ path ++ ": " ++ fmt_d pid) p in
        Ret (0, p).

(** [main] calls [dlink_fini] here; on the state of the whole program it is [goodbye_w] (World.v). *)
Definition goodbye (p : proc) : outcome proc :=
  let! _ := conf_str p "path.pid" None in
  let! p := Log LOG_INFO "shutting down..." p in
  let p := emit EvDlinkFini (set_dying p) in
  let! r := dconf_fini (pr_conf p) in
  let p := set_conf r.2 p in
  let! p := pidfile_close p in
  Halt 0.

(** The handler to its call of [goodbye], and whether it calls it.  The branches of modules and of
    profiling are not compiled. *)
Definition handle_signal (signal : Z) (p : proc) : outcome (bool * proc) :=
  let! p := Log LOG_WARNING ("Caught signal " ++ fmt_d signal) p in
  let p := if (signal =? SIGTERM) || (signal =? SIGQUIT) || (signal =? SIGKILL) then set_dying p else p in
  if signal =? SIGSEGV then Ret (false, set_dying (emit EvUnwind p))
  else if signal =? SIGHUP then let! p := conf_reload p in Ret (false, p)
  else if signal =? SIGCHLD then Ret (false, emit EvReap p)
  else Ret ((signal =? SIGTERM) || (signal =? SIGKILL), p).
Definition signal_handler (signal : Z) (p : proc) : outcome proc :=
  let! r := handle_signal signal p in
  if r.1 then goodbye r.2 else Ret r.2.
