(* ===== verification/ProcSpec.v ===== *)
(** * Messages, signals and the exit *)
From S2P Require Import Prelude Store CStd CStdFacts Dict DictFacts DictOps DictSpec Conf Proc.

Local Open Scope Z_scope.

(** ** Messages *)

Definition conf_rep (p : proc) (m : smap) : Prop := ∃ d, pr_conf p = Some d ∧ dict_ok d m.

(** Messages can be logged: there is no configuration yet, or it has a log level. *)
Definition logs (p : proc) : Prop :=
  pr_conf p = None ∨ ∃ m level, conf_rep p m ∧ m !! "log.level"%string = Some (Some level).

Lemma conf_str_ok p m key def : conf_rep p m → conf_str p key def = Ret (mjoin (m !! key)).
Proof.
  intros (d & Hd & Hok). unfold conf_str, dconf_get_str. rewrite Hd. cbn [st_null dict_store st_get].
  by apply get_refines.
Qed.

Definition message (level : Z) (text : string) : event := EvLog (LogName level) (snprintf 4095 text).

Lemma Log_ok level text p : logs p → Log level text p = Ret (emit (message level text) p).
Proof.
  intros [H|(m & l & Hm & Hl)]; unfold Log; [by rewrite H|].
  pose proof Hm as (d & Hd & _). rewrite Hd. rewrite (conf_str_ok _ _ _ _ Hm), Hl. done.
Qed.

(** Without a log level every message dereferences NULL. *)
Lemma Log_stuck level text p m :
  conf_rep p m → mjoin (m !! "log.level"%string) = None → Log level text p = Stuck NullDeref.
Proof.
  intros Hm Hl. unfold Log. pose proof Hm as (d & Hd & _). rewrite Hd.
  by rewrite (conf_str_ok _ _ _ _ Hm), Hl.
Qed.

Definition emits (l : list event) (p : proc) : proc :=
  Proc (pr_conf p) (pr_dying p) (pr_pidfile p) (pr_pidname p) (pr_events p ++ l).
Lemma emits_nil p : emits [] p = p.
Proof. destruct p. unfold emits. cbn. by rewrite app_nil_r. Qed.
Lemma emits_emits l l' p : emits l' (emits l p) = emits (l ++ l') p.
Proof. unfold emits. cbn. by rewrite (assoc_L app). Qed.
Lemma emit_emits e p : emit e p = emits [e] p.
Proof. done. Qed.
Lemma logs_emits l p : logs (emits l p) ↔ logs p.
Proof. done. Qed.

Lemma conf_bool_total key def p : logs p → ∃ b, conf_bool p key def = Ret b.
Proof.
  intros Hl. unfold conf_bool, dconf_get_bool.
  enough (∃ v, conf_str p key None = Ret v) as [v Hv].
  { unfold conf_str in Hv. rewrite Hv. by eexists. }
  destruct Hl as [H|(m & l & Hm & _)]; [|by rewrite (conf_str_ok _ _ _ _ Hm); eauto].
  unfold conf_str, dconf_get_str. rewrite H. by eexists.
Qed.

(** ** Signals *)

Lemma goodbye_ok p : logs p → pr_pidfile p = true → goodbye p = Halt 0.
Proof.
  intros Hl Hpid. unfold goodbye.
  assert (∃ r, conf_str p "path.pid" None = Ret r) as [r ->].
  { destruct Hl as [H|(m & l & Hm & _)]; [|by rewrite (conf_str_ok _ _ _ _ Hm); eauto].
    unfold conf_str, dconf_get_str. rewrite H. by eexists. }
  cbn [obind]. rewrite Log_ok by done. cbn [obind].
  assert (∃ l, dconf_fini (pr_conf p) = Ret (l, None)) as [l He].
  { unfold dconf_fini. destruct Hl as [->|(m & lv & (d & -> & Hok) & _)]; [by eexists|].
    destruct (free_refines d m Hok) as (tbl & l & _ & _ & -> & _). by eexists. }
  change (pr_conf (emit _ (set_dying _))) with (pr_conf p). rewrite He. cbn [obind snd].
  unfold pidfile_close. change (pr_pidfile (set_conf _ _)) with (pr_pidfile p). rewrite Hpid. cbn [negb].
  rewrite Log_ok by (by left). done.
Qed.

Lemma sigterm_ok p : logs p → pr_pidfile p = true → signal_handler SIGTERM p = Halt 0.
Proof.
  intros Hl Hpid. unfold signal_handler, handle_signal. rewrite Log_ok by done. cbn [obind].
  by apply goodbye_ok.
Qed.

Lemma sighup_ok p : logs p → signal_handler SIGHUP p =
  Ret (emits [message LOG_WARNING "Caught signal 1"; message LOG_INFO "conf_reload stub called"; EvReload] p).
Proof.
  intros Hl. unfold signal_handler, handle_signal. rewrite Log_ok by done. cbn [obind].
  change (SIGHUP =? SIGTERM) with false. change (SIGHUP =? SIGQUIT) with false.
  change (SIGHUP =? SIGKILL) with false. change (SIGHUP =? SIGSEGV) with false.
  change (SIGHUP =? SIGHUP) with true. cbn iota. cbn [orb]. unfold conf_reload.
  rewrite Log_ok by done. cbn [obind]. rewrite !emit_emits, !emits_emits. done.
Qed.

