(* ===== verification/Shell.v ===== *)
(** * The command shell (src/shell.c, shell.h, gc.c)

    The shell keeps the name of a menu (the level), a prompt, and works with the
    configuration dictionary.  Strings are C strings without NUL; the copy of a
    command line that is cut into arguments is a buffer.  What a command does
    outside of this state (messages, the screen, the editor, signals) is a list of
    events.  A menu is an array that ends with an entry without names; pointers to
    menus are names of arrays.  Allocations succeed, except that of a dictionary. *)
From S2P Require Import Prelude Store CStd Dict Conf Proc Buf Term Str Linenoise.
From Stdlib Require Import Ascii.

Local Open Scope Z_scope.

(** ** Menus *)
Definition HINT_RED : Z := 31.
Definition HINT_GREEN : Z := 32.
Definition HINT_YELLOW : Z := 33.
Definition HINT_CYAN : Z := 36.

(** The functions that entries point to. *)
Inductive handler :=
  | h_clear | h_shutdown | h_reload | h_run | h_stats | h_user | h_edit | h_conf_dump.
Inductive menu_ptr :=
  | MENU_VALUE | MENU_CONF | MENU_CRON | MENU_DB | MENU_DEBUG | MENU_VFS | MENU_LOGGING
  | MENU_MEM_GC | MENU_HOOKS | MENU_MEM_BH_TUNING | MENU_MEM_BH | MENU_MEM | MENU_MODULE
  | MENU_NET | MENU_PKG | MENU_PROFILING | MENU_THREAD | MENU_MAIN.
#[global] Instance menu_ptr_eq_dec : EqDecision menu_ptr.
Proof. solve_decision. Defined.

Record shell_cmd := ShellCmd {
  c_cmd : option string;
  c_desc : option string;
  c_color : Z;
  c_bold : Z;
  c_submenu : Z;
  c_min_args : Z;
  c_max_args : Z;
  c_handler : option handler;
  c_menu : option menu_ptr
}.
Definition entry (cmd desc : string) : Z → Z → Z → Z → Z → option handler → option menu_ptr → shell_cmd :=
  ShellCmd (Some cmd) (Some desc).
Definition no_entry : shell_cmd := ShellCmd None None 0 0 0 0 0 None None.

Definition menu_value : list shell_cmd := [
   entry "false" "Set false" HINT_CYAN 1 0 0 0 None None;
   entry "set" "Set value" HINT_CYAN 1 0 1 1 None None;
   entry "show" "Show state" HINT_CYAN 1 0 0 0 None None;
   entry "true" "Set true" HINT_CYAN 1 0 0 0 None None;
   no_entry
].

Definition menu_conf : list shell_cmd := [
   entry "dump" "Dump config values" HINT_CYAN 1 0 0 0 (Some h_conf_dump) None;
   entry "load" "Load saved config file" HINT_CYAN 1 0 1 1 None None;
   entry "save" "Write config file" HINT_CYAN 1 0 1 1 None None;
   entry "set" "Set config value" HINT_CYAN 1 0 3 3 None None;
   entry "show" "Get config value" HINT_CYAN 1 0 1 3 None None;
   no_entry
].

Definition menu_cron : list shell_cmd := [
   entry "debug" "show/toggle debugging status" HINT_RED 0 1 0 1 None (Some MENU_VALUE);
   entry "jobs" "Show scheduled events" HINT_CYAN 1 0 0 0 None None;
   entry "stop" "Stop a scheduled event" HINT_CYAN 1 0 1 1 None None;
   no_entry
].

Definition menu_db : list shell_cmd := [
   entry "debug" "show/toggle debugging status" HINT_RED 0 1 0 1 None (Some MENU_VALUE);
   entry "dump" "Dump the database to .sql file" HINT_CYAN 1 0 0 0 None None;
   entry "purge" "Re-initialize the database" HINT_CYAN 1 0 0 0 None None;
   no_entry
].

Definition menu_debug : list shell_cmd := [
   entry "symtab_lookup" "Lookup a symbol in the symtab" HINT_CYAN 1 0 1 2 None None;
   no_entry
].

Definition menu_vfs : list shell_cmd := [
   entry "cd" "Change directory" HINT_CYAN 1 0 1 1 None None;
   entry "chown" "Change file/dir ownership in jail" HINT_CYAN 1 0 2 (-1) None None;
   entry "chmod" "Change file/dir permissions in jail" HINT_CYAN 1 0 2 (-1) None None;
   entry "cp" "Copy file in jail" HINT_CYAN 1 0 1 (-1) None None;
   entry "debug" "Show/toggle debugging status" HINT_CYAN 1 1 0 1 None (Some MENU_VALUE);
   entry "edit" "Edit text file in kilo" HINT_GREEN 1 0 1 1 (Some h_edit) None;
   entry "less" "Show contents of a file (with pager)" HINT_CYAN 1 0 1 1 None None;
   entry "ls" "Display directory listing" HINT_CYAN 1 0 0 1 None None;
   entry "mv" "Move file/dir in jail" HINT_RED 0 0 1 (-1) None None;
   entry "rm" "Remove file/directory in jail" HINT_RED 0 0 1 (-1) None None;
   no_entry
].

Definition menu_logging : list shell_cmd := [
   no_entry
].

Definition menu_mem_gc : list shell_cmd := [
   entry "debug" "show/toggle debugging status" HINT_CYAN 1 1 0 1 None (Some MENU_VALUE);
   entry "now" "Run garbage collection now" HINT_CYAN 1 0 0 0 None None;
   no_entry
].

Definition menu_hooks : list shell_cmd := [
   entry "debug" "show/toggle debugging status" HINT_RED 0 1 0 1 None (Some MENU_VALUE);
   entry "list" "List registered hooks" HINT_CYAN 1 0 0 0 None None;
   entry "unregister" "Unregister a hook" HINT_RED 0 0 1 1 None None;
   no_entry
].

Definition menu_mem_bh_tuning : list shell_cmd := [
   no_entry
].

Definition menu_mem_bh : list shell_cmd := [
   entry "debug" "show/toggle debugging status" HINT_CYAN 1 1 0 1 None (Some MENU_VALUE);
   entry "tuning" "Tuning knobs" HINT_CYAN 1 1 0 (-1) None (Some MENU_MEM_BH_TUNING);
   no_entry
].

Definition menu_mem : list shell_cmd := [
   entry "blockheap" "BlockHeap allocator" HINT_CYAN 1 1 0 (-1) None (Some MENU_MEM_BH);
   entry "debug" "show/toggle debugging status" HINT_CYAN 1 1 0 1 None (Some MENU_VALUE);
   entry "gc" "Garbage collector" HINT_CYAN 1 1 0 (-1) None (Some MENU_MEM_GC);
   no_entry
].

Definition menu_module : list shell_cmd := [
   entry "debug" "show/toggle debugging status" HINT_CYAN 1 1 0 1 None (Some MENU_VALUE);
   no_entry
].

Definition menu_net : list shell_cmd := [
   entry "debug" "show/toggle debugging status" HINT_CYAN 1 1 0 1 None (Some MENU_VALUE);
   no_entry
].

Definition menu_pkg : list shell_cmd := [
   entry "debug" "show/toggle debugging status" HINT_CYAN 1 1 0 1 None (Some MENU_VALUE);
   entry "scan" "Scan package pool and add to database" HINT_CYAN 1 0 0 0 None None;
   no_entry
].

Definition menu_profiling : list shell_cmd := [
   entry "enable" "show/toggle profiling status" HINT_CYAN 1 1 0 1 None (Some MENU_VALUE);
   entry "save" "Save profiling data to disk" HINT_CYAN 1 0 0 0 None None;
   no_entry
].

Definition menu_thread : list shell_cmd := [
   entry "debug" "show/toggle debugging status" HINT_CYAN 1 1 0 1 None (Some MENU_VALUE);
   entry "kill" "Kill a thread" HINT_RED 0 0 1 1 None None;
   entry "show" "Show details about thread" HINT_CYAN 1 0 1 1 None None;
   entry "list" "List running threads" HINT_CYAN 1 0 0 0 None None;
   no_entry
].

Definition menu_main : list shell_cmd := [
   entry "clear" "Clear screen" HINT_CYAN 1 0 0 0 (Some h_clear) None;
   entry "conf" "Configuration keys" HINT_CYAN 1 0 0 (-1) None (Some MENU_CONF);
   entry "cron" "Periodic event scheduler" HINT_CYAN 1 1 0 (-1) None (Some MENU_CRON);
   entry "db" "Database admin" HINT_CYAN 1 1 0 (-1) None (Some MENU_DB);
   entry "debug" "Built-in debugger" HINT_CYAN 1 1 0 (-1) None (Some MENU_DEBUG);
   entry "hooks" "Hooks management" HINT_CYAN 1 1 0 (-1) None (Some MENU_HOOKS);
   entry "logging" "Log file" HINT_CYAN 1 1 0 (-1) None (Some MENU_LOGGING);
   entry "memory" "Memory manager" HINT_CYAN 1 1 0 (-1) None (Some MENU_MEM);
   entry "module" "Loadable module support" HINT_CYAN 1 1 0 (-1) None (Some MENU_MODULE);
   entry "net" "Network" HINT_CYAN 1 1 0 (-1) None (Some MENU_NET);
   entry "pkg" "Package commands" HINT_CYAN 1 1 1 (-1) None (Some MENU_PKG);
   entry "profiling" "Profiling support" HINT_CYAN 1 1 0 (-1) None (Some MENU_PROFILING);
   entry "quit" "Alias to shutdown" HINT_RED 1 0 0 0 (Some h_shutdown) None;
   entry "reload" "Reload configuration" HINT_CYAN 1 0 0 0 (Some h_reload) None;
   entry "run" "Start the container (if autorun disabled)" HINT_GREEN 1 0 0 0 (Some h_run) None;
   entry "shutdown" "Terminate the service" HINT_RED 1 0 0 0 (Some h_shutdown) None;
   entry "stats" "Display statistics" HINT_CYAN 1 0 0 0 (Some h_stats) None;
   entry "thread" "Thread manager" HINT_CYAN 1 1 0 (-1) None (Some MENU_THREAD);
   entry "user" "User manager" HINT_YELLOW 0 0 0 0 (Some h_user) None;
   entry "vfs" "Virtual FileSystem (VFS)" HINT_CYAN 1 1 1 (-1) None (Some MENU_VFS);
   no_entry
].

Definition menu_at (p : menu_ptr) : list shell_cmd :=
  match p with
  | MENU_VALUE => menu_value
  | MENU_CONF => menu_conf
  | MENU_CRON => menu_cron
  | MENU_DB => menu_db
  | MENU_DEBUG => menu_debug
  | MENU_VFS => menu_vfs
  | MENU_LOGGING => menu_logging
  | MENU_MEM_GC => menu_mem_gc
  | MENU_HOOKS => menu_hooks
  | MENU_MEM_BH_TUNING => menu_mem_bh_tuning
  | MENU_MEM_BH => menu_mem_bh
  | MENU_MEM => menu_mem
  | MENU_MODULE => menu_module
  | MENU_NET => menu_net
  | MENU_PKG => menu_pkg
  | MENU_PROFILING => menu_profiling
  | MENU_THREAD => menu_thread
  | MENU_MAIN => menu_main
  end.

(** The loop of [shell_get_menu] for a level that is not [main]: it stops at the
    first entry that has a menu. *)
Fixpoint get_menu_loop (entries : list shell_cmd) (level : string) : outcome (option menu_ptr) :=
  match entries with
  | [] => Ret None
  | e :: entries =>
      match c_menu e with
      | Some _ => Ret None
      | None =>
          let! cmd := need NullDeref (c_cmd e) in
          if strcaseeq cmd level then Ret (c_menu e) else get_menu_loop entries level
      end
  end.

(** The argument of the source is not used; the level is never NULL. *)
Definition shell_get_menu (shell_level : string) : outcome (option menu_ptr) :=
  if String.eqb shell_level "main" then Ret (Some MENU_MAIN) else get_menu_loop menu_main shell_level.

(** The entry [menu[i]]: its address is NULL only for entry 0 of a NULL menu. *)
Definition menu_entry (menu : option menu_ptr) (i : nat) : outcome (option shell_cmd) :=
  match menu with
  | None => if bool_decide (i = O) then Ret None else Stuck NullDeref
  | Some p => let! e := need OutOfBounds (menu_at p !! i) in Ret (Some e)
  end.

(** ** The state *)

(** The level and the prompt, the process, and how many copies of lines and how
    many argument dictionaries are allocated. *)
Record shell := Shell {
  sh_level : string;
  sh_prompt : string;
  sh_proc : proc;
  sh_copies : Z;
  sh_dicts : Z
}.
Definition set_proc (p : proc) (s : shell) : shell :=
  Shell (sh_level s) (sh_prompt s) p (sh_copies s) (sh_dicts s).
Definition set_allocs (copies dicts : Z) (s : shell) : shell :=
  Shell (sh_level s) (sh_prompt s) (sh_proc s) copies dicts.
Definition event_out (e : event) (s : shell) : shell := set_proc (emit e (sh_proc s)) s.
Definition log_shell (level : Z) (text : string) (s : shell) : outcome shell :=
  let! p := Log level text (sh_proc s) in Ret (set_proc p s).
Definition raise (sig : Z) (s : shell) : outcome shell :=
  let! p := signal_handler sig (sh_proc s) in Ret (set_proc p s).

Definition SHELL_PROMPT : string := "jailfs".
Definition shell_prompt_reset (s : shell) : shell :=
  Shell (sh_level s) (snprintf 63 (SHELL_PROMPT ++ ":" ++ sh_level s ++ "> ")) (sh_proc s) (sh_copies s)
        (sh_dicts s).
Definition shell_level_set (line : string) (s : shell) : shell :=
  shell_prompt_reset (Shell (snprintf 39 line) (sh_prompt s) (sh_proc s) (sh_copies s) (sh_dicts s)).

(** ** Commands *)


(** [kilo_main]: the editor runs on the path. *)
Definition cmd_edit (args : option dict) (s : shell) : outcome shell :=
  match args with
  | None => Ret s
  | Some _ =>
      let! ac := dict_get args (Some "1"%string) None in
      match ac with
      | None => Ret s
      | Some ac =>
          let! mp := conf_str (sh_proc s) "path.mountpoint" None in
          Ret (event_out (EvEdit (snprintf 4095 (fmt_s mp ++ "/" ++ ac))) s)
      end
  end.
Definition cmd_shutdown (s : shell) : outcome shell :=
  let! s := log_shell LOG_NOTICE "shutdown command from console." s in raise SIGTERM s.
Definition cmd_user (s : shell) : outcome shell := log_shell LOG_SHELL ">> User tools <<" s.
Definition cmd_run (s : shell) : outcome shell := log_shell LOG_SHELL "launching jail!" s.
Definition cmd_clear (s : shell) : outcome shell := Ret (event_out EvClear s).
Definition cmd_back (s : shell) : outcome shell := Ret (shell_level_set "main" s).
Definition cmd_reload (s : shell) : outcome shell := raise SIGHUP s.
Definition cmd_stats (s : shell) : outcome shell := log_shell LOG_SHELL "stats requested by user:" s.

(** [past]: what is behind the table of the dictionary; writing to the terminal
    succeeds. *)
Definition cmd_conf_dump (past : option keypair) (s : shell) : outcome shell :=
  let! s := log_shell LOG_SHELL "Dumping configuration:" s in
  let! r := dict_dump past (λ _, true) (pr_conf (sh_proc s)) true in
  Ret (foldl (λ s line, event_out (EvPrint line) s) s r.2).

(** [%15s] *)
Definition pad15 (s : string) : string :=
  String.append (String.string_of_list_ascii (replicate (15 - String.length s) SP)) s.
Definition help_line (cmd desc : option string) (is_menu : bool) : string :=
  pad15 (fmt_s cmd) ++ String TAB (" - " ++ fmt_s desc ++ if is_menu then " (menu)" else "").

(** The loop over the entries of the menu from [i] on. *)
Fixpoint help_loop (fuel : nat) (menu : option menu_ptr) (i : nat) (s : shell) : outcome shell :=
  match fuel with
  | O => Spin
  | S fuel =>
      let! e := menu_entry menu i in
      match e with
      | None => Ret s
      | Some e =>
          match c_desc e with
          | None => Ret s
          | Some desc =>
              let! s := log_shell LOG_SHELL (help_line (c_cmd e) (Some desc) (bool_decide (is_Some (c_menu e)))) s in
              help_loop fuel menu (S i) s
          end
      end
  end.

(** No menu has more entries. *)
Definition MENU_FUEL : nat := 64.

Definition cmd_help (s : shell) : outcome shell :=
  let! menu := shell_get_menu (sh_level s) in
  let! s := log_shell LOG_SHELL ("Menu " ++ sh_level s ++ " help") s in
  let! s :=
    if bool_decide (menu = Some MENU_MAIN) then Ret s
    else log_shell LOG_SHELL (help_line (Some "back"%string) (Some "go back to previous menu"%string) false) s in
  let! s := log_shell LOG_SHELL (help_line (Some "help"%string) (Some "display help text"%string) false) s in
  help_loop MENU_FUEL menu 0 s.

(** Every heap is collected; each part reports that it has freed 0 objects. *)
Definition gc_all (s : shell) : Z * shell := (0 + 0 + 0 + 0, event_out EvGc s).

Definition call_handler (past : option keypair) (h : handler) (args : option dict) (s : shell) : outcome shell :=
  match h with
  | h_clear => cmd_clear s
  | h_shutdown => cmd_shutdown s
  | h_reload => cmd_reload s
  | h_run => cmd_run s
  | h_stats => cmd_stats s
  | h_user => cmd_user s
  | h_edit => cmd_edit args s
  | h_conf_dump => cmd_conf_dump past s
  end.

(** ** Command lines *)

(** The end of a token: a NUL or a blank. *)
Fixpoint token_end (fuel : nat) (m : list ascii) (i : Z) : outcome Z :=
  match fuel with
  | O => Spin
  | S fuel =>
      let! c := bget m i in
      if Ascii.eqb c NUL || Ascii.eqb c SP then Ret i else token_end fuel m (i + 1)
  end.

(** strtok(start, " "): the buffer, the token and the saved position. *)
Definition strtok_sp (m : list ascii) (start : Z) : outcome (list ascii * option Z * Z) :=
  let! i := skip_delim (str_fuel m) m SP start in
  let! c := bget m i in
  if Ascii.eqb c NUL then Ret (m, None, i)
  else
    let! j := token_end (str_fuel m) m i in
    let! c := bget m j in
    if Ascii.eqb c NUL then Ret (m, Some i, j)
    else let! m := bset m j NUL in Ret (m, Some i, j + 1).

(** [%*d] with the width 11. *)
Definition arg_key (i : Z) : string :=
  snprintf 12 (String.append
    (String.string_of_list_ascii (replicate (11 - String.length (fmt_d i)) SP)) (fmt_d i)).

Section command.
(** Allocations of dictionaries, the time, and what is behind the configuration's
    table. *)
Context (mm : mem) (now : Z) (past : option keypair).

(** The arguments are stored under their numbers. *)
Fixpoint args_loop (fuel : nat) (m : list ascii) (save i : Z) (args : option dict) : outcome (option dict) :=
  match fuel with
  | O => Spin
  | S fuel =>
      let! r := strtok_sp m save in
      let '(m, p, save) := r in
      match p with
      | None => Ret args
      | Some p =>
          let i := i + 1 in
          let! text := cstr (drop (Z.to_nat p) m) in
          let! r := dict_add mm now args (Some (arg_key i)) (Some (String.string_of_list_ascii text)) in
          args_loop fuel m save i r.2
      end
  end.

(** The copy of the line: its size is the length of the line, its first byte is the
    first byte of the dictionary, the others are 0. *)
Definition line_copy (line : string) (args : option dict) : outcome (list ascii) :=
  let tmp := replicate (String.length line) NUL in
  let! tmp := bmemset tmp 0 NUL 1 in
  match args with
  | None => Stuck NullDeref
  | Some d => bset tmp 0 (to_char (d_fill d))
  end.

Definition parse_args (line : string) (args : option dict) : outcome (option dict) :=
  let! tmp := line_copy line args in
  let! r := strtok_sp tmp 0 in
  let '(tmp, _, save) := r in
  args_loop (str_fuel tmp) tmp save 0 args.

(** [mem_free(tmp)] *)
Definition free_copy (s : shell) : shell := set_allocs (sh_copies s - 1) (sh_dicts s) s.

(** The entries of the menu from [i] on: the result of the command, or [None] when
    no entry matches. *)
Fixpoint menu_loop (fuel : nat) (menu : option menu_ptr) (i : nat) (line : string) (args : option dict)
    (s : shell) : outcome (option (Z * shell)) :=
  match fuel with
  | O => Spin
  | S fuel =>
      let! e := menu_entry menu i in
      match e with
      | None => Ret None
      | Some e =>
          match c_desc e with
          | None => Ret None
          | Some _ =>
              let! cmd := need NullDeref (c_cmd e) in
              if strcaseeq cmd line then
                match c_menu e with
                | Some sub =>
                    let! s :=
                      if bool_decide (sub = MENU_VALUE) then log_shell LOG_SHELL "XXX: Not yet implemented" s
                      else Ret (shell_level_set line s) in
                    Ret (Some (0, s))
                | None =>
                    match c_handler e with
                    | Some h =>
                        let! s := call_handler past h args s in
                        Ret (Some (0, free_copy s))
                    | None =>
                        let! s := log_shell LOG_SHELL
                          ("That option '" ++ sh_level s ++ " " ++ line ++ "' is not yet implemented...") s in
                        Ret (Some (0, free_copy s))
                    end
                end
              else menu_loop fuel menu (S i) line args s
          end
      end
  end.

Definition shell_command (line : option string) (s : shell) : outcome (Z * shell) :=
  let args := dict_new mm in
  let s := set_allocs (sh_copies s) (sh_dicts s + if args is Some _ then 1 else 0) s in
  match line with
  | None => Ret (-1, s)
  | Some line =>
      let s := set_allocs (sh_copies s + 1) (sh_dicts s) s in
      let! args := parse_args line args in
      if strncaseeq 4 line "help" || String.eqb line "?" then
        let! s := cmd_help s in Ret (0, free_copy s)
      else if strncaseeq 8 line "vfs edit" then
        if bool_decide (String.get 8 line = Some SP) then
          let! mp := conf_str (sh_proc s) "path.mountpoint" None in
          Ret (0, free_copy (event_out (EvEdit (snprintf 4095 (str_drop 9 line ++ "/" ++ fmt_s mp))) s))
        else
          let! s := log_shell LOG_SHELL "vfs edit requires an argument (file name)" s in
          Ret (-1, s)
      else if strcaseeq line "back" then Ret (0, free_copy (shell_level_set "main" s))
      else if strcaseeq line "shutdown" || strcaseeq line "quit" then
        let! s := cmd_shutdown s in Ret (0, free_copy s)
      else if strcaseeq line "conf dump" then
        let! s := cmd_conf_dump past s in Ret (0, free_copy s)
      else if strcaseeq line "gc now" then
        let '(freed, s) := gc_all s in
        let! s := log_shell LOG_SHELL ("gc: Freed " ++ fmt_d freed ++ " objects") s in
        Ret (0, free_copy s)
      else
        let! menu := shell_get_menu (sh_level s) in
        let! r := menu_loop MENU_FUEL menu 0 line args s in
        match r with
        | Some r => Ret r
        | None =>
            let! s := log_shell LOG_SHELL ("Unknown command, try help: " ++ line) s in
            Ret (0, free_copy s)
        end
  end.

(** ** The thread *)

(** One round per line that [linenoise] returns ([None] is NULL); [opens] says
    whether the history file can be written.  The state has the history and the
    text of its file. *)
Fixpoint shell_loop (hmax : Z) (opens : bool) (lines : list (option string)) (s : shell)
    (history : list (list ascii)) (file : list ascii) : outcome (shell * list (list ascii) * list ascii) :=
  match lines with
  | [] => Ret (s, history, file)
  | line :: lines =>
      if pr_dying (sh_proc s) then Ret (s, history, file)
      else
        match line with
        | None => shell_loop hmax opens lines s history file
        | Some EmptyString => shell_loop hmax opens lines s history file
        | Some line =>
            let! r := shell_command (Some line) s in
            let '(rc, s) := r in
            if negb (rc =? -1) then
              let history := (linenoiseHistoryAdd hmax (chars_of line) history).2 in
              let file := default file (linenoiseHistorySave opens history).2 in
              shell_loop hmax opens lines s history file
            else shell_loop hmax opens lines s history file
        end
  end.
End command.

(** From the start of the thread; [file] is the text of the history file, if there
    is one.  The heap of the hints is in ShellThread; the registration of the callbacks and the
    escape sequence before every prompt have no effect on the state. *)
Definition thread_shell (mm : mem) (now : Z) (past : option keypair) (opens : bool) (file : option (list ascii))
    (lines : list (option string)) (s : shell) : outcome (shell * list (list ascii) * list ascii) :=
  let! len := conf_int (sh_proc s) "shell.history-length" 100 in
  let '(_, hmax, h) := linenoiseHistorySetMaxLen len LINENOISE_DEFAULT_HISTORY_MAX_LEN [] in
  let! r := linenoiseHistoryLoad hmax file h in
  let! s := log_shell LOG_INFO "Ready to accept requests" s in
  let! name := conf_str (sh_proc s) "jail.name" None in
  let! s := log_shell LOG_SHELL ("jailfs shell starting. You are managing jail '" ++ fmt_s name ++ "'") s in
  let! s := log_shell LOG_SHELL (String.append
    "Try 'help' or ? for a list of available commands or 'shutdown' to halt the service"
    (String nl "Tab completion is enabled.")) s in
  shell_loop mm now past hmax opens lines (shell_level_set "main" s) r.2 (default [] file).
