(* ===== verification/ShellHints.v ===== *)
(** * The callbacks of the shell for the line editor (src/shell.c)

    Completion adds texts to a list; a hint is written in an object of a block
    heap, in the state of the allocator (Balloc), and released by a callback of its
    own. *)
From S2P Require Import Prelude CStd Conf Proc Buf Term Balloc Shell.
From Stdlib Require Import Ascii.

Local Open Scope Z_scope.

(** ** Completion *)

(** [while (&submenu[j] != NULL)]: the address is never NULL, and the entry that is
    added is always [submenu[i]]. *)
Fixpoint submenu_loop (fuel : nat) (level : string) (submenu : menu_ptr) (i : nat) (lc : list string)
    : outcome (list string) :=
  match fuel with
  | O => Spin
  | S fuel =>
      let! e := need OutOfBounds (menu_at submenu !! i) in
      submenu_loop fuel level submenu i (lc ++ [snprintf 127 (level ++ " " ++ fmt_s (c_cmd e))])
  end.

(** [while (&menu[i] != NULL)] *)
Fixpoint completion_loop (fuel : nat) (level buf : string) (menu : option menu_ptr) (i : nat) (p : proc)
    (lc : list string) : outcome (proc * list string) :=
  match fuel with
  | O => Spin
  | S fuel =>
      let! e := menu_entry menu i in
      match e with
      | None => Ret (p, lc)
      | Some e =>
          let! cmd := need NullDeref (c_cmd e) in
          let! r :=
            if strncaseeq (String.length buf) buf cmd then
              let lc := lc ++ [cmd] in
              match c_menu e with
              | Some submenu =>
                  let! p := Log LOG_SHELL "---------------------" p in
                  let! p := Log LOG_SHELL "->" p in
                  let! lc := submenu_loop fuel level submenu i lc in
                  let! p := Log LOG_SHELL "." p in
                  Ret (p, lc)
              | None => Ret (p, lc)
              end
            else Ret (p, lc) in
          completion_loop fuel level buf menu (S i) r.1 r.2
      end
  end.

Definition shell_completion (fuel : nat) (level buf : string) (p : proc) (lc : list string)
    : outcome (proc * list string) :=
  let! menu := shell_get_menu level in
  let! r := completion_loop fuel level buf menu 0 p lc in
  let '(p, lc) := r in
  let n := String.length buf in
  Ret (p,
    if strncaseeq n buf "gc now" then lc ++ ["gc now"%string]
    else if strncaseeq n buf "conf dump" then lc ++ ["conf dump"%string]
    else if strncaseeq n buf "back" then lc ++ ["back"%string]
    else if strncaseeq n buf "help" then lc ++ ["help"%string]
    else if strncaseeq n buf "vfs " then lc ++ ["vfs"%string; "vfs edit"%string]
    else lc).

(** ** Hints *)
Definition SHELL_HINT_MAX : Z := 120.

(** The bytes of a string and its NUL at [x]. *)
Definition put_text (x : Z) (text : string) (m : Z → Z) : Z → Z := λ a,
  if (x <=? a) && (a <=? x + Z.of_nat (String.length text))
  then default 0 (uchar <$> String.get (Z.to_nat (a - x)) text) else m a.

(** snprintf(msg, SHELL_HINT_MAX, ...) *)
Definition print_hint (x : Z) (text : string) (s : bstate) : bstate :=
  set_bytes (put_text x (snprintf 120 text) (st_bytes s)) s.

Fixpoint hints_loop (fuel : nat) (buf : string) (menu : option menu_ptr) (i : nat)
    : outcome (option (string * Z * Z)) :=
  match fuel with
  | O => Spin
  | S fuel =>
      let! e := menu_entry menu i in
      match e with
      | None => Ret None
      | Some e =>
          match c_desc e with
          | None => Ret None
          | Some desc =>
              let! cmd := need NullDeref (c_cmd e) in
              if strncaseeq (String.length cmd) cmd buf then Ret (Some (" - " ++ desc, c_color e, c_bold e)%string)
              else hints_loop fuel buf menu (S i)
          end
      end
  end.

(** The text, the colour and whether it is bold. *)
Definition hint_text (buf : string) (menu : option menu_ptr) : outcome (option (string * Z * Z)) :=
  if strncaseeq 6 buf "gc now" then Ret (Some (" - run garbage collector now", HINT_YELLOW, 1)%string)
  else if strncaseeq 9 buf "conf dump" then Ret (Some (" - dump active configuration file", HINT_YELLOW, 1)%string)
  else if strncaseeq 4 buf "back" then Ret (Some (" - go to previous menu", HINT_GREEN, 1)%string)
  else if strncaseeq 4 buf "help" then Ret (Some (" - display help text", HINT_GREEN, 1)%string)
  else if strncaseeq 8 buf "vfs edit" then Ret (Some (" - edit text file", HINT_YELLOW, 1)%string)
  else hints_loop MENU_FUEL buf menu 0.

(** [o]: what the system gives for a new block of the heap [heap_shell_hints].  The
    result is the message with its colour and weight, NULL for [None]. *)
Definition shell_hints (o : os) (heap_shell_hints : Z) (level buf : string) (s : bstate)
    : outcome (option (Z * Z * Z) * bstate) :=
  let! menu := shell_get_menu level in
  if (Z.of_nat (String.length buf) <? 2) then Ret (None, s)
  else
    let! r := blockheap_alloc o heap_shell_hints s in
    let '(msg, s) := r in
    if msg =? 0 then Stuck NullDeref
    else
      let s := set_bytes (memset0 msg SHELL_HINT_MAX (st_bytes s)) s in
      let! h := hint_text buf menu in
      match h with
      | Some (text, color, bold) => Ret (Some (msg, color, bold), print_hint msg text s)
      | None => Ret (None, s)
      end.

Definition shell_hints_free (heap_shell_hints buf : Z) (s : bstate) : outcome bstate :=
  let! r := blockheap_free heap_shell_hints buf s in Ret r.2.

Definition shell_gc (heap_shell_hints : Z) (s : bstate) : outcome (Z * bstate) :=
  let! r := blockheap_garbagecollect heap_shell_hints s in Ret (0, r.2).
