(* ===== verification/ShellSpec.v ===== *)
(** * The shell against a table of commands

    A command line is given its meaning by a function on the level and the line
    ([effect_of]): no buffers, pointers or loops.  Every command has that effect,
    and whole sessions are folds of it. *)
From S2P Require Import Prelude Store CStd CStdFacts Dict DictFacts DictOps DictSpec Conf Proc.
From S2P Require Import Buf Term Str Linenoise LinenoiseSpec Balloc BallocFacts BallocOps BallocSpec ProcSpec Shell ShellHints.
From Stdlib Require Import Ascii.

Local Open Scope Z_scope.

(** ** The state of the shell *)

#[local] Opaque snprintf help_line LogName.

(** The state after more events. *)
Definition says (l : list event) (s : shell) : shell := set_proc (emits l (sh_proc s)) s.
Lemma says_nil s : says [] s = s.
Proof. destruct s. unfold says, set_proc. cbn. by rewrite emits_nil. Qed.
Lemma says_says l l' s : says l' (says l s) = says (l ++ l') s.
Proof. unfold says, set_proc. cbn. by rewrite emits_emits. Qed.
Lemma log_shell_ok level text s :
  logs (sh_proc s) → log_shell level text s = Ret (says [message level text] s).
Proof. intros H. unfold log_shell. by rewrite Log_ok. Qed.
Lemma logs_says l s : logs (sh_proc (says l s)) ↔ logs (sh_proc s).
Proof. done. Qed.

(** ** The table of commands *)

Definition reply (text : string) : event := message LOG_SHELL text.

(** The lines of the help text for the entries of a menu. *)
Definition entry_help (e : shell_cmd) : event :=
  reply (help_line (c_cmd e) (c_desc e) (bool_decide (is_Some (c_menu e)))).
Definition main_entries : list shell_cmd := take 20 menu_main.
Definition help_events (level : string) : list event :=
  [reply ("Menu " ++ level ++ " help")] ++
  (if bool_decide (level = "main"%string) then []
   else [reply (help_line (Some "back"%string) (Some "go back to previous menu"%string) false)]) ++
  [reply (help_line (Some "help"%string) (Some "display help text"%string) false)] ++
  (if bool_decide (level = "main"%string) then entry_help <$> main_entries else []).

(** What a command does: the result, the new level if it sets one, the events, and
    whether the copy of the line is released. *)
Record effect := Effect { ef_rc : Z; ef_level : option string; ef_events : list event; ef_freed : bool }.

Definition names (line : string) (e : shell_cmd) : bool :=
  match c_cmd e with Some cmd => strcaseeq cmd line | None => false end.

(** The commands of the main menu by their functions; [cmd_edit] finds no argument. *)
Definition handler_events (dump : list string) (h : handler) : list event :=
  match h with
  | h_clear => [EvClear]
  | h_reload => [message LOG_WARNING "Caught signal 1"; message LOG_INFO "conf_reload stub called"; EvReload]
  | h_run => [reply "launching jail!"]
  | h_stats => [reply "stats requested by user:"]
  | h_user => [reply ">> User tools <<"]
  | h_edit => []
  | h_conf_dump => reply "Dumping configuration:" :: (EvPrint <$> dump)
  | h_shutdown => []
  end.

Definition entry_effect (level line : string) (dump : list string) (e : shell_cmd) : effect :=
  match c_menu e, c_handler e with
  | Some sub, _ =>
      if bool_decide (sub = MENU_VALUE) then Effect 0 None [reply "XXX: Not yet implemented"] false
      else Effect 0 (Some line) [] false
  | None, Some h => Effect 0 None (handler_events dump h) true
  | None, None =>
      Effect 0 None [reply ("That option '" ++ level ++ " " ++ line ++ "' is not yet implemented...")] true
  end.

(** [mp]: the mount point of the configuration; [dump]: the lines of its dump. *)
Definition effect_of (mp : option string) (dump : list string) (level line : string) : effect :=
  if strncaseeq 4 line "help" || String.eqb line "?" then Effect 0 None (help_events level) true
  else if strncaseeq 8 line "vfs edit" then
    if bool_decide (String.get 8 line = Some SP)
    then Effect 0 None [EvEdit (snprintf 4095 (str_drop 9 line ++ "/" ++ fmt_s mp))] true
    else Effect (-1) None [reply "vfs edit requires an argument (file name)"] false
  else if strcaseeq line "back" then Effect 0 (Some "main"%string) [] true
  else if strcaseeq line "conf dump" then Effect 0 None (handler_events dump h_conf_dump) true
  else if strcaseeq line "gc now" then Effect 0 None [EvGc; reply "gc: Freed 0 objects"] true
  else
    match (if bool_decide (level = "main"%string) then head (filter (names line) main_entries) else None) with
    | Some e => entry_effect level line dump e
    | None => Effect 0 None [reply ("Unknown command, try help: " ++ line)] true
    end.

Definition quits (line : string) : bool := strcaseeq line "shutdown" || strcaseeq line "quit".

Definition prompt_of (level : string) : string := snprintf 63 (SHELL_PROMPT ++ ":" ++ level ++ "> ").
Definition apply_effect (ef : effect) (s : shell) : shell :=
  let s := says (ef_events ef) s in
  let s := match ef_level ef with Some l => shell_level_set l s | None => s end in
  set_allocs (sh_copies s + if ef_freed ef then 0 else 1) (sh_dicts s + 1) s.

(** ** The arguments are never seen *)

Lemma parse_args_ok mm now line :
  m_struct mm = true → line ≠ ""%string → parse_args mm now line (dict_new mm) = Ret (dict_new mm).
Proof.
  intros Hm Hl. unfold parse_args, line_copy, dict_new. rewrite Hm.
  destruct line as [|c line]; [done|]. cbn [String.length replicate].
  set (tail := replicate (String.length line) NUL).
  assert (bmemset (NUL :: tail) 0 NUL 1 = Ret (NUL :: tail)) as ->.
  { unfold bmemset. rewrite in_buf_true; [done|lia|lia|rewrite blen_cons; pose proof (blen_nonneg tail); lia]. }
  cbn [obind]. change (d_fill (Dict 0 0 DICT_MIN_SZ _)) with 0.
  change (to_char 0) with NUL. rewrite (bset_app [] NUL tail NUL : bset (NUL :: tail) 0 NUL = Ret (NUL :: tail)).
  cbn [obind]. assert (strtok_sp (NUL :: tail) 0 = Ret (NUL :: tail, None, 0)) as E by reflexivity.
  rewrite E. cbn [obind]. unfold str_fuel. cbn [length args_loop]. rewrite E. done.
Qed.

(** ** Menus *)

Lemma get_menu_main : shell_get_menu "main" = Ret (Some MENU_MAIN).
Proof. done. Qed.
Lemma get_menu_other level : level ≠ "main"%string → shell_get_menu level = Ret None.
Proof.
  intros Hl. unfold shell_get_menu. destruct (String.eqb_spec level "main"); [done|].
  unfold menu_main. cbn [get_menu_loop entry c_menu c_cmd need obind].
  by destruct (strcaseeq "clear" level).
Qed.

Definition proper_entry (e : shell_cmd) : bool :=
  bool_decide (is_Some (c_cmd e)) && bool_decide (is_Some (c_desc e)).

Lemma menu_entry_at p pre e post :
  menu_at p = pre ++ e :: post → menu_entry (Some p) (length pre) = Ret (Some e).
Proof. intros H. unfold menu_entry. rewrite H. by rewrite list_lookup_middle. Qed.

Lemma help_loop_ok p es : ∀ fuel pre s,
  menu_at p = pre ++ es ++ [no_entry] → forallb proper_entry es = true → logs (sh_proc s) →
  (length es < fuel)%nat → help_loop fuel (Some p) (length pre) s = Ret (says (entry_help <$> es) s).
Proof.
  induction es as [|e es IH]; intros fuel pre s Hp Hok Hl Hf; (destruct fuel as [|fuel]; [cbn in Hf; lia|]);
    cbn [help_loop].
  - rewrite (menu_entry_at p pre no_entry []) by done. cbn [obind no_entry c_desc]. by rewrite says_nil.
  - rewrite (menu_entry_at p pre e (es ++ [no_entry])) by done. cbn [obind].
    cbn [forallb] in Hok. apply andb_true_iff in Hok as [He Hes].
    unfold proper_entry in He. apply andb_true_iff in He as [_ [desc Hd]%bool_decide_eq_true].
    rewrite Hd, log_shell_ok by done. cbn [obind].
    specialize (IH fuel (pre ++ [e])). rewrite length_app, Nat.add_1_r in IH.
    rewrite IH; [|by rewrite Hp, <- (assoc_L app)|done|done|cbn in Hf; lia].
    rewrite says_says. cbn [app fmap list_fmap]. unfold entry_help at 2. rewrite Hd. done.
Qed.

#[local] Opaque main_entries.

Lemma main_help_loop s : logs (sh_proc s) →
  help_loop MENU_FUEL (Some MENU_MAIN) 0 s = Ret (says (entry_help <$> main_entries) s).
Proof.
  intros Hl. apply (help_loop_ok MENU_MAIN main_entries MENU_FUEL []);
    [reflexivity|reflexivity|exact Hl|apply Nat.ltb_lt; reflexivity].
Qed.

Lemma no_help_loop fuel s : help_loop (S fuel) None 0 s = Ret s.
Proof. reflexivity. Qed.

Lemma cmd_help_ok s : logs (sh_proc s) → cmd_help s = Ret (says (help_events (sh_level s)) s).
Proof.
  intros Hl. unfold cmd_help, help_events. destruct (decide (sh_level s = "main"%string)) as [E|E].
  - rewrite (bool_decide_true (sh_level s = "main"%string)) by exact E.
    rewrite E at 1. rewrite get_menu_main, bind_ret.
    rewrite (bool_decide_true (Some MENU_MAIN = Some MENU_MAIN)) by reflexivity.
    rewrite log_shell_ok by exact Hl. rewrite !bind_ret. rewrite log_shell_ok by exact Hl. rewrite bind_ret.
    rewrite main_help_loop by exact Hl. rewrite !says_says. reflexivity.
  - rewrite (bool_decide_false (sh_level s = "main"%string)) by exact E.
    rewrite get_menu_other by exact E. rewrite bind_ret.
    rewrite (bool_decide_false (None = Some MENU_MAIN)) by discriminate.
    rewrite log_shell_ok by exact Hl. rewrite bind_ret. rewrite log_shell_ok by exact Hl. rewrite bind_ret.
    rewrite log_shell_ok by exact Hl. rewrite bind_ret, (no_help_loop 63), !says_says. reflexivity.
Qed.

Lemma dump_events s lines :
  foldl (λ s line, event_out (EvPrint line) s) s lines = says (EvPrint <$> lines) s.
Proof.
  revert s. induction lines as [|l lines IH]; intros s; [by rewrite says_nil|].
  cbn [foldl fmap list_fmap]. rewrite IH. unfold event_out. rewrite emit_emits.
  change (set_proc (emits [EvPrint l] (sh_proc s)) s) with (says [EvPrint l] s). by rewrite says_says.
Qed.

(** What the commands need of the process: messages can be logged, the pid file is
    open, and the configuration gives the mount point and the lines of the dump. *)
Record ready (past : option keypair) (mp : option string) (dump : list string) (p : proc) : Prop := {
  rd_logs : logs p;
  rd_pid : pr_pidfile p = true;
  rd_mp : conf_str p "path.mountpoint" None = Ret mp;
  rd_dump : ∃ n, dict_dump past (λ _, true) (pr_conf p) true = Ret (n, dump)
}.

Lemma ready_conf past p m level :
  conf_rep p m → m !! "log.level"%string = Some (Some level) → pr_pidfile p = true →
  ∃ l : list (string * option string), NoDup l.*1 ∧ list_to_map l = m ∧
    ready (Some past) (mjoin (m !! "path.mountpoint"%string)) ((λ e, dump_line e.1 e.2) <$> l) p.
Proof.
  intros Hm Hl Hpid. pose proof Hm as (d & Hd & Hok).
  destruct (dump_refines (Some past) (λ _, true) d m Hok) as (tbl & _ & Hmap & Hnd & He).
  exists (entries tbl). split_and!; [done|done|]. split.
  - right. by exists m, level.
  - done.
  - by apply conf_str_ok.
  - eexists. rewrite Hd, He. cbn [need obind]. do 2 f_equal. fold (dump_lines tbl). clear He.
    induction (dump_lines tbl) as [|x l IH]; [done|]. rewrite filter_cons, decide_True, IH by done. done.
Qed.

Lemma ready_emits past mp dump l p : ready past mp dump p → ready past mp dump (emits l p).
Proof. intros [H1 H2 H3 H4]. by split. Qed.

Lemma conf_dump_ok past mp dump s : ready past mp dump (sh_proc s) →
  cmd_conf_dump past s = Ret (says (handler_events dump h_conf_dump) s).
Proof.
  intros [Hl _ _ [n Hd]]. unfold cmd_conf_dump. rewrite log_shell_ok by exact Hl. rewrite bind_ret.
  change (pr_conf (sh_proc (says _ s))) with (pr_conf (sh_proc s)).
  rewrite Hd, bind_ret, dump_events, says_says. reflexivity.
Qed.

Lemma handler_ok past mp dump h args s :
  ready past mp dump (sh_proc s) → h ≠ h_shutdown → dict_get args (Some "1"%string) None = Ret None ∧ args ≠ None →
  call_handler past h args s = Ret (says (handler_events dump h) s).
Proof.
  intros Hr Hh [Ha Hn]. pose proof (rd_logs _ _ _ _ Hr) as Hl. destruct h; cbn [call_handler].
  - reflexivity.
  - done.
  - unfold cmd_reload, raise. rewrite sighup_ok by exact Hl. by rewrite bind_ret.
  - by apply log_shell_ok.
  - by apply log_shell_ok.
  - by apply log_shell_ok.
  - unfold cmd_edit. destruct args; [|done]. rewrite Ha, bind_ret. by rewrite says_nil.
  - by eapply conf_dump_ok.
Qed.

Lemma no_menu_loop past fuel line args s : menu_loop past (S fuel) None 0 line args s = Ret None.
Proof. reflexivity. Qed.

(** The walk over the entries finds the first one of that name. *)
Lemma menu_loop_ok past mp dump p line args es : ∀ fuel pre s,
  menu_at p = pre ++ es ++ [no_entry] → forallb proper_entry es = true → ready past mp dump (sh_proc s) →
  dict_get args (Some "1"%string) None = Ret None ∧ args ≠ None →
  (∀ e, e ∈ es → names line e = true → c_handler e ≠ Some h_shutdown) →
  (length es < fuel)%nat →
  menu_loop past fuel (Some p) (length pre) line args s =
    Ret (match head (filter (names line) es) with
         | None => None
         | Some e =>
             let ef := entry_effect (sh_level s) line dump e in
             let s := says (ef_events ef) s in
             let s := match ef_level ef with Some l => shell_level_set l s | None => s end in
             Some (ef_rc ef, if ef_freed ef then free_copy s else s)
         end).
Proof.
  induction es as [|e es IH]; intros fuel pre s Hp Hok Hr Ha Hq Hf;
    (destruct fuel as [|fuel]; [cbn in Hf; lia|]); cbn [menu_loop].
  - rewrite (menu_entry_at p pre no_entry []) by done. rewrite bind_ret. reflexivity.
  - rewrite (menu_entry_at p pre e (es ++ [no_entry])) by done. rewrite bind_ret.
    cbn [forallb] in Hok. apply andb_true_iff in Hok as [He Hes].
    unfold proper_entry in He. apply andb_true_iff in He as [[cmd Hc]%bool_decide_eq_true [desc Hd]%bool_decide_eq_true].
    rewrite Hd, Hc. cbn [need]. rewrite bind_ret. rewrite filter_cons.
    assert (names line e = strcaseeq cmd line) as Hn by (unfold names; by rewrite Hc).
    destruct (strcaseeq cmd line) eqn:Em.
    + rewrite (decide_True (P := names line e)) by (rewrite Hn; exact I). cbn [head]. cbv zeta.
      unfold entry_effect. pose proof (rd_logs _ _ _ _ Hr) as Hl.
      destruct (c_menu e) as [sub|].
      * case_bool_decide; cbn [ef_events ef_level ef_rc ef_freed].
        -- rewrite log_shell_ok by exact Hl. by rewrite bind_ret.
        -- rewrite bind_ret. by rewrite says_nil.
      * specialize (Hq e ltac:(left) Hn). destruct (c_handler e) as [h|]; cbn [ef_events ef_level ef_rc ef_freed].
        -- erewrite handler_ok by (done || congruence). by rewrite bind_ret.
        -- rewrite log_shell_ok by exact Hl. by rewrite bind_ret.
    + rewrite (decide_False (P := names line e)) by (rewrite Hn; intros []).
      specialize (IH fuel (pre ++ [e])). rewrite length_app, Nat.add_1_r in IH.
      apply IH; [by rewrite Hp, <- (assoc_L app)|done|done|done| |cbn in Hf; lia].
      intros e' He'. apply Hq. by right.
Qed.

(** ** Commands *)

Lemma strcaseeq_true s t : strcaseeq s t = true ↔ str_map tolower s = str_map tolower t.
Proof. unfold strcaseeq. by rewrite String.eqb_eq. Qed.
Lemma strcaseeq_sym s t : strcaseeq s t = strcaseeq t s.
Proof. apply eq_true_iff_eq. rewrite !strcaseeq_true. naive_solver. Qed.

Lemma str_map_take f n s : str_map f (str_take n s) = str_take n (str_map f s).
Proof. revert n. induction s as [|c s IH]; intros [|n]; cbn; [done..|]. by rewrite IH. Qed.

(** A line that is equal to a name but for the case compares like the name. *)
Lemma strncaseeq_like n line t u : strcaseeq line t = true → strncaseeq n line u = strncaseeq n t u.
Proof.
  rewrite strcaseeq_true. intros H. unfold strncaseeq, strcaseeq. by rewrite !(str_map_take _ n), H.
Qed.
Lemma strcaseeq_like line t u : strcaseeq line t = true → strcaseeq line u = strcaseeq t u.
Proof. rewrite strcaseeq_true. intros H. unfold strcaseeq. by rewrite H. Qed.

Lemma eqb_like line t c : strcaseeq line t = true → (1 < String.length t)%nat → String.eqb line (String c "") = false.
Proof.
  rewrite strcaseeq_true. intros H Ht. apply String.eqb_neq. intros ->.
  apply (f_equal String.length) in H. assert (∀ f s, String.length (str_map f s) = String.length s) as E
    by (intros f; induction s; cbn; congruence).
  rewrite !E in H. cbn in H. lia.
Qed.

Lemma main_entry e : e ∈ main_entries → c_handler e = Some h_shutdown →
  c_cmd e = Some "quit"%string ∨ c_cmd e = Some "shutdown"%string.
Proof.
  intros He. assert (Forall (λ e, c_handler e = Some h_shutdown →
    c_cmd e = Some "quit"%string ∨ c_cmd e = Some "shutdown"%string) main_entries) as H.
  { with_strategy transparent [main_entries] unfold main_entries. unfold menu_main. cbn [take].
    repeat (apply Forall_cons; split; [try (intros [=]); auto|]). apply Forall_nil; exact I. }
  rewrite Forall_forall in H. by apply H.
Qed.

Lemma quit_names line e : e ∈ main_entries → names line e = true → quits line = false →
  c_handler e ≠ Some h_shutdown.
Proof.
  intros He Hn Hq Hh. unfold names in Hn. unfold quits in Hq. apply orb_false_iff in Hq as [Hq1 Hq2].
  destruct (main_entry e He Hh) as [E|E]; rewrite E, strcaseeq_sym in Hn; congruence.
Qed.

Lemma main_menu_loop past mp dump line args s :
  ready past mp dump (sh_proc s) → dict_get args (Some "1"%string) None = Ret None ∧ args ≠ None →
  quits line = false →
  menu_loop past MENU_FUEL (Some MENU_MAIN) 0 line args s =
    Ret (match head (filter (names line) main_entries) with
         | None => None
         | Some e =>
             let ef := entry_effect (sh_level s) line dump e in
             let s := says (ef_events ef) s in
             let s := match ef_level ef with Some l => shell_level_set l s | None => s end in
             Some (ef_rc ef, if ef_freed ef then free_copy s else s)
         end).
Proof.
  intros Hr Ha Hq. apply (menu_loop_ok past mp dump MENU_MAIN line args main_entries MENU_FUEL [] s);
    [reflexivity|reflexivity|exact Hr|exact Ha| |apply Nat.ltb_lt; reflexivity].
  intros e He Hn. by apply (quit_names line e).
Qed.

(** The allocations of a command. *)
Lemma freed_ok l s :
  free_copy (says l (set_allocs (sh_copies s + 1) (sh_dicts s + 1) s)) =
  set_allocs (sh_copies s + 0) (sh_dicts s + 1) (says l s).
Proof. unfold free_copy, says, set_allocs, set_proc. cbn. f_equal. lia. Qed.

Lemma freed_level_ok l s :
  free_copy (shell_level_set l (set_allocs (sh_copies s + 1) (sh_dicts s + 1) s)) =
  set_allocs (sh_copies s + 0) (sh_dicts s + 1) (shell_level_set l s).
Proof. unfold free_copy, shell_level_set, shell_prompt_reset, set_allocs. cbn. f_equal. lia. Qed.

Definition dict_mem (mm : mem) : Prop := m_struct mm = true ∧ m_calloc mm DICT_MIN_SZ = true.

Lemma new_args mm : dict_mem mm →
  ∃ d, dict_new mm = Some d ∧ dict_get (Some d) (Some "1"%string) None = Ret None.
Proof.
  intros [Hs Hc]. destruct (new_ok mm Hs Hc) as (d & Hd & Hok & _). exists d. split; [done|].
  by rewrite (get_refines d ∅).
Qed.

Lemma command_ok mm now past mp dump line s :
  dict_mem mm → ready past mp dump (sh_proc s) → line ≠ ""%string → quits line = false →
  shell_command mm now past (Some line) s =
    let ef := effect_of mp dump (sh_level s) line in Ret (ef_rc ef, apply_effect ef s).
Proof.
  intros Hm Hr Hne Hq. pose proof (rd_logs _ _ _ _ Hr) as Hl. unfold shell_command, effect_of, apply_effect. cbv zeta.
  destruct (new_args mm Hm) as (d & Hd & Hget). rewrite parse_args_ok by (apply Hm || done). rewrite bind_ret, Hd.
  set (s1 := set_allocs _ _ (set_allocs _ _ s)).
  assert (s1 = set_allocs (sh_copies s + 1) (sh_dicts s + 1) s) as Hs1 by reflexivity. clearbody s1.
  assert (logs (sh_proc s1)) as Hl1 by by rewrite Hs1.
  assert (ready past mp dump (sh_proc s1)) as Hr1 by by rewrite Hs1.
  assert (sh_level s1 = sh_level s) as Hlv by by rewrite Hs1.
  destruct (strncaseeq 4 line "help" || String.eqb line "?").
  { rewrite cmd_help_ok by exact Hl1. by rewrite bind_ret, Hlv, Hs1, freed_ok. }
  destruct (strncaseeq 8 line "vfs edit").
  { case_bool_decide.
    - rewrite (rd_mp _ _ _ _ Hr1), bind_ret. unfold event_out. rewrite emit_emits.
      change (set_proc (emits ?l (sh_proc s1)) s1) with (says l s1). by rewrite Hs1, freed_ok.
    - rewrite log_shell_ok by exact Hl1. rewrite bind_ret. by rewrite Hs1. }
  destruct (strcaseeq line "back").
  { rewrite Hs1. cbn [ef_events ef_level ef_rc ef_freed]. rewrite says_nil.
    by rewrite freed_level_ok. }
  unfold quits in Hq. apply orb_false_iff in Hq as [Hq1 Hq2]. rewrite Hq1, Hq2. cbn [orb].
  destruct (strcaseeq line "conf dump").
  { rewrite (conf_dump_ok _ _ _ _ Hr1), bind_ret. by rewrite Hs1, freed_ok. }
  destruct (strcaseeq line "gc now").
  { unfold gc_all. rewrite log_shell_ok by exact Hl1. rewrite bind_ret.
    change (event_out EvGc s1) with (says [EvGc] s1). rewrite says_says. by rewrite Hs1, freed_ok. }
  assert (dict_get (Some d) (Some "1"%string) None = Ret None ∧ Some d ≠ None) as Hargs by done.
  rewrite Hlv. destruct (decide (sh_level s = "main"%string)) as [E|E].
  - rewrite bool_decide_true by exact E. rewrite E at 1. rewrite get_menu_main, bind_ret.
    rewrite (main_menu_loop past mp dump line (Some d) s1 Hr1 Hargs) by (unfold quits; by rewrite Hq1, Hq2).
    rewrite bind_ret, Hlv. destruct (head (filter (names line) main_entries)) as [e|].
    + cbv zeta. destruct (entry_effect (sh_level s) line dump e) as [rc lv evs fr].
      cbn [ef_rc ef_level ef_events ef_freed]. rewrite Hs1. do 2 f_equal.
      destruct lv, fr; unfold free_copy, shell_level_set, shell_prompt_reset, says, set_allocs, set_proc; cbn; f_equal; lia.
    + rewrite log_shell_ok by exact Hl1. rewrite bind_ret. by rewrite Hs1, freed_ok.
  - rewrite bool_decide_false by exact E. rewrite get_menu_other by exact E. rewrite bind_ret.
    rewrite (no_menu_loop past 63), bind_ret. rewrite log_shell_ok by exact Hl1. rewrite bind_ret.
    by rewrite Hs1, freed_ok.
Qed.

Lemma quit_ok mm now past mp dump line s :
  dict_mem mm → ready past mp dump (sh_proc s) → quits line = true →
  shell_command mm now past (Some line) s = Halt 0.
Proof.
  intros Hm Hr Hq. unfold shell_command.
  assert (line ≠ ""%string) as Hne by by intros ->.
  destruct (new_args mm Hm) as (d & Hd & _). rewrite parse_args_ok by (apply Hm || done). rewrite bind_ret.
  set (s1 := set_allocs _ _ (set_allocs _ _ s)).
  assert (cmd_shutdown s1 = Halt 0) as E.
  { unfold cmd_shutdown. rewrite log_shell_ok by apply Hr. rewrite bind_ret. unfold raise.
    by rewrite sigterm_ok by apply Hr. }
  assert (∀ t, strcaseeq line t = true → t = "shutdown"%string ∨ t = "quit"%string →
    strncaseeq 4 line "help" || String.eqb line "?" = false ∧ strncaseeq 8 line "vfs edit" = false ∧
    strcaseeq line "back" = false) as Hno.
  { intros t Ht Hc. rewrite !(strncaseeq_like _ _ _ _ Ht), (strcaseeq_like _ _ _ Ht).
    rewrite (eqb_like line t) by (done || destruct Hc as [-> | ->]; cbn; lia). by destruct Hc as [-> | ->]. }
  assert (∃ t, strcaseeq line t = true ∧ (t = "shutdown"%string ∨ t = "quit"%string)) as (t & Ht & Hc).
  { unfold quits in Hq. apply orb_true_iff in Hq as [H|H]; [exists "shutdown"%string|exists "quit"%string]; auto. }
  destruct (Hno t Ht Hc) as (-> & -> & ->). unfold quits in Hq. rewrite Hq, E. reflexivity.
Qed.

(** ** Sessions *)

Definition command_of (line : option string) : option string :=
  match line with Some EmptyString => None | _ => line end.
Definition commands (lines : list (option string)) : list string := omap command_of lines.

Definition session : Type := shell * list (list ascii) * list ascii.
Definition step_session (mp : option string) (dump : list string) (hmax : Z) (opens : bool) (st : session)
    (line : string) : session :=
  let '(s, h, file) := st in
  let ef := effect_of mp dump (sh_level s) line in
  if ef_rc ef =? -1 then (apply_effect ef s, h, file)
  else
    let h := (linenoiseHistoryAdd hmax (chars_of line) h).2 in
    (apply_effect ef s, h, default file (linenoiseHistorySave opens h).2).

Lemma apply_effect_proc ef s : sh_proc (apply_effect ef s) = emits (ef_events ef) (sh_proc s).
Proof. unfold apply_effect. by destruct (ef_level ef). Qed.

Lemma shell_loop_ok mm now past mp dump hmax opens lines : ∀ s h file,
  dict_mem mm → ready past mp dump (sh_proc s) → pr_dying (sh_proc s) = false →
  Forall (λ line, quits line = false) (commands lines) →
  shell_loop mm now past hmax opens lines s h file =
    Ret (foldl (step_session mp dump hmax opens) (s, h, file) (commands lines)).
Proof.
  induction lines as [|line lines IH]; intros s h file Hm Hr Hd Hq; [done|]. cbn [shell_loop].
  rewrite Hd. destruct line as [[|c line]|]; [by apply IH| |by apply IH].
  cbn [commands omap list_omap command_of] in *. apply Forall_cons in Hq as [Hq Hqs].
  rewrite (command_ok mm now past mp dump) by done. cbv zeta. rewrite bind_ret.
  assert (∀ ef, ready past mp dump (sh_proc (apply_effect ef s))) as Hr'
    by (intros ef; rewrite apply_effect_proc; by apply ready_emits).
  assert (∀ ef, pr_dying (sh_proc (apply_effect ef s)) = false) as Hd' by (intros ef; by rewrite apply_effect_proc).
  cbn [foldl step_session]. set (ef := effect_of _ _ _ _).
  destruct (ef_rc ef =? -1); cbn [negb]; by apply IH.
Qed.

Lemma shell_loop_quits mm now past mp dump hmax opens pre line post : ∀ s h file,
  dict_mem mm → ready past mp dump (sh_proc s) → pr_dying (sh_proc s) = false →
  Forall (λ line, quits line = false) (commands pre) → quits line = true →
  shell_loop mm now past hmax opens (pre ++ Some line :: post) s h file = Halt 0.
Proof.
  induction pre as [|l pre IH]; intros s h file Hm Hr Hd Hq Hl; cbn [app shell_loop]; rewrite Hd.
  - rewrite (quit_ok mm now past mp dump) by done. by destruct line.
  - destruct l as [[|c l]|]; [by apply IH| |by apply IH].
    cbn [commands omap list_omap command_of] in *. apply Forall_cons in Hq as [Hq Hqs].
    rewrite (command_ok mm now past mp dump) by done. cbv zeta. rewrite bind_ret.
    set (ef := effect_of _ _ _ _).
    assert (ready past mp dump (sh_proc (apply_effect ef s))) by (rewrite apply_effect_proc; by apply ready_emits).
    assert (pr_dying (sh_proc (apply_effect ef s)) = false) by by rewrite apply_effect_proc.
    destruct (ef_rc ef =? -1); cbn [negb]; by apply IH.
Qed.

(** The level is the main menu or has the name of a menu in it. *)
Definition menu_level (level : string) : Prop :=
  level = "main"%string ∨
  ∃ e, e ∈ main_entries ∧ c_menu e ≠ None ∧ names level e = true.

Lemma strcaseeq_length s t : strcaseeq s t = true → String.length s = String.length t.
Proof.
  rewrite strcaseeq_true. intros H. apply (f_equal String.length) in H.
  assert (∀ f s, String.length (str_map f s) = String.length s) as E by (intros f; induction s0; cbn; congruence).
  by rewrite !E in H.
Qed.

Lemma names_short line e : e ∈ main_entries → names line e = true → (String.length line <= 9)%nat.
Proof.
  intros He Hn. assert (forallb (λ e, String.length (fmt_s (c_cmd e)) <=? 9)%nat main_entries = true) as H
    by by vm_compute.
  rewrite forallb_forall in H. specialize (H e (proj1 (list_elem_of_In _ _) He)). apply Nat.leb_le in H.
  unfold names in Hn. destruct (c_cmd e) as [cmd|]; [|done]. apply strcaseeq_length in Hn. cbn in H. unfold id in H. lia.
Qed.

Definition saved (h : list (list ascii)) : list ascii := mjoin ((λ line, line ++ [LF]) <$> h).

(** What holds between the commands of a session that began with [s0], [h0] and
    [file0]; [n] commands have run. *)
Definition session_inv (hmax : Z) (opens : bool) (s0 : shell) (h0 : list (list ascii)) (file0 : list ascii)
    (n : nat) (st : session) : Prop :=
  let '(s, h, file) := st in
  menu_level (sh_level s) ∧ sh_prompt s = prompt_of (sh_level s) ∧
  sh_dicts s = sh_dicts s0 + Z.of_nat n ∧ sh_copies s0 ≤ sh_copies s ∧
  pr_conf (sh_proc s) = pr_conf (sh_proc s0) ∧
  no_repeat h ∧ blen h ≤ hmax ∧ (opens = true → file = saved h ∨ h = h0 ∧ file = file0).

Lemma level_set_prompt l s :
  sh_level (shell_level_set l s) = snprintf 39 l ∧
  sh_prompt (shell_level_set l s) = prompt_of (snprintf 39 l).
Proof. done. Qed.

Lemma snprintf_short l : (String.length l <= 9)%nat → snprintf 39 l = l.
Proof.
  intros Hl. with_strategy transparent [snprintf] unfold snprintf. apply take_all_str. cbn. lia.
Qed.

(** The levels that commands set. *)
Lemma effect_level mp dump level line l :
  ef_level (effect_of mp dump level line) = Some l → menu_level (snprintf 39 l) ∧ snprintf 39 l = l.
Proof.
  unfold effect_of. intros He.
  assert (snprintf 39 "main" = "main"%string) as Hmain by (apply snprintf_short; cbn; lia).
  repeat match type of He with
  | ef_level (if ?b then _ else _) = _ => destruct b
  | ef_level (match (if ?b then _ else _) with _ => _ end) = _ => destruct b
  end; cbn in He; try discriminate.
  - injection He as <-. split; [rewrite Hmain; by left|done].
  - destruct (head (filter (names line) main_entries)) as [e|] eqn:Eh; [|discriminate].
    assert (e ∈ filter (names line) main_entries) as Hin
      by (destruct (filter (names line) main_entries); [done|]; injection Eh as ->; left).
    apply list_elem_of_filter in Hin as [Hn Hin]. unfold entry_effect in He.
    assert (names line e = true) as Hn' by (by destruct (names line e)).
    destruct (c_menu e) as [sub|] eqn:Ec; [|by destruct (c_handler e)].
    case_bool_decide; [discriminate|]. injection He as <-.
    rewrite snprintf_short by by apply (names_short line e). split; [|done].
    right. exists e. split_and!; [done|by rewrite Ec|done].
Qed.

Lemma step_session_ok mp dump hmax opens s0 h0 file0 n st line :
  0 < hmax → session_inv hmax opens s0 h0 file0 n st →
  session_inv hmax opens s0 h0 file0 (S n) (step_session mp dump hmax opens st line).
Proof.
  intros Hmax. destruct st as [[s h] file]. intros (Hlv & Hpr & Hd & Hc & Hcf & Hnr & Hlen & Hf).
  unfold step_session. set (ef := effect_of mp dump (sh_level s) line).
  assert (menu_level (sh_level (apply_effect ef s)) ∧
          sh_prompt (apply_effect ef s) = prompt_of (sh_level (apply_effect ef s))) as [Hlv' Hpr'].
  { unfold apply_effect. destruct (ef_level ef) as [l|] eqn:El; [|by split].
    apply effect_level in El as [El _]. by split. }
  assert (sh_dicts (apply_effect ef s) = sh_dicts s + 1) as Hd'
    by (unfold apply_effect; by destruct (ef_level ef)).
  assert (sh_copies s ≤ sh_copies (apply_effect ef s)) as Hc'
    by (unfold apply_effect; destruct (ef_level ef), (ef_freed ef); cbn; lia).
  assert (pr_conf (sh_proc (apply_effect ef s)) = pr_conf (sh_proc s)) as Hcf' by by rewrite apply_effect_proc.
  destruct (ef_rc ef =? -1).
  - unfold session_inv. split_and!; [done|done|lia|lia|congruence|done|done|done].
  - destruct (linenoiseHistoryAdd hmax (chars_of line) h) as [rc h'] eqn:Ea.
    destruct (history_add_ok _ _ _ _ _ Hmax Hnr Hlen Ea) as (Hnr' & Hlen' & _).
    unfold session_inv. split_and!; [done|done|lia|lia|congruence|done|done|].
    intros ->. left. reflexivity.
Qed.

Lemma session_ok mp dump hmax opens s0 h0 file0 lines : ∀ n st,
  0 < hmax → session_inv hmax opens s0 h0 file0 n st →
  session_inv hmax opens s0 h0 file0 (n + length lines) (foldl (step_session mp dump hmax opens) st lines).
Proof.
  induction lines as [|l lines IH]; intros n st Hm Hst; [by rewrite Nat.add_0_r|].
  cbn [foldl length]. rewrite Nat.add_succ_r. apply (IH (S n)); [done|]. by apply step_session_ok.
Qed.

Lemma first_quit lines :
  existsb quits (commands lines) = false ∧ Forall (λ line, quits line = false) (commands lines) ∨
  existsb quits (commands lines) = true ∧
  ∃ pre line post, lines = pre ++ Some line :: post ∧ quits line = true ∧
    Forall (λ line, quits line = false) (commands pre).
Proof.
  induction lines as [|l lines IH]; [left; split; [done|constructor]|].
  destruct l as [[|c l]|]; cbn [commands omap list_omap command_of existsb] in *.
  1,3: destruct IH as [H|(H & pre & q & post & -> & Hq & Hp)]; [by left|right; split; [done|]].
  - by exists (Some ""%string :: pre), q, post.
  - by exists (None :: pre), q, post.
  - destruct (quits (String c l)) eqn:Eq; cbn [orb].
    + right. split; [done|]. by exists [], (String c l), lines.
    + destruct IH as [[H1 H2]|(H & pre & q & post & -> & Hq & Hp)]; [left; split; [done|by constructor]|].
      right. split; [done|]. exists (Some (String c l) :: pre), q, post. split_and!; [done|done|].
      cbn [commands omap list_omap command_of]. by constructor.
Qed.



(** The process with the configuration of one key and an open pid file. *)
Definition demo_conf : option dict :=
  match @st_adds (option dict) (dict_store mem_ok 7) (Some dict8) [("log.level", "info"); ("path.mountpoint", "/mnt")]%string with
  | Ret d => d
  | _ => None
  end.
Definition demo_shell : shell := Shell "" "" (Proc demo_conf false true "pid" []) 0 0.

Lemma demo_conf_ok :
  conf_rep (sh_proc demo_shell) (foldl put ∅ [("log.level", "info"); ("path.mountpoint", "/mnt")]%string).
Proof.
  destruct (@st_adds_law (option dict) _ (dict_lawful mem_ok 7 mem_ok_good) 0 (Some dict8) ∅
      [("log.level", "info"); ("path.mountpoint", "/mnt")]%string)
    as (s & Hd & (d & -> & Hok & Hc & _));
    [exists dict8; split_and!; [done|apply dict8_ok|done|done]|done|].
  exists d. split; [|exact Hok]. unfold demo_shell, demo_conf. cbn [sh_proc pr_conf]. by rewrite Hd.
Qed.


Definition demo_quits : list (option string) := [Some "conf"; None; Some "back"; Some "QUIT"]%string.
Definition demo_stays : list (option string) := [Some "conf"; None; Some "dump"]%string.

