(* ===== verification/ShellHintsSpec.v ===== *)
(** * The callbacks of the shell: what completion and hints do

    Completion in the main menu never returns; elsewhere it offers fixed commands.
    A hint is one object of its heap, and the object of a hint that is not found is
    lost. *)
From S2P Require Import Prelude CStd CStdFacts Conf Proc Buf Term.
From S2P Require Import Dlink DlinkSpec Balloc BallocFacts BallocOps BallocSpec ProcSpec Shell ShellHints ShellSpec.
From Stdlib Require Import Ascii.

Local Open Scope Z_scope.

(** ** Completion *)

Lemma submenu_never fuel level submenu i lc r : submenu_loop fuel level submenu i lc ≠ Ret r.
Proof.
  revert lc. induction fuel as [|fuel IH]; intros lc; [done|]. cbn [submenu_loop].
  destruct (menu_at submenu !! i); cbn [need]; [|done]. rewrite bind_ret. apply IH.
Qed.

(** A menu whose every entry is followed by another one. *)
Lemma completion_never fuel level buf menu : ∀ i p lc r,
  completion_loop fuel level buf (Some menu) i p lc ≠ Ret r.
Proof.
  induction fuel as [|fuel IH]; intros i p lc r; [done|]. cbn [completion_loop menu_entry].
  destruct (menu_at menu !! i) as [e|]; cbn [need]; [|done]. rewrite !bind_ret.
  destruct (c_cmd e) as [cmd|]; cbn [need]; [|done]. rewrite bind_ret.
  destruct (strncaseeq _ buf cmd); [|rewrite bind_ret; apply IH].
  destruct (c_menu e) as [sub|]; [|rewrite bind_ret; apply IH].
  intros H. apply bind_Ret_inv in H as (x & H & _).
  apply bind_Ret_inv in H as (p1 & _ & H). apply bind_Ret_inv in H as (p2 & _ & H).
  apply bind_Ret_inv in H as (lc' & H & _). by apply submenu_never in H.
Qed.

(** The fixed commands that are offered for a text. *)
Definition extras (buf : string) : list string :=
  let starts cmd := strncaseeq (String.length buf) buf cmd in
  if starts "gc now"%string then ["gc now"%string]
  else if starts "conf dump"%string then ["conf dump"%string]
  else if starts "back"%string then ["back"%string]
  else if starts "help"%string then ["help"%string]
  else if starts "vfs "%string then ["vfs"%string; "vfs edit"%string]
  else [].

(** Completion in the main menu and elsewhere. *)
Lemma completion_ok level buf p lc fuel :
  if decide (level = "main"%string)
  then ∀ r, shell_completion fuel level buf p lc ≠ Ret r
  else shell_completion (S fuel) level buf p lc = Ret (p, lc ++ extras buf).
Proof.
  unfold shell_completion. destruct (decide (level = "main"%string)) as [->|Hl].
  - intros r. rewrite get_menu_main, bind_ret. intros H.
    apply bind_Ret_inv in H as (x & H & _). by apply completion_never in H.
  - rewrite get_menu_other, bind_ret by done. cbn [completion_loop menu_entry].
    rewrite bool_decide_true by done. rewrite !bind_ret. unfold extras. cbv zeta.
    repeat destruct (strncaseeq _ buf _); try reflexivity. by rewrite app_nil_r.
Qed.

(** ** Hints *)

Lemma heap_set_bytes s bh hp abs v : heap_ok s bh hp abs → heap_ok (set_bytes v s) bh hp abs.
Proof.
  intros [H1 H2 H3 H4 H5 H6 H7 H8 H9]. split; try done. eapply chain_frame; [exact H5|]. done.
Qed.

(** The hint for a text: its text, its colour and its weight. *)
Definition starts_with (buf : string) (e : shell_cmd) : bool :=
  match c_cmd e with Some cmd => strncaseeq (String.length cmd) cmd buf | None => false end.
Definition hint_of (level buf : string) : option (string * Z * Z) :=
  if strncaseeq 6 buf "gc now" then Some (" - run garbage collector now", HINT_YELLOW, 1)%string
  else if strncaseeq 9 buf "conf dump" then Some (" - dump active configuration file", HINT_YELLOW, 1)%string
  else if strncaseeq 4 buf "back" then Some (" - go to previous menu", HINT_GREEN, 1)%string
  else if strncaseeq 4 buf "help" then Some (" - display help text", HINT_GREEN, 1)%string
  else if strncaseeq 8 buf "vfs edit" then Some (" - edit text file", HINT_YELLOW, 1)%string
  else if bool_decide (level = "main"%string) then
    (λ e, (" - " ++ fmt_s (c_desc e), c_color e, c_bold e)%string) <$> head (filter (starts_with buf) main_entries)
  else None.

Lemma hints_loop_ok buf p es : ∀ fuel pre,
  menu_at p = pre ++ es ++ [no_entry] → forallb proper_entry es = true → (length es < fuel)%nat →
  hints_loop fuel buf (Some p) (length pre) =
    Ret ((λ e, (" - " ++ fmt_s (c_desc e), c_color e, c_bold e)%string) <$> head (filter (starts_with buf) es)).
Proof.
  induction es as [|e es IH]; intros fuel pre Hp Hok Hf; (destruct fuel as [|fuel]; [cbn in Hf; lia|]);
    cbn [hints_loop].
  - rewrite (menu_entry_at p pre no_entry []) by done. by rewrite bind_ret.
  - rewrite (menu_entry_at p pre e (es ++ [no_entry])) by done. rewrite bind_ret.
    cbn [forallb] in Hok. apply andb_true_iff in Hok as [He Hes].
    unfold proper_entry in He. apply andb_true_iff in He as [[cmd Hc]%bool_decide_eq_true [desc Hd]%bool_decide_eq_true].
    rewrite Hd, Hc. cbn [need]. rewrite bind_ret, filter_cons.
    assert (starts_with buf e = strncaseeq (String.length cmd) cmd buf) as Hn by (unfold starts_with; by rewrite Hc).
    destruct (strncaseeq (String.length cmd) cmd buf).
    + rewrite (decide_True (P := starts_with buf e)) by (rewrite Hn; exact I). cbn [head fmap option_fmap option_map].
      by rewrite Hd.
    + rewrite (decide_False (P := starts_with buf e)) by (rewrite Hn; intros []).
      specialize (IH fuel (pre ++ [e])). rewrite length_app, Nat.add_1_r in IH.
      apply IH; [by rewrite Hp, <- (assoc_L app)|done|cbn in Hf; lia].
Qed.

Lemma no_hints_loop fuel buf : hints_loop (S fuel) buf None 0 = Ret None.
Proof. reflexivity. Qed.

Lemma main_hints_loop buf :
  hints_loop MENU_FUEL buf (Some MENU_MAIN) 0 =
    Ret ((λ e, (" - " ++ fmt_s (c_desc e), c_color e, c_bold e)%string) <$> head (filter (starts_with buf) main_entries)).
Proof.
  apply (hints_loop_ok buf MENU_MAIN main_entries MENU_FUEL []);
    [reflexivity|reflexivity|apply Nat.ltb_lt; reflexivity].
Qed.

Lemma hint_text_ok level buf menu :
  shell_get_menu level = Ret menu → hint_text buf menu = Ret (hint_of level buf).
Proof.
  intros Hm. unfold hint_text, hint_of.
  destruct (strncaseeq 6 buf "gc now"); [reflexivity|]. destruct (strncaseeq 9 buf "conf dump"); [reflexivity|].
  destruct (strncaseeq 4 buf "back"); [reflexivity|]. destruct (strncaseeq 4 buf "help"); [reflexivity|].
  destruct (strncaseeq 8 buf "vfs edit"); [reflexivity|].
  destruct (decide (level = "main"%string)) as [->|Hl].
  - rewrite bool_decide_true by reflexivity. rewrite get_menu_main in Hm. injection Hm as <-. apply main_hints_loop.
  - rewrite bool_decide_false by exact Hl. rewrite get_menu_other in Hm by exact Hl. injection Hm as <-.
    apply (no_hints_loop 63).
Qed.

Lemma get_menu_total level : ∃ menu, shell_get_menu level = Ret menu.
Proof.
  destruct (decide (level = "main"%string)) as [->|Hl]; [by eexists|]. exists None. by apply get_menu_other.
Qed.

(** The string at an address. *)
Definition string_at (m : Z → Z) (x : Z) (text : string) : Prop :=
  (∀ i c, String.get i text = Some c → m (x + Z.of_nat i) = uchar c) ∧ m (x + Z.of_nat (String.length text)) = 0.

Lemma get_length i s : (i < String.length s)%nat ↔ is_Some (String.get i s).
Proof.
  revert i. induction s as [|c s IH]; intros i; cbn [String.get String.length]; [split; [lia|by intros [? ?]]|].
  destruct i; [split; [by eexists|lia]|]. rewrite <- IH. lia.
Qed.

Lemma put_text_at x text m : string_at (put_text x text m) x text.
Proof.
  split.
  - intros i c Hc. assert (i < String.length text)%nat by (apply get_length; by eexists). unfold put_text.
    replace ((x <=? x + Z.of_nat i) && (x + Z.of_nat i <=? x + Z.of_nat (String.length text))) with true by lia.
    replace (Z.to_nat (x + Z.of_nat i - x)) with i by lia. by rewrite Hc.
  - unfold put_text.
    rewrite (proj2 (Z.leb_le x (x + Z.of_nat (String.length text)))), Z.leb_refl by lia. cbn [andb].
    replace (Z.to_nat (x + Z.of_nat (String.length text) - x)) with (String.length text) by lia.
    destruct (String.get (String.length text) text) eqn:E; [|done].
    assert (String.length text < String.length text)%nat by (apply get_length; by eexists). lia.
Qed.

Lemma put_text_out x text m a : a < x ∨ x + Z.of_nat (String.length text) < a → put_text x text m a = m a.
Proof. intros H. unfold put_text.
  replace ((x <=? a) && (a <=? x + Z.of_nat (String.length text))) with false by lia. done. Qed.

Lemma str_take_length n s : (String.length (str_take n s) <= n)%nat.
Proof. revert n. induction s as [|c s IH]; intros [|n]; cbn; [lia..|]. specialize (IH n). lia. Qed.

(** What the callback does when the text has two characters: the object [x] is new,
    and the bytes of the other objects stay. *)
Lemma hints_allocates s bh hp abs o level buf :
  heap_ok s bh hp abs → os_good hp abs o → SHELL_HINT_MAX ≤ bh_elemSize hp → (2 <= String.length buf)%nat →
  ∃ x s' hp' abs', heap_ok s' bh hp' abs' ∧ live abs' ≡ₚ x :: live abs ∧ (x ∉ live abs) ∧
    (∀ y a, y ∈ live abs → y ≤ a < y + bh_elemSize hp → st_bytes s' a = st_bytes s a) ∧
    shell_hints o bh level buf s =
      Ret ((λ h, (x, h.1.2, h.2)) <$> hint_of level buf, s') ∧
    (∀ text color bold, hint_of level buf = Some (text, color, bold) →
       string_at (st_bytes s') x (snprintf 120 text)).
Proof.
  intros Hok Hos Hsz Hlen. unfold shell_hints.
  destruct (get_menu_total level) as [menu Hmenu]. rewrite Hmenu, bind_ret.
  destruct (Z.ltb_spec (Z.of_nat (String.length buf)) 2); [lia|].
  destruct (alloc_ok s bh hp abs o Hok Hos) as (x & s1 & hp' & abs' & -> & Hok1 & (Hlive & Hnew & Hpos & Hz & Hold) & _).
  rewrite bind_ret. destruct (Z.eqb_spec x 0); [lia|]. rewrite (hint_text_ok level) by done. rewrite bind_ret.
  set (s2 := set_bytes (memset0 x SHELL_HINT_MAX (st_bytes s1)) s1).
  assert (∀ y a, y ∈ live abs → y ≤ a < y + bh_elemSize hp →
    (a < x ∨ x + SHELL_HINT_MAX ≤ a) ∧ st_bytes s1 a = st_bytes s a) as Hout.
  { intros y a Hy Ha. destruct (Hold y Hy) as [Hap Hk]. split; [lia|by apply Hk]. }
  destruct (hint_of level buf) as [[[text color] bold]|] eqn:Eh; cbn [fmap option_fmap option_map fst snd].
  - assert (Z.of_nat (String.length (snprintf 120 text)) ≤ 119) as Htl.
    { with_strategy transparent [snprintf] unfold snprintf. pose proof (str_take_length (120 - 1) text) as Hn.
      change (120 - 1)%nat with 119%nat in *. apply Nat2Z.inj_le in Hn. exact Hn. }
    exists x, (print_hint x text s2), hp', abs'. split_and!; [by apply heap_set_bytes, heap_set_bytes|done|done| |done|].
    + intros y a Hy Ha. destruct (Hout y a Hy Ha) as [Hap <-]. cbn [print_hint s2 set_bytes st_bytes].
      unfold SHELL_HINT_MAX in *. rewrite put_text_out by lia. by apply memset0_out.
    + intros text' color' bold' [= <- <- <-]. apply put_text_at.
  - exists x, s2, hp', abs'. split_and!; [by apply heap_set_bytes|done|done| |done|by intros].
    intros y a Hy Ha. destruct (Hout y a Hy Ha) as [Hap <-]. cbn [s2 set_bytes st_bytes].
    unfold SHELL_HINT_MAX in *. by apply memset0_out.
Qed.


(** A heap of hints. *)
Definition hint_heap : bstate :=
  match blockheap_create (Some 4096) (Some 8192, Some 65536) 120 32 (Some "shell hints"%string) 64 empty_state with
  | Ret (_, s) => s
  | _ => empty_state
  end.
Definition hint_hp : blockheap := BlockHeap "shell hints" 120 32 1 32 8192.
Definition hint_blk : ablk := new_blk 120 32 8192 65536.

Lemma hint_heap_ok : heap_ok hint_heap 4096 hint_hp [hint_blk].
Proof.
  assert (params_ok 120 32) as Hpar by (unfold params_ok, asize, SZ_MEMBLOCK; lia).
  assert (fresh 120 32 [] 8192 65536) as Hfr
    by (split; [done|by intros ?%elem_of_nil|done|by intros a ?%elem_of_nil|done]).
  destruct (create_ok empty_state 4096 8192 65536 120 32 "shell hints" 64 [])
    as (s & hp & Hc & Hok & Hn & He & Hp & _); [lia|lia|exact Hpar|lia|exact Hfr
      |apply dll_nil|by intros a ?%elem_of_nil|reflexivity|cbn; lia|lia|].
  assert (hint_heap = s) as -> by (unfold hint_heap; by rewrite Hc).
  assert (hp = hint_hp) as <-; [|exact Hok].
  pose proof (ho_base _ _ _ _ Hok) as Hb. pose proof (ho_count _ _ _ _ Hok) as Hk.
  pose proof (ho_free _ _ _ _ Hok) as Hf. destruct hp as [nm es ep cn fr ba].
  cbn [bh_name bh_elemSize bh_elemsPerBlock bh_blocksAllocated bh_freeElems bh_base] in *.
  change (total_free _) with 32 in Hf. change (hd _ _) with 8192 in Hb.
  change (Z.of_nat (length _)) with 1 in Hk. change (pad_size 120) with 120 in He.
  change (str_take 63 "shell hints") with "shell hints"%string in Hn. by subst.
Qed.

