(* ===== verification/Vfs.v ===== *)
(** * The cache of the virtual file system (src/vfs.c, vfs.h)

    [vfs_add_path] makes an entry for a file of a package.  The entries that have
    been allocated are a list, in the order of their allocation; nothing in the
    program points to them. *)
From S2P Require Import Prelude CStd Conf Proc.
From Stdlib Require Import Ascii.

Local Open Scope Z_scope.

Inductive ftype :=
  | PKG_FTYPE_NONE | PKG_FTYPE_LINK | PKG_FTYPE_DIR | PKG_FTYPE_FILE | PKG_FTYPE_FIFO
  | PKG_FTYPE_BLOCK | PKG_FTYPE_DEV.

Record vfs_cache_entry := VfsEntry {
  ve_path : string;
  ve_cache_path : string;
  ve_pkgid : Z;
  ve_size : Z;
  ve_refcnt : Z;
  ve_type : ftype;
  ve_uid : Z;
  ve_gid : Z;
  ve_owner : string;
  ve_group : string;
  ve_mode : Z;
  ve_ctime : Z;
  ve_mtime : Z;
  ve_atime : Z
}.

(** No entry is ever found. *)
Definition vfs_find (path : string) : option vfs_cache_entry := None.

(** [memcpy(dst, s, n)] into a cleared array of [n + 1] bytes: [readable] bytes can
    be read at [s]. *)
Definition copy_text (n readable : Z) (s : string) : outcome string :=
  if readable <? n then Stuck OutOfBounds else Ret (str_take (Z.to_nat n) s).

Definition entry_type (type : ascii) : ftype :=
  if Ascii.eqb type "d" then PKG_FTYPE_DIR
  else if Ascii.eqb type "f" then PKG_FTYPE_FILE
  else if Ascii.eqb type "l" then PKG_FTYPE_LINK
  else if Ascii.eqb type "D" then PKG_FTYPE_DEV
  else if Ascii.eqb type "F" then PKG_FTYPE_FIFO
  else PKG_FTYPE_NONE.

(** [readable]: how many bytes can be read at a string; [room]: can an entry be
    allocated.  The result has the entries that are allocated. *)
Definition vfs_add_path (readable : string → Z) (room : bool) (type : ascii) (pkgid : Z) (path : option string)
    (uid gid : Z) (owner group : option string) (mode size ctime : Z)
    (p : proc) (entries : list vfs_cache_entry) : outcome (Z * proc * list vfs_cache_entry) :=
  if pkgid <? 1 then
    let! p := Log LOG_ERR ("vfs_add_path: pkgid " ++ fmt_d pkgid ++ " is not valid (<1)") p in
    Ret (-1, p, entries)
  else
    match path with
    | None =>
        let! p := Log LOG_ERR ("vfs_add_path: in pkg " ++ fmt_d pkgid ++ " got NULL path") p in
        Ret (-1, p, entries)
    | Some path =>
        let found := if Ascii.eqb type "d" then None else vfs_find path in
        match found with
        | Some fe =>
            let! p := Log LOG_ERR ("vfs_add_path: " ++ fmt_d pkgid ++ ":" ++ path ++ " already exists in pkg " ++
                                   fmt_d (ve_pkgid fe)) p in
            Ret (-1, p, entries)
        | None =>
            if negb room then
              let! p := Log LOG_ERR "vfs_add_path: error allocating memory" p in Ret (-1, p, entries)
            else
              let! path' := copy_text (PATH_MAX - 1) (readable path) path in
              let! owner' := match owner with Some o => copy_text 31 (readable o) o | None => Ret EmptyString end in
              let! group' := match group with Some g => copy_text 31 (readable g) g | None => Ret EmptyString end in
              let fe := VfsEntry path' "" (wrap32 pkgid) (wrap64 size) 0 (entry_type type) uid gid owner' group' mode ctime 0 0 in
              let! p := Log LOG_DEBUG ("vfs_add_path: Added <" ++ fmt_d pkgid ++ "> " ++ String type (":" ++ path)) p in
              Ret (0, p, entries ++ [fe])
        end
    end.

(** The path in the cache is an array, so it is never NULL: nothing is unpacked. *)
Definition vfs_unpack_tempfile (fe : option vfs_cache_entry) : Z * option vfs_cache_entry :=
  match fe with
  | None => (-1, None)
  | Some fe => (0, Some (VfsEntry (ve_path fe) (ve_cache_path fe) (ve_pkgid fe) (ve_size fe)
      ((ve_refcnt fe + 1) mod 2 ^ 16) (ve_type fe) (ve_uid fe) (ve_gid fe) (ve_owner fe) (ve_group fe) (ve_mode fe)
      (ve_ctime fe) (ve_mtime fe) (ve_atime fe)))
  end.
