(* ===== verification/Pkg.v ===== *)
(** * Packages (src/pkg.c, pkg.h) and the database lock (src/database.c)

    Handles are objects of their heap, by address; the cache is a list of nodes
    (Dlink) whose data are the addresses of handles.  What the system, libarchive
    and the allocators answer is in a record that an operation gets.  The lock is
    not recursive: locking it when it is held never returns ([Spin]). *)
From S2P Require Import Prelude CStd Conf Timestr Dlink Proc Vfs.
From Stdlib Require Import Ascii.

Local Open Scope Z_scope.

(** A handle; its [id] and [addr] are never used. *)
Record pkg_handle := PkgHandle {
  ph_pkgid : Z;
  ph_fd : Z;
  ph_refcnt : Z;
  ph_otime : Z;
  ph_name : option string
}.
Definition set_name (v : option string) (t : pkg_handle) : pkg_handle :=
  PkgHandle (ph_pkgid t) (ph_fd t) (ph_refcnt t) (ph_otime t) v.
Definition set_fd (v : Z) (t : pkg_handle) : pkg_handle :=
  PkgHandle (ph_pkgid t) v (ph_refcnt t) (ph_otime t) (ph_name t).
Definition set_pkgid (v : Z) (t : pkg_handle) : pkg_handle :=
  PkgHandle v (ph_fd t) (ph_refcnt t) (ph_otime t) (ph_name t).
Definition set_refcnt (v : Z) (t : pkg_handle) : pkg_handle :=
  PkgHandle (ph_pkgid t) (ph_fd t) v (ph_otime t) (ph_name t).
Definition set_otime (v : Z) (t : pkg_handle) : pkg_handle :=
  PkgHandle (ph_pkgid t) (ph_fd t) (ph_refcnt t) v (ph_name t).

(** A mapped file: its name, the range, the descriptor and the address. *)
Record pkg_file_mapping := Mapping {
  fm_pkg : option string;
  fm_len : Z;
  fm_offset : Z;
  fm_fd : Z;
  fm_addr : Z
}.

(** The state: the process, the nodes and the list of the cache, the handles and
    mappings in use, the last package number, the lock, the descriptors that are
    open and the entries of the file system's cache. *)
Record pkgs := Pkgs {
  k_proc : proc;
  k_nodes : nodes;
  k_list : dlink_list;
  k_handles : gmap Z pkg_handle;
  k_mappings : gmap Z pkg_file_mapping;
  k_pkgid : Z;
  k_locked : bool;
  k_fds : list Z;
  k_entries : list vfs_cache_entry
}.
Definition with_proc (v : proc) (s : pkgs) : pkgs :=
  Pkgs v (k_nodes s) (k_list s) (k_handles s) (k_mappings s) (k_pkgid s) (k_locked s) (k_fds s) (k_entries s).
Definition with_list (h : nodes) (l : dlink_list) (s : pkgs) : pkgs :=
  Pkgs (k_proc s) h l (k_handles s) (k_mappings s) (k_pkgid s) (k_locked s) (k_fds s) (k_entries s).
Definition with_handles (v : gmap Z pkg_handle) (s : pkgs) : pkgs :=
  Pkgs (k_proc s) (k_nodes s) (k_list s) v (k_mappings s) (k_pkgid s) (k_locked s) (k_fds s) (k_entries s).
Definition with_mappings (v : gmap Z pkg_file_mapping) (s : pkgs) : pkgs :=
  Pkgs (k_proc s) (k_nodes s) (k_list s) (k_handles s) v (k_pkgid s) (k_locked s) (k_fds s) (k_entries s).
Definition with_id (v : Z) (s : pkgs) : pkgs :=
  Pkgs (k_proc s) (k_nodes s) (k_list s) (k_handles s) (k_mappings s) v (k_locked s) (k_fds s) (k_entries s).
Definition with_lock (v : bool) (s : pkgs) : pkgs :=
  Pkgs (k_proc s) (k_nodes s) (k_list s) (k_handles s) (k_mappings s) (k_pkgid s) v (k_fds s) (k_entries s).
Definition with_fds (v : list Z) (s : pkgs) : pkgs :=
  Pkgs (k_proc s) (k_nodes s) (k_list s) (k_handles s) (k_mappings s) (k_pkgid s) (k_locked s) v (k_entries s).
Definition with_entries (v : list vfs_cache_entry) (s : pkgs) : pkgs :=
  Pkgs (k_proc s) (k_nodes s) (k_list s) (k_handles s) (k_mappings s) (k_pkgid s) (k_locked s) (k_fds s) v.

Definition log_pkg (level : Z) (text : string) (s : pkgs) : outcome pkgs :=
  let! p := Log level text (k_proc s) in Ret (with_proc p s).
Definition get_handle (p : Z) (s : pkgs) : outcome pkg_handle :=
  if p =? 0 then Stuck NullDeref else need BadPointer (k_handles s !! p).
Definition put_handle (p : Z) (t : pkg_handle) (s : pkgs) : pkgs := with_handles (<[p := t]> (k_handles s)) s.
(** [close]: a descriptor that is not open is an error without effect. *)
Definition close_fd (fd : Z) (s : pkgs) : pkgs := with_fds (filter (λ x, x ≠ fd) (k_fds s)) s.

(** ** The lock and the package numbers *)
Definition db_begin (s : pkgs) : outcome pkgs := if k_locked s then Spin else Ret (with_lock true s).
Definition db_commit (s : pkgs) : pkgs := with_lock false s.
Definition db_rollback (s : pkgs) : pkgs := with_lock false s.

(** [err]: 0 or the error of [stat]. *)
Definition db_pkg_add (err : Z) (s : pkgs) : outcome (Z * pkgs) :=
  if negb (err =? 0) then Ret (- err, s)
  else if k_pkgid s =? 2 ^ 31 - 1 then Stuck SignedOverflow
  else Ret (k_pkgid s + 1, with_id (k_pkgid s + 1) s).
Definition db_pkg_remove (s : pkgs) : Z * pkgs := (0, s).

(** ** Handles *)

(** More than the nodes of the list. *)
Definition list_fuel (s : pkgs) : nat := S (size (k_nodes s)).

Definition pkg_findnode (pkg : Z) (s : pkgs) : outcome Z :=
  find_from (list_fuel s) (k_nodes s) pkg (dl_head (k_list s)).

(** The node of a handle that is removed from the list is not released. *)
Definition pkg_release (pkg : Z) (s : pkgs) : outcome pkgs :=
  let! t := get_handle pkg s in
  let s := if bool_decide (is_Some (ph_name t)) then put_handle pkg (set_name None t) s else s in
  let! _ := conf_bool (k_proc s) "vfs.locking.host" 0 in
  let! t := get_handle pkg s in
  let s := if negb (ph_fd t =? 0) then put_handle pkg (set_fd (-1) t) (close_fd (ph_fd t) s) else s in
  let! ptr := pkg_findnode pkg s in
  if negb (ptr =? 0) then
    let! r := dlink_delete (k_nodes s) ptr (k_list s) in
    let s := with_list r.1 r.2 s in
    let! n := load (k_nodes s) ptr in
    let! _ := get_handle (dn_data n) s in
    Ret (with_handles (delete (dn_data n) (k_handles s)) s)
  else Ret s.

(** The loop of [pkg_handle_byname]: the address of the handle, 0 for NULL. *)
Fixpoint byname_loop (fuel : nat) (path : string) (ptr : Z) (s : pkgs) : outcome Z :=
  match fuel with
  | O => Spin
  | S fuel =>
      if ptr =? 0 then Ret 0
      else
        let! n := load (k_nodes s) ptr in
        let! t := get_handle (dn_data n) s in
        let! name := need NullDeref (ph_name t) in
        if String.eqb name path then Ret (dn_data n) else byname_loop fuel path (dn_next n) s
  end.
Definition pkg_handle_byname (path : string) (s : pkgs) : outcome Z :=
  byname_loop (list_fuel s) path (dl_head (k_list s)) s.

Definition pkg_close (pkg : Z) (s : pkgs) : outcome pkgs :=
  let! t := get_handle pkg s in
  if ph_refcnt t =? - 2 ^ 31 then Stuck SignedOverflow
  else
    let t := set_refcnt (ph_refcnt t - 1) t in
    log_pkg LOG_DEBUG ("pkg_close: pkg " ++ fmt_s (ph_name t) ++ " refcnt == " ++ fmt_d (ph_refcnt t))
            (put_handle pkg t s).

Definition pkg_forget (path : string) (s : pkgs) : Z * pkgs :=
  let '(_, s) := db_pkg_remove s in (0, s).

(** ** Archives *)

(** What [archive_read_next_header] gives: an entry, or an error. *)
Record archive_entry := ArchiveEntry {
  ae_name : option string;
  ae_owner : option string;
  ae_group : option string;
  ae_uid : Z;
  ae_gid : Z;
  ae_strmode : string;
  ae_perm : Z;
  ae_mode : Z;
  ae_size : Z
}.
Inductive header := HdrEntry (e : archive_entry) | HdrError (code : Z) (text : option string).

(** The answers for one call of [pkg_open]: the addresses of a new handle and of a
    new node, the error of [stat], the result of [open], does [flock] succeed, the
    headers of the archive or the code that opening it gives, the code of freeing
    it (0 is ARCHIVE_OK), the time, and for the entries how many bytes can be read
    at a string and whether each can be allocated. *)
Record answers := Answers {
  w_handle : Z;
  w_node : Z;
  w_stat : Z;
  w_open : Z;
  w_flock : bool;
  w_archive : Z + list header;
  w_free : Z;
  w_time : Z;
  w_readable : string → Z;
  w_room : nat → bool
}.

(** The part of a path behind its last slash. *)
Fixpoint after_slash (acc s : string) : string :=
  match s with
  | EmptyString => acc
  | String c t => after_slash (if Ascii.eqb c "/" then t else acc) t
  end.
Definition basename (path : string) : string := after_slash path path.

Definition entry_char (strmode : string) : ascii :=
  match strmode with
  | String c _ => if Ascii.eqb c "d" then "d"%char else if Ascii.eqb c "l" then "l"%char else "f"%char
  | EmptyString => "f"%char
  end.

Definition entry_text (path : string) (e : archive_entry) : string :=
  "+ " ++ basename path ++ ":" ++ fmt_s (ae_name e) ++
  " (user: " ++ fmt_d (sint32 (ae_uid e)) ++ " " ++ fmt_s (ae_owner e) ++
  ") (group: " ++ fmt_d (sint32 (ae_gid e)) ++ " " ++ fmt_s (ae_group e) ++
  ") mode=" ++ fmt_o (ae_perm e) ++ " perms=" ++ ae_strmode e ++ " size:" ++ fmt_u (wrap64 (ae_size e)) ++ "@0".

(** The loop over the headers; the end of the list is the end of the archive. *)
Fixpoint import_loop (w : answers) (path : string) (pkgid : Z) (i : nat) (hdrs : list header) (s : pkgs) : outcome pkgs :=
  match hdrs with
  | [] => Ret s
  | HdrError r text :: _ =>
      log_pkg LOG_DEBUG ("pkg_open: libarchive read_next_header error " ++ fmt_d r ++ ": " ++ fmt_s text)
              (db_rollback s)
  | HdrEntry e :: hdrs =>
      let! r := vfs_add_path (w_readable w) (w_room w i) (entry_char (ae_strmode e)) pkgid (ae_name e)
        (ae_uid e) (ae_gid e) (ae_owner e) (ae_group e) (ae_mode e) (ae_size e) (w_time w)
        (k_proc s) (k_entries s) in
      let '(_, p, entries) := r in
      let s := with_entries entries (with_proc p s) in
      let! debug := conf_bool (k_proc s) "debug.pkg" 0 in
      let! s := if debug =? 1 then log_pkg LOG_DEBUG (entry_text path e) s else Ret s in
      import_loop w path pkgid (S i) hdrs s
  end.

Definition log_debug (level : Z) (text : string) (s : pkgs) : outcome pkgs :=
  let! debug := conf_bool (k_proc s) "debug.pkg" 0 in
  if debug =? 1 then log_pkg level text s else Ret s.

(** The headers of the archive, [None] for NULL. *)
Definition pkg_archive_open (archive : Z + list header) (path : string) (s : pkgs) : outcome (option (list header) * pkgs) :=
  match archive with
  | inl r =>
      let! s := log_pkg LOG_ERR ("package " ++ path ++ " is not valid: libarchive returned " ++ fmt_d r) s in
      Ret (None, s)
  | inr hdrs => Ret (Some hdrs, s)
  end.

(** A message when [archive_read_free] fails. *)
Definition archive_done (r : Z) (s : pkgs) : outcome pkgs :=
  if negb (r =? 0) then log_pkg LOG_ERR ("possible memory leak! archive_read_free() returned " ++ fmt_d r) s
  else Ret s.

(** A new handle: 0 when the package cannot be opened. *)
Definition pkg_import (w : answers) (path : string) (s : pkgs) : outcome (Z * pkgs) :=
  let! s := db_begin s in
  let t := w_handle w in
  let s := put_handle t (PkgHandle 0 0 0 0 (Some path)) s in
  let! r := db_pkg_add (w_stat w) s in
  let '(id, s) := r in
  let s := put_handle t (PkgHandle id (w_open w) 0 0 (Some path)) s in
  if w_open w <? 0 then
    let! s := log_pkg LOG_ERR ("failed opening pkg " ++ path ++ ", bailing...") s in
    let! s := pkg_release t s in Ret (0, s)
  else
    let s := with_fds (w_open w :: k_fds s) s in
    let! locking := conf_bool (k_proc s) "vfs.locking.host" 0 in
    if negb (locking =? 0) && negb (w_flock w) then
      let! s := log_pkg LOG_ERR ("failed locking package " ++ path ++ ", bailing...") s in
      let! s := pkg_release t s in Ret (0, s)
    else
      let! l := dlink_add_tail (<[w_node w := DNode 0 0 0]> (k_nodes s)) t (w_node w) (k_list s) in
      let s := with_list l.1 l.2 s in
      let! s := log_debug LOG_DEBUG ("BEGIN import pkg " ++ basename path) s in
      let! a := pkg_archive_open (w_archive w) path s in
      let '(a, s) := a in
      match a with
      | None => Ret (0, s)
      | Some hdrs =>
          let! s := log_pkg LOG_DEBUG ("package " ++ path ++ " appears valid, assigning pkgid " ++ fmt_d id) s in
          let! s := import_loop w path id 0 hdrs s in
          let! s := archive_done (w_free w) s in
          let s := db_commit s in
          let! s := log_debug LOG_INFO ("SUCCESS import pkg " ++ basename path) s in
          Ret (t, s)
      end.

(** The handle, 0 for NULL. *)
Definition pkg_open (w : answers) (path : string) (s : pkgs) : outcome (Z * pkgs) :=
  let! s := log_pkg LOG_DEBUG ("pkg_open: beginning for: " ++ path) s in
  let! t := pkg_handle_byname path s in
  let! r := if t =? 0 then pkg_import w path s else Ret (t, s) in
  let '(t, s) := r in
  if t =? 0 then Ret (0, s)
  else
    let! h := get_handle t s in
    if ph_refcnt h =? 2 ^ 31 - 1 then Stuck SignedOverflow
    else Ret (t, put_handle t (set_refcnt (ph_refcnt h + 1) (set_otime (w_time w) h)) s).

(** The headers are read and dropped; the lock is given back though it is not held.
    [archive], [err], [free]: the second answers for the archive, for [stat] and for
    the release of the archive.  The result is NULL. *)
Definition pkg_extract_file (w : answers) (archive : Z + list header) (err free : Z) (pkgid : Z) (path : string)
    (s : pkgs) : outcome (option string * pkgs) :=
  let! s := log_debug LOG_DEBUG ("BEGIN extractfile <" ++ fmt_d (sint32 pkgid) ++ "> " ++ basename path) s in
  let! r := pkg_open w path s in
  let '(pkg, s) := r in
  let! a := pkg_archive_open archive path s in
  let '(a, s) := a in
  let! r := db_pkg_add err s in
  let '(id, s) := r in
  let! t := get_handle pkg s in
  let s := put_handle pkg (set_pkgid id t) s in
  let! s := log_pkg LOG_DEBUG ("package " ++ path ++ " appears valid, assigning pkgid " ++ fmt_d id) s in
  let! hdrs := need NullDeref a in
  let! s :=
    match find (λ h, match h with HdrError _ _ => true | _ => false end) hdrs with
    | Some (HdrError r text) =>
        log_pkg LOG_DEBUG ("pkg_open: libarchive read_next_header error " ++ fmt_d r ++ ": " ++ fmt_s text) s
    | _ => Ret s
    end in
  let! s := archive_done free s in
  let s := db_commit s in
  let! s := log_debug LOG_INFO ("SUCCESS extract file to cache: <" ++ fmt_d id ++ "> " ++ basename path) s in
  Ret (None, s).

(** ** Garbage collection *)

(** The successor is read before the handle is released. *)
Fixpoint pkg_gc_loop (fuel : nat) (now lifetime ptr : Z) (s : pkgs) : outcome pkgs :=
  match fuel with
  | O => Spin
  | S fuel =>
      if ptr =? 0 then Ret s
      else
        let! n := load (k_nodes s) ptr in
        let! t := get_handle (dn_data n) s in
        let! s :=
          if ph_refcnt t =? 0 then
            let! limit := slong (ph_otime t + lifetime) in
            if limit <? now then pkg_release (dn_data n) s else Ret s
          else Ret s in
        pkg_gc_loop fuel now lifetime (dn_next n) s
  end.

(** [now]: the time; the collection of the heaps does not touch objects in use. *)
Definition pkg_gc (now lifetime : Z) (s : pkgs) : outcome (Z * pkgs) :=
  let! s := pkg_gc_loop (list_fuel s) now lifetime (dl_head (k_list s)) s in Ret (0, s).

(** ** Mapped files *)

(** [MAP_FAILED] is -1. *)
Definition pkg_unmap_file (p : Z) (s : pkgs) : outcome pkgs :=
  if p =? 0 then Stuck NullDeref
  else
    let! m := need BadPointer (k_mappings s !! p) in
    let s := if 0 <? fm_fd m then close_fd (fm_fd m) s else s in
    Ret (with_mappings (delete p (k_mappings s)) s).

(** [p]: the new object; [fd], [addr]: the results of [open] and [mmap]; [err]: the
    text of the error. *)
Definition pkg_map_file (p fd addr : Z) (err : string) (path : string) (len offset : Z) (s : pkgs) : outcome (Z * pkgs) :=
  let s := with_mappings (<[p := Mapping (Some path) len offset fd 0]> (k_mappings s)) s in
  if fd =? -1 then
    let! s := log_pkg LOG_ERR ("pkg_map_file:open:" ++ path ++ " " ++ err) s in
    let! s := pkg_unmap_file p s in Ret (0, s)
  else
    let s := with_fds (fd :: k_fds s) s in
    let s := with_mappings (<[p := Mapping (Some path) len offset fd addr]> (k_mappings s)) s in
    if addr =? -1 then
      let! s := log_pkg LOG_ERR ("pkg_map_file:mmap: " ++ err) s in
      let! s := pkg_unmap_file p s in Ret (p, s)
    else Ret (p, s).
