(* ===== verification/ObjList.v ===== *)
(** * Lists of objects

    A list of Dlink whose data are the addresses of objects in a heap of their own:
    the cache of packages and the watch list are such lists.  A cell is the address
    of a node, the address of its object, and the object. *)
From S2P Require Import Prelude Dlink DlinkSpec.

Local Open Scope Z_scope.

Section olist.
Context {A : Type}.
Implicit Types (objs : gmap Z A) (cs : list (Z * Z * A)) (c : Z * Z * A).

Record olist (h : nodes) (l : dlink_list) objs cs : Prop := {
  ol_list : dll h l cs.*1;
  ol_small : Z.of_nat (length cs) < 2 ^ 63;
  ol_obj c : c ∈ cs → c.1.2 ≠ 0 ∧ objs !! c.1.2 = Some c.2;
  ol_addrs : NoDup cs.*1.*2
}.

Lemma in_middle c (pre post : list (Z * Z * A)) : c ∈ pre ++ c :: post.
Proof. rewrite elem_of_app, elem_of_cons. auto. Qed.

Lemma olist_fuel h l objs cs : olist h l objs cs → (length cs < S (size h))%nat.
Proof.
  intros [Hl _ _ _]. pose proof (lseg_size h 0 cs.*1 0 (dll_seg _ _ _ Hl) (dll_nodup _ _ _ Hl)) as H.
  rewrite length_fmap in H. lia.
Qed.

(** Searching the node of an object. *)
Lemma olist_find h l objs cs p : olist h l objs cs →
  find_from (S (size h)) h p (dl_head l) = Ret (default 0 (fst <$> head (filter (λ x, x.2 = p) cs.*1))).
Proof.
  intros Hr. rewrite (dll_hd _ _ _ (ol_list _ _ _ _ Hr)).
  apply (find_from_ok _ 0); [apply (dll_seg _ _ _ (ol_list _ _ _ _ Hr))|].
  rewrite length_fmap. by eapply olist_fuel.
Qed.

Lemma olist_find_at h l objs pre c post : olist h l objs (pre ++ c :: post) →
  find_from (S (size h)) h c.1.2 (dl_head l) = Ret c.1.1.
Proof.
  intros Hr. rewrite (olist_find _ _ _ _ _ Hr). do 2 f_equal.
  pose proof (ol_addrs _ _ _ _ Hr) as Hnd. rewrite fmap_app, fmap_app in Hnd.
  apply NoDup_app in Hnd as (_ & Hd & _). rewrite fmap_app, filter_app.
  rewrite (filter_none _ pre.*1); [cbn; by rewrite decide_True|].
  apply Forall_forall. intros x Hx E. apply (Hd x.2); [by apply list_elem_of_fmap_2|]. rewrite E. cbn. left.
Qed.

Lemma olist_find_none h l objs cs p : olist h l objs cs → p ∉ cs.*1.*2 →
  find_from (S (size h)) h p (dl_head l) = Ret 0.
Proof.
  intros Hr Hn. rewrite (olist_find _ _ _ _ _ Hr), filter_none; [done|].
  apply Forall_forall. intros x Hx E. apply Hn. rewrite <- E. by apply list_elem_of_fmap_2.
Qed.

(** The objects outside of the list do not matter. *)
Lemma olist_objs h l objs objs' cs :
  olist h l objs cs → (∀ c, c ∈ cs → objs' !! c.1.2 = objs !! c.1.2) → olist h l objs' cs.
Proof. intros [H1 H2 H3 H4] Hh. split; try done. intros c Hc. rewrite Hh by done. by apply H3. Qed.

Lemma olist_absent h l objs cs p : olist h l objs cs → objs !! p = None → p ∉ cs.*1.*2.
Proof.
  intros Hr Hp Hin. rewrite <- list_fmap_compose in Hin. apply list_elem_of_fmap in Hin as (c & -> & Hc).
  destruct (ol_obj _ _ _ _ Hr c Hc) as [_ E]. cbn in Hp. congruence.
Qed.

Lemma cell_at pre c post c' :
  NoDup (pre ++ c :: post).*1.*2 → c' ∈ pre ++ c :: post → c'.1.2 = c.1.2 → c' = c.
Proof.
  intros H4 Hc E. rewrite fmap_app, fmap_app in H4. apply NoDup_app in H4 as (_ & Hd & Hnd).
  cbn in Hnd, Hd. apply NoDup_cons in Hnd as [Hnin _]. rewrite elem_of_app, elem_of_cons in Hc.
  destruct Hc as [Hc|[->|Hc]]; [|done|].
  - exfalso. apply (Hd c'.1.2); [by do 2 apply list_elem_of_fmap_2|]. rewrite E. left.
  - exfalso. apply Hnin. rewrite <- E. by do 2 apply list_elem_of_fmap_2.
Qed.

(** The object of one cell changes. *)
Lemma olist_update h l objs pre c post t :
  olist h l objs (pre ++ c :: post) → olist h l (<[c.1.2 := t]> objs) (pre ++ (c.1, t) :: post).
Proof.
  intros [H1 H2 H3 H4]. assert ((pre ++ (c.1, t) :: post).*1 = (pre ++ c :: post).*1) as Hf by by rewrite !fmap_app.
  split; [by rewrite Hf| |intros c' Hc'|by rewrite Hf].
  { rewrite length_app in *. done. }
  destruct (decide (c'.1.2 = c.1.2)) as [E|E].
  - rewrite (cell_at pre (c.1, t) post c'); [|by rewrite Hf|done|done].
    cbn [fst snd]. rewrite lookup_insert_eq. split; [|done]. apply (H3 c), in_middle.
  - rewrite lookup_insert_ne by congruence. apply H3. rewrite elem_of_app, elem_of_cons in *.
    destruct Hc' as [?|[->|?]]; [auto|by destruct E|auto].
Qed.

(** A cell is taken out: its node is unlinked, its object released. *)
Lemma olist_remove h l objs pre c post : olist h l objs (pre ++ c :: post) →
  ∃ h' l' n, dlink_delete h c.1.1 l = Ret (h', l') ∧ load h' c.1.1 = Ret n ∧ dn_data n = c.1.2 ∧ c.1.1 ≠ 0 ∧
    olist h' l' (delete c.1.2 objs) (pre ++ post).
Proof.
  intros [H1 H2 H3 H4]. assert (Z.of_nat (length (pre ++ post)) < 2 ^ 63) as Hlen
    by (rewrite length_app in *; cbn [length] in H2; lia).
  destruct c as [[m d] t]. cbn [fst snd] in *. rewrite fmap_app in H1. cbn [fmap list_fmap fst] in H1.
  destruct (dll_split _ _ _ _ _ _ H1) as (_ & Hm & Hn & _).
  destruct (delete_ok _ _ _ _ _ _ H1) as (h' & l' & Hd & Hl' & Hsame & Hf).
  { rewrite (dll_len _ _ _ H1). change (m, d) with (m, d, t).1. rewrite <- fmap_cons, <- fmap_app, length_fmap. lia. }
  exists h', l', (DNode d (hd 0 post.*1.*1) (lastp 0 pre.*1)).
  split_and!; [done|apply load_some; [done|congruence]|done|done|]. rewrite <- fmap_app in Hl'. split; [done|done| |].
  - intros c' Hc'. destruct (H3 c') as [Hz Hh]; [rewrite elem_of_app, elem_of_cons in *; tauto|]. split; [done|].
    rewrite lookup_delete_ne; [done|]. intros E. rewrite !fmap_app in H4. cbn in H4.
    rewrite <- Permutation_middle, NoDup_cons in H4. destruct H4 as [Hnin _]. apply Hnin. rewrite E.
    rewrite <- !fmap_app. by do 2 apply list_elem_of_fmap_2.
  - rewrite !fmap_app in *. cbn in H4. rewrite <- Permutation_middle, NoDup_cons in H4. tauto.
Qed.

(** A new cell at the end. *)
Lemma olist_add h l objs cs nd p t :
  olist h l objs cs → Z.of_nat (length cs) + 1 < 2 ^ 63 → nd ≠ 0 → h !! nd = None → p ≠ 0 → objs !! p = None →
  ∃ h' l', dlink_add_tail (<[nd := DNode 0 0 0]> h) p nd l = Ret (h', l') ∧
    olist h' l' (<[p := t]> objs) (cs ++ [(nd, p, t)]).
Proof.
  intros Hr Hsm Hnd Hfree Hp Hnew. pose proof (olist_absent _ _ _ _ _ Hr Hnew) as Hpn. destruct Hr as [H1 H2 H3 H4].
  assert (nd ∉ cs.*1.*1) as Hnin.
  { intros Hin. destruct (lseg_nonzero _ _ _ _ _ (dll_seg _ _ _ H1) Hin) as [_ [? E]]. congruence. }
  destruct (add_tail_ok (<[nd := DNode 0 0 0]> h) l cs.*1 p nd) as (h' & l' & Hadd & Hl & _).
  - apply (dll_ext h); [done|]. intros a Ha. apply lookup_insert_ne. intros ->. done.
  - done.
  - rewrite lookup_insert_eq. by eexists.
  - done.
  - rewrite (dll_len _ _ _ H1), length_fmap. lia.
  - exists h', l'. split; [done|]. split.
    + rewrite fmap_app. done.
    + rewrite length_app. cbn [length]. lia.
    + intros c Hc. apply elem_of_app in Hc as [Hc|Hc].
      * destruct (H3 c Hc) as [Hz E]. split; [done|]. rewrite lookup_insert_ne; [done|]. congruence.
      * apply list_elem_of_singleton in Hc as ->. cbn. by rewrite lookup_insert_eq.
    + rewrite !fmap_app. cbn. rewrite <- Permutation_cons_append, NoDup_cons. done.
Qed.
End olist.
