(* ===== verification/PkgSpec.v ===== *)
(** * The package cache

    The cache is a sequence of handles with different names; opening, closing and
    garbage collection act on that sequence.  A package that cannot be opened
    leaves the database locked. *)
From S2P Require Import Prelude CStd Conf Dlink DlinkSpec ObjList Proc ProcSpec Vfs Pkg.
From Stdlib Require Import Ascii.

Local Open Scope Z_scope.

(** A node of the cache, the address of its handle, and the handle. *)
Abbreviation cell := (Z * Z * pkg_handle)%type.

Record rep (s : pkgs) (cs : list cell) : Prop := {
  rep_cells : olist (k_nodes s) (k_list s) (k_handles s) cs;
  rep_named c : c ∈ cs → is_Some (ph_name c.2);
  rep_names : NoDup (ph_name <$> cs.*2);
  rep_logs : logs (k_proc s)
}.

Lemma rep_list s cs : rep s cs → dll (k_nodes s) (k_list s) cs.*1.
Proof. intros Hr. apply (ol_list _ _ _ _ (rep_cells _ _ Hr)). Qed.
Lemma rep_handle s cs c : rep s cs → c ∈ cs → c.1.2 ≠ 0 ∧ k_handles s !! c.1.2 = Some c.2.
Proof. intros Hr. apply (ol_obj _ _ _ _ (rep_cells _ _ Hr)). Qed.
Lemma rep_fuel s cs : rep s cs → (length cs < list_fuel s)%nat.
Proof. intros Hr. apply (olist_fuel _ _ _ _ (rep_cells _ _ Hr)). Qed.

Lemma get_handle_ok s cs c : rep s cs → c ∈ cs → get_handle c.1.2 s = Ret c.2.
Proof.
  intros Hr Hc. destruct (rep_handle _ _ c Hr Hc) as [Hz Hh]. unfold get_handle.
  destruct (Z.eqb_spec c.1.2 0); [done|]. by rewrite Hh.
Qed.

Definition same_name (path : string) (c : cell) : bool := bool_decide (ph_name c.2 = Some path).

Lemma byname_loop_ok s path todo : ∀ fuel p,
  lseg (k_nodes s) p todo.*1 0 →
  (∀ c, c ∈ todo → get_handle c.1.2 s = Ret c.2 ∧ is_Some (ph_name c.2)) → (length todo < fuel)%nat →
  byname_loop fuel path (hd 0 todo.*1.*1) s =
    Ret (default 0 ((λ c, c.1.2) <$> head (filter (same_name path) todo))).
Proof.
  induction todo as [|[[a t] h] todo IH]; intros [|fuel] p Hs Hh Hf; cbn in Hf; try lia; [done|].
  destruct Hs as (Ha & Hn & Hs). cbn [byname_loop fmap list_fmap fst hd].
  destruct (Z.eqb_spec a 0); [done|]. rewrite (load_some _ _ _ Ha Hn), bind_ret. cbn [dn_data dn_next].
  destruct (Hh (a, t, h)) as [Hg [name Hname]]; [left|]. cbn [fst snd] in Hg, Hname.
  rewrite Hg, bind_ret, Hname. cbn [need]. rewrite bind_ret, filter_cons.
  assert (same_name path (a, t, h) = String.eqb name path) as E.
  { unfold same_name. cbn [snd]. rewrite Hname. destruct (String.eqb_spec name path) as [->|].
    - by apply bool_decide_true.
    - apply bool_decide_false. congruence. }
  destruct (String.eqb name path).
  - rewrite (decide_True (P := same_name path (a, t, h))) by (rewrite E; exact I). done.
  - rewrite (decide_False (P := same_name path (a, t, h))) by (rewrite E; intros []).
    apply (IH fuel a); [done| |lia]. intros c Hc. apply Hh. by right.
Qed.

Lemma byname_ok s cs path : rep s cs →
  pkg_handle_byname path s = Ret (default 0 ((λ c, c.1.2) <$> head (filter (same_name path) cs))).
Proof.
  intros Hr. unfold pkg_handle_byname. rewrite (dll_hd _ _ _ (rep_list _ _ Hr)).
  apply (byname_loop_ok s path cs _ 0).
  - apply (dll_seg _ _ _ (rep_list _ _ Hr)).
  - intros c Hc. split; [by eapply get_handle_ok|by eapply rep_named].
  - by apply rep_fuel.
Qed.

Lemma findnode_ok s pre c post : rep s (pre ++ c :: post) → pkg_findnode c.1.2 s = Ret c.1.1.
Proof. intros Hr. by eapply olist_find_at, rep_cells. Qed.

(** The cache does not depend on the rest of the state. *)
Lemma cache_ext s s' cs :
  rep s cs → k_nodes s' = k_nodes s → k_list s' = k_list s → logs (k_proc s') →
  (∀ c, c ∈ cs → k_handles s' !! c.1.2 = k_handles s !! c.1.2) → rep s' cs.
Proof.
  intros [H1 H5 H6 H7] Hn Hl Hg Hh. split; try done. rewrite Hn, Hl. by apply (olist_objs _ _ (k_handles s)).
Qed.

(** The handle of one cell changes, but not its name. *)
Lemma rep_update s pre c post t :
  rep s (pre ++ c :: post) → ph_name t = ph_name c.2 →
  rep (put_handle c.1.2 t s) (pre ++ (c.1, t) :: post).
Proof.
  intros [H1 H5 H6 H7] Hn. split; [by apply olist_update|intros c' Hc'| |done].
  - rewrite elem_of_app, elem_of_cons in Hc'.
    destruct Hc' as [Hc'|[->|Hc']]; [|cbn [snd]; rewrite Hn|]; apply H5; rewrite elem_of_app, elem_of_cons; auto.
  - rewrite !fmap_app in *. cbn in *. by rewrite Hn.
Qed.

(** ** Messages *)
Lemma log_pkg_ok level text s : logs (k_proc s) →
  ∃ es, log_pkg level text s = Ret (with_proc (emits es (k_proc s)) s).
Proof. intros Hl. unfold log_pkg. rewrite Log_ok by done. rewrite bind_ret. by eexists. Qed.

Lemma log_debug_ok level text s : logs (k_proc s) →
  ∃ es, log_debug level text s = Ret (with_proc (emits es (k_proc s)) s).
Proof.
  intros Hl. unfold log_debug. destruct (conf_bool_total "debug.pkg" 0 _ Hl) as [b ->]. rewrite bind_ret.
  destruct (b =? 1); [by apply log_pkg_ok|]. exists []. rewrite emits_nil. by destruct s.
Qed.

(** ** Release and garbage collection *)

Definition closes (t : pkg_handle) (fds : list Z) : list Z :=
  if ph_fd t =? 0 then fds else filter (λ x, x ≠ ph_fd t) fds.

(** The fields that the cache operations leave alone. *)
Record leaves (s s' : pkgs) : Prop := {
  lv_proc : k_proc s' = k_proc s;
  lv_id : k_pkgid s' = k_pkgid s;
  lv_locked : k_locked s' = k_locked s;
  lv_entries : k_entries s' = k_entries s;
  lv_mappings : k_mappings s' = k_mappings s
}.
Lemma leaves_trans s1 s2 s3 : leaves s1 s2 → leaves s2 s3 → leaves s1 s3.
Proof. intros [] []. split; congruence. Qed.
Lemma leaves_refl s : leaves s s.
Proof. by split. Qed.

(** The name is cleared and the file closed. *)
Definition emptied (t : pkg_handle) : pkg_handle :=
  let t := match ph_name t with Some _ => set_name None t | None => t end in
  if ph_fd t =? 0 then t else set_fd (-1) t.

Lemma release_handle p t s :
  p ≠ 0 → k_handles s !! p = Some t → logs (k_proc s) →
  pkg_release p s =
    let s := with_fds (closes t (k_fds s)) (put_handle p (emptied t) s) in
    let! ptr := pkg_findnode p s in
    if negb (ptr =? 0) then
      let! r := dlink_delete (k_nodes s) ptr (k_list s) in
      let s := with_list r.1 r.2 s in
      let! n := load (k_nodes s) ptr in
      let! _ := get_handle (dn_data n) s in
      Ret (with_handles (delete (dn_data n) (k_handles s)) s)
    else Ret s.
Proof.
  intros Hp Ht Hl. unfold pkg_release. unfold get_handle at 1. destruct (Z.eqb_spec p 0); [done|].
  rewrite Ht. cbn [need]. rewrite bind_ret. unfold emptied, closes.
  set (s1 := if bool_decide _ then _ else s).
  assert (∃ t1, k_handles s1 !! p = Some t1 ∧ ph_fd t1 = ph_fd t ∧
    s1 = put_handle p t1 s ∧ t1 = match ph_name t with Some _ => set_name None t | None => t end) as (t1 & Ht1 & Hfd & Hs1 & Et1).
  { unfold s1. destruct (ph_name t) as [nm|] eqn:En.
    - rewrite bool_decide_true by (by eexists). exists (set_name None t).
      cbn [put_handle with_handles k_handles]. by rewrite lookup_insert_eq.
    - rewrite bool_decide_false by (by intros [? ?]). exists t. split_and!; [done|done| |done].
      unfold put_handle. rewrite insert_id by done. by destruct s. }
  clearbody s1. subst s1. destruct (conf_bool_total "vfs.locking.host" 0 (k_proc (put_handle p t1 s)) Hl) as [b ->].
  rewrite bind_ret. unfold get_handle at 1. destruct (Z.eqb_spec p 0); [done|]. rewrite Ht1. cbn [need].
  rewrite bind_ret, <- Et1, Hfd. cbv zeta. destruct (ph_fd t =? 0); cbn [negb].
  - assert (with_fds (k_fds s) (put_handle p t1 s) = put_handle p t1 s) as -> by done. done.
  - assert (put_handle p (set_fd (-1) t1) (close_fd (ph_fd t) (put_handle p t1 s)) =
      with_fds (filter (λ x, x ≠ ph_fd t) (k_fds s)) (put_handle p (set_fd (-1) t1) s)) as ->.
    { unfold put_handle, close_fd, with_handles, with_fds. cbn. by rewrite insert_insert_eq. }
    done.
Qed.

Lemma release_ok s pre c post : rep s (pre ++ c :: post) →
  ∃ s', pkg_release c.1.2 s = Ret s' ∧ rep s' (pre ++ post) ∧ leaves s s' ∧
    k_fds s' = closes c.2 (k_fds s) ∧ k_handles s' = delete c.1.2 (k_handles s).
Proof.
  intros Hr. destruct (rep_handle _ _ c Hr (in_middle c pre post)) as [Hz Hh]. pose proof (rep_logs _ _ Hr) as Hlog.
  rewrite (release_handle _ _ _ Hz Hh Hlog). cbv zeta. set (s1 := with_fds _ _).
  change (pkg_findnode c.1.2 s1) with (pkg_findnode c.1.2 s). rewrite (findnode_ok _ _ _ _ Hr), bind_ret.
  destruct (olist_remove _ _ _ _ _ _ (rep_cells _ _ Hr)) as (h' & l' & n & Hd & Hn & En & Hm & Hl').
  destruct (Z.eqb_spec c.1.1 0); [done|]. cbn [negb].
  change (k_nodes s1) with (k_nodes s). change (k_list s1) with (k_list s). rewrite Hd, bind_ret. cbn [fst snd].
  change (k_nodes (with_list h' l' s1)) with h'. rewrite Hn, bind_ret, En.
  assert (get_handle c.1.2 (with_list h' l' s1) = Ret (emptied c.2)) as ->.
  { unfold get_handle. destruct (Z.eqb_spec c.1.2 0); [done|]. cbn. by rewrite lookup_insert_eq. }
  rewrite bind_ret.
  assert (delete c.1.2 (k_handles (with_list h' l' s1)) = delete c.1.2 (k_handles s)) as Hdel.
  { cbn. by rewrite delete_insert_eq. }
  eexists. split; [done|]. split_and!; [|by split|done|done].
  destruct Hr as [_ H5 H6 H7]. split; [| | |done].
  - change (olist h' l' (delete c.1.2 (k_handles (with_list h' l' s1))) (pre ++ post)). by rewrite Hdel.
  - intros c' Hc'. apply H5. rewrite elem_of_app, elem_of_cons in *. tauto.
  - rewrite !fmap_app in *. cbn in H6. rewrite <- Permutation_middle, NoDup_cons in H6. tauto.
Qed.

(** ** Garbage collection *)

(** What the collection removes at time [now]. *)
Definition expired (now lifetime : Z) (c : cell) : bool :=
  (ph_refcnt c.2 =? 0) && (ph_otime c.2 + lifetime <? now).
Definition collected (now lifetime : Z) (cs : list cell) : list cell :=
  filter (λ c, expired now lifetime c = false) cs.
Definition close_all (now lifetime : Z) (cs : list cell) (fds : list Z) : list Z :=
  fold_left (λ fds c, if expired now lifetime c then closes c.2 fds else fds) cs fds.

Definition in_range (lifetime : Z) (c : cell) : Prop := - 2 ^ 63 ≤ ph_otime c.2 + lifetime < 2 ^ 63.

Lemma gc_step now lifetime fuel kept c todo s :
  rep s (kept ++ c :: todo) → in_range lifetime c →
  ∃ s1, pkg_gc_loop (S fuel) now lifetime (hd 0 (c :: todo).*1.*1) s =
      pkg_gc_loop fuel now lifetime (hd 0 todo.*1.*1) s1 ∧
    rep s1 ((if expired now lifetime c then kept else kept ++ [c]) ++ todo) ∧ leaves s s1 ∧
    k_fds s1 = (if expired now lifetime c then closes c.2 (k_fds s) else k_fds s).
Proof.
  intros Hr Hin. pose proof (in_middle c kept todo) as Hc.
  pose proof (get_handle_ok _ _ _ Hr Hc) as Hg. pose proof (rep_list _ _ Hr) as Hl.
  destruct (release_ok _ _ _ _ Hr) as (s' & Hrel & Hr' & Hlv & Hfds & _).
  rewrite fmap_app in Hl. destruct c as [[m d] t]. cbn [fmap list_fmap fst snd hd] in *.
  destruct (dll_split _ _ _ _ _ _ Hl) as (_ & Hm & Hn & _).
  cbn [pkg_gc_loop]. destruct (Z.eqb_spec m 0); [done|]. rewrite (load_some _ _ _ Hm Hn), bind_ret.
  cbn [dn_data dn_next]. rewrite Hg, bind_ret. unfold expired. cbn [snd].
  destruct (ph_refcnt t =? 0); cbn [andb].
  - unfold in_range in Hin. cbn [snd] in Hin. rewrite slong_ok by done. rewrite bind_ret.
    destruct (ph_otime t + lifetime <? now).
    + exists s'. rewrite Hrel, bind_ret. done.
    + exists s. rewrite bind_ret, <- app_assoc. split_and!; [done|done|apply leaves_refl|done].
  - exists s. rewrite bind_ret, <- app_assoc. split_and!; [done|done|apply leaves_refl|done].
Qed.

Lemma collect_loop_ok now lifetime todo : ∀ fuel kept s,
  rep s (kept ++ todo) → Forall (in_range lifetime) todo → (length todo < fuel)%nat →
  ∃ s', pkg_gc_loop fuel now lifetime (hd 0 todo.*1.*1) s = Ret s' ∧
    rep s' (kept ++ collected now lifetime todo) ∧ leaves s s' ∧ k_fds s' = close_all now lifetime todo (k_fds s).
Proof.
  induction todo as [|c todo IH]; intros [|fuel] kept s Hr Hin Hf; cbn [length] in Hf; try lia.
  { exists s. split_and!; [done|done|apply leaves_refl|done]. }
  apply Forall_cons in Hin as [Hc Hin].
  destruct (gc_step now lifetime fuel _ _ _ _ Hr Hc) as (s1 & -> & Hr1 & Hlv1 & Hfds1).
  destruct (IH fuel _ s1 Hr1 Hin) as (s' & -> & Hr' & Hlv' & Hfds'); [lia|].
  exists s'. unfold close_all in *. cbn [fold_left]. rewrite <- Hfds1.
  split_and!; [done| |by eapply leaves_trans|done].
  unfold collected. rewrite filter_cons. destruct (expired now lifetime c); [done|].
  rewrite decide_True by done. by rewrite <- app_assoc in Hr'.
Qed.

Lemma collect_ok now lifetime s cs : rep s cs → Forall (in_range lifetime) cs →
  ∃ s', pkg_gc now lifetime s = Ret (0, s') ∧ rep s' (collected now lifetime cs) ∧ leaves s s' ∧
    k_fds s' = close_all now lifetime cs (k_fds s).
Proof.
  intros Hr Hin. unfold pkg_gc. rewrite (dll_hd _ _ _ (rep_list _ _ Hr)).
  destruct (collect_loop_ok now lifetime cs (list_fuel s) [] s Hr Hin) as (s' & -> & H); [by apply rep_fuel|].
  rewrite bind_ret. by exists s'.
Qed.

(** ** Files of a package *)

Definition copied (o : option string) : string := match o with Some o => str_take 31 o | None => EmptyString end.

(** The entry made for a file: a file without a name and one for which there is no
    room are skipped. *)
Definition entry_of (now pkgid : Z) (room : bool) (e : archive_entry) : option vfs_cache_entry :=
  match ae_name e with
  | Some path =>
      if room then Some (VfsEntry (str_take (Z.to_nat (PATH_MAX - 1)) path) "" (wrap32 pkgid) (wrap64 (ae_size e)) 0
        (entry_type (entry_char (ae_strmode e))) (ae_uid e) (ae_gid e) (copied (ae_owner e)) (copied (ae_group e))
        (ae_mode e) now 0 0)
      else None
  | None => None
  end.

(** The copies read [n] bytes, however long the strings are. *)
Definition readable_for (w : answers) (n : Z) (s : option string) : Prop :=
  match s with Some s => n ≤ w_readable w s | None => True end.
Definition good_header (w : answers) (h : header) : Prop :=
  match h with
  | HdrEntry e => readable_for w (PATH_MAX - 1) (ae_name e) ∧ readable_for w 31 (ae_owner e) ∧ readable_for w 31 (ae_group e)
  | HdrError _ _ => True
  end.

(** What the import adds; it stops at the first error. *)
Fixpoint imported (w : answers) (pkgid : Z) (i : nat) (hdrs : list header) : list vfs_cache_entry :=
  match hdrs with
  | HdrEntry e :: hdrs =>
      option_list (entry_of (w_time w) pkgid (w_room w i) e) ++ imported w pkgid (S i) hdrs
  | _ => []
  end.

Lemma copy_ok w n s : readable_for w n (Some s) → copy_text n (w_readable w s) s = Ret (str_take (Z.to_nat n) s).
Proof. cbn. intros H. unfold copy_text. destruct (Z.ltb_spec (w_readable w s) n); [lia|done]. Qed.

Lemma copy_opt w o : readable_for w 31 o →
  match o with Some o => copy_text 31 (w_readable w o) o | None => Ret EmptyString end = Ret (copied o).
Proof. destruct o as [o|]; [|done]. intros H. by rewrite (copy_ok w). Qed.

Lemma vfs_add_path_ok w room pkgid e p entries :
  1 ≤ pkgid → good_header w (HdrEntry e) → logs p →
  ∃ r es, vfs_add_path (w_readable w) room (entry_char (ae_strmode e)) pkgid (ae_name e) (ae_uid e) (ae_gid e)
      (ae_owner e) (ae_group e) (ae_mode e) (ae_size e) (w_time w) p entries =
    Ret (r, emits es p, entries ++ option_list (entry_of (w_time w) pkgid room e)).
Proof.
  intros Hid (Hname & Howner & Hgroup) Hl. unfold vfs_add_path, entry_of.
  destruct (Z.ltb_spec pkgid 1); [lia|]. destruct (ae_name e) as [path|].
  - assert ((if Ascii.eqb (entry_char (ae_strmode e)) "d" then None else vfs_find path) = None) as ->
      by by destruct (Ascii.eqb _ _).
    destruct room; cbn [negb].
    + rewrite (copy_ok w) by done. rewrite bind_ret, !(copy_opt w) by done. rewrite !bind_ret, Log_ok by done.
      rewrite bind_ret. by do 2 eexists.
    + rewrite Log_ok by done. rewrite bind_ret. cbn [option_list]. rewrite app_nil_r. by do 2 eexists.
  - rewrite Log_ok by done. rewrite bind_ret. cbn [option_list]. rewrite app_nil_r. by do 2 eexists.
Qed.

Definition has_error (hdrs : list header) : bool :=
  existsb (λ h, match h with HdrError _ _ => true | _ => false end) hdrs.

Lemma import_loop_ok w path pkgid hdrs : ∀ i s,
  1 ≤ pkgid → Forall (good_header w) hdrs → logs (k_proc s) →
  ∃ es, import_loop w path pkgid i hdrs s = Ret
    (with_lock (if has_error hdrs then false else k_locked s)
      (with_entries (k_entries s ++ imported w pkgid i hdrs) (with_proc (emits es (k_proc s)) s))).
Proof.
  induction hdrs as [|[e|r text] hdrs IH]; intros i s Hid Hg Hl; cbn [import_loop imported has_error existsb orb].
  - exists []. rewrite emits_nil, app_nil_r. by destruct s.
  - apply Forall_cons in Hg as [He Hg].
    destruct (vfs_add_path_ok w (w_room w i) pkgid e (k_proc s) (k_entries s) Hid He Hl) as (r & es & ->).
    rewrite bind_ret. set (s1 := with_entries _ _).
    destruct (conf_bool_total "debug.pkg" 0 (k_proc s1) Hl) as [b ->]. rewrite bind_ret.
    assert (∃ es2, (if b =? 1 then log_pkg LOG_DEBUG (entry_text path e) s1 else Ret s1) =
      Ret (with_proc (emits es2 (k_proc s1)) s1)) as [es2 ->].
    { destruct (b =? 1); [by apply log_pkg_ok|]. exists []. by rewrite emits_nil. }
    rewrite bind_ret. destruct (IH (S i) (with_proc (emits es2 (k_proc s1)) s1) Hid Hg Hl) as [es3 ->].
    exists (es ++ es2 ++ es3). unfold s1. cbn. rewrite !emits_emits, <- !app_assoc. done.
  - destruct (log_pkg_ok LOG_DEBUG ("pkg_open: libarchive read_next_header error " ++ fmt_d r ++ ": " ++ fmt_s text)
      (db_rollback s) Hl) as [es ->].
    exists es. rewrite app_nil_r. by destruct s.
Qed.

(** ** Opening *)

(** A new cell at the end. *)
Lemma rep_add s cs nd t h path :
  rep s cs → Z.of_nat (length cs) + 1 < 2 ^ 63 → nd ≠ 0 → k_nodes s !! nd = None → t ≠ 0 →
  k_handles s !! t = None → ph_name h = Some path → Some path ∉ ph_name <$> cs.*2 →
  ∃ h' l', dlink_add_tail (<[nd := DNode 0 0 0]> (k_nodes s)) t nd (k_list s) = Ret (h', l') ∧
    ∀ s', k_nodes s' = h' → k_list s' = l' → logs (k_proc s') → k_handles s' = <[t := h]> (k_handles s) →
      rep s' (cs ++ [(nd, t, h)]).
Proof.
  intros [H1 H5 H6 H7] Hsm Hnd Hfree Ht Hth Hname Hnew.
  destruct (olist_add _ _ _ _ nd t h H1 Hsm Hnd Hfree Ht Hth) as (h' & l' & Hadd & Hl).
  exists h', l'. split; [done|]. intros s' En El Hp Eh. split; [by rewrite En, El, Eh| | |done].
  - intros c Hc. apply elem_of_app in Hc as [Hc|Hc]; [by apply H5|].
    apply list_elem_of_singleton in Hc as ->. cbn [snd]. rewrite Hname. by eexists.
  - rewrite !fmap_app. cbn [fmap list_fmap snd]. rewrite Hname, <- Permutation_cons_append, NoDup_cons. done.
Qed.

(** No package of this name is in the cache. *)
Definition uncached (path : string) (cs : list cell) : Prop := Some path ∉ ph_name <$> cs.*2.

Lemma byname_uncached s cs path : rep s cs → uncached path cs → pkg_handle_byname path s = Ret 0.
Proof.
  intros Hr Hu. rewrite (byname_ok _ _ _ Hr). replace (filter (same_name path) cs) with (@nil cell); [done|].
  symmetry. clear Hr. induction cs as [|c cs IH]; [done|]. unfold uncached in *. cbn in Hu.
  rewrite not_elem_of_cons in Hu. destruct Hu as [Hc Hu]. rewrite filter_cons, decide_False; [by apply IH|].
  unfold same_name. intros E. apply bool_decide_unpack in E. congruence.
Qed.

Lemma byname_cached s pre c post path :
  rep s (pre ++ c :: post) → ph_name c.2 = Some path → pkg_handle_byname path s = Ret c.1.2.
Proof.
  intros Hr Hn. rewrite (byname_ok _ _ _ Hr). f_equal. rewrite filter_app, filter_cons, decide_True.
  2: { unfold same_name. by apply bool_decide_pack. }
  replace (filter (same_name path) pre) with (@nil cell); [done|]. symmetry.
  pose proof (rep_names _ _ Hr) as Hnd. rewrite !fmap_app in Hnd. apply NoDup_app in Hnd as (_ & Hd & _).
  cbn in Hd. apply elem_of_nil_inv. intros x Hx. apply list_elem_of_filter in Hx as [E Hx].
  apply bool_decide_unpack in E. apply (Hd (ph_name x.2)); [by do 2 apply list_elem_of_fmap_2|].
  rewrite E, <- Hn. left.
Qed.

Lemma rep_proc p s cs : rep s cs → logs p → rep (with_proc p s) cs.
Proof. intros Hr Hp. by apply (cache_ext s). Qed.

(** The last step of opening. *)
Definition touch (now : Z) (t : pkg_handle) : pkg_handle := set_refcnt (ph_refcnt t + 1) (set_otime now t).

Lemma open_cached w path s pre c post :
  rep s (pre ++ c :: post) → ph_name c.2 = Some path → ph_refcnt c.2 ≠ 2 ^ 31 - 1 →
  ∃ es, pkg_open w path s = Ret (c.1.2, put_handle c.1.2 (touch (w_time w) c.2) (with_proc (emits es (k_proc s)) s)) ∧
    rep (put_handle c.1.2 (touch (w_time w) c.2) (with_proc (emits es (k_proc s)) s))
        (pre ++ (c.1, touch (w_time w) c.2) :: post).
Proof.
  intros Hr Hn Hc. unfold pkg_open.
  destruct (log_pkg_ok LOG_DEBUG ("pkg_open: beginning for: " ++ path) s (rep_logs _ _ Hr)) as [es ->].
  rewrite bind_ret. exists es. set (s1 := with_proc _ s).
  assert (rep s1 (pre ++ c :: post)) as Hr1 by (apply rep_proc; [done|apply (rep_logs _ _ Hr)]).
  pose proof (in_middle c pre post) as Hin.
  rewrite (byname_cached _ _ _ _ _ Hr1 Hn), bind_ret. destruct (rep_handle _ _ c Hr1 Hin) as [Hz _].
  destruct (Z.eqb_spec c.1.2 0); [done|]. rewrite bind_ret. destruct (Z.eqb_spec c.1.2 0); [done|].
  rewrite (get_handle_ok _ _ _ Hr1 Hin), bind_ret. destruct (Z.eqb_spec (ph_refcnt c.2) (2 ^ 31 - 1)); [done|].
  split; [done|]. by apply rep_update.
Qed.

Lemma close_ok s pre c post :
  rep s (pre ++ c :: post) → ph_refcnt c.2 ≠ - 2 ^ 31 →
  ∃ es, pkg_close c.1.2 s = Ret (with_proc (emits es (k_proc s)) (put_handle c.1.2 (set_refcnt (ph_refcnt c.2 - 1) c.2) s)) ∧
    rep (with_proc (emits es (k_proc s)) (put_handle c.1.2 (set_refcnt (ph_refcnt c.2 - 1) c.2) s))
      (pre ++ (c.1, set_refcnt (ph_refcnt c.2 - 1) c.2) :: post).
Proof.
  intros Hr Hc. unfold pkg_close. pose proof (in_middle c pre post) as Hin.
  rewrite (get_handle_ok _ _ _ Hr Hin), bind_ret. destruct (Z.eqb_spec (ph_refcnt c.2) (- 2 ^ 31)); [done|].
  cbv zeta. set (s1 := put_handle _ _ s).
  assert (rep s1 (pre ++ (c.1, set_refcnt (ph_refcnt c.2 - 1) c.2) :: post)) as Hr1 by by apply rep_update.
  edestruct (log_pkg_ok LOG_DEBUG) as [es ->]; [apply (rep_logs _ _ Hr1)|].
  exists es. split; [done|]. apply rep_proc; [done|]. apply (rep_logs _ _ Hr1).
Qed.

(** The system gives fresh objects, and the file of the package can be opened. *)
Record opens (w : answers) (path : string) (s : pkgs) (cs : list cell) : Prop := {
  op_uncached : uncached path cs;
  op_locked : k_locked s = false;
  op_small : Z.of_nat (length cs) + 1 < 2 ^ 63;
  op_handle : w_handle w ≠ 0 ∧ k_handles s !! w_handle w = None;
  op_node : w_node w ≠ 0 ∧ k_nodes s !! w_node w = None;
  op_stat : w_stat w = 0;
  op_id : 0 ≤ k_pkgid s < 2 ^ 31 - 1;
  op_fd : 0 ≤ w_open w;
  op_flock : w_flock w = true
}.

Definition new_handle (w : answers) (path : string) (s : pkgs) : pkg_handle :=
  PkgHandle (k_pkgid s + 1) (w_open w) 0 0 (Some path).
Definition new_cell (w : answers) (path : string) (s : pkgs) : cell :=
  (w_node w, w_handle w, new_handle w path s).

(** The import up to the archive. *)
Lemma import_cached w path s cs : rep s cs → opens w path s cs →
  ∃ s1, pkg_import w path s =
      (let! a := pkg_archive_open (w_archive w) path s1 in
      match a.1 with
      | None => Ret (0, a.2)
      | Some hdrs =>
          let! s2 := log_pkg LOG_DEBUG ("package " ++ path ++ " appears valid, assigning pkgid " ++ fmt_d (k_pkgid s + 1)) a.2 in
          let! s := import_loop w path (k_pkgid s + 1) 0 hdrs s2 in
          let! s := archive_done (w_free w) s in
          let s := db_commit s in
          let! s := log_debug LOG_INFO ("SUCCESS import pkg " ++ basename path) s in
          Ret (w_handle w, s)
      end) ∧
    rep s1 (cs ++ [new_cell w path s]) ∧ k_locked s1 = true ∧ k_fds s1 = w_open w :: k_fds s ∧
    k_entries s1 = k_entries s ∧ k_pkgid s1 = k_pkgid s + 1 ∧ k_mappings s1 = k_mappings s.
Proof.
  intros Hr [Hu Hlock Hsm [Hh Hfresh] [Hnd Hfree] Hstat Hid Hfd Hflock].
  pose proof (rep_logs _ _ Hr) as Hl. unfold pkg_import, db_begin. rewrite Hlock, bind_ret. cbv zeta.
  unfold db_pkg_add. rewrite Hstat. change (negb (0 =? 0)) with false. cbn iota. cbn [put_handle with_handles k_pkgid with_lock].
  destruct (Z.eqb_spec (k_pkgid s) (2 ^ 31 - 1)); [lia|]. rewrite bind_ret.
  destruct (Z.ltb_spec (w_open w) 0); [lia|].
  match goal with |- context [conf_bool (k_proc ?x)] => set (s0 := x) end.
  destruct (conf_bool_total "vfs.locking.host" 0 (k_proc s0) Hl) as [b ->]. rewrite bind_ret.
  rewrite Hflock. cbn [negb]. rewrite andb_false_r.
  destruct (rep_add s cs (w_node w) (w_handle w) (new_handle w path s) path) as (h' & l' & Hadd & Hrep); try done.
  change (k_nodes s0) with (k_nodes s). change (k_list s0) with (k_list s). rewrite Hadd, bind_ret. cbn [fst snd].
  destruct (log_debug_ok LOG_DEBUG ("BEGIN import pkg " ++ basename path) (with_list h' l' s0) Hl) as [es ->].
  rewrite bind_ret. exists (with_proc (emits es (k_proc (with_list h' l' s0))) (with_list h' l' s0)).
  split; [by destruct (pkg_archive_open _ _ _) as [[[|] ?]| | |]|]. split_and!; try done.
  apply Hrep; try done. cbn. by rewrite insert_insert_eq.
Qed.

Lemma import_ok w path s cs hdrs :
  rep s cs → opens w path s cs → w_archive w = inr hdrs → Forall (good_header w) hdrs →
  ∃ s', pkg_import w path s = Ret (w_handle w, s') ∧ rep s' (cs ++ [new_cell w path s]) ∧
    k_locked s' = false ∧ k_fds s' = w_open w :: k_fds s ∧
    k_entries s' = k_entries s ++ imported w (k_pkgid s + 1) 0 hdrs ∧ k_pkgid s' = k_pkgid s + 1 ∧
    k_mappings s' = k_mappings s.
Proof.
  intros Hr Ho Ha Hg. destruct (import_cached w path s cs Hr Ho) as (s1 & -> & Hr1 & _ & Hfds & He & Hid & Hm).
  rewrite Ha. unfold pkg_archive_open. rewrite bind_ret. cbn [fst snd]. pose proof (rep_logs _ _ Hr1) as Hl.
  edestruct (log_pkg_ok LOG_DEBUG) as [es ->]; [exact Hl|]. rewrite bind_ret.
  edestruct (import_loop_ok w path (k_pkgid s + 1) hdrs 0) as [es2 ->]; [|exact Hg|exact Hl|].
  { pose proof (op_id _ _ _ _ Ho). lia. }
  rewrite bind_ret. set (s2 := with_lock _ _).
  assert (∃ es3, archive_done (w_free w) s2 = Ret (with_proc (emits es3 (k_proc s2)) s2)) as [es3 ->].
  { unfold archive_done. destruct (w_free w =? 0); [|by apply log_pkg_ok]. exists []. by rewrite emits_nil. }
  rewrite bind_ret. cbv zeta.
  edestruct (log_debug_ok LOG_INFO) as [es4 ->]; [|rewrite bind_ret; eexists; split; [reflexivity|]].
  { exact Hl. }
  split_and!; [|done|done| |done|done].
  - by apply (cache_ext s1).
  - cbn. by rewrite He.
Qed.

(** ** Failures *)

(** With the lock held, a package that is not in the cache cannot be opened. *)
Lemma locked_spins w path s cs : rep s cs → uncached path cs → k_locked s = true → pkg_open w path s = Spin.
Proof.
  intros Hr Hu Hl. unfold pkg_open.
  destruct (log_pkg_ok LOG_DEBUG ("pkg_open: beginning for: " ++ path) s (rep_logs _ _ Hr)) as [es ->].
  rewrite bind_ret, (byname_uncached _ cs).
  - rewrite bind_ret. change (0 =? 0) with true. cbn iota. unfold pkg_import, db_begin. cbn [with_proc k_locked].
    by rewrite Hl.
  - apply rep_proc; [done|]. apply (rep_logs _ _ Hr).
  - done.
Qed.

Lemma open_import w path s cs : rep s cs → uncached path cs →
  ∃ es, pkg_open w path s =
    let! r := pkg_import w path (with_proc (emits es (k_proc s)) s) in
    let '(t, s) := r in
    if t =? 0 then Ret (0, s)
    else
      let! h := get_handle t s in
      if ph_refcnt h =? 2 ^ 31 - 1 then Stuck SignedOverflow
      else Ret (t, put_handle t (touch (w_time w) h) s).
Proof.
  intros Hr Hu. unfold pkg_open.
  destruct (log_pkg_ok LOG_DEBUG ("pkg_open: beginning for: " ++ path) s (rep_logs _ _ Hr)) as [es ->].
  exists es. rewrite bind_ret, (byname_uncached _ cs); [done| |done].
  apply rep_proc; [done|]. apply (rep_logs _ _ Hr).
Qed.

(** A handle that is not in the cache is not given back. *)
Lemma release_absent s cs t h :
  rep s cs → t ≠ 0 → t ∉ cs.*1.*2 → k_handles s !! t = Some h →
  pkg_release t s = Ret (with_fds (closes h (k_fds s)) (put_handle t (emptied h) s)).
Proof.
  intros Hr Ht Hn Hh. rewrite (release_handle _ _ _ Ht Hh (rep_logs _ _ Hr)). cbv zeta. set (s1 := with_fds _ _).
  assert (pkg_findnode t s1 = Ret 0) as ->; [|by rewrite bind_ret].
  exact (olist_find_none _ _ _ cs t (rep_cells _ _ Hr) Hn).
Qed.

(** The handle is put aside with no name, the lock is kept. *)
Lemma open_fails w path s cs :
  rep s cs → uncached path cs → k_locked s = false → w_handle w ≠ 0 → k_handles s !! w_handle w = None →
  w_stat w = 0 → 0 ≤ k_pkgid s < 2 ^ 31 - 1 → w_open w < 0 →
  ∃ s', pkg_open w path s = Ret (0, s') ∧ rep s' cs ∧ k_locked s' = true ∧ k_entries s' = k_entries s ∧
    k_handles s' !! w_handle w = Some (PkgHandle (k_pkgid s + 1) (-1) 0 0 None).
Proof.
  intros Hr Hu Hlock Hh Hfresh Hstat Hid Hfd. destruct (open_import w path s cs Hr Hu) as [es ->].
  pose proof (rep_logs _ _ Hr) as Hl. unfold pkg_import, db_begin. cbn [with_proc k_locked]. rewrite Hlock, bind_ret. cbv zeta.
  unfold db_pkg_add. rewrite Hstat. change (negb (0 =? 0)) with false. cbn iota.
  cbn [put_handle with_handles k_pkgid with_lock with_proc].
  destruct (Z.eqb_spec (k_pkgid s) (2 ^ 31 - 1)); [lia|]. rewrite bind_ret.
  destruct (Z.ltb_spec (w_open w) 0); [|lia].
  match goal with |- context [log_pkg LOG_ERR _ ?x] => set (s0 := x) end.
  destruct (log_pkg_ok LOG_ERR ("failed opening pkg " ++ path ++ ", bailing...") s0 Hl) as [es2 ->]. rewrite bind_ret.
  set (h0 := PkgHandle (k_pkgid s + 1) (w_open w) 0 0 (Some path)).
  set (s1 := with_proc (emits es2 (k_proc s0)) s0).
  assert (k_handles s1 = <[w_handle w := h0]> (k_handles s)) as Eh by (cbn; by rewrite insert_insert_eq).
  pose proof (olist_absent _ _ _ _ _ (rep_cells _ _ Hr) Hfresh) as Hnin.
  assert (rep s1 cs) as Hr1.
  { apply (cache_ext s); try done. intros c Hc. rewrite Eh. apply lookup_insert_ne. intros E. apply Hnin. rewrite E.
    by do 2 apply list_elem_of_fmap_2. }
  rewrite (release_absent s1 cs (w_handle w) h0); [|done|done|done|by rewrite Eh, lookup_insert_eq].
  rewrite !bind_ret. change (0 =? 0) with true. cbn iota. eexists. split; [reflexivity|].
  split_and!; [|done|done|].
  - apply (cache_ext s1); try done. intros c Hc. cbn [with_fds put_handle with_handles k_handles].
    apply lookup_insert_ne. intros E. apply Hnin. rewrite E. by do 2 apply list_elem_of_fmap_2.
  - cbn [with_fds put_handle with_handles k_handles]. rewrite lookup_insert_eq. unfold emptied, h0. cbn.
    destruct (Z.eqb_spec (w_open w) 0); [lia|done].
Qed.

(** The handle stays in the cache, the lock is kept. *)
Lemma archive_fails w path s cs r :
  rep s cs → opens w path s cs → w_archive w = inl r →
  ∃ s', pkg_open w path s = Ret (0, s') ∧ rep s' (cs ++ [new_cell w path s]) ∧ k_locked s' = true ∧
    k_entries s' = k_entries s.
Proof.
  intros Hr Ho Ha. destruct (open_import w path s cs Hr (op_uncached _ _ _ _ Ho)) as [es ->].
  set (s0 := with_proc _ s). assert (rep s0 cs) as Hr0 by (apply rep_proc; [done|apply (rep_logs _ _ Hr)]).
  assert (opens w path s0 cs) as Ho0 by (destruct Ho; by split).
  destruct (import_cached w path s0 cs Hr0 Ho0) as (s1 & -> & Hr1 & Hlock & _ & He & _).
  rewrite Ha. unfold pkg_archive_open. edestruct (log_pkg_ok LOG_ERR) as [es2 ->]; [apply (rep_logs _ _ Hr1)|].
  rewrite !bind_ret. change (0 =? 0) with true. cbn iota. eexists. split; [reflexivity|].
  split_and!; [|done|done]. apply rep_proc; [done|]. apply (rep_logs _ _ Hr1).
Qed.

(** ** Properties *)

(** C35: On a cache of packages that represents a sequence of handles with different
    names: opening a package of the cache returns its handle, counts the reference and
    notes the time; closing it takes the reference back; the garbage collection
    removes exactly the handles without references whose lifetime is over and closes
    their files.  The other handles, their order, the lock, the package numbers and
    the files that were imported stay. *)
Theorem pkg_cache_refines w path s pre c post now lifetime :
  rep s (pre ++ c :: post) → ph_name c.2 = Some path → - 2 ^ 31 < ph_refcnt c.2 < 2 ^ 31 - 1 →
  Forall (in_range lifetime) (pre ++ c :: post) →
  (∃ es, let s' := put_handle c.1.2 (touch (w_time w) c.2) (with_proc (emits es (k_proc s)) s) in
    pkg_open w path s = Ret (c.1.2, s') ∧ rep s' (pre ++ (c.1, touch (w_time w) c.2) :: post)) ∧
  (∃ es, let s' := with_proc (emits es (k_proc s)) (put_handle c.1.2 (set_refcnt (ph_refcnt c.2 - 1) c.2) s) in
    pkg_close c.1.2 s = Ret s' ∧ rep s' (pre ++ (c.1, set_refcnt (ph_refcnt c.2 - 1) c.2) :: post)) ∧
  (∃ s', pkg_gc now lifetime s = Ret (0, s') ∧ rep s' (collected now lifetime (pre ++ c :: post)) ∧
    leaves s s' ∧ k_fds s' = close_all now lifetime (pre ++ c :: post) (k_fds s)).
Proof.
  intros Hr Hn Hc Hin. split_and!.
  - apply (open_cached w path s pre c post Hr Hn). lia.
  - apply (close_ok s pre c post Hr). lia.
  - by apply collect_ok.
Qed.

Lemma collected_app now lifetime cs c :
  expired now lifetime c = true → collected now lifetime (cs ++ [c]) = collected now lifetime cs.
Proof.
  intros He. unfold collected. rewrite filter_app, filter_cons, decide_False by congruence.
  by rewrite filter_nil, app_nil_r.
Qed.

Lemma close_last s cs c : rep s (cs ++ [c]) → ph_refcnt c.2 ≠ - 2 ^ 31 →
  ∃ s', pkg_close c.1.2 s = Ret s' ∧ rep s' (cs ++ [(c.1, set_refcnt (ph_refcnt c.2 - 1) c.2)]) ∧
    k_locked s' = k_locked s ∧ k_entries s' = k_entries s.
Proof. intros Hr Hc. destruct (close_ok s cs c [] Hr Hc) as (es & -> & H). by eexists. Qed.

(** C36: Opening a package that is not in the cache, while the database is not locked
    and the system gives what is asked for, gives the package the next number, appends
    its handle with one reference, appends an entry for every file up to the first error
    of the archive and releases the lock; and when it is closed and its lifetime is over, the
    next garbage collection removes it from the cache. *)
Theorem pkg_open_imports w path s cs hdrs now lifetime :
  rep s cs → opens w path s cs → w_archive w = inr hdrs → Forall (good_header w) hdrs →
  Forall (in_range lifetime) cs → - 2 ^ 63 ≤ w_time w + lifetime < 2 ^ 63 → w_time w + lifetime < now →
  ∃ s1 s2 s3,
    pkg_open w path s = Ret (w_handle w, s1) ∧
    rep s1 (cs ++ [(w_node w, w_handle w, PkgHandle (k_pkgid s + 1) (w_open w) 1 (w_time w) (Some path))]) ∧
    k_locked s1 = false ∧ k_pkgid s1 = k_pkgid s + 1 ∧ k_fds s1 = w_open w :: k_fds s ∧
    k_entries s1 = k_entries s ++ imported w (k_pkgid s + 1) 0 hdrs ∧
    pkg_close (w_handle w) s1 = Ret s2 ∧ pkg_gc now lifetime s2 = Ret (0, s3) ∧
    rep s3 (collected now lifetime cs) ∧ k_locked s3 = false ∧ k_entries s3 = k_entries s1.
Proof.
  intros Hr Ho Ha Hg Hin Ht Hnow. destruct (open_import w path s cs Hr (op_uncached _ _ _ _ Ho)) as [es ->].
  set (s0 := with_proc _ s). assert (rep s0 cs) as Hr0 by (apply rep_proc; [done|apply (rep_logs _ _ Hr)]).
  assert (opens w path s0 cs) as Ho0 by (destruct Ho; by split).
  destruct (import_ok w path s0 cs hdrs Hr0 Ho0 Ha Hg) as (s1 & -> & Hr1 & Hlk & Hfds & He & Hid & _).
  rewrite bind_ret. destruct (op_handle _ _ _ _ Ho) as [Hh _]. destruct (Z.eqb_spec (w_handle w) 0); [done|].
  pose proof (get_handle_ok _ _ (new_cell w path s0) Hr1) as Hget. cbn [new_cell fst snd] in Hget.
  rewrite Hget by (rewrite elem_of_app, list_elem_of_singleton; auto). rewrite bind_ret. cbn [new_handle ph_refcnt].
  change (0 =? 2 ^ 31 - 1) with false. cbn iota.
  pose proof (rep_update s1 cs (new_cell w path s0) [] (touch (w_time w) (new_handle w path s0)) Hr1 eq_refl) as Hr2.
  cbn [new_cell fst snd] in Hr2. set (s2 := put_handle _ _ s1) in *. exists s2.
  destruct (close_last _ _ _ Hr2) as (s3 & Hc & Hr3 & Hlk3 & He3); [done|]. cbn [fst snd] in Hc, Hr3.
  destruct (collect_ok now lifetime _ _ Hr3) as (s4 & Hgc & Hr4 & Hlv & _).
  { apply Forall_app. split; [done|]. apply Forall_singleton. unfold in_range. cbn. lia. }
  rewrite collected_app in Hr4.
  2: { unfold expired. cbn. apply Z.ltb_lt. lia. }
  exists s3, s4. split_and!; try done.
  - by rewrite (lv_locked _ _ Hlv), Hlk3.
  - by rewrite (lv_entries _ _ Hlv).
Qed.

(** C40: A package that cannot be opened leaves the database locked.  When its file
    cannot be opened the result is NULL and its handle is lost; when its archive cannot be
    opened the result is NULL but the handle stays in the cache, so the next call of
    the same name returns it with no file imported.  From then on, opening a package
    that is not in the cache waits for the lock without end. *)
Theorem pkg_open_locks w path s cs :
  rep s cs → uncached path cs → k_locked s = false → w_handle w ≠ 0 → k_handles s !! w_handle w = None →
  w_stat w = 0 → 0 ≤ k_pkgid s < 2 ^ 31 - 1 →
  (w_open w < 0 → ∃ s', pkg_open w path s = Ret (0, s') ∧ rep s' cs ∧
    k_handles s' !! w_handle w = Some (PkgHandle (k_pkgid s + 1) (-1) 0 0 None) ∧
    ∀ w' path', uncached path' cs → pkg_open w' path' s' = Spin) ∧
  (∀ r, opens w path s cs → w_archive w = inl r → ∃ s', pkg_open w path s = Ret (0, s') ∧
    k_entries s' = k_entries s ∧
    (∀ w', ∃ s2, pkg_open w' path s' = Ret (w_handle w, s2) ∧ k_entries s2 = k_entries s ∧
      rep s2 (cs ++ [(w_node w, w_handle w, touch (w_time w') (new_handle w path s))])) ∧
    ∀ w' path', path' ≠ path → uncached path' cs → pkg_open w' path' s' = Spin).
Proof.
  intros Hr Hu Hlk Hh Hf Hs Hid. split.
  - intros Hfd. destruct (open_fails w path s cs Hr Hu Hlk Hh Hf Hs Hid Hfd) as (s' & -> & Hr' & Hlk' & _ & Hh').
    exists s'. split_and!; [done..|]. intros w' path' Hu'. by apply (locked_spins w' path' s' cs).
  - intros r Ho Ha. destruct (archive_fails w path s cs r Hr Ho Ha) as (s' & -> & Hr' & Hlk' & He).
    exists s'. split_and!; [done|done| |].
    + intros w'. destruct (open_cached w' path s' cs (new_cell w path s) [] Hr' eq_refl) as (es & -> & Hr2); [done|].
      by eexists.
    + intros w' path' Hne Hu'. apply (locked_spins w' path' s' _ Hr'); [|done].
      unfold uncached in *. rewrite !fmap_app, elem_of_app. intros [?|Hin]; [done|].
      cbn in Hin. apply list_elem_of_singleton in Hin. congruence.
Qed.

(** ** Instances *)
Definition ex_proc : proc := Proc None false false "" [].
Definition ex_empty : pkgs := Pkgs ex_proc ∅ (DList 0 0 0) ∅ ∅ 1 false [] [].
Definition ex_handle : pkg_handle := PkgHandle 2 5 0 1000 (Some "a.zip"%string).
Definition ex_state : pkgs :=
  Pkgs ex_proc {[100 := DNode 200 0 0]} (DList 100 100 1) {[200 := ex_handle]} ∅ 2 false [5] [].
Definition ex_entry : archive_entry :=
  ArchiveEntry (Some "bin/sh"%string) (Some "root"%string) None 0 0 "-rwxr-xr-x" 493 33261 1024.
Definition ex_answers (fd : Z) (archive : Z + list header) : answers :=
  Answers 300 400 0 fd true archive 0 1500 (λ _, 5000) (λ _, true).

Lemma ex_empty_rep : rep ex_empty [].
Proof.
  split; try (by intros ? ?%not_elem_of_nil); try by constructor.
  split; try (by intros ? ?%not_elem_of_nil); try by constructor. split; try done. constructor.
Qed.

Lemma ex_state_rep : rep ex_state [(100, 200, ex_handle)].
Proof.
  split; [split| | |]; try done.
  - split; try done. cbn. by apply NoDup_singleton.
  - intros c Hc. apply list_elem_of_singleton in Hc as ->. done.
  - apply NoDup_singleton.
  - intros c Hc. apply list_elem_of_singleton in Hc as ->. by eexists.
  - apply NoDup_singleton.
  - by left.
Qed.

Lemma ex_opens fd archive : 0 ≤ fd → opens (ex_answers fd archive) "b.zip" ex_empty [].
Proof. intros Hfd. split; try done. unfold uncached. cbn. by apply not_elem_of_nil. Qed.

Lemma pkg_cache_refines_witness :
  ∃ s', pkg_gc 5000 3600 ex_state = Ret (0, s') ∧ rep s' [] ∧ k_fds s' = [].
Proof.
  destruct (pkg_cache_refines (ex_answers 7 (inl 0)) "a.zip" ex_state [] (100, 200, ex_handle) [] 5000 3600
    ex_state_rep eq_refl) as (_ & _ & s' & Hgc & Hr & _ & Hf).
  - cbn. lia.
  - apply Forall_singleton. unfold in_range. cbn. lia.
  - exists s'. by split_and!.
Defined.

Lemma pkg_open_imports_witness :
  ∃ s1, pkg_open (ex_answers 7 (inr [HdrEntry ex_entry; HdrError 5 None])) "b.zip" ex_empty = Ret (300, s1) ∧
    k_locked s1 = false ∧ k_fds s1 = [7] ∧
    k_entries s1 = [VfsEntry "bin/sh" "" 2 1024 0 PKG_FTYPE_FILE 0 0 "root" "" 33261 1500 0 0].
Proof.
  destruct (pkg_open_imports (ex_answers 7 (inr [HdrEntry ex_entry; HdrError 5 None])) "b.zip" ex_empty [] _ 6000 3600
    ex_empty_rep (ex_opens 7 _ ltac:(done)) eq_refl) as (s1 & s2 & s3 & H1 & _ & H2 & _ & H3 & H4 & _).
  - apply Forall_cons. split; [split_and!; vm_compute; by try intros [=]|]. by apply Forall_singleton.
  - by apply Forall_nil.
  - cbn. lia.
  - cbn. lia.
  - exists s1. by split_and!.
Defined.

Lemma pkg_open_locks_witness :
  (∃ s', pkg_open (ex_answers (-1) (inl 0)) "b.zip" ex_empty = Ret (0, s') ∧
    pkg_open (ex_answers 7 (inr [])) "c.zip" s' = Spin) ∧
  ∃ s', pkg_open (ex_answers 7 (inl (-30))) "b.zip" ex_empty = Ret (0, s') ∧
    pkg_open (ex_answers 7 (inr [])) "c.zip" s' = Spin.
Proof.
  assert (∀ p, uncached p []) as Hu by (intros p; unfold uncached; cbn; by apply not_elem_of_nil).
  split.
  - destruct (pkg_open_locks (ex_answers (-1) (inl 0)) "b.zip" ex_empty [] ex_empty_rep (Hu _)) as [H _];
      try done. destruct H as (s' & H1 & _ & _ & H2); [done|]. exists s'. by split; [|apply H2].
  - destruct (pkg_open_locks (ex_answers 7 (inl (-30))) "b.zip" ex_empty [] ex_empty_rep (Hu _)) as [_ H];
      try done. destruct (H (-30)) as (s' & H1 & _ & _ & H2); [by apply ex_opens|done|]. exists s'. by split; [|apply H2].
Defined.
