(* ===== verification/Watch.v ===== *)
(** * Watched and scanned directories (src/vfs.c)

    The watch list (nodes of Dlink whose data are the addresses of watches), the
    events that the kernel writes into a buffer, decoded from its bytes, and the walk
    over the package directories.  What inotify, the directories and the rest of the
    system answer are arguments; the answers for a package go to [pkg_open]. *)
From S2P Require Import Prelude CStd Store Conf Dlink Proc Vfs Pkg.
From Stdlib Require Import Ascii.

Local Open Scope Z_scope.

Definition VFS_MAX_RECURSE : Z := 16.
Definition IN_CLOSE_WRITE : Z := 8.
Definition IN_MOVED_FROM : Z := 64.
Definition IN_MOVED_TO : Z := 128.
Definition IN_DELETE : Z := 512.
Definition IN_DELETE_SELF : Z := 1024.
(** [sizeof(struct inotify_event)] *)
Definition SZ_EVENT : Z := 16.
Definition INOTIFY_BUFSIZE : Z := (SZ_EVENT + 4096) * 1024.

Record vfs_watch := VfsWatch { wt_mask : Z; wt_fd : Z; wt_path : string }.

(** The packages, the watch list with its nodes, the watches, and the descriptor of
    inotify. *)
Record watches := Watches {
  x_pkgs : pkgs;
  x_nodes : nodes;
  x_list : dlink_list;
  x_objs : gmap Z vfs_watch;
  x_ifd : Z
}.
Definition with_pkgs (v : pkgs) (s : watches) : watches := Watches v (x_nodes s) (x_list s) (x_objs s) (x_ifd s).
Definition with_watch_list (h : nodes) (l : dlink_list) (s : watches) : watches :=
  Watches (x_pkgs s) h l (x_objs s) (x_ifd s).
Definition with_objs (v : gmap Z vfs_watch) (s : watches) : watches :=
  Watches (x_pkgs s) (x_nodes s) (x_list s) v (x_ifd s).
Definition with_ifd (v : Z) (s : watches) : watches := Watches (x_pkgs s) (x_nodes s) (x_list s) (x_objs s) v.

Definition log_watch (level : Z) (text : string) (s : watches) : outcome watches :=
  let! k := log_pkg level text (x_pkgs s) in Ret (with_pkgs k s).
Definition get_watch (p : Z) (s : watches) : outcome vfs_watch :=
  if p =? 0 then Stuck NullDeref else need BadPointer (x_objs s !! p).

(** The path of a watch as a string: an array that is full has no end. *)
Definition watch_path (w : vfs_watch) : outcome string :=
  if PATH_MAX <=? Z.of_nat (String.length (wt_path w)) then Stuck OutOfBounds else Ret (wt_path w).

(** ** The watch list *)
Definition watch_fuel (s : watches) : nat := S (size (x_nodes s)).

Definition vfs_watch_findnode (watch : Z) (s : watches) : outcome Z :=
  find_from (watch_fuel s) (x_nodes s) watch (dl_head (x_list s)).

Fixpoint findnode_loop (fuel : nat) (fd ptr : Z) (s : watches) : outcome Z :=
  match fuel with
  | O => Spin
  | S fuel =>
      if ptr =? 0 then Ret 0
      else
        let! n := load (x_nodes s) ptr in
        let! w := get_watch (dn_data n) s in
        if wt_fd w =? fd then Ret ptr else findnode_loop fuel fd (dn_next n) s
  end.
Definition vfs_watch_findnode_byfd (fd : Z) (s : watches) : outcome Z :=
  findnode_loop (watch_fuel s) fd (dl_head (x_list s)) s.

(** [p], [n]: a new watch and a new node; [readable]: how many bytes can be read at
    the path; [fd]: the result of [inotify_add_watch]. *)
Definition vfs_watch_add (p n fd readable : Z) (path : string) (s : watches) : outcome (Z * watches) :=
  if p =? 0 then Stuck NullDeref
  else
    let mask := fold_right Z.lor 0 [IN_CLOSE_WRITE; IN_MOVED_TO; IN_MOVED_FROM; IN_DELETE; IN_DELETE_SELF] in
    let! path := copy_text PATH_MAX readable path in
    let w := VfsWatch mask fd path in
    if fd <=? 0 then
      let! path := watch_path w in
      let! s := log_watch LOG_ERR ("failed creating vfs watcher for path " ++ path) s in
      Ret (0, with_objs (delete p (x_objs s)) s)
    else
      let s := with_objs (<[p := w]> (x_objs s)) s in
      let! l := dlink_add_tail (<[n := DNode 0 0 0]> (x_nodes s)) p n (x_list s) in
      Ret (p, with_watch_list l.1 l.2 s).

(** [rv]: the result of [inotify_rm_watch].  The node is not released. *)
Definition vfs_watch_remove (rv watch : Z) (s : watches) : outcome (Z * watches) :=
  let! w := get_watch watch s in
  let! s :=
    if negb (rv =? 0) then
      let! path := watch_path w in
      log_watch LOG_ERR ("error removing watch for " ++ path ++ " (fd: " ++ fmt_d (wt_fd w) ++ ")") s
    else Ret s in
  let! ptr := vfs_watch_findnode watch s in
  if negb (ptr =? 0) then
    let! l := dlink_delete (x_nodes s) ptr (x_list s) in
    let s := with_watch_list l.1 l.2 s in
    let! n := load (x_nodes s) ptr in
    let! _ := get_watch (dn_data n) s in
    Ret (rv, with_objs (delete (dn_data n) (x_objs s)) s)
  else Ret (rv, s).

(** ** Events *)

(** The buffer: the bytes that were read, followed by zeros. *)
Definition event_byte (data : list ascii) (j : Z) : outcome ascii :=
  if (0 <=? j) && (j <? INOTIFY_BUFSIZE) then Ret (default zero (data !! Z.to_nat j)) else Stuck OutOfBounds.

(** A little-endian word of 32 bits. *)
Definition event_word (data : list ascii) (j : Z) : outcome Z :=
  let! a := event_byte data j in
  let! b := event_byte data (j + 1) in
  let! c := event_byte data (j + 2) in
  let! d := event_byte data (j + 3) in
  let v x := Z.of_N (N_of_ascii x) in
  Ret (v a + 2 ^ 8 * v b + 2 ^ 16 * v c + 2 ^ 24 * v d).

Fixpoint event_text (fuel : nat) (data : list ascii) (j : Z) : outcome string :=
  match fuel with
  | O => Spin
  | S fuel =>
      let! c := event_byte data j in
      if Ascii.eqb c zero then Ret EmptyString
      else let! s := event_text fuel data (j + 1) in Ret (String c s)
  end.

(** What an event does; [ans], [rv]: the answers for a package and for the removal of
    a watch. *)
Definition handle_event (ans : answers) (rv mask watch : Z) (path : string) (s : watches) : outcome watches :=
  if negb (Z.land mask IN_CLOSE_WRITE =? 0) || negb (Z.land mask IN_MOVED_TO =? 0) then
    let! r := pkg_open ans path (x_pkgs s) in Ret (with_pkgs r.2 s)
  else if negb (Z.land mask IN_DELETE =? 0) || negb (Z.land mask IN_MOVED_FROM =? 0) then
    let '(_, k) := pkg_forget path (x_pkgs s) in Ret (with_pkgs k s)
  else if negb (Z.land mask IN_DELETE_SELF =? 0) then
    let! r := vfs_watch_remove rv watch s in Ret r.2
  else Ret s.

(** The loop over the buffer from [i] on; [ans], [rv] give the answers for the event
    at a position.  A hidden name does not advance the position. *)
Fixpoint event_loop (fuel : nat) (ans : Z → answers) (rv : Z → Z) (data : list ascii) (i : Z) (s : watches)
    : outcome watches :=
  match fuel with
  | O => Spin
  | S fuel =>
      if Z.of_nat (length data) <=? i then Ret s
      else
        let! c := event_byte data (i + SZ_EVENT) in
        if Ascii.eqb c "." then event_loop fuel ans rv data i s
        else
          let! wd := event_word data i in
          let wd := sint32 wd in
          let! ptr := vfs_watch_findnode_byfd wd s in
          if ptr =? 0 then log_watch LOG_ERR ("got watch for unregistered fd " ++ fmt_d wd ++ ".. wtf?") s
          else
            let! len := event_word data (i + 12) in
            if len =? 0 then Ret s
            else
              let! n := load (x_nodes s) ptr in
              let! w := get_watch (dn_data n) s in
              let! dir := watch_path w in
              let! name := event_text (S (length data)) data (i + SZ_EVENT) in
              let path := snprintf (Z.to_nat (PATH_MAX - 1)) (dir ++ "/" ++ name) in
              let! mask := event_word data (i + 4) in
              let! s := handle_event (ans i) (rv i) mask (dn_data n) path s in
              event_loop fuel ans rv data (i + SZ_EVENT + len) s
  end.

(** [data]: the bytes that were read, none if there was an error. *)
Definition vfs_inotify_evt_get (ans : Z → answers) (rv : Z → Z) (data : list ascii) (s : watches) : outcome watches :=
  event_loop (S (length data)) ans rv data 0 s.

(** ** Lists of paths *)

Definition is_sep (c : ascii) : bool := Ascii.eqb c ":" || Ascii.eqb c nl.

(** The tokens that [strtok(buf, ":\n")] gives one after the other, with their
    positions. *)
Fixpoint path_tokens (off : nat) (s : string) (start : nat) (cur : string) : list (nat * string) :=
  match s with
  | EmptyString => if String.eqb cur "" then [] else [(start, cur)]
  | String c s =>
      if is_sep c then (if String.eqb cur "" then [] else [(start, cur)]) ++ path_tokens (S off) s (S off) ""
      else path_tokens (S off) s (if String.eqb cur "" then off else start) (cur ++ String c "")
  end.

(** The configured paths in an array of [PATH_MAX] bytes. *)
Definition path_list (readable : string → Z) (p : proc) : outcome string :=
  let! r := conf_str p "path.pkg" (Some "/pkg"%string) in
  let! text := need NullDeref r in
  let! buf := copy_text PATH_MAX (readable text) text in
  if PATH_MAX <=? Z.of_nat (String.length buf) then Stuck OutOfBounds else Ret buf.

Fixpoint add_watches (new : nat → Z * Z * Z) (paths : list (nat * string)) (s : watches) : outcome watches :=
  match paths with
  | [] => Ret s
  | (off, path) :: paths =>
      let '(p, n, fd) := new off in
      let! r := vfs_watch_add p n fd (PATH_MAX - Z.of_nat off) path s in
      let! s := log_watch LOG_INFO ("inotify watcher started for " ++ path) r.2 in
      add_watches new paths s
  end.

Fixpoint str_has (c : ascii) (s : string) : bool :=
  match s with
  | EmptyString => false
  | String d s => Ascii.eqb d c || str_has c s
  end.

(** [ifd]: the result of [inotify_init]; [err]: the error as a text; [new]: a watch, a
    node and a descriptor for the path at a position.  The event loop is libev's. *)
Definition vfs_watch_init (ifd : Z) (err : string) (readable : string → Z) (new : nat → Z * Z * Z) (s : watches)
    : outcome (Z * watches) :=
  if negb (x_ifd s =? 0) then Ret (-1, s)
  else
    let s := with_ifd ifd s in
    if ifd =? -1 then
      let! s := log_watch LOG_ERR ("vfs_watch_init:inotify_init " ++ err) s in Ret (-2, s)
    else
      let! buf := path_list readable (k_proc (x_pkgs s)) in
      if negb (str_has ":" buf) then
        let! s := add_watches new (path_tokens 0 buf 0 "") s in Ret (0, s)
      else
        let! s := add_watches new [(0%nat, buf)] s in Ret (0, s).

(** ** The walk over the package directories *)

(** A directory stream that is open, and the packages. *)
Definition walk_state : Type := Z * pkgs.

Section walk.
Context (ans : string → answers) (opendir : string → option (list string)) (is_dir : string → bool).

(** The loop over the names of a directory; [rec] walks a directory at a depth. *)
Fixpoint dir_loop (rec : string → Z → walk_state → outcome walk_state) (path : string) (names : list string)
    (depth : Z) (s : walk_state) : outcome walk_state :=
  match names with
  | [] => Ret (s.1 - 1, s.2)
  | name :: names =>
      if starts "." name then dir_loop rec path names depth s
      else
        let buf := snprintf (Z.to_nat (PATH_MAX - 1)) (path ++ "/" ++ name) in
        if is_dir buf then
          let depth := depth + 1 in
          let! s :=
            if depth <? VFS_MAX_RECURSE then rec buf depth s
            else
              let! k := log_pkg LOG_INFO ("vfs_dir_walk_recurse: reached maximum depth (" ++ fmt_d VFS_MAX_RECURSE ++
                                          ") in " ++ path) s.2 in
              Ret (s.1, k) in
          dir_loop rec path names depth s
        else if str_has "." buf then
          let! r := pkg_open (ans buf) buf s.2 in
          dir_loop rec path names depth (s.1, r.2)
        else Ret s
  end.

Fixpoint vfs_dir_walk_recurse (fuel : nat) (path : string) (depth : Z) (s : walk_state) : outcome walk_state :=
  match fuel with
  | O => Spin
  | S fuel =>
      match opendir path with
      | None => let! k := log_pkg LOG_ERR ("opendir " ++ path ++ " failed, skipping") s.2 in Ret (s.1, k)
      | Some names => dir_loop (vfs_dir_walk_recurse fuel) path names depth (s.1 + 1, s.2)
      end
  end.

Fixpoint walk_paths (paths : list (nat * string)) (s : walk_state) : outcome walk_state :=
  match paths with
  | [] => Ret s
  | (_, path) :: paths =>
      let! s := vfs_dir_walk_recurse (Z.to_nat VFS_MAX_RECURSE) path 1 s in walk_paths paths s
  end.

Definition vfs_dir_walk (readable : string → Z) (s : walk_state) : outcome (Z * walk_state) :=
  let! buf := path_list readable (k_proc s.2) in
  let! s := walk_paths (path_tokens 0 buf 0 "") s in Ret (0, s).
End walk.
