(* ===== verification/WatchSpec.v ===== *)
(** * Watched and scanned directories: properties

    The watch list is a sequence of watches.  The kernel's buffer is a sequence of
    encoded events, which are handled in their order; events without a name end the
    round and hidden names never do.  The walk opens the files of a directory tree. *)
From S2P Require Import Prelude CStd CStdFacts Conf Buf Dlink DlinkSpec ObjList Proc ProcSpec Vfs Pkg PkgSpec Watch.
From Stdlib Require Import Ascii.

Local Open Scope Z_scope.

Abbreviation wcell := (Z * Z * vfs_watch)%type.

Record wrep (s : watches) (ws : list wcell) : Prop := {
  wr_cells : olist (x_nodes s) (x_list s) (x_objs s) ws;
  wr_paths c : c ∈ ws → Z.of_nat (String.length (wt_path c.2)) < PATH_MAX
}.

Lemma log_watch_ok level text s : logs (k_proc (x_pkgs s)) →
  ∃ es, log_watch level text s = Ret (with_pkgs (with_proc (emits es (k_proc (x_pkgs s))) (x_pkgs s)) s).
Proof. intros Hl. unfold log_watch. destruct (log_pkg_ok level text (x_pkgs s) Hl) as [es ->]. by exists es. Qed.

Lemma wrep_pkgs k s ws : wrep s ws → wrep (with_pkgs k s) ws.
Proof. intros [H1 H2]. by split. Qed.

Lemma get_watch_ok s ws c : wrep s ws → c ∈ ws → get_watch c.1.2 s = Ret c.2.
Proof.
  intros [Hr _] Hc. destruct (ol_obj _ _ _ _ Hr c Hc) as [Hz Hh]. unfold get_watch.
  destruct (Z.eqb_spec c.1.2 0); [done|]. by rewrite Hh.
Qed.

Lemma watch_path_ok s ws c : wrep s ws → c ∈ ws → watch_path c.2 = Ret (wt_path c.2).
Proof.
  intros Hr Hc. pose proof (wr_paths _ _ Hr c Hc). unfold watch_path.
  destruct (Z.leb_spec PATH_MAX (Z.of_nat (String.length (wt_path c.2)))); [lia|done].
Qed.

(** ** The watch list *)

(** The first watch of a descriptor. *)
Definition watched (ws : list wcell) (fd : Z) : option wcell := head (filter (λ c, wt_fd c.2 = fd) ws).

Lemma findnode_loop_ok s ws fd todo : ∀ fuel p, wrep s ws → (∀ c, c ∈ todo → c ∈ ws) →
  lseg (x_nodes s) p todo.*1 0 → (length todo < fuel)%nat →
  findnode_loop fuel fd (hd 0 todo.*1.*1) s = Ret (default 0 ((λ c, c.1.1) <$> watched todo fd)).
Proof.
  induction todo as [|[[a d] w] todo IH]; intros [|fuel] p Hr Hin Hs Hf; cbn in Hf; try lia; [done|].
  destruct Hs as (Ha & Hn & Hs). cbn [findnode_loop fmap list_fmap fst hd].
  destruct (Z.eqb_spec a 0); [done|]. rewrite (load_some _ _ _ Ha Hn), bind_ret. cbn [dn_data dn_next].
  pose proof (get_watch_ok s ws (a, d, w) Hr (Hin _ ltac:(left))) as Hg. cbn [fst snd] in Hg.
  rewrite Hg, bind_ret. unfold watched. rewrite filter_cons. cbn [snd].
  destruct (Z.eqb_spec (wt_fd w) fd).
  - by rewrite decide_True by done.
  - rewrite decide_False by done. apply (IH fuel a); [done| |done|lia]. intros c Hc. apply Hin. by right.
Qed.

Lemma byfd_ok s ws fd : wrep s ws →
  vfs_watch_findnode_byfd fd s = Ret (default 0 ((λ c, c.1.1) <$> watched ws fd)).
Proof.
  intros Hr. pose proof (ol_list _ _ _ _ (wr_cells _ _ Hr)) as Hl. unfold vfs_watch_findnode_byfd.
  rewrite (dll_hd _ _ _ Hl). apply (findnode_loop_ok s ws fd ws _ 0); [done|done|apply (dll_seg _ _ _ Hl)|].
  eapply olist_fuel, wr_cells, Hr.
Qed.

Definition watch_mask : Z := 1736.
Definition new_watch (fd : Z) (path : string) : vfs_watch := VfsWatch watch_mask fd path.

Lemma add_watch_ok s ws p n fd readable path :
  wrep s ws → Z.of_nat (length ws) + 1 < 2 ^ 63 → n ≠ 0 → x_nodes s !! n = None → p ≠ 0 → x_objs s !! p = None →
  0 < fd → PATH_MAX ≤ readable → Z.of_nat (String.length path) < PATH_MAX →
  ∃ s', vfs_watch_add p n fd readable path s = Ret (p, s') ∧ wrep s' (ws ++ [(n, p, new_watch fd path)]) ∧
    x_pkgs s' = x_pkgs s ∧ x_ifd s' = x_ifd s.
Proof.
  intros [H1 H2] Hsm Hn Hfn Hp Hfp Hfd Hread Hlen. unfold vfs_watch_add.
  destruct (Z.eqb_spec p 0); [done|]. unfold copy_text. destruct (Z.ltb_spec readable PATH_MAX); [lia|].
  rewrite bind_ret, take_all_str by lia. destruct (Z.leb_spec fd 0); [lia|].
  destruct (olist_add _ _ _ _ n p (new_watch fd path) H1 Hsm Hn Hfn Hp Hfp) as (h' & l' & Hadd & Hl).
  change (x_nodes (with_objs _ s)) with (x_nodes s). change (x_list (with_objs _ s)) with (x_list s).
  rewrite Hadd, bind_ret. cbn [fst snd]. eexists. split; [reflexivity|].
  split_and!; [|done|done]. split; [done|]. intros c Hc. apply elem_of_app in Hc as [Hc|Hc]; [by apply H2|].
  by apply list_elem_of_singleton in Hc as ->.
Qed.

Lemma remove_watch_ok s pre c post rv : wrep s (pre ++ c :: post) → logs (k_proc (x_pkgs s)) →
  ∃ s' es, vfs_watch_remove rv c.1.2 s = Ret (rv, s') ∧ wrep s' (pre ++ post) ∧
    x_pkgs s' = with_proc (emits es (k_proc (x_pkgs s))) (x_pkgs s) ∧ x_ifd s' = x_ifd s ∧
    x_objs s' = delete c.1.2 (x_objs s).
Proof.
  intros Hr Hlog. pose proof (in_middle c pre post) as Hin. unfold vfs_watch_remove.
  rewrite (get_watch_ok _ _ _ Hr Hin), bind_ret.
  assert (∃ es, (if negb (rv =? 0) then let! path := watch_path c.2 in
      log_watch LOG_ERR ("error removing watch for " ++ path ++ " (fd: " ++ fmt_d (wt_fd c.2) ++ ")") s else Ret s) =
    Ret (with_pkgs (with_proc (emits es (k_proc (x_pkgs s))) (x_pkgs s)) s)) as [es ->].
  { destruct (rv =? 0).
    - exists []. rewrite emits_nil. cbn [negb]. f_equal. by destruct s as [[]].
    - cbn [negb]. rewrite (watch_path_ok _ _ _ Hr Hin), bind_ret. by apply log_watch_ok. }
  rewrite bind_ret. destruct Hr as [H1 H2]. set (s1 := with_pkgs _ s).
  assert (vfs_watch_findnode c.1.2 s1 = Ret c.1.1) as -> by exact (olist_find_at _ _ _ _ _ _ H1).
  rewrite bind_ret. destruct (olist_remove _ _ _ _ _ _ H1) as (h' & l' & n & Hd & Hn & En & Hm & Hl').
  destruct (Z.eqb_spec c.1.1 0); [done|]. cbn [negb].
  change (x_nodes s1) with (x_nodes s). change (x_list s1) with (x_list s). rewrite Hd, bind_ret. cbn [fst snd].
  change (x_nodes (with_watch_list h' l' s1)) with h'. rewrite Hn, bind_ret, En.
  assert (get_watch c.1.2 (with_watch_list h' l' s1) = Ret c.2) as ->.
  { destruct (ol_obj _ _ _ _ H1 c Hin) as [Hz Hh]. unfold get_watch. destruct (Z.eqb_spec c.1.2 0); [done|].
    change (x_objs (with_watch_list h' l' s1)) with (x_objs s). by rewrite Hh. }
  rewrite bind_ret. eexists _, es. split; [reflexivity|]. split_and!; try done. split; [done|].
  intros c' Hc'. apply H2. rewrite elem_of_app, elem_of_cons in *. tauto.
Qed.

(** ** Events *)

Definition byte (z : Z) : ascii := ascii_of_N (Z.to_N (z mod 256)).
(** A word of 32 bits, the lowest byte first. *)
Definition word (z : Z) : list ascii := [byte z; byte (z / 2 ^ 8); byte (z / 2 ^ 16); byte (z / 2 ^ 24)].

Lemma byte_val z : Z.of_N (N_of_ascii (byte z)) = z mod 256.
Proof.
  pose proof (Z.mod_pos_bound z 256 ltac:(lia)). unfold byte. rewrite N_ascii_embedding; [lia|].
  apply N2Z.inj_lt. rewrite Z2N.id; lia.
Qed.

Lemma event_byte_app pre c post :
  blen (pre ++ c :: post) ≤ INOTIFY_BUFSIZE → event_byte (pre ++ c :: post) (blen pre) = Ret c.
Proof.
  intros Hs. unfold event_byte, blen in *. rewrite length_app in Hs. cbn [length] in Hs.
  destruct (Z.leb_spec 0 (Z.of_nat (length pre))), (Z.ltb_spec (Z.of_nat (length pre)) INOTIFY_BUFSIZE); try lia.
  cbn [andb]. f_equal. rewrite Nat2Z.id, lookup_app_r, Nat.sub_diag by lia. done.
Qed.

Lemma event_byte_at data pre c post j :
  data = pre ++ c :: post → j = blen pre → blen data ≤ INOTIFY_BUFSIZE → event_byte data j = Ret c.
Proof. intros -> -> Hs. by apply event_byte_app. Qed.

Lemma event_word_at data pre v post j :
  data = pre ++ word v ++ post → j = blen pre → blen data ≤ INOTIFY_BUFSIZE → event_word data j = Ret (v mod 2 ^ 32).
Proof.
  intros -> -> Hs. unfold event_word, word in *. cbn [app] in *.
  rewrite (event_byte_at _ pre (byte v) _ _ eq_refl eq_refl Hs), bind_ret.
  rewrite (event_byte_at _ (pre ++ [byte v]) (byte (v / 2 ^ 8)) (byte (v / 2 ^ 16) :: byte (v / 2 ^ 24) :: post));
    [|by rewrite <- app_assoc|by rewrite blen_app|done]. rewrite bind_ret.
  rewrite (event_byte_at _ (pre ++ [byte v; byte (v / 2 ^ 8)]) (byte (v / 2 ^ 16)) (byte (v / 2 ^ 24) :: post));
    [|by rewrite <- app_assoc|by rewrite blen_app|done]. rewrite bind_ret.
  rewrite (event_byte_at _ (pre ++ [byte v; byte (v / 2 ^ 8); byte (v / 2 ^ 16)]) (byte (v / 2 ^ 24)) post);
    [|by rewrite <- app_assoc|by rewrite blen_app|done]. rewrite bind_ret, !byte_val. f_equal.
  change (2 ^ 32) with 4294967296. change (2 ^ 8) with 256. change (2 ^ 16) with 65536. change (2 ^ 24) with 16777216.
  Z.to_euclidean_division_equations. lia.
Qed.

Lemma event_text_at data name : ∀ fuel pre post j,
  data = pre ++ String.list_ascii_of_string name ++ zero :: post → j = blen pre → blen data ≤ INOTIFY_BUFSIZE →
  str_has zero name = false → (String.length name < fuel)%nat → event_text fuel data j = Ret name.
Proof.
  induction name as [|c name IH]; intros [|fuel] pre post j Hd Hj Hs Hz Hf; cbn [String.length] in Hf; try lia.
  - cbn [event_text]. cbn [String.list_ascii_of_string app] in Hd. by rewrite (event_byte_at _ _ _ _ _ Hd Hj Hs).
  - cbn [event_text]. cbn [String.list_ascii_of_string app] in Hd. rewrite (event_byte_at _ _ _ _ _ Hd Hj Hs), bind_ret.
    cbn [str_has] in Hz. apply orb_false_iff in Hz as [Hc Hz]. rewrite Hc.
    rewrite (IH fuel (pre ++ [c]) post); [done| | |done|done|lia].
    + by rewrite <- app_assoc.
    + rewrite blen_app, Hj. done.
Qed.

(** An event: the descriptor, the mask, the cookie, the name and the number of zeros
    behind it. *)
Record event := Event { ev_wd : Z; ev_mask : Z; ev_cookie : Z; ev_name : string; ev_pad : nat }.

Definition ev_len (e : event) : Z := Z.of_nat (String.length (ev_name e) + ev_pad e).
Definition encode (e : event) : list ascii :=
  word (ev_wd e) ++ word (ev_mask e) ++ word (ev_cookie e) ++ word (ev_len e) ++
  String.list_ascii_of_string (ev_name e) ++ replicate (ev_pad e) zero.

(** A name that is not hidden, with its end, for a watched descriptor. *)
Record good_event (ws : list wcell) (e : event) : Prop := {
  ge_watched : is_Some (watched ws (ev_wd e));
  ge_wd : 0 ≤ ev_wd e < 2 ^ 31;
  ge_mask : 0 ≤ ev_mask e < 2 ^ 32;
  ge_name : ev_name e ≠ EmptyString ∧ starts "." (ev_name e) = false ∧ str_has zero (ev_name e) = false;
  ge_pad : (0 < ev_pad e)%nat
}.

Lemma encode_length e : blen (encode e) = SZ_EVENT + ev_len e.
Proof.
  unfold encode, ev_len, SZ_EVENT, blen. rewrite !length_app, length_replicate.
  assert (∀ s, length (String.list_ascii_of_string s) = String.length s) as Hl by (induction s; cbn; congruence).
  rewrite Hl. cbn [word length]. lia.
Qed.

(** The path of an event. *)
Definition event_path (c : wcell) (e : event) : string :=
  snprintf (Z.to_nat (PATH_MAX - 1)) (wt_path c.2 ++ "/" ++ ev_name e).

Lemma watched_in ws fd c : watched ws fd = Some c → c ∈ ws.
Proof.
  intros H. assert (c ∈ filter (λ c, wt_fd c.2 = fd) ws) as Hin.
  { unfold watched in H. destruct (filter _ ws); [done|]. injection H as ->. left. }
  by apply list_elem_of_filter in Hin as [_ Hin].
Qed.

Lemma byfd_watched s ws fd c : wrep s ws → watched ws fd = Some c →
  ∃ nx pv, vfs_watch_findnode_byfd fd s = Ret c.1.1 ∧ c.1.1 ≠ 0 ∧ load (x_nodes s) c.1.1 = Ret (DNode c.1.2 nx pv).
Proof.
  intros Hr Hw. pose proof (watched_in _ _ _ Hw) as Hin. rewrite (byfd_ok _ _ _ Hr), Hw.
  pose proof (ol_list _ _ _ _ (wr_cells _ _ Hr)) as Hl. apply list_elem_of_split in Hin as (pre & post & ->).
  destruct c as [[m d] w]. rewrite fmap_app in Hl. cbn [fmap list_fmap fst] in Hl.
  destruct (dll_split _ _ _ _ _ _ Hl) as (_ & Hm & Hn & _).
  do 2 eexists. split_and!; [done|done|]. apply load_some; [done|exact Hn].
Qed.

Lemma ascii_length s : length (String.list_ascii_of_string s) = String.length s.
Proof. induction s; cbn; congruence. Qed.

(** What the loop reads of an event. *)
Lemma event_fields ws e pre post data i fuel :
  good_event ws e → data = pre ++ encode e ++ post → i = blen pre → blen data ≤ INOTIFY_BUFSIZE →
  (length data < fuel)%nat →
  (∃ c, event_byte data (i + SZ_EVENT) = Ret c ∧ Ascii.eqb c "." = false) ∧
  event_word data i = Ret (ev_wd e) ∧ event_word data (i + 4) = Ret (ev_mask e) ∧
  event_word data (i + 12) = Ret (ev_len e) ∧ event_text fuel data (i + SZ_EVENT) = Ret (ev_name e) ∧
  0 < ev_len e ∧ i < blen data.
Proof.
  intros [_ Hwd Hmask (Hne & Hdot & Hz) Hpad] Hd Hi Hs Hf.
  assert (∀ p v q j, data = p ++ word v ++ q → j = blen p → event_word data j = Ret (v mod 2 ^ 32)) as Hword
    by (intros p v q j E Ej; by apply (event_word_at _ p v q)).
  pose proof (encode_length e) as Hlen. pose proof (blen_nonneg pre) as Hp0. pose proof (blen_nonneg post) as Hq0.
  assert (blen data = blen pre + (SZ_EVENT + ev_len e) + blen post) as Hbl by (rewrite Hd, !blen_app, Hlen; lia).
  assert (0 < ev_len e) as Hel by (unfold ev_len; lia).
  assert (ev_len e < 2 ^ 32) as Hel2 by (unfold INOTIFY_BUFSIZE, SZ_EVENT in *; lia).
  unfold encode in Hd. rewrite <- !app_assoc in Hd. set (zs := replicate (ev_pad e) zero ++ post) in Hd.
  set (names := String.list_ascii_of_string (ev_name e)) in Hd.
  set (p4 := pre ++ word (ev_wd e)). set (p12 := p4 ++ word (ev_mask e) ++ word (ev_cookie e)).
  set (p16 := p12 ++ word (ev_len e)).
  assert (data = p4 ++ word (ev_mask e) ++ word (ev_cookie e) ++ word (ev_len e) ++ names ++ zs) as D4
    by (rewrite Hd; unfold p4; by rewrite <- !app_assoc).
  assert (data = p12 ++ word (ev_len e) ++ names ++ zs) as D12 by (rewrite D4; unfold p12; by rewrite <- !app_assoc).
  assert (data = p16 ++ names ++ zs) as D16 by (rewrite D12; unfold p16; by rewrite <- !app_assoc).
  assert (blen p4 = i + 4) as B4 by (unfold p4; rewrite blen_app, <- Hi; done).
  assert (blen p12 = i + 12) as B12 by (unfold p12; rewrite !blen_app, B4; unfold word, blen; cbn [length]; lia).
  assert (blen p16 = i + SZ_EVENT) as B16 by (unfold p16, SZ_EVENT; rewrite blen_app, B12; unfold word, blen; cbn [length]; lia).
  split_and!; [| | | | |done|unfold SZ_EVENT in *; lia].
  - unfold names in D16. destruct (ev_name e) as [|ch name]; [done|]. exists ch. split.
    + by apply (event_byte_at _ p16 ch (String.list_ascii_of_string name ++ zs)).
    + apply Ascii.eqb_neq. intros ->. unfold starts in Hdot. cbn in Hdot. by destruct name.
  - rewrite (Hword pre (ev_wd e) _ i Hd Hi), Z.mod_small by lia. done.
  - rewrite (Hword p4 (ev_mask e) _ (i + 4) D4), Z.mod_small by lia. done.
  - rewrite (Hword p12 (ev_len e) _ (i + 12) D12), Z.mod_small by lia. done.
  - apply (event_text_at data (ev_name e) fuel p16 (replicate (ev_pad e - 1) zero ++ post)); [|done|done|done|].
    + rewrite D16. do 2 f_equal. unfold zs. destruct (ev_pad e); [lia|]. cbn [replicate app].
      by rewrite Nat.sub_succ, Nat.sub_0_r.
    + rewrite D16, !length_app in Hf. unfold names in Hf. rewrite ascii_length in Hf. lia.
Qed.

(** One round of the loop. *)
Lemma event_step s ws e c pre post fuel ans rv i :
  wrep s ws → good_event ws e → watched ws (ev_wd e) = Some c → i = blen pre →
  blen (pre ++ encode e ++ post) ≤ INOTIFY_BUFSIZE →
  event_loop (S fuel) ans rv (pre ++ encode e ++ post) i s =
    let! s := handle_event (ans i) (rv i) (ev_mask e) c.1.2 (event_path c e) s in
    event_loop fuel ans rv (pre ++ encode e ++ post) (i + blen (encode e)) s.
Proof.
  intros Hr Hg Hw Hi Hs. set (data := pre ++ encode e ++ post) in *.
  destruct (event_fields ws e pre post data i (S (length data)) Hg eq_refl Hi Hs ltac:(lia))
    as ((ch & Hch & Hdot) & Hwd & Hmask & Hlen & Htext & Hel & Hlt).
  cbn [event_loop]. destruct (Z.leb_spec (Z.of_nat (length data)) i) as [Hle|_]; [unfold blen in Hlt; lia|].
  rewrite Hch, bind_ret, Hdot, Hwd, bind_ret. pose proof (ge_wd _ _ Hg). rewrite sint32_small by lia.
  destruct (byfd_watched _ _ _ _ Hr Hw) as (nx & pv & -> & Hc & Hload). rewrite bind_ret.
  destruct (Z.eqb_spec c.1.1 0); [done|]. rewrite Hlen, bind_ret. destruct (Z.eqb_spec (ev_len e) 0); [lia|].
  rewrite Hload, bind_ret. cbn [dn_data]. pose proof (watched_in _ _ _ Hw) as Hin.
  rewrite (get_watch_ok _ _ _ Hr Hin), bind_ret, (watch_path_ok _ _ _ Hr Hin), bind_ret, Htext, bind_ret, Hmask, bind_ret.
  rewrite encode_length, Z.add_assoc. done.
Qed.

(** ** The buffer *)

(** No event says that a watched directory itself was deleted. *)
Definition quiet (e : event) : Prop := Z.land (ev_mask e) IN_DELETE_SELF = 0.

(** The packages of an event: a file that was written or moved in is opened. *)
Definition event_pkgs (ans : answers) (mask : Z) (path : string) (k : pkgs) : outcome pkgs :=
  if negb (Z.land mask IN_CLOSE_WRITE =? 0) || negb (Z.land mask IN_MOVED_TO =? 0) then
    let! r := pkg_open ans path k in Ret r.2
  else Ret k.

Fixpoint run_events (ws : list wcell) (ans : Z → answers) (off : Z) (evs : list event) (k : pkgs) : outcome pkgs :=
  match evs with
  | [] => Ret k
  | e :: evs =>
      let! k :=
        match watched ws (ev_wd e) with
        | Some c => event_pkgs (ans off) (ev_mask e) (event_path c e) k
        | None => Ret k
        end in
      run_events ws ans (off + blen (encode e)) evs k
  end.

Lemma handle_event_ok ans rv e watch path s : quiet e →
  handle_event ans rv (ev_mask e) watch path s =
    let! k := event_pkgs ans (ev_mask e) path (x_pkgs s) in Ret (with_pkgs k s).
Proof.
  unfold quiet. intros Hq. unfold handle_event, event_pkgs. rewrite Hq. change (negb (0 =? 0)) with false. cbn iota.
  destruct (_ || _); [by destruct (pkg_open _ _ _)|].
  assert (with_pkgs (x_pkgs s) s = s) as E by by destruct s. rewrite bind_ret, E.
  destruct (_ || _); [|done]. unfold pkg_forget. cbn. by rewrite E.
Qed.

Definition encoded (evs : list event) : list ascii := mjoin (encode <$> evs).

Lemma encoded_length evs : (length evs ≤ length (encoded evs))%nat.
Proof.
  induction evs as [|e evs IH]; [done|]. change (encoded (e :: evs)) with (encode e ++ encoded evs).
  pose proof (encode_length e). rewrite length_app. cbn [length]. unfold blen, SZ_EVENT, ev_len in *. lia.
Qed.

(** The events that are good are handled in their order. *)
Lemma events_loop ans rv ws rest evs : ∀ pre s fuel,
  wrep s ws → Forall (λ e, good_event ws e ∧ quiet e) evs →
  blen (pre ++ encoded evs ++ rest) ≤ INOTIFY_BUFSIZE → (length evs < fuel)%nat →
  event_loop fuel ans rv (pre ++ encoded evs ++ rest) (blen pre) s =
    let! k := run_events ws ans (blen pre) evs (x_pkgs s) in
    event_loop (fuel - length evs) ans rv (pre ++ encoded evs ++ rest) (blen (pre ++ encoded evs)) (with_pkgs k s).
Proof.
  induction evs as [|e evs IH]; intros pre s fuel Hr Hg Hs Hf.
  - change (encoded []) with (@nil ascii). rewrite app_nil_r. cbn [run_events length].
    rewrite bind_ret, Nat.sub_0_r. by replace (with_pkgs (x_pkgs s) s) with s by by destruct s.
  - apply Forall_cons in Hg as [[He Hq] Hg]. change (encoded (e :: evs)) with (encode e ++ encoded evs) in *.
    destruct (ge_watched _ _ He) as [c Hc]. destruct fuel as [|fuel]; [lia|]. rewrite <- app_assoc in *.
    cbn [length] in Hf. rewrite (event_step s ws e c pre (encoded evs ++ rest) fuel ans rv (blen pre) Hr He Hc eq_refl Hs).
    rewrite (handle_event_ok _ _ _ _ _ _ Hq). cbn [run_events length]. rewrite Hc, Nat.sub_succ.
    destruct (event_pkgs _ _ _ _) as [k|u|h|]; [|done|done|done]. rewrite !bind_ret, <- blen_app.
    specialize (IH (pre ++ encode e) (with_pkgs k s) fuel). rewrite <- !app_assoc in IH.
    rewrite IH; [done|by apply wrep_pkgs|done|done|lia].
Qed.

(** A hidden name is read again without end. *)
Lemma hidden_spins ans rv data i s fuel :
  i < blen data → event_byte data (i + SZ_EVENT) = Ret "."%char → event_loop fuel ans rv data i s = Spin.
Proof.
  intros Hi Hb. induction fuel as [|fuel IH]; [done|]. cbn [event_loop].
  destruct (Z.leb_spec (Z.of_nat (length data)) i); [unfold blen in Hi; lia|]. by rewrite Hb, bind_ret.
Qed.

(** An event without a name. *)
Definition nameless (wd mask cookie : Z) : list ascii := word wd ++ word mask ++ word cookie ++ word 0.

Lemma nameless_ends ans rv s ws wd mask cookie more pre fuel c :
  wrep s ws → watched ws wd = Some c → 0 ≤ wd < 2 ^ 31 → head more ≠ Some "."%char →
  blen (pre ++ nameless wd mask cookie ++ more) + 1 ≤ INOTIFY_BUFSIZE →
  event_loop (S fuel) ans rv (pre ++ nameless wd mask cookie ++ more) (blen pre) s = Ret s.
Proof.
  intros Hr Hw Hwd Hmore Hs. set (data := pre ++ _ ++ more) in *. cbn [event_loop].
  assert (blen data = blen pre + 16 + blen more) as Hlen
    by (unfold data, nameless, word, blen; rewrite !length_app; cbn [length]; lia).
  pose proof (blen_nonneg more). pose proof (blen_nonneg pre).
  destruct (Z.leb_spec (Z.of_nat (length data)) (blen pre)) as [Hle|_]; [unfold blen in *; lia|].
  assert (∃ ch, event_byte data (blen pre + SZ_EVENT) = Ret ch ∧ Ascii.eqb ch "." = false) as (ch & -> & Hch).
  { destruct more as [|ch more].
    - exists zero. split; [|done]. unfold event_byte, SZ_EVENT. destruct (Z.leb_spec 0 (blen pre + 16)); [|lia].
      change (blen []) with 0 in Hlen.
      destruct (Z.ltb_spec (blen pre + 16) INOTIFY_BUFSIZE); [|lia]. cbn [andb].
      rewrite lookup_ge_None_2; [done|]. unfold blen in *. lia.
    - exists ch. split; [|apply Ascii.eqb_neq; intros ->; done].
      apply (event_byte_at data (pre ++ nameless wd mask cookie) ch more); [|by rewrite blen_app|lia].
      unfold data. by rewrite <- app_assoc. }
  rewrite bind_ret, Hch.
  rewrite (event_word_at data pre wd (word mask ++ word cookie ++ word 0 ++ more) (blen pre));
    [|unfold data, nameless; by rewrite <- !app_assoc|done|lia].
  rewrite bind_ret, Z.mod_small, sint32_small by lia.
  destruct (byfd_watched _ _ _ _ Hr Hw) as (nx & pv & -> & Hc & _). rewrite bind_ret.
  destruct (Z.eqb_spec c.1.1 0); [done|].
  rewrite (event_word_at data (pre ++ word wd ++ word mask ++ word cookie) 0 more (blen pre + 12));
    [done|unfold data, nameless; by rewrite <- !app_assoc| |lia].
  rewrite !blen_app. unfold word, blen. cbn [length]. lia.
Qed.

(** ** The walk *)

(** A directory tree: files, and directories with their entries in the order in
    which they are read. *)
Inductive tree : Type :=
  | TFile
  | TDir (es : entries)
with entries : Type :=
  | ENil
  | ECons (name : string) (t : tree) (es : entries).

Scheme tree_entries_ind := Induction for tree Sort Prop
  with entries_tree_ind := Induction for entries Sort Prop.
Combined Scheme trees_ind from tree_entries_ind, entries_tree_ind.

Fixpoint names (es : entries) : list string :=
  match es with ENil => [] | ECons name _ es => name :: names es end.

Definition hidden (name : string) : bool := starts "." name.
Definition below (path name : string) : string := (path ++ "/" ++ name)%string.

(** The files that are not hidden, in the order of the walk. *)
Fixpoint files (path : string) (t : tree) : list string :=
  match t with TFile => [path] | TDir es => files_of path es end
with files_of (path : string) (es : entries) : list string :=
  match es with
  | ENil => []
  | ECons name t es => (if hidden name then [] else files (below path name) t) ++ files_of path es
  end.

(** Every file has a dot in its path, and no directory is too deep: the depth of a
    subdirectory is that of its directory and its position among the
    subdirectories. *)
Fixpoint regular (path : string) (depth : Z) (t : tree) : Prop :=
  match t with TFile => str_has "." path = true | TDir es => regular_in path depth es end
with regular_in (path : string) (depth : Z) (es : entries) : Prop :=
  match es with
  | ENil => True
  | ECons name t es =>
      if hidden name then regular_in path depth es
      else
        match t with
        | TFile => regular (below path name) depth t ∧ regular_in path depth es
        | TDir _ => depth + 1 < VFS_MAX_RECURSE ∧ regular (below path name) (depth + 1) t ∧ regular_in path (depth + 1) es
        end
  end.

Section walk_spec.
Context (ans : string → answers) (opendir : string → option (list string)) (is_dir : string → bool).

(** The tree [t] is at [path]; what hidden names are does not matter. *)
Fixpoint at_path (path : string) (t : tree) : Prop :=
  match t with
  | TFile => is_dir path = false
  | TDir es => is_dir path = true ∧ opendir path = Some (names es) ∧ at_entries path es
  end
with at_entries (path : string) (es : entries) : Prop :=
  match es with
  | ENil => True
  | ECons name t es =>
      (hidden name = false →
        at_path (below path name) t ∧ Z.of_nat (String.length (below path name)) < PATH_MAX - 1) ∧
      at_entries path es
  end.

Fixpoint open_all (paths : list string) (k : pkgs) : outcome pkgs :=
  match paths with
  | [] => Ret k
  | path :: paths => let! r := pkg_open (ans path) path k in open_all paths r.2
  end.

Lemma open_all_app l1 l2 k : open_all (l1 ++ l2) k = let! k := open_all l1 k in open_all l2 k.
Proof.
  revert k. induction l1 as [|p l1 IH]; intros k; cbn [app open_all]; [by rewrite bind_ret|].
  destruct (pkg_open _ _ _); cbn; [apply IH|done..].
Qed.

Lemma snprintf_fits path name : Z.of_nat (String.length (below path name)) < PATH_MAX - 1 →
  snprintf (Z.to_nat (PATH_MAX - 1)) (path ++ "/" ++ name) = below path name.
Proof. intros H. unfold snprintf. apply take_all_str. unfold below in *. lia. Qed.

Definition walk_dir := vfs_dir_walk_recurse ans opendir is_dir.

(** One visible name. *)
Lemma dir_loop_cons rec path name l depth s :
  hidden name = false → Z.of_nat (String.length (below path name)) < PATH_MAX - 1 →
  dir_loop ans is_dir rec path (name :: l) depth s =
    let buf := below path name in
    if is_dir buf then
      let! s :=
        if depth + 1 <? VFS_MAX_RECURSE then rec buf (depth + 1) s
        else
          let! k := log_pkg LOG_INFO ("vfs_dir_walk_recurse: reached maximum depth (" ++ fmt_d VFS_MAX_RECURSE ++
                                      ") in " ++ path) s.2 in
          Ret (s.1, k) in
      dir_loop ans is_dir rec path l (depth + 1) s
    else if str_has "." buf then
      let! r := pkg_open (ans buf) buf s.2 in
      dir_loop ans is_dir rec path l depth (s.1, r.2)
    else Ret s.
Proof. intros Hh Hl. cbn [dir_loop]. unfold hidden in Hh. by rewrite Hh, snprintf_fits. Qed.

Lemma walk_ok :
  (∀ t path depth s fuel, at_path path t → regular path depth t →
    match t with
    | TFile => True
    | TDir _ => depth < VFS_MAX_RECURSE → VFS_MAX_RECURSE - depth ≤ Z.of_nat fuel →
        walk_dir fuel path depth s = let! k := open_all (files path t) s.2 in Ret (s.1, k)
    end) ∧
  (∀ es path depth s fuel, at_entries path es → regular_in path depth es →
    VFS_MAX_RECURSE - depth ≤ Z.of_nat fuel + 1 →
    dir_loop ans is_dir (walk_dir fuel) path (names es) depth s =
      let! k := open_all (files_of path es) s.2 in Ret (s.1 - 1, k)).
Proof.
  apply trees_ind; [done| |done|].
  - intros es IH path depth s [|fuel] (_ & Ho & Hat) Hreg Hd Hf; [lia|].
    unfold walk_dir in *. cbn [vfs_dir_walk_recurse files]. rewrite Ho.
    rewrite (IH path depth (s.1 + 1, s.2) fuel Hat Hreg) by lia. cbn [fst snd].
    by rewrite Z.add_simpl_r.
  - intros name t IHt es IHes path depth s fuel [Hn Hat] Hreg Hf. cbn [names files_of regular_in] in *.
    destruct (hidden name) eqn:Hh.
    { cbn [dir_loop app]. unfold hidden in Hh. rewrite Hh. by apply IHes. }
    destruct (Hn eq_refl) as [Hat_t Hlen]. rewrite dir_loop_cons by done. cbv zeta.
    rewrite open_all_app. destruct t as [|es'].
    + destruct Hreg as [Hdot Hreg]. cbn in Hat_t, Hdot. rewrite Hat_t, Hdot. cbn [files open_all].
      destruct (pkg_open _ _ _) as [[r k]|u|h|]; [|done..]. rewrite !bind_ret. exact (IHes path depth (s.1, k) fuel Hat Hreg Hf).
    + destruct Hreg as (Hd & Hreg_t & Hreg). pose proof (proj1 Hat_t) as Hdir. rewrite Hdir.
      destruct (Z.ltb_spec (depth + 1) VFS_MAX_RECURSE); [|lia].
      rewrite (IHt (below path name) (depth + 1) s fuel Hat_t Hreg_t) by lia.
      destruct (open_all _ _) as [k|u|h|]; [|done..]. rewrite !bind_ret.
      apply (IHes path (depth + 1) (s.1, k) fuel Hat Hreg). lia.
Qed.

(** The loop calls [rec] only below the maximal depth. *)
Lemma dir_loop_ext rec rec' path l : ∀ depth s,
  (∀ buf d s, depth < d < VFS_MAX_RECURSE → rec buf d s = rec' buf d s) →
  dir_loop ans is_dir rec path l depth s = dir_loop ans is_dir rec' path l depth s.
Proof.
  induction l as [|name l IH]; intros depth s He; [done|]. cbn [dir_loop].
  destruct (starts _ _); [by apply IH|]. cbv zeta. set (buf := snprintf _ _).
  destruct (is_dir buf).
  - destruct (Z.ltb_spec (depth + 1) VFS_MAX_RECURSE).
    + rewrite He by lia. destruct (rec' _ _ _); [|done..]. rewrite !bind_ret. apply IH. intros. apply He. lia.
    + destruct (log_pkg _ _ _); [|done..]. rewrite !bind_ret. apply IH. intros. apply He. lia.
  - destruct (str_has _ _); [|done]. destruct (pkg_open _ _ _); [|done..]. rewrite !bind_ret. by apply IH.
Qed.

Lemma walk_fuel f1 : ∀ f2 path depth s, depth < VFS_MAX_RECURSE →
  VFS_MAX_RECURSE - depth ≤ Z.of_nat f1 → VFS_MAX_RECURSE - depth ≤ Z.of_nat f2 →
  walk_dir f1 path depth s = walk_dir f2 path depth s.
Proof.
  induction f1 as [|f1 IH]; intros [|f2] path depth s Hd H1 H2; [lia..|].
  unfold walk_dir in *. cbn [vfs_dir_walk_recurse]. destruct (opendir path); [|done].
  apply dir_loop_ext. intros. apply IH; lia.
Qed.
End walk_spec.

(** ** Properties *)




(** ** Instances *)
Definition ex_watch : vfs_watch := VfsWatch watch_mask 1 "/pkg".
Definition ex_watches : watches :=
  Watches ex_empty {[100 := DNode 200 0 0]} (DList 100 100 1) {[200 := ex_watch]} 3.

Lemma ex_watches_rep : wrep ex_watches [(100, 200, ex_watch)].
Proof.
  split; [split|]; try done.
  - split; try done. cbn. by apply NoDup_singleton.
  - intros c Hc. apply list_elem_of_singleton in Hc as ->. done.
  - apply NoDup_singleton.
  - intros c Hc. apply list_elem_of_singleton in Hc as ->. done.
Qed.


(** A file that was deleted, and then an event of a hidden file. *)
Definition ex_events : list event := [Event 1 IN_DELETE 0 "a.zip" 3].

(** The answers to the opening of packages: an empty archive. *)
Definition ex_opening (k : Z) : answers := ex_answers 3 (inr []).


(** A directory with a package, a subdirectory with another one, and a hidden name. *)
Definition ex_opendir (path : string) : option (list string) :=
  if String.eqb path "/pkg" then Some ["a.zip"; "sub"; ".git"]%string
  else if String.eqb path "/pkg/sub" then Some ["b.zip"%string] else None.
Definition ex_is_dir (path : string) : bool := String.eqb path "/pkg" || String.eqb path "/pkg/sub".
Definition ex_tree : entries :=
  ECons "a.zip" TFile (ECons "sub" (TDir (ECons "b.zip" TFile ENil)) (ECons ".git" (TDir ENil) ENil)).

Lemma ex_walk ans s :
  vfs_dir_walk_recurse ans ex_opendir ex_is_dir 16 "/pkg" 1 s =
    let! k := open_all ans ["/pkg/a.zip"; "/pkg/sub/b.zip"]%string s.2 in Ret (s.1, k).
Proof.
  apply (proj1 (walk_ok ans ex_opendir ex_is_dir) (TDir ex_tree)); [| |unfold VFS_MAX_RECURSE; lia|unfold VFS_MAX_RECURSE; lia].
  - by split_and!.
  - cbn. unfold VFS_MAX_RECURSE. by split_and!.
Qed.
