(* ===== verification/Fuse.v ===== *)
(** * The operations of the mounted file system (src/vfs.c)

    Every operation logs its name and answers the request; the answers are a list.
    [file] is the name of the source file as the compiler knows it, [now] the time.
    Handles are objects of a heap of Balloc. *)
From S2P Require Import Prelude CStd Store Conf Balloc Proc ProcSpec.

Local Open Scope Z_scope.

Definition ENOENT : Z := 2.
Definition EBADF : Z := 9.
Definition EROFS : Z := 30.
Definition ENOSYS : Z := 38.
Definition ENOTSUP : Z := 95.
Definition O_CREAT : Z := 64.

Record stat := Stat { st_ino : Z; st_mode : Z; st_size : Z; st_uid : Z; st_gid : Z }.

(** [fuse_reply_err], [fuse_reply_open] with a handle, [fuse_reply_attr]. *)
Inductive reply := ReplyErr (e : Z) | ReplyOpen (fh : Z) | ReplyAttr (sb : stat).

(** The process, the heaps, their addresses, and the answers. *)
Record fuse := Fuse {
  fu_proc : proc;
  fu_heaps : bstate;
  heap_vfs_cache : Z;
  heap_vfs_handle : Z;
  heap_vfs_inode : Z;
  heap_vfs_watch : Z;
  fu_replies : list reply
}.
Definition with_fproc (v : proc) (s : fuse) : fuse :=
  Fuse v (fu_heaps s) (heap_vfs_cache s) (heap_vfs_handle s) (heap_vfs_inode s) (heap_vfs_watch s) (fu_replies s).
Definition with_heaps (v : bstate) (s : fuse) : fuse :=
  Fuse (fu_proc s) v (heap_vfs_cache s) (heap_vfs_handle s) (heap_vfs_inode s) (heap_vfs_watch s) (fu_replies s).
Definition answer (r : reply) (s : fuse) : fuse :=
  Fuse (fu_proc s) (fu_heaps s) (heap_vfs_cache s) (heap_vfs_handle s) (heap_vfs_inode s) (heap_vfs_watch s)
    (fu_replies s ++ [r]).
Definition log_fuse (text : string) (s : fuse) : outcome fuse :=
  let! p := Log LOG_DEBUG text (fu_proc s) in Ret (with_fproc p s).

Section fuse.
Context (file : string).

Definition op_named (line : Z) (name : string) (e : Z) (s : fuse) : outcome fuse :=
  let! s := log_fuse (file ++ ":" ++ fmt_d line ++ ":" ++ name) s in Ret (answer (ReplyErr e) s).
Definition op_stamped (now line : Z) (name : string) (e : Z) (s : fuse) : outcome fuse :=
  let! s := log_fuse ("[" ++ fmt_u (wrap64 now) ++ "] " ++ file ++ ":" ++ fmt_d line ++ ":" ++ name) s in
  Ret (answer (ReplyErr e) s).

Definition vfs_op_setattr (now : Z) : fuse → outcome fuse := op_stamped now 152 "vfs_op_setattr" EROFS.
Definition vfs_op_mknod (now : Z) : fuse → outcome fuse := op_stamped now 158 "vfs_op_mknod" EROFS.
Definition vfs_op_mkdir (now : Z) : fuse → outcome fuse := op_stamped now 163 "vfs_op_mkdir" EROFS.
Definition vfs_op_symlink (now : Z) : fuse → outcome fuse := op_stamped now 168 "vfs_op_symlink" EROFS.
Definition vfs_op_unlink (now : Z) : fuse → outcome fuse := op_stamped now 173 "vfs_op_unlink" EROFS.
Definition vfs_op_rmdir (now : Z) : fuse → outcome fuse := op_stamped now 178 "vfs_op_rmdir" EROFS.
Definition vfs_op_rename (now : Z) : fuse → outcome fuse := op_stamped now 184 "vfs_op_rename" EROFS.
Definition vfs_op_link (now : Z) : fuse → outcome fuse := op_stamped now 189 "vfs_op_link" EROFS.
Definition vfs_op_write (now : Z) : fuse → outcome fuse := op_stamped now 195 "vfs_op_write" EROFS.
Definition vfs_op_setxattr (now : Z) : fuse → outcome fuse := op_stamped now 201 "vfs_op_setxattr" ENOTSUP.
Definition vfs_op_removexattr (now : Z) : fuse → outcome fuse := op_stamped now 209 "vfs_op_removexattr" ENOTSUP.
Definition vfs_op_create (now : Z) : fuse → outcome fuse := op_stamped now 215 "vfs_op_create" EROFS.
Definition vfs_op_access : fuse → outcome fuse := op_named 246 "vfs_op_access" 0.
Definition vfs_op_readlink : fuse → outcome fuse := op_named 251 "vfs_op_readlink" ENOSYS.
Definition vfs_op_opendir : fuse → outcome fuse := op_named 256 "vfs_op_opendir" ENOENT.
Definition vfs_op_readdir : fuse → outcome fuse := op_named 262 "vfs_op_readdir" ENOENT.
Definition vfs_op_releasedir : fuse → outcome fuse := op_named 267 "vfs_op_releasedir" ENOENT.
Definition vfs_op_release : fuse → outcome fuse := op_named 312 "vfs_op_release" 0.
Definition vfs_op_read : fuse → outcome fuse := op_named 318 "vfs_op_read" EBADF.
Definition vfs_op_statfs : fuse → outcome fuse := op_named 324 "vfs_op_statfs" ENOSYS.
Definition vfs_op_getxattr : fuse → outcome fuse := op_named 329 "vfs_op_getxattr" ENOTSUP.
Definition vfs_op_listxattr : fuse → outcome fuse := op_named 334 "vfs_op_listxattr" ENOTSUP.
Definition vfs_op_lookup : fuse → outcome fuse := op_named 341 "vfs_op_lookup" ENOENT.

(** [junk]: the attributes are never set. *)
Definition vfs_op_getattr (junk : stat) (s : fuse) : outcome fuse :=
  let! s := log_fuse (file ++ ":222:vfs_op_getattr") s in
  if negb (st_ino junk =? 0) then
    let s := answer (ReplyAttr junk) s in
    log_fuse ("got attr.st_ino: " ++ fmt_d (sint32 (st_ino junk)) ++ " <mode:" ++ fmt_o (st_mode junk) ++ "> <size:" ++
              fmt_u (wrap64 (st_size junk)) ++ "> (" ++ fmt_d (sint32 (st_uid junk)) ++ ":" ++ fmt_d (sint32 (st_gid junk)) ++ ")") s
  else
    let! s := log_fuse "couldn't find attr.st_ino" s in Ret (answer (ReplyErr ENOENT) s).

(** No inode is ever found; the request is answered twice. *)
Definition vfs_op_open (o : os) (flags : Z) (s : fuse) : outcome fuse :=
  let! r := blockheap_alloc o (heap_vfs_handle s) (fu_heaps s) in
  let '(fh, h) := r in
  let! s := log_fuse (file ++ ":277:vfs_op_open") (with_heaps h s) in
  let s := answer (ReplyErr (if Z.land flags O_CREAT =? 0 then ENOENT else EROFS)) s in
  let! r := blockheap_free (heap_vfs_inode s) 0 (fu_heaps s) in
  Ret (answer (ReplyOpen fh) (with_heaps r.2 s)).
End fuse.

(** The garbage collector of the file system. *)
Definition collect (heap : fuse → Z) (s : fuse) : outcome fuse :=
  let! r := blockheap_garbagecollect (heap s) (fu_heaps s) in Ret (with_heaps r.2 s).
Definition vfs_gc (s : fuse) : outcome (Z * fuse) :=
  let! s := collect heap_vfs_cache s in
  let! s := collect heap_vfs_handle s in
  let! s := collect heap_vfs_inode s in
  let! s := collect heap_vfs_watch s in
  Ret (0, s).

(** ** Lemmas *)

(** The operations that change a file system. *)
Definition write_ops (file : string) (now : Z) : list (fuse → outcome fuse) :=
  [vfs_op_setattr file now; vfs_op_mknod file now; vfs_op_mkdir file now; vfs_op_symlink file now;
   vfs_op_unlink file now; vfs_op_rmdir file now; vfs_op_rename file now; vfs_op_link file now;
   vfs_op_write file now; vfs_op_create file now].

Lemma log_fuse_ok text s : logs (fu_proc s) → ∃ es, log_fuse text s = Ret (with_fproc (emits es (fu_proc s)) s).
Proof. intros Hl. unfold log_fuse. rewrite Log_ok by done. rewrite bind_ret. by eexists. Qed.

Lemma stamped_ok file now line name e s : logs (fu_proc s) →
  ∃ es, op_stamped file now line name e s = Ret (answer (ReplyErr e) (with_fproc (emits es (fu_proc s)) s)).
Proof. intros Hl. unfold op_stamped. edestruct log_fuse_ok as [es ->]; [done|]. rewrite bind_ret. by eexists. Qed.

(** Each of them gives one answer, that the file system is read-only, and changes
    nothing else. *)
Lemma write_ops_refused file now s : logs (fu_proc s) →
  Forall (λ op, ∃ es, op s = Ret (answer (ReplyErr EROFS) (with_fproc (emits es (fu_proc s)) s))) (write_ops file now).
Proof. intros Hl. repeat constructor; by apply stamped_ok. Qed.

(** Opening takes a handle, which is never released, and answers twice. *)
Lemma open_answers file o flags s fh h : logs (fu_proc s) →
  blockheap_alloc o (heap_vfs_handle s) (fu_heaps s) = Ret (fh, h) →
  ∃ es, vfs_op_open file o flags s = Ret
    (answer (ReplyOpen fh) (answer (ReplyErr (if Z.land flags O_CREAT =? 0 then ENOENT else EROFS))
      (with_fproc (emits es (fu_proc s)) (with_heaps h s)))).
Proof.
  intros Hl Ha. unfold vfs_op_open. rewrite Ha, bind_ret. cbv beta iota zeta.
  destruct (log_fuse_ok (file ++ ":277:vfs_op_open") (with_heaps h s) Hl) as [es ->]. rewrite bind_ret. exists es.
  assert (∀ bh h, blockheap_free bh 0 h = Ret (1, h)) as Hf by (intros bh h'; unfold blockheap_free; by destruct (bh =? 0)).
  cbv zeta. rewrite Hf, bind_ret. done.
Qed.
