(* ===== verification/Threads.v ===== *)
(** * Thread pools (src/threads.c, threads.h)

    Pools and threads are objects by address; the list of a pool is a list of copied
    values (List).  The addresses that the allocator gives, 0 when there is no memory
    (which [mem_alloc] then clears), and the answers of the thread library are
    arguments.  The error numbers at the end of messages are left out. *)
From S2P Require Import Prelude CStd Dict Conf Dlink Proc List.
From Stdlib Require Import Ascii.

Local Open Scope Z_scope.

(** A thread: the identifier that the thread library gives, its stack size when one was
    set, the reference count, the destructor and the argument block (never set). *)
Record thread := Thread {
  thr_info : Z;
  thr_attr : option Z;
  refcnt : Z;
  fini : Z;
  argv : Z
}.
Definition set_refcnt (v : Z) (t : thread) : thread := Thread (thr_info t) (thr_attr t) v (fini t) (argv t).

Record threadpool := ThreadPool {
  tp_name : option string;
  tp_list : option list_t;
  tp_attr : option Z
}.

(** Calls of the thread library: a thread is started with its start routine; a thread
    gets a name. *)
Inductive call := CallCreate (id : Z) (init : Z) | CallName (id : Z) (name : string).

(** The process, the pools, the threads, the nodes and values of the lists, other blocks
    of memory, and the calls. *)
Record threads := Threads {
  t_proc : proc;
  t_pools : gmap Z threadpool;
  t_objs : gmap Z thread;
  t_heap : heap;
  t_blocks : gset Z;
  t_calls : list call
}.
Definition with_tproc (v : proc) (s : threads) : threads :=
  Threads v (t_pools s) (t_objs s) (t_heap s) (t_blocks s) (t_calls s).
Definition with_pools (v : gmap Z threadpool) (s : threads) : threads :=
  Threads (t_proc s) v (t_objs s) (t_heap s) (t_blocks s) (t_calls s).
Definition with_threads (v : gmap Z thread) (s : threads) : threads :=
  Threads (t_proc s) (t_pools s) v (t_heap s) (t_blocks s) (t_calls s).
Definition with_theap (v : heap) (s : threads) : threads :=
  Threads (t_proc s) (t_pools s) (t_objs s) v (t_blocks s) (t_calls s).
Definition with_blocks (v : gset Z) (s : threads) : threads :=
  Threads (t_proc s) (t_pools s) (t_objs s) (t_heap s) v (t_calls s).
Definition called (c : call) (s : threads) : threads :=
  Threads (t_proc s) (t_pools s) (t_objs s) (t_heap s) (t_blocks s) (t_calls s ++ [c]).

Definition log_thr (level : Z) (text : string) (s : threads) : outcome threads :=
  let! p := Log level text (t_proc s) in Ret (with_tproc p s).
Definition get_pool (p : Z) (s : threads) : outcome threadpool :=
  if p =? 0 then Stuck NullDeref else need BadPointer (t_pools s !! p).
Definition get_thread (t : Z) (s : threads) : outcome thread :=
  if t =? 0 then Stuck NullDeref else need BadPointer (t_objs s !! t).

(** [mem_free] of a block. *)
Definition free_block (p : Z) (s : threads) : outcome threads :=
  if p =? 0 then Stuck FailedAssert
  else if decide (p ∈ t_blocks s) then Ret (with_blocks (t_blocks s ∖ {[p]}) s)
  else Stuck BadPointer.

(** [p], [l]: the addresses of the pool and of its list; [attr], [stack]: do the
    attributes and the stack size get set; [dup]: can the name be copied. *)
Definition threadpool_init (p l : Z) (attr stack dup : bool) (name : string) (s : threads) : outcome (Z * threads) :=
  if p =? 0 then Stuck NullDeref
  else
    let s := with_pools (<[p := ThreadPool None None None]> (t_pools s)) s in
    if negb attr then
      let! s := log_thr LOG_EMERG "threadpool_init: failed: " s in Ret (0, s)
    else
      let! tmp := dict_getInt (pr_conf (t_proc s)) (Some "tuning.threads.stacksz"%string) 0 in
      let! r :=
        if 0 <? tmp then
          if negb stack then
            let! s := log_thr LOG_ERR "threadpool_init: Unable to set stack size: " s in Ret (None, s)
          else Ret (Some tmp, s)
        else Ret (None, s) in
      let '(size, s) := r in
      let! l := create_list l in
      Ret (p, with_pools (<[p := ThreadPool (if dup then Some name else None) (Some l) size]> (t_pools s)) s).

Definition threadpool_destroy (pool : Z) (s : threads) : outcome (Z * threads) :=
  if pool =? 0 then Ret (-1, s)
  else
    let! t := get_pool pool s in
    let! s :=
      match tp_list t with
      | Some l => let! h := destroy_list (t_heap s) l in Ret (with_theap h s)
      | None => Ret s
      end in
    Ret (0, with_pools (delete pool (t_pools s)) s).

(** The answers for one new thread: the addresses of the thread, of the node and of the
    copied value, the identifier of the thread or none when it cannot be created, and the
    result of naming it. *)
Record thread_answers := ThreadAnswers {
  a_thread : Z;
  a_node : Z;
  a_value : Z;
  a_created : option Z;
  a_named : Z
}.

(** [list_add] copies the size of a pointer: the identifier, the first member of the
    thread. *)
Definition thread_create (w : thread_answers) (pool init fini : Z) (descr : string) (s : threads)
    : outcome (Z * threads) :=
  let tmp := a_thread w in
  if tmp =? 0 then Stuck NullDeref
  else
    let! pl := get_pool pool s in
    match a_created w with
    | None =>
        let s := with_threads (<[tmp := Thread 0 (tp_attr pl) 0 0 0]> (t_objs s)) s in
        let! s := log_thr LOG_ERR ("thread (" ++ descr ++ ") creation failed: ") s in
        Ret (0, s)
    | Some id =>
        let s := called (CallCreate id init) s in
        let t := Thread id (tp_attr pl) 1 fini 0 in
        let s := with_threads (<[tmp := t]> (t_objs s)) s in
        let! l := need NullDeref (tp_list pl) in
        let! r := list_add (t_heap s) l (le_bytes 8 (thr_info t)) 8 (a_node w) (a_value w) in
        let s := with_theap r.1 s in
        let s := with_pools (<[pool := ThreadPool (tp_name pl) (Some r.2) (tp_attr pl)]> (t_pools s)) s in
        let! debug := conf_bool (t_proc s) "debug.threads" 0 in
        let! s :=
          if debug =? 1 then
            log_thr LOG_DEBUG ("new thread " ++ fmt_x tmp ++ " (" ++ descr ++ ") created in pool " ++
                               fmt_s (tp_name pl)) s
          else Ret s in
        let thrname := snprintf 15 descr in
        let s := called (CallName id thrname) s in
        let! s :=
          if negb (a_named w =? 0) then
            log_thr LOG_SHELL ("Failed setting thread name: rv=" ++ fmt_d (a_named w)) s
          else Ret s in
        Ret (tmp, s)
    end.

(** [junk]: the argument that the last message lacks. *)
Definition thread_shutdown (junk : Z) (pool thr : Z) (s : threads) : outcome (Z * threads) :=
  if (pool =? 0) || (thr =? 0) then Ret (0, s)
  else
    let! t := get_thread thr s in
    if refcnt t =? - 2 ^ 31 then Stuck SignedOverflow
    else
      let t := set_refcnt (refcnt t - 1) t in
      let s := with_threads (<[thr := t]> (t_objs s)) s in
      if refcnt t <=? 0 then
        let! debug := conf_bool (t_proc s) "debug.threads" 0 in
        let! s :=
          if debug =? 1 then
            let! s := log_thr LOG_DEBUG ("unallocating thread " ++ fmt_x thr ++ " due to refcnt == 0") s in
            if refcnt t <? 0 then
              log_thr LOG_DEBUG ("BUG: thread " ++ fmt_x (refcnt t) ++ " refcnt is negative: " ++ fmt_d junk) s
            else Ret s
          else Ret s in
        let! s := if negb (argv t =? 0) then free_block (argv t) s else Ret s in
        let! pl := get_pool pool s in
        let! l := need NullDeref (tp_list pl) in
        let! r := list_remove (t_heap s) l FRONT in
        let s := with_theap r.1 s in
        let s := with_pools (<[pool := ThreadPool (tp_name pl) (Some r.2) (tp_attr pl)]> (t_pools s)) s in
        Ret (0, with_threads (delete thr (t_objs s)) s)
      else Ret (thr, s).
