(* ===== verification/ThreadsSpec.v ===== *)
(** * Thread pools as queues of thread identifiers *)
From S2P Require Import Prelude CStd Buf Dict DictFacts DictOps DictSpec Conf Dlink DlinkSpec Proc ProcSpec List ListSpec Threads.
From Stdlib Require Import Ascii.

Local Open Scope Z_scope.

(** The values at the nodes [xs] are the identifiers [ids]. *)
Definition copies (h : gmap Z (list ascii)) : list (Z * Z) → list Z → Prop :=
  Forall2 (λ x id, h !! x.2 = Some (le_bytes 8 id)).

Lemma copies_ext h h' xs ids :
  copies h xs ids → (∀ d, d ∈ xs.*2 → h' !! d = h !! d) → copies h' xs ids.
Proof.
  induction 1 as [|x id xs ids Hx _ IH]; intros Hd; [constructor|]. cbn in Hd.
  constructor; [rewrite Hd by left; done|]. apply IH. intros d ?. apply Hd. by right.
Qed.

(** The list of the pool at [p] holds copies of the identifiers [ids]. *)
Record pool_rep (s : threads) (p : Z) (ids : list Z) : Prop := PoolRep {
  pr_nonzero : p ≠ 0;
  pr_logs : logs (t_proc s);
  pr_rep : ∃ name attr l xs, t_pools s !! p = Some (ThreadPool name (Some l) attr) ∧ lrep (t_heap s) l xs ∧
    copies (h_data (t_heap s)) xs ids
}.

(** The addresses that the allocator gives are not in use. *)
Definition fresh_thread (w : thread_answers) (s : threads) : Prop :=
  a_thread w ≠ 0 ∧ a_node w ≠ 0 ∧ a_value w ≠ 0 ∧
  h_nodes (t_heap s) !! a_node w = None ∧ h_data (t_heap s) !! a_value w = None.

Lemma log_thr_ok level text s : logs (t_proc s) →
  ∃ es, log_thr level text s = Ret (with_tproc (emits es (t_proc s)) s).
Proof. intros Hl. unfold log_thr. rewrite Log_ok by done. cbn [obind]. rewrite emit_emits. by eexists. Qed.

(** A message that depends on a test. *)
Lemma log_thr_if (b : bool) level text s : logs (t_proc s) →
  ∃ es, (if b then log_thr level text s else Ret s) = Ret (with_tproc (emits es (t_proc s)) s).
Proof.
  intros Hl. destruct b; [by apply log_thr_ok|]. exists []. rewrite emits_nil. by destruct s.
Qed.

Lemma lrep_free h l xs d : lrep h l xs → d ∉ xs.*2 → lrep (Heap (h_nodes h) (delete d (h_data h))) l xs.
Proof.
  intros [? ? ? ? Hv ?] Hd. split; cbn [h_nodes h_data]; try done. intros e He. destruct (Hv e He).
  split; [done|]. rewrite lookup_delete_ne; [done|]. by intros ->.
Qed.

Lemma thread_made w p init fini descr s ids id :
  pool_rep s p ids → fresh_thread w s → a_created w = Some id →
  ∃ s' attr, thread_create w p init fini descr s = Ret (a_thread w, s') ∧ pool_rep s' p (ids ++ [id]) ∧
    t_objs s' = <[a_thread w := Thread id attr 1 fini 0]> (t_objs s) ∧
    t_calls s' = t_calls s ++ [CallCreate id init; CallName id (snprintf 15 descr)] ∧
    (∃ es, t_proc s' = emits es (t_proc s)) ∧
    (∀ v, fresh_thread v s → a_node v ≠ a_node w → a_value v ≠ a_value w → fresh_thread v s').
Proof.
  intros [Hp Hl (name & attr & l & xs & Hpool & Hrep & Hids)] (Ht & Hn & Hd & Hfn & Hfd) Hc.
  unfold thread_create, get_pool. destruct (Z.eqb_spec (a_thread w) 0), (Z.eqb_spec p 0); [done..|].
  rewrite Hpool, need_Some, bind_ret, Hc. cbn [tp_list tp_attr tp_name need obind thr_info].
  destruct (lrep_fresh _ _ _ _ _ Hrep Hfn Hfd) as [Hnx Hdx].
  destruct (list_add_ok (t_heap s) l xs (le_bytes 8 id) 8 (a_node w) (a_value w))
    as (h' & l' & Hadd & Hrep' & Hnew & _ & Hold); [done..| |].
  { unfold blen. rewrite le_bytes_length. lia. }
  change (t_heap (with_threads _ (called _ s))) with (t_heap s). rewrite Hadd. cbn [obind fst snd].
  destruct (conf_bool_total "debug.threads" 0 (t_proc s) Hl) as [b Hb]. cbn [t_proc with_tproc with_pools with_theap with_threads called].
  rewrite Hb, bind_ret.
  match goal with |- context [if b =? 1 then log_thr LOG_DEBUG ?t ?s0 else Ret ?s0] =>
    destruct (log_thr_if (b =? 1) LOG_DEBUG t s0 Hl) as [es1 ->] end.
  rewrite bind_ret.
  match goal with |- context [if negb ?c then log_thr LOG_SHELL ?t ?s0 else Ret ?s0] =>
    destruct (log_thr_if (negb c) LOG_SHELL t s0 Hl) as [es2 ->] end.
  rewrite bind_ret. eexists _, attr. split; [done|]. split_and!; [|done| | |].
  - split; [done|done|]. exists name, attr, l', (xs ++ [(a_node w, a_value w)]). split_and!; [apply lookup_insert_eq|done|].
    cbn [t_heap called with_tproc with_pools with_theap with_threads]. apply Forall2_app.
    + eapply copies_ext; [exact Hids|]. intros e He. apply Hold. by intros ->.
    + constructor; [|done]. cbn [snd]. rewrite Hnew, take_ge; [done|]. by rewrite le_bytes_length.
  - cbn. by rewrite <- (assoc_L app).
  - exists (es1 ++ es2). by rewrite <- emits_emits.
  - intros v (? & ? & ? & Hvn & Hvd) Hnn Hdd. split_and!; [done..| |]; cbn [t_heap called with_tproc with_pools with_theap with_threads].
    + by eapply list_add_unused.
    + by rewrite Hold.
Qed.

(** [list_remove] at the front. *)
Lemma remove_front h l m d xs :
  lrep h l ((m, d) :: xs) →
  if decide (xs = []) then list_remove h l FRONT = Stuck NullDeref
  else ∃ h' l', list_remove h l FRONT = Ret (h', l') ∧ lrep h' l' xs ∧
    (∀ e, e ∈ xs.*2 → h_data h' !! e = h_data h !! e).
Proof.
  intros Hrep. pose proof (list_poll_ok h l xs m d Hrep) as Hpoll. unfold list_remove.
  change (FRONT =? FRONT) with true. cbn iota.
  pose proof Hrep as [_ _ _ _ Hv Ha]. destruct (Hv d) as [Hd [v Hval]]; [left|].
  cbn in Ha. apply NoDup_cons in Ha as [Hdx _].
  case_decide; [by rewrite Hpoll|]. destruct Hpoll as (h1 & l1 & -> & Hrep1 & Hdata & _). cbn [obind].
  unfold free_value. destruct (Z.eqb_spec d 0); [done|]. rewrite Hdata, Hval. cbn [need obind].
  eexists _, _. split; [done|]. split; [rewrite <- Hdata; by apply lrep_free|].
  intros e He. cbn [h_data]. rewrite lookup_delete_ne; [done|]. by intros ->.
Qed.

(** The messages about a thread whose count is 0. *)
Lemma unalloc_logs (debug : bool) thr junk s : logs (t_proc s) →
  ∃ es, (if debug then
      let! s := log_thr LOG_DEBUG ("unallocating thread " ++ fmt_x thr ++ " due to refcnt == 0") s in
      if 1 - 1 <? 0 then
        log_thr LOG_DEBUG ("BUG: thread " ++ fmt_x (1 - 1) ++ " refcnt is negative: " ++ fmt_d junk) s
      else Ret s
    else Ret s) = Ret (with_tproc (emits es (t_proc s)) s).
Proof.
  intros Hl. change (1 - 1 <? 0) with false. cbn iota.
  destruct (log_thr_if debug LOG_DEBUG ("unallocating thread " ++ fmt_x thr ++ " due to refcnt == 0") s Hl) as [es He].
  exists es. destruct debug; [|exact He]. by rewrite He.
Qed.

(** The last reference to a thread is given up. *)
Lemma shutdown_last junk p thr t s ids :
  pool_rep s p ids → thr ≠ 0 → t_objs s !! thr = Some t → refcnt t = 1 → argv t = 0 →
  match ids with
  | [] => True
  | [_] => thread_shutdown junk p thr s = Stuck NullDeref
  | _ :: rest => ∃ s', thread_shutdown junk p thr s = Ret (0, s') ∧ pool_rep s' p rest ∧
      t_objs s' = delete thr (t_objs s)
  end.
Proof.
  intros [Hp Hl (name & attr & l & xs & Hpool & Hrep & Hids)] Ht Hthr Hc Ha.
  destruct ids as [|a ids]; [done|]. inversion Hids as [|[m d] ? xs' ? Hx Hids']; subst.
  assert (∃ es, thread_shutdown junk p thr s =
      (let s0 := with_tproc (emits es (t_proc s)) (with_threads (<[thr:=set_refcnt 0 t]> (t_objs s)) s) in
       let! r := list_remove (t_heap s) l FRONT in
       Ret (0, with_threads (delete thr (t_objs s))
         (with_pools (<[p := ThreadPool name (Some r.2) attr]> (t_pools s)) (with_theap r.1 s0))))) as [es ->].
  { unfold thread_shutdown, get_thread, get_pool. destruct (Z.eqb_spec p 0), (Z.eqb_spec thr 0); [done..|]. cbn [orb].
    rewrite Hthr, need_Some, bind_ret, Hc. change (1 =? - 2 ^ 31) with false. cbn iota.
    cbn [refcnt set_refcnt argv]. rewrite Ha. change (1 - 1 <=? 0) with true. cbn iota.
    destruct (conf_bool_total "debug.threads" 0 (t_proc s) Hl) as [b Hb]. cbn [t_proc with_threads]. rewrite Hb, bind_ret.
    pose proof (unalloc_logs (b =? 1) thr junk) as Hlog.
    destruct (Hlog (with_threads (<[thr:=set_refcnt (1 - 1) t]> (t_objs s)) s) Hl) as [es ->]. rewrite bind_ret.
    cbn [negb Z.eqb]. rewrite bind_ret. cbn [t_pools with_tproc with_threads]. rewrite Hpool. cbn [need obind tp_list tp_name tp_attr].
    exists es. cbn [t_heap with_tproc with_threads t_objs with_pools with_theap t_pools].
    destruct (list_remove _ _ _) as [r| | |]; [|done..]. cbn [obind]. by rewrite delete_insert_eq. }
  pose proof (remove_front _ _ _ _ _ Hrep) as Hrm. case_decide as Hxs.
  - subst. apply Forall2_nil_inv_l in Hids' as ->. by rewrite Hrm.
  - destruct Hrm as (h' & l' & -> & Hrep' & Hval). cbn [obind fst snd].
    destruct ids as [|b ids]; [by inversion Hids'|].
    eexists. split; [done|]. split; [|done]. split; [done|done|].
    exists name, attr, l', xs'. split_and!; [apply lookup_insert_eq|done|].
    cbn. eapply copies_ext; [exact Hids'|]. done.
Qed.

(** Another reference stays. *)
Lemma shutdown_shared junk p thr t s ids :
  pool_rep s p ids → thr ≠ 0 → t_objs s !! thr = Some t → 1 < refcnt t →
  ∃ s', thread_shutdown junk p thr s = Ret (thr, s') ∧ pool_rep s' p ids ∧
    t_objs s' = <[thr := set_refcnt (refcnt t - 1) t]> (t_objs s).
Proof.
  intros [Hp Hl Hrep] Ht Hthr Hc. unfold thread_shutdown, get_thread.
  destruct (Z.eqb_spec p 0), (Z.eqb_spec thr 0); [done..|]. cbn [orb]. rewrite Hthr. cbn [need obind].
  destruct (Z.eqb_spec (refcnt t) (- 2 ^ 31)); [lia|]. cbn [refcnt set_refcnt].
  destruct (Z.leb_spec (refcnt t - 1) 0); [lia|]. eexists. split; [done|]. by split.
Qed.

Lemma create_fails w p init fini descr s ids :
  pool_rep s p ids → fresh_thread w s → a_created w = None →
  ∃ s' attr, thread_create w p init fini descr s = Ret (0, s') ∧ pool_rep s' p ids ∧
    t_objs s' = <[a_thread w := Thread 0 attr 0 0 0]> (t_objs s) ∧ t_calls s' = t_calls s.
Proof.
  intros [Hp Hl (name & attr & l & xs & Hpool & Hrep & Hids)] (Ht & _) Hc.
  unfold thread_create, get_pool. destruct (Z.eqb_spec (a_thread w) 0), (Z.eqb_spec p 0); [done..|].
  rewrite Hpool, need_Some, bind_ret, Hc. cbn [tp_attr].
  match goal with |- context [log_thr LOG_ERR ?t ?s0] => destruct (log_thr_ok LOG_ERR t s0 Hl) as [es ->] end.
  rewrite bind_ret. eexists _, attr. split; [done|]. split_and!; [|done..].
  split; [done|done|]. by exists name, attr, l, xs.
Qed.

Lemma destroy_pool p s ids : pool_rep s p ids →
  ∃ s', threadpool_destroy p s = Ret (0, s') ∧ t_pools s' = delete p (t_pools s) ∧ t_objs s' = t_objs s.
Proof.
  intros [Hp Hl (name & attr & l & xs & Hpool & Hrep & Hids)].
  unfold threadpool_destroy, get_pool. destruct (Z.eqb_spec p 0); [done|]. rewrite Hpool, need_Some, bind_ret.
  cbn [tp_list]. pose proof Hrep as [Hs Hnd Hf _ Hv Ha]. unfold destroy_list.
  pose proof (lseg_size _ _ _ _ Hs Hnd).
  destruct (destroy_loop_ok (S (size (h_nodes (t_heap s)))) 0 xs (t_heap s) Hs Hnd Ha Hv) as (h' & Hd & _); [lia|].
  rewrite Hf, Hd. cbn [obind]. by eexists.
Qed.

Lemma init_ok p l attr stack dup name s :
  logs (t_proc s) → p ≠ 0 → l ≠ 0 →
  ∃ r s', threadpool_init p l attr stack dup name s = Ret (r, s') ∧ t_objs s' = t_objs s ∧
    t_heap s' = t_heap s ∧ t_calls s' = t_calls s ∧ (∃ es, t_proc s' = emits es (t_proc s)) ∧
    if attr then r = p ∧ pool_rep s' p [] else r = 0.
Proof.
  intros Hl Hp Hlz. unfold threadpool_init. destruct (Z.eqb_spec p 0); [done|]. destruct attr; cbn [negb].
  - assert (∃ k, dict_getInt (pr_conf (t_proc s)) (Some "tuning.threads.stacksz"%string) 0 = Ret k) as [k Hk].
    { unfold dict_getInt. destruct Hl as [->|(m & lv & (d & -> & Hok) & _)]; [by eexists|].
      rewrite (get_refines _ _ _ _ Hok). cbn [obind]. by eexists. }
    cbn [t_proc with_pools]. rewrite Hk, bind_ret.
    match goal with |- context [let! r := if 0 <? k then ?a else ?b in _] =>
      assert (∃ es size, (if 0 <? k then a else b) =
        Ret (size, with_tproc (emits es (t_proc s)) (with_pools (<[p := ThreadPool None None None]> (t_pools s)) s)))
        as (es & size & Hsz) end.
    { destruct (0 <? k); [destruct stack; cbn [negb]|].
      - exists [], (Some k). rewrite emits_nil. by destruct s.
      - match goal with |- context [log_thr LOG_ERR ?t ?s0] => destruct (log_thr_ok LOG_ERR t s0 Hl) as [es ->] end.
        by exists es, None.
      - exists [], None. rewrite emits_nil. by destruct s. }
    rewrite Hsz, bind_ret. unfold create_list. destruct (Z.eqb_spec l 0); [done|]. cbn [obind].
    eexists _, _. split; [done|]. split_and!; [done|done|done|by eexists|done|]. split; [done|done|].
    eexists _, _, (ListT 0 0 0), []. split; [apply lookup_insert_eq|]. split; [|constructor].
    by split; [done|constructor|done|done| |constructor]; intros d ?%elem_of_nil.
  - match goal with |- context [log_thr LOG_EMERG ?t ?s0] => destruct (log_thr_ok LOG_EMERG t s0 Hl) as [es ->] end.
    eexists _, _. split; [done|]. by split_and!; [..|eexists|].
Qed.

(** C32: A thread pool is a queue of thread identifiers.  A new pool is empty.  A thread
    that is created gets one reference, is started before it is named (with at most 14
    characters) and its identifier goes to the end of the queue; when it cannot be
    started the queue stays and its object is lost.  Giving up one reference of several
    only counts it down.  Giving up the last one releases the object of the thread, but
    takes the first identifier out of the queue, whichever thread it belongs to, and
    dereferences NULL when the queue has only one.  Destroying the pool releases no
    thread. *)
Theorem thread_pool_queue (w : thread_answers) (junk p init fini thr : Z) (descr : string) (t : thread)
    (s : threads) (ids : list Z) :
  pool_rep s p ids →
  (∀ q l stack dup name, q ≠ 0 → l ≠ 0 → ∃ s', threadpool_init q l true stack dup name s = Ret (q, s') ∧
    pool_rep s' q []) ∧
  (fresh_thread w s →
    match a_created w with
    | Some id => ∃ s' attr, thread_create w p init fini descr s = Ret (a_thread w, s') ∧
        pool_rep s' p (ids ++ [id]) ∧ t_objs s' = <[a_thread w := Thread id attr 1 fini 0]> (t_objs s) ∧
        t_calls s' = t_calls s ++ [CallCreate id init; CallName id (snprintf 15 descr)]
    | None => ∃ s' attr, thread_create w p init fini descr s = Ret (0, s') ∧ pool_rep s' p ids ∧
        t_objs s' = <[a_thread w := Thread 0 attr 0 0 0]> (t_objs s) ∧ t_calls s' = t_calls s
    end) ∧
  (thr ≠ 0 → t_objs s !! thr = Some t → 1 < refcnt t →
    ∃ s', thread_shutdown junk p thr s = Ret (thr, s') ∧ pool_rep s' p ids ∧
      t_objs s' = <[thr := set_refcnt (refcnt t - 1) t]> (t_objs s)) ∧
  (thr ≠ 0 → t_objs s !! thr = Some t → refcnt t = 1 → argv t = 0 →
    match ids with
    | [] => True
    | [_] => thread_shutdown junk p thr s = Stuck NullDeref
    | _ :: rest => ∃ s', thread_shutdown junk p thr s = Ret (0, s') ∧ pool_rep s' p rest ∧
        t_objs s' = delete thr (t_objs s)
    end) ∧
  (∃ s', threadpool_destroy p s = Ret (0, s') ∧ t_pools s' = delete p (t_pools s) ∧ t_objs s' = t_objs s).
Proof.
  intros Hrep. split_and!.
  - intros q l stack dup name Hq Hl.
    destruct (init_ok q l true stack dup name s (pr_logs _ _ _ Hrep) Hq Hl) as (r & s' & ? & _ & _ & _ & _ & -> & ?). by exists s'.
  - intros Hf. destruct (a_created w) eqn:Hc; [|by apply create_fails].
    destruct (thread_made w p init fini descr s ids z Hrep Hf Hc) as (s' & attr & ? & ? & ? & ? & _). by exists s', attr.
  - by apply shutdown_shared.
  - by apply shutdown_last.
  - by eapply destroy_pool.
Qed.

(** A pool of two threads, 7 and 9. *)
Definition ex_pool : threads :=
  Threads (Proc None false false "" [])
    {[4 := ThreadPool (Some "main"%string) (Some (ListT 2 16 48)) None]}
    {[100 := Thread 7 None 1 0 0; 101 := Thread 9 None 1 0 0]}
    (Heap {[16 := DNode 32 48 0; 48 := DNode 64 0 16]} {[32 := le_bytes 8 7; 64 := le_bytes 8 9]}) ∅ [].

Lemma ex_pool_rep : pool_rep ex_pool 4 [7; 9].
Proof.
  split; [done|by left|]. eexists _, _, _, [(16, 32); (48, 64)]. split; [reflexivity|]. split; [|by repeat constructor].
  split; cbn; try done.
  - by repeat (constructor; [set_solver|]); constructor.
  - intros d Hd. assert (d = 32 ∨ d = 64) as [-> | ->] by set_solver; (split; [done|by eexists]).
  - by repeat (constructor; [set_solver|]); constructor.
Qed.

(** Giving up thread 9 leaves the pool with the identifier 9, and not 7. *)
Lemma thread_pool_queue_witness :
  (∃ s', thread_shutdown 0 4 101 ex_pool = Ret (0, s') ∧ pool_rep s' 4 [9] ∧
    t_objs s' = delete 101 (t_objs ex_pool)) ∧
  ∃ s' attr, thread_create (ThreadAnswers 102 80 96 (Some 11) 0) 4 5 6 "a long name of a thread" ex_pool = Ret (102, s') ∧
    pool_rep s' 4 [7; 9; 11] ∧ t_objs s' = <[102 := Thread 11 attr 1 6 0]> (t_objs ex_pool) ∧
    t_calls s' = [CallCreate 11 5; CallName 11 "a long name of"].
Proof.
  destruct (thread_pool_queue (ThreadAnswers 102 80 96 (Some 11) 0) 0 4 5 6 101 "a long name of a thread"
    (Thread 9 None 1 0 0) ex_pool [7; 9] ex_pool_rep) as (_ & Hcreate & _ & Hshut & _).
  split; [by apply Hshut|]. apply Hcreate. by split_and!.
Defined.
