(* ===== verification/Barrier.v ===== *)
(** * The start-up barrier (src/threads.c, src/main.c)

    The main thread holds the lock while it creates the threads, sets [core_ready], gives
    the lock back and wakes the threads that wait.  Every thread calls [thread_entry]
    first, which waits for [core_ready] under the lock.  The steps of main and of the
    threads interleave; a step is a call of the thread library or the test of the
    flag.  A mutex has at most one owner, waiting gives it back in the same step, and a
    thread that waits may wake at any time. *)
From S2P Require Import Prelude.

Local Open Scope nat_scope.

(** Where a thread is in [thread_entry]: outside, at the test of the loop, waiting,
    woken and without the lock, behind the loop. *)
Inductive tphase := TIdle | TCheck | TWait | TWake | TLeave.
(** [ts_done], [ts_left]: the calls of [thread_entry] that have returned and those that are
    still to return. *)
Record tstate := TState { ts_phase : tphase; ts_done : nat; ts_left : nat }.

(** Where [main] is: before its lock, creating threads, behind the assignment, the unlock
    and the broadcast. *)
Inductive mphase := MInit | MLocked | MReady | MUnlocked | MRunning.
Inductive owner := Main | Thr (i : nat).

(** [b_todo]: the threads that are still to be created, by the number of their calls. *)
Record barrier := Barrier {
  b_main : mphase;
  b_todo : list nat;
  core_ready : Z;
  core_ready_m : option owner;
  b_threads : list tstate
}.

(** [main_threads]: how often the start routines of db, vfs, cell and shell call
    [thread_entry]. *)
Definition main_entries : list nat := [1; 2; 1; 1].

Definition start (todo : list nat) : barrier := Barrier MInit todo 0%Z None [].

(** [pthread_cond_broadcast] *)
Definition wake (t : tstate) : tstate :=
  match ts_phase t with
  | TWait => TState TWake (ts_done t) (ts_left t)
  | _ => t
  end.

Inductive step : barrier → barrier → Prop :=
  | main_lock todo r ts :
      step (Barrier MInit todo r None ts) (Barrier MLocked todo r (Some Main) ts)
  | main_create n todo r o ts :
      step (Barrier MLocked (n :: todo) r o ts) (Barrier MLocked todo r o (ts ++ [TState TIdle 0 n]))
  | main_ready r o ts :
      step (Barrier MLocked [] r o ts) (Barrier MReady [] 1%Z o ts)
  | main_unlock todo r ts :
      step (Barrier MReady todo r (Some Main) ts) (Barrier MUnlocked todo r None ts)
  | main_broadcast todo r o ts :
      step (Barrier MUnlocked todo r o ts) (Barrier MRunning todo r o (wake <$> ts))
  | thr_lock m todo r ts i d n :
      ts !! i = Some (TState TIdle d (S n)) →
      step (Barrier m todo r None ts) (Barrier m todo r (Some (Thr i)) (<[i := TState TCheck d (S n)]> ts))
  | thr_wait m todo r o ts i d n :
      ts !! i = Some (TState TCheck d n) → (r < 1)%Z →
      step (Barrier m todo r o ts) (Barrier m todo r None (<[i := TState TWait d n]> ts))
  | thr_spurious m todo r o ts i d n :
      ts !! i = Some (TState TWait d n) →
      step (Barrier m todo r o ts) (Barrier m todo r o (<[i := TState TWake d n]> ts))
  | thr_relock m todo r ts i d n :
      ts !! i = Some (TState TWake d n) →
      step (Barrier m todo r None ts) (Barrier m todo r (Some (Thr i)) (<[i := TState TCheck d n]> ts))
  | thr_pass m todo r o ts i d n :
      ts !! i = Some (TState TCheck d n) → (1 ≤ r)%Z →
      step (Barrier m todo r o ts) (Barrier m todo r o (<[i := TState TLeave d n]> ts))
  | thr_unlock m todo r o ts i d n :
      ts !! i = Some (TState TLeave d n) →
      step (Barrier m todo r o ts) (Barrier m todo r None (<[i := TState TIdle (S d) (pred n)]> ts)).

(** Nothing is left to do. *)
Definition passed (s : barrier) : Prop :=
  b_main s = MRunning ∧ b_todo s = [] ∧ core_ready s = 1%Z ∧ core_ready_m s = None ∧
  Forall (λ t, ts_phase t = TIdle ∧ ts_left t = 0) (b_threads s).

(** ** The invariant *)

Definition holding (p : tphase) : bool := match p with TCheck | TLeave => true | _ => false end.
(** Main has the lock, has set the flag, has given the lock back. *)
Definition main_holds (m : mphase) : bool := match m with MLocked | MReady => true | _ => false end.
Definition flag_set (m : mphase) : bool := match m with MInit | MLocked => false | _ => true end.
Definition released (m : mphase) : bool := match m with MUnlocked | MRunning => true | _ => false end.

(** The lock: main's before the flag is set, of the one thread that is between its calls
    otherwise.  No thread waits. *)
Definition thread_ok (m : mphase) (o : option owner) (i : nat) (t : tstate) : Prop :=
  (ts_phase t = TIdle ∧ o ≠ Some (Thr i) ∨ holding (ts_phase t) = true ∧ o = Some (Thr i) ∧ ts_left t ≠ 0) ∧
  (ts_phase t = TIdle ∧ ts_done t = 0 ∨ released m = true).

Record inv (s : barrier) : Prop := Inv {
  inv_main : if main_holds (b_main s) then core_ready_m s = Some Main else core_ready_m s ≠ Some Main;
  inv_free : b_main s = MInit → b_threads s = [] ∧ core_ready_m s = None;
  inv_flag : core_ready s = if flag_set (b_main s) then 1%Z else 0%Z;
  inv_todo : flag_set (b_main s) = true → b_todo s = [];
  inv_owner : ∀ i, core_ready_m s = Some (Thr i) → i < length (b_threads s);
  inv_threads : ∀ i t, b_threads s !! i = Some t → thread_ok (b_main s) (core_ready_m s) i t
}.
Lemma inv_start todo : inv (start todo).
Proof. by split; cbn. Qed.

(** A thread takes the lock, keeps it or gives it back. *)
Lemma inv_update m todo r o o' ts i t t' :
  inv (Barrier m todo r o ts) → ts !! i = Some t → released m = true → o = None ∨ o = Some (Thr i) →
  (ts_phase t' = TIdle ∧ o' = None ∨ holding (ts_phase t') = true ∧ o' = Some (Thr i) ∧ ts_left t' ≠ 0) →
  inv (Barrier m todo r o' (<[i := t']> ts)).
Proof.
  intros [H1 H2 H3 H4 H5 H6] Hi Hm Ho Ht'. cbn in *. pose proof (lookup_lt_Some _ _ _ Hi) as Hlt.
  assert (o' = None ∨ o' = Some (Thr i)) as Ho' by naive_solver.
  split; cbn; try done.
  - destruct m; try done; cbn; destruct Ho' as [-> | ->]; done.
  - by intros ->.
  - rewrite length_insert. intros j Hj. destruct Ho' as [-> | ->]; by simplify_eq.
  - intros j u. destruct (decide (j = i)) as [->|Hne].
    + rewrite list_lookup_insert_eq by done. intros [= <-]. split; [|by right].
      destruct Ht' as [[? ->]|?]; [by left|by right].
    + rewrite list_lookup_insert_ne by done. intros Hj. destruct (H6 j u Hj) as [Ha Hb]. split; [|done]. left.
      destruct Ha as [[? ?]|(_ & ? & _)]; [|destruct Ho; simplify_eq; done]. split; [done|].
      destruct Ho' as [-> | ->]; [done|by intros [= ->]].
Qed.

Lemma inv_free_released m todo r ts i t :
  inv (Barrier m todo r None ts) → ts !! i = Some t → released m = true.
Proof.
  intros [H1 H2 _ _ _ _] Hi. cbn in *. destruct m; try done. destruct (H2 eq_refl) as [-> _]. done.
Qed.

(** A thread that is not outside of [thread_entry] has the lock, and the flag is set. *)
Lemma inv_inside m todo r o ts i t :
  inv (Barrier m todo r o ts) → ts !! i = Some t → ts_phase t ≠ TIdle →
  holding (ts_phase t) = true ∧ o = Some (Thr i) ∧ ts_left t ≠ 0 ∧ released m = true ∧ r = 1%Z.
Proof.
  intros [_ _ H3 _ _ H6] Hi Hp. cbn in *. destruct (H6 i t Hi) as [[[? ?]|(? & ? & ?)] [[? ?]|Hm]]; try done.
  split_and!; try done. rewrite H3. by destruct m.
Qed.

Lemma inv_step s s' : step s s' → inv s → inv s'.
Proof.
  destruct 1; intros [H1 H2 H3 H4 H5 H6]; cbn in *.
  - split; cbn; try done. intros i t Hi. destruct (H2 eq_refl) as [-> _]. done.
  - split; cbn; try done.
    + intros i E. rewrite length_app. specialize (H5 i E). lia.
    + intros i t [Hi|[? Hi]]%lookup_app_Some; [by apply H6|]. apply list_lookup_singleton_Some in Hi as [_ <-].
      split; left; cbn; [|done]. split; [done|]. by rewrite H1.
  - split; cbn; try done.
  - split; cbn; try done. intros i t Hi. destruct (H6 i t Hi) as [[[? ?]|(? & ? & ?)] _]; [|done].
    split; [left|right]; done.
  - split; cbn; try done.
    + by rewrite length_fmap.
    + intros i t. rewrite list_lookup_fmap. intros (t0 & Hi & ->)%fmap_Some. destruct (H6 i t0 Hi) as [Ha Hb].
      assert (wake t0 = t0) as ->. { unfold wake. destruct t0 as [[] ? ?]; try done. by destruct Ha as [[? ?]|[? ?]]. }
      split; [done|by right].
  - pose proof (inv_free_released _ _ _ _ _ _ (Inv (Barrier m todo r None ts) H1 H2 H3 H4 H5 H6) H).
    eapply inv_update; [by split|done|done|by left|]. by right.
  - destruct (inv_inside _ _ _ _ _ _ _ (Inv (Barrier m todo r o ts) H1 H2 H3 H4 H5 H6) H) as (_ & _ & _ & _ & ->); done.
  - by destruct (inv_inside _ _ _ _ _ _ _ (Inv (Barrier m todo r o ts) H1 H2 H3 H4 H5 H6) H).
  - by destruct (inv_inside _ _ _ _ _ _ _ (Inv (Barrier m todo r None ts) H1 H2 H3 H4 H5 H6) H).
  - destruct (inv_inside _ _ _ _ _ _ _ (Inv (Barrier m todo r o ts) H1 H2 H3 H4 H5 H6) H) as (_ & -> & ? & ? & _); [done|].
    eapply inv_update; [by split|done|done|by right|]. by right.
  - destruct (inv_inside _ _ _ _ _ _ _ (Inv (Barrier m todo r o ts) H1 H2 H3 H4 H5 H6) H) as (_ & -> & ? & ? & _); [done|].
    eapply inv_update; [by split|done|done|by right|]. by left.
Qed.


Lemma inv_reachable todo s : rtc step (start todo) s → inv s.
Proof.
  intros Hr. pose proof (inv_start todo) as Hi. induction Hr as [|x y z Hs _ IH]; [done|].
  by apply IH, (inv_step x y).
Qed.

(** ** Progress *)

(** The steps that a thread and main have still to do. *)
Definition thread_weight (t : tstate) : nat :=
  3 * ts_left t - match ts_phase t with TIdle => 0 | TLeave => 2 | _ => 1 end.
Definition main_weight (m : mphase) : nat :=
  match m with MInit => 4 | MLocked => 3 | MReady => 2 | MUnlocked => 1 | MRunning => 0 end.
Definition total (l : list nat) : nat := foldr Nat.add 0 l.
#[local] Arguments total : simpl never.
Definition weight (s : barrier) : nat :=
  main_weight (b_main s) + length (b_todo s) + 3 * total (b_todo s) + total (thread_weight <$> b_threads s).

Lemma total_snoc l n : total (l ++ [n]) = total l + n.
Proof. induction l as [|m l IH]; [unfold total; cbn; lia|]. change (m + total (l ++ [n]) = m + total l + n). lia. Qed.

Lemma total_update (f : tstate → nat) l i x y :
  l !! i = Some x → total (f <$> <[i := y]> l) + f x = total (f <$> l) + f y.
Proof.
  revert i. induction l as [|z l IH]; intros [|i] Hi; [done|done|..].
  - injection Hi as ->. change (f y + total (f <$> l) + f x = f x + total (f <$> l) + f y). lia.
  - specialize (IH i Hi). change (f z + total (f <$> <[i:=y]> l) + f x = f z + total (f <$> l) + f y). lia.
Qed.

(** Every step brings the end one step nearer. *)
Lemma step_weight s s' : step s s' → inv s → weight s = S (weight s').
Proof.
  intros Hs Hi. pose proof Hi as [_ _ H3 _ _ H6]. unfold weight. destruct Hs; cbn in *.
  - lia.
  - rewrite fmap_app. cbn [fmap list_fmap]. rewrite total_snoc.
    change (total (n :: todo)) with (n + total todo). change (thread_weight (TState TIdle 0 n)) with (3 * n - 0).
    cbn [length]. lia.
  - lia.
  - lia.
  - replace (wake <$> ts) with ts; [lia|]. apply list_eq. intros i. rewrite list_lookup_fmap.
    destruct (ts !! i) as [t|] eqn:E; [|done]. cbn. f_equal.
    destruct (H6 i t E) as [Ha _]. destruct t as [[] ? ?]; try done. by destruct Ha as [[? ?]|[? ?]].
  - pose proof (total_update thread_weight _ _ _ (TState TCheck d (S n)) H) as E. unfold thread_weight in *. cbn in *. lia.
  - by destruct (inv_inside _ _ _ _ _ _ _ Hi H) as (_ & _ & _ & _ & ->).
  - by destruct (inv_inside _ _ _ _ _ _ _ Hi H).
  - by destruct (inv_inside _ _ _ _ _ _ _ Hi H).
  - destruct (inv_inside _ _ _ _ _ _ _ Hi H) as (_ & _ & ? & _); [done|].
    pose proof (total_update thread_weight _ _ _ (TState TLeave d n) H) as E. unfold thread_weight in *. cbn in *. lia.
  - destruct (inv_inside _ _ _ _ _ _ _ Hi H) as (_ & _ & ? & _); [done|].
    pose proof (total_update thread_weight _ _ _ (TState TIdle (S d) (pred n)) H) as E. unfold thread_weight in *. cbn in *. lia.
Qed.

Lemma progress s : inv s → passed s ∨ ∃ s', step s s'.
Proof.
  destruct s as [m todo r o ts]. intros Hi. pose proof Hi as [H1 H2 H3 H4 H5 H6]. cbn in *. destruct m; cbn in *.
  - right. destruct (H2 eq_refl) as [_ ->]. eexists. constructor.
  - right. destruct todo; eexists; constructor.
  - right. subst. eexists. constructor.
  - right. eexists. constructor.
  - destruct o as [[|i]|]; [done| |].
    + right. destruct (lookup_lt_is_Some_2 ts i (H5 i eq_refl)) as [[p d n] Hl].
      destruct (H6 i _ Hl) as [[[_ ?]|[Hh _]] _]; [done|]. destruct p; try done.
      * eexists. eapply thr_pass; [done|lia].
      * eexists. by eapply thr_unlock.
    + destruct (decide (Forall (λ t, ts_left t = 0) ts)) as [Hall|Hno].
      * left. split_and!; try done; [by apply H4|]. apply Forall_forall. intros t Ht. cbn.
        split; [|by apply (proj1 (Forall_forall _ _) Hall)].
        apply list_elem_of_lookup in Ht as [i Hl]. destruct (H6 i t Hl) as [[[? _]|(_ & ? & _)] _]; done.
      * right. apply not_Forall_Exists in Hno; [|intros t; apply _]. apply Exists_exists in Hno as ([p d n] & Ht & Hn).
        apply list_elem_of_lookup in Ht as [i Hl]. destruct n as [|n]; [by destruct Hn|].
        destruct (H6 i _ Hl) as [[[Hp _]|(_ & ? & _)] _]; [|done]. cbn in Hp. subst.
        eexists. by eapply thr_lock.
Qed.

Lemma nsteps_weight k todo s : nsteps step k (start todo) s → k + weight s = weight (start todo).
Proof.
  intros Hn. assert (∀ x, nsteps step k x s → inv x → k + weight s = weight x) as H; [|by apply H, inv_start].
  clear. induction k as [|k IH]; intros x Hn Hi; inversion Hn as [|? ? y ? Hs Hn']; subst; [done|].
  rewrite (step_weight _ _ Hs Hi). cbn. f_equal. apply IH; [done|]. by eapply inv_step.
Qed.

Lemma passed_weight s : passed s → weight s = 0.
Proof.
  destruct s as [m todo r o ts]. intros (? & ? & _ & _ & Ht). cbn in *. subst. unfold weight. cbn.
  induction Ht as [|[p d n] ts [? ?] _ IH]; [done|]. cbn in *. subst. exact IH.
Qed.

(** C31: The start-up barrier, however the steps of main and the threads interleave.  No thread returns from its first
    [thread_entry] before main has created every
    thread, set the flag and given the lock back; at most one thread is inside of the
    lock, and never while main has it; no thread ever waits for the condition, because the flag
    is set before the lock can be taken, so a wake-up cannot be lost.  The start-up always ends: a state that can be
    reached and in which something is left to do has a next step, and every complete run has the same
    number of steps, four of main, one for every thread and three for every call of
    [thread_entry]; then main runs and every thread has passed. *)
Theorem barrier_runs (todo : list nat) (k : nat) (s : barrier) :
  nsteps step k (start todo) s →
  (∀ i t, b_threads s !! i = Some t → ts_done t ≠ 0 →
    core_ready s = 1%Z ∧ b_todo s = [] ∧ released (b_main s) = true) ∧
  (∀ i t, b_threads s !! i = Some t → ts_phase t ≠ TIdle →
    core_ready_m s = Some (Thr i) ∧ main_holds (b_main s) = false ∧ ts_phase t ≠ TWait ∧ ts_phase t ≠ TWake) ∧
  k ≤ 4 + length todo + 3 * total todo ∧
  ((∃ s', step s s') ∨ passed s) ∧
  (passed s ↔ k = 4 + length todo + 3 * total todo).
Proof.
  intros Hn. pose proof (nsteps_weight _ _ _ Hn) as Hw. change (weight (start todo)) with (4 + length todo + 3 * total todo + 0) in Hw.
  assert (inv s) as Hi by (apply (inv_reachable todo), rtc_nsteps; by exists k).
  split; [|split; [|split; [lia|split; [destruct (progress s Hi); auto|split]]]].
  - destruct s as [m todo' r o ts]. pose proof Hi as [_ _ H3 H4 _ H6]. intros i t Ht Hp. cbn in *.
    destruct (H6 i t Ht) as [_ [[_ ?]|Hm]]; [done|]. split_and!; [rewrite H3|apply H4|done]; by destruct m.
  - destruct s as [m todo' r o ts]. intros i t Ht Hp. cbn in *.
    destruct (inv_inside _ _ _ _ _ _ _ Hi Ht Hp) as (? & ? & _ & ? & _). by destruct m, t as [[] ? ?].
  - intros Hp. apply passed_weight in Hp. lia.
  - intros ->. destruct (progress s Hi) as [|[s' Hs]]; [done|]. apply step_weight in Hs; [lia|done].
Qed.

(** A complete run with one thread. *)
Definition ex_end : barrier := Barrier MRunning [] 1%Z None [TState TIdle 1 0].

Lemma ex_run : nsteps step 8 (start [1]) ex_end.
Proof.
  eapply nsteps_l; [apply main_lock|]. eapply nsteps_l; [apply main_create|]. cbn [app].
  eapply nsteps_l; [apply main_ready|]. eapply nsteps_l; [apply main_unlock|].
  eapply nsteps_l; [by apply (thr_lock _ _ _ _ 0 0 0)|]. eapply nsteps_l; [by apply (thr_pass _ _ _ _ _ 0 0 1)|].
  eapply nsteps_l; [by apply (thr_unlock _ _ _ _ _ 0 0 1)|]. eapply nsteps_l; [apply main_broadcast|]. apply nsteps_O.
Qed.

Lemma barrier_runs_witness :
  (core_ready ex_end = 1%Z ∧ b_todo ex_end = [] ∧ released (b_main ex_end) = true) ∧ passed ex_end.
Proof.
  destruct (barrier_runs [1] 8 ex_end ex_run) as (H1 & _ & _ & _ & H2).
  split; [exact (H1 0 (TState TIdle 1 0) eq_refl ltac:(discriminate))|by apply H2].
Defined.
