(* ===== verification/Hooks.v ===== *)
(** * Hooks (src/hooks.c, hooks.h)

    The table of hooks is a dictionary that nothing creates: it is NULL.  The operations
    are written for any table.  What the dictionary gives back for a blob is the
    address of a dead parameter ([BParamAddr] of Dict). *)
From S2P Require Import Prelude Dict DictFacts DictSpec Proc.

Local Open Scope Z_scope.

Definition EFAULT : Z := 14.
Definition ENOENT : Z := 2.

Record hook := Hook { hk_refcnt : Z; hk_flags : Z; hk_name : option string }.
Record hooks_state := HooksState { hooks : option dict; hk_objs : gmap Z hook }.
Definition with_hooks (d : option dict) (s : hooks_state) : hooks_state := HooksState d (hk_objs s).
Definition with_hook (p : Z) (h : hook) (s : hooks_state) : hooks_state :=
  HooksState (hooks s) (<[p := h]> (hk_objs s)).

(** A pointer to a hook: NULL, the address of a dead parameter, an object. *)
Inductive hook_ptr := HookNull | HookDead (b : blob_val) | HookAt (p : Z).

Definition hook_find (name : option string) (s : hooks_state) : outcome hook_ptr :=
  match name with
  | None => Ret HookNull
  | Some _ =>
      let! r := dict_get_blob (hooks s) name 0 in
      Ret (match r with
           | GotBlob b => HookDead b
           | GotDefault p => if p =? 0 then HookNull else HookAt p
           end)
  end.

Definition hook_destroy_children (hp : hook_ptr) : Z := 0.

(** Behind the test the hook is NULL, and [mem_free] asserts that it is not. *)
Definition hook_destroy (name : option string) (s : hooks_state) : outcome (Z * hooks_state) :=
  let! hp := hook_find name s in
  match hp with
  | HookNull =>
      let rv := hook_destroy_children hp in
      let! r := dict_del (hooks s) name in
      Stuck FailedAssert
  | _ => Ret (EFAULT, s)
  end.

(** [p]: the address of a new hook; [dup]: can its name be copied; [func]: is the
    function not NULL; [mm], [now]: the answers for the dictionary and the time. *)
Definition hook_add (mm : mem) (now p : Z) (dup : bool) (name : option string) (flags : Z) (func : bool) (s : hooks_state)
    : outcome (hook_ptr * hooks_state) :=
  match name, func with
  | Some n, true =>
      let! tmp := hook_find name s in
      let! r :=
        match tmp with
        | HookNull =>
            if p =? 0 then Stuck NullDeref
            else Ret (HookAt p, with_hook p (Hook 0 flags (if dup then Some n else None)) s)
        | _ => Ret (tmp, s)
        end in
      let '(tmp, s) := r in
      let! d := dict_add_blob mm now (hooks s) name (match tmp with HookAt p => p | _ => 0 end) in
      Ret (tmp, with_hooks d.2 s)
  | _, _ => Ret (HookNull, s)
  end.

Definition hook_call (name : option string) (s : hooks_state) : outcome Z :=
  let! hp := hook_find name s in
  Ret (match hp with HookNull => - ENOENT | _ => 0 end).

(** ** What the system does as the program starts it *)
Inductive hook_op := OpAdd (mm : mem) (now p : Z) (dup : bool) (name : option string) (flags : Z) (func : bool)
  | OpCall (name : option string).
Definition hook_run1 (s : hooks_state) (o : hook_op) : outcome hooks_state :=
  match o with
  | OpAdd mm now p dup name flags func => let! r := hook_add mm now p dup name flags func s in Ret r.2
  | OpCall name => let! _ := hook_call name s in Ret s
  end.
Fixpoint hook_run (l : list hook_op) (s : hooks_state) : outcome hooks_state :=
  match l with
  | [] => Ret s
  | o :: l => let! s := hook_run1 s o in hook_run l s
  end.
Definition op_ok (o : hook_op) : Prop :=
  match o with OpAdd _ _ p _ _ _ _ => p ≠ 0 | OpCall _ => True end.

Lemma add_empty mm now p dup name flags func s : hooks s = None → p ≠ 0 →
  ∃ r s', hook_add mm now p dup name flags func s = Ret (r, s') ∧ hooks s' = None.
Proof.
  destruct s as [d o]. cbn. intros -> Hp. unfold hook_add. destruct name as [n|]; [|by eexists _, _].
  destruct func; [|by eexists _, _]. cbn. destruct (Z.eqb_spec p 0); [done|]. cbn. by eexists _, _.
Qed.

Lemma run_empty l s : hooks s = None → Forall op_ok l → ∃ s', hook_run l s = Ret s' ∧ hooks s' = None.
Proof.
  intros H Hl. revert s H. induction Hl as [|o l Ho _ IH]; intros s H; [by exists s|]. cbn [hook_run].
  destruct o as [mm now p dup name flags func|name]; cbn [hook_run1].
  - destruct (add_empty mm now p dup name flags func s H Ho) as (r & s' & -> & H'). cbn [obind snd]. by apply IH.
  - destruct s as [d o]. cbn in H. subst. destruct name; cbn; by apply IH.
Qed.

(** No hook is ever found: after any sequence of additions and calls, finding a hook
    gives NULL and calling one gives -ENOENT, and destroying one ends in the failed
    assertion of [mem_free].  Were the table created, a hook that is added would be found
    as the address of a dead parameter and not as itself. *)
Theorem hooks_never_found (l : list hook_op) (o : gmap Z hook) (name : string) :
  Forall op_ok l →
  (∃ s, hook_run l (HooksState None o) = Ret s ∧ hook_find (Some name) s = Ret HookNull ∧
    hook_call (Some name) s = Ret (- ENOENT) ∧ hook_destroy (Some name) s = Stuck FailedAssert) ∧
  (∃ s, hook_add mem_ok 7 64 true (Some "gc"%string) 0 true (HooksState (Some dict8) o) = Ret (HookAt 64, s) ∧
    hook_find (Some "gc"%string) s = Ret (HookDead BParamAddr)).
Proof.
  intros Hl. split.
  - destruct (run_empty l (HooksState None o) eq_refl Hl) as ([d o'] & -> & Hd). cbn in Hd. subst. by eexists.
  - eexists. split; [reflexivity|]. by vm_compute.
Qed.

Lemma hooks_never_found_witness :
  ∃ s, hook_run [OpAdd mem_ok 7 64 true (Some "gc"%string) 0 true; OpCall (Some "gc"%string)] (HooksState None ∅) = Ret s ∧
    hook_find (Some "gc"%string) s = Ret HookNull ∧ hook_call (Some "gc"%string) s = Ret (- ENOENT) ∧
    hook_destroy (Some "gc"%string) s = Stuck FailedAssert.
Proof.
  apply (hooks_never_found [OpAdd mem_ok 7 64 true (Some "gc"%string) 0 true; OpCall (Some "gc"%string)] ∅ "gc").
  repeat constructor. cbn. lia.
Defined.
