(* ===== verification/Modules.v ===== *)
(** * Modules (src/module.c, module.h)

    A module is a structure in a shared object; the list of modules (a list of copied
    values) gets a copy of its first eight bytes, which are the pointer to its name.
    Nothing creates the list: it is NULL.  The operations are written for any list.  The
    functions of a module are code that is not here: an argument. *)
From S2P Require Import Prelude CStd CStdFacts Buf Dlink DlinkSpec Proc ProcSpec List ListSpec.
From Stdlib Require Import Ascii.

Local Open Scope Z_scope.

Definition ENOENT : Z := 2.
Definition EBADF : Z := 9.
Definition SIGSEGV : Z := 11.

(** [md_name]: the address of the name; functions are addresses, 0 for NULL. *)
Record module := Mod { md_name : Z; md_init : Z; md_fini : Z; md_dlptr : Z; md_path : Z }.

(** The process, the list, its memory, the modules by address, the strings by address,
    the open handles, and the flag of the module thread. *)
Record modules := ModState {
  m_proc : proc;
  m_list : option list_t;
  m_heap : heap;
  m_objs : gmap Z module;
  m_strings : gmap Z string;
  m_open : gset Z;
  in_module : Z
}.
Definition with_mproc (v : proc) (s : modules) : modules :=
  ModState v (m_list s) (m_heap s) (m_objs s) (m_strings s) (m_open s) (in_module s).
Definition with_mlist (l : option list_t) (h : heap) (s : modules) : modules :=
  ModState (m_proc s) l h (m_objs s) (m_strings s) (m_open s) (in_module s).
Definition with_mobjs (v : gmap Z module) (s : modules) : modules :=
  ModState (m_proc s) (m_list s) (m_heap s) v (m_strings s) (m_open s) (in_module s).
Definition with_strings (v : gmap Z string) (s : modules) : modules :=
  ModState (m_proc s) (m_list s) (m_heap s) (m_objs s) v (m_open s) (in_module s).
Definition with_open (v : gset Z) (s : modules) : modules :=
  ModState (m_proc s) (m_list s) (m_heap s) (m_objs s) (m_strings s) v (in_module s).
Definition with_in_module (v : Z) (s : modules) : modules :=
  ModState (m_proc s) (m_list s) (m_heap s) (m_objs s) (m_strings s) (m_open s) v.

Definition log_mod (level : Z) (text : string) (s : modules) : outcome modules :=
  let! p := Log level text (m_proc s) in Ret (with_mproc p s).
Definition get_mod (p : Z) (s : modules) : outcome module :=
  if p =? 0 then Stuck NullDeref else need BadPointer (m_objs s !! p).
Definition get_string (p : Z) (s : modules) : outcome string :=
  if p =? 0 then Stuck NullDeref else need BadPointer (m_strings s !! p).
Definition free_string (p : Z) (s : modules) : outcome modules :=
  if p =? 0 then Stuck FailedAssert
  else let! _ := need BadPointer (m_strings s !! p) in Ret (with_strings (delete p (m_strings s)) s).

(** A little-endian integer. *)
Fixpoint le_value (l : list ascii) : Z :=
  match l with
  | [] => 0
  | c :: l => uchar c + 256 * le_value l
  end.

Section modules.
(** A call of the function at an address; in [module_thread_init] it may end in the jump of
    [module_dying] ([None]). *)
Context (run : Z → modules → outcome modules) (run_jump : Z → modules → outcome (option modules)).

(** A crash comes back behind the test and is not tried again. *)
Definition module_thread_init (mp : Z) (s : modules) : outcome modules :=
  let s := with_in_module 1 s in
  let! m := get_mod mp s in
  let! r := (if md_init m =? 0 then Stuck NullDeref else run_jump (md_init m) s) in
  Ret (default s r).

(** [exists_]: is the file there; [dlptr], [sym]: what [dlopen] and [dlsym] give; [path_copy],
    [n], [d]: the addresses of the copied path, of a node and of a copied value. *)
Definition module_load (exists_ : bool) (dlptr sym path_copy n d : Z) (path : string) (s : modules)
    : outcome (Z * modules) :=
  if negb exists_ then
    let! s := log_mod LOG_ERR ("Module " ++ path ++ " doesn't exist, skipping") s in Ret (ENOENT, s)
  else if dlptr =? 0 then
    let! s := log_mod LOG_ERR ("Failed dlopen()ing module " ++ path ++ ": ") s in Ret (EBADF, s)
  else
    let s := with_open ({[dlptr]} ∪ m_open s) s in
    if sym =? 0 then
      let! s := log_mod LOG_ERR ("Failed finding 'module' symbol in " ++ path ++ ": ") s in Ret (EBADF, s)
    else
      let! m := get_mod sym s in
      let s := if path_copy =? 0 then s else with_strings (<[path_copy := path]> (m_strings s)) s in
      let s := with_mobjs (<[sym := Mod (md_name m) (md_init m) (md_fini m) dlptr path_copy]> (m_objs s)) s in
      let! s := if negb (md_init m =? 0) then run (md_init m) s else Ret s in
      let! m := get_mod sym s in
      let! l := need NullDeref (m_list s) in
      let! r := list_add (m_heap s) l (le_bytes 8 (md_name m)) 8 n d in
      Ret (0, with_mlist (Some r.2) r.1 s).

Definition module_unload (mp : Z) (s : modules) : outcome (Z * modules) :=
  if mp =? 0 then let! s := log_mod LOG_DEBUG "module_unload: called with invalid mp" s in Ret (1, s)
  else
    let! m := get_mod mp s in
    let! s := if negb (md_fini m =? 0) then run (md_fini m) s else Ret s in
    let! m := get_mod mp s in
    let s := if negb (md_dlptr m =? 0) then with_open (m_open s ∖ {[md_dlptr m]}) s else s in
    let! s := if negb (md_path m =? 0) then free_string (md_path m) s else Ret s in
    Ret (0, s).

(** [None]: the jump to [module_thread_init]. *)
Definition module_dying (signal : Z) : option Z := if signal =? SIGSEGV then None else Some 0.

(** The name of a module behind the address of its copy in the list. *)
Definition copied_name (mp : Z) (s : modules) : outcome string :=
  let! bytes := need BadPointer (h_data (m_heap s) !! mp) in
  if negb (in_buf bytes 0 8) then Stuck OutOfBounds
  else get_string (le_value (take 8 bytes)) s.

(** The loop of [module_find]; [mp] is the last module that was given. *)
Fixpoint find_loop (fuel : nat) (mp : Z) (it : list_iter) (name : string) (s : modules) : outcome Z :=
  match fuel with
  | O => Spin
  | S fuel =>
      let! hit :=
        if mp =? 0 then Ret false
        else let! n := copied_name mp s in Ret (strcaseeq n name) in
      if hit then Ret mp
      else
        let! r := list_next (m_heap s) it in
        if r.1 =? 0 then Ret 0 else find_loop fuel r.1 r.2 name s
  end.

(** [p]: the address of the iterator. *)
Definition module_find (p : Z) (name : string) (s : modules) : outcome Z :=
  match m_list s with
  | None => Stuck NullDeref
  | Some l =>
      let! it := list_iterator p l FRONT in
      let! it := need NullDeref it in
      find_loop (2 + size (h_nodes (m_heap s))) 0 it name s
  end.
End modules.

(** ** Lemmas *)

Lemma le_bytes_S n z : le_bytes (S n) z = ascii_of_N (Z.to_N (z mod 256)) :: le_bytes n (z / 256).
Proof.
  unfold le_bytes. cbn [seq fmap list_fmap]. f_equal; [by rewrite Z.div_1_r|].
  rewrite <- fmap_S_seq, <- list_fmap_compose. apply list_fmap_ext. intros i j _. cbn [compose]. do 2 f_equal.
  replace (8 * Z.of_nat (S j)) with (8 + 8 * Z.of_nat j) by lia.
  rewrite Z.pow_add_r by lia. by rewrite Z.div_div by lia.
Qed.

Lemma uchar_byte z : 0 <= z < 256 → uchar (ascii_of_N (Z.to_N z)) = z.
Proof. intros H. unfold uchar. rewrite N_ascii_embedding by lia. lia. Qed.

Lemma le_value_bytes n z : le_value (le_bytes n z) = z mod 256 ^ Z.of_nat n.
Proof.
  revert z. induction n as [|n IH]; intros z; [cbn; by rewrite Z.mod_1_r|].
  rewrite le_bytes_S. cbn [le_value]. rewrite uchar_byte by (apply Z.mod_pos_bound; lia). rewrite IH.
  replace (Z.of_nat (S n)) with (1 + Z.of_nat n) by lia. rewrite Z.pow_add_r by lia.
  change (256 ^ 1) with 256. rewrite Z.rem_mul_r by lia. lia.
Qed.

Lemma log_mod_ok level text s : logs (m_proc s) →
  ∃ es, log_mod level text s = Ret (with_mproc (emits es (m_proc s)) s).
Proof. intros Hl. unfold log_mod. rewrite Log_ok by done. cbn [obind]. rewrite emit_emits. by eexists. Qed.

(** The list holds copies of the pointers to the names [names]. *)
Definition named (s : modules) (x : Z * Z) (name : string) : Prop :=
  ∃ p, 0 < p < 2 ^ 64 ∧ h_data (m_heap s) !! x.2 = Some (le_bytes 8 p) ∧ m_strings s !! p = Some name.
Definition mrep (s : modules) (l : list_t) (xs : list (Z * Z)) (names : list string) : Prop :=
  m_list s = Some l ∧ lrep (m_heap s) l xs ∧ Forall2 (named s) xs names.

(** The first copy with the name. *)
Fixpoint first_named (xs : list (Z * Z)) (names : list string) (name : string) : Z :=
  match xs, names with
  | x :: xs, n :: names => if strcaseeq n name then x.2 else first_named xs names name
  | _, _ => 0
  end.

Lemma copied_ok s x name : named s x name → copied_name x.2 s = Ret name.
Proof.
  intros (p & Hp & Hd & Hs). unfold copied_name. rewrite Hd. cbn [need obind].
  pose proof (le_bytes_length 8 p) as Hlen.
  rewrite in_buf_true by (unfold blen; lia). cbn [negb]. rewrite take_ge by lia.
  rewrite le_value_bytes. rewrite Z.mod_small by lia. unfold get_string.
  destruct (Z.eqb_spec p 0); [lia|]. by rewrite Hs.
Qed.

(** From the node behind [p], with the last module [x] not matching or none. *)
Lemma find_loop_ok s name xs names : ∀ p m d n fuel,
  lseg (h_nodes (m_heap s)) p ((m, d) :: xs) 0 → Forall2 (named s) ((m, d) :: xs) (n :: names) →
  (∀ e, e ∈ ((m, d) :: xs).*2 → e ≠ 0) → (length xs < fuel)%nat →
  find_loop fuel d (Iter m true) name s = Ret (first_named ((m, d) :: xs) (n :: names) name).
Proof.
  revert names. induction xs as [|[m' d'] xs IH]; intros names p m d n fuel Hs Hn Hd Hf;
    (destruct fuel as [|fuel]; [cbn in Hf; lia|]); cbn [find_loop];
    inversion Hn as [|? ? ? ? Hx Hrest]; subst;
    (destruct (Z.eqb_spec d 0) as [->|_]; [exfalso; apply (Hd 0); [left|done]|]);
    change d with (m, d).2; rewrite (copied_ok _ _ _ Hx); cbn [obind snd first_named];
    (destruct (strcaseeq n name); [done|]); destruct Hs as (Hm & Hnode & Hs);
    unfold list_next, list_step; cbn [it_started it_current negb andb];
    (destruct (Z.eqb_spec m 0); [done|]); cbn [negb];
    rewrite (load_some _ _ _ Hm Hnode); cbn [obind dn_next hd fmap list_fmap fst].
  - done.
  - inversion Hrest as [|? ? ? names' Hx' _]; subst. unfold list_current. cbn [it_started it_current andb].
    pose proof Hs as (Hm' & Hn' & _). destruct (Z.eqb_spec m' 0); [done|]. cbn [negb].
    rewrite (load_some _ _ _ Hm' Hn'). cbn [obind dn_data fst snd].
    destruct (Z.eqb_spec d' 0) as [->|_]; [exfalso; apply (Hd 0); [right; left|done]|].
    apply (IH names' m); [done|done| |cbn in Hf; lia]. intros e He. apply Hd. by right.
Qed.

Lemma find_loop_S fuel mp it name s :
  find_loop (S fuel) mp it name s =
    let! hit := if mp =? 0 then Ret false else let! n := copied_name mp s in Ret (strcaseeq n name) in
    if hit then Ret mp
    else
      let! r := list_next (m_heap s) it in
      if r.1 =? 0 then Ret 0 else find_loop fuel r.1 r.2 name s.
Proof. done. Qed.

Lemma find_ok s l xs names p name : mrep s l xs names → p ≠ 0 →
  module_find p name s = Ret (first_named xs names name).
Proof.
  intros (Hl & Hrep & Hn) Hp. unfold module_find. rewrite Hl. pose proof Hrep as [Hs Hnd Hf _ Hv _].
  unfold list_iterator. destruct (Z.eqb_spec p 0); [done|]. change (FRONT =? FRONT) with true. cbn iota.
  cbn [obind need]. rewrite Hf. pose proof (lseg_size _ _ _ _ Hs Hnd) as Hsz. change (2 + size (h_nodes (m_heap s)))%nat with (S (S (size (h_nodes (m_heap s))))).
  rewrite find_loop_S, Z.eqb_refl. cbn [obind].
  destruct xs as [|[m d] xs]; [done|].
  destruct names as [|nm names]; [by inversion Hn|]. pose proof Hs as (Hm & Hnode & _).
  unfold list_next at 1, list_step. cbn [hd fmap list_fmap fst it_started it_current negb andb].
  destruct (Z.eqb_spec m 0); [done|]. cbn [negb]. rewrite (load_some _ _ _ Hm Hnode). cbn [obind fst snd dn_data].
  destruct (Z.eqb_spec d 0) as [->|_]; [by destruct (Hv 0 ltac:(left))|].
  cbn in Hsz. apply (find_loop_ok s name xs names 0); [done|done| |lia]. intros e He. by apply (Hv e).
Qed.

Lemma named_ext s s' xs names :
  Forall2 (named s) xs names → (∀ d, d ∈ xs.*2 → h_data (m_heap s') !! d = h_data (m_heap s) !! d) →
  (∀ p v, m_strings s !! p = Some v → m_strings s' !! p = Some v) → Forall2 (named s') xs names.
Proof.
  intros Hn Hh Hstr. induction Hn as [|x name xs names (p & Hp & Hd & Hs) _ IH]; [constructor|]. cbn in Hh. constructor.
  - exists p. rewrite Hh by left. auto.
  - apply IH. intros d ?. apply Hh. by right.
Qed.

Lemma load_ok run s l xs names dl sym c n d path m name :
  mrep s l xs names → dl ≠ 0 → sym ≠ 0 → m_objs s !! sym = Some m → md_init m = 0 →
  0 < md_name m < 2 ^ 64 → m_strings s !! md_name m = Some name → m_strings s !! c = None →
  n ≠ 0 → d ≠ 0 → h_nodes (m_heap s) !! n = None → h_data (m_heap s) !! d = None →
  ∃ s' l', module_load run true dl sym c n d path s = Ret (0, s') ∧ mrep s' l' (xs ++ [(n, d)]) (names ++ [name]).
Proof.
  intros (Hl & Hrep & Hn) Hdl Hsym Hm Hi Hp Hname Hc Hnz Hdz Hfn Hfd. unfold module_load.
  destruct (Z.eqb_spec dl 0), (Z.eqb_spec sym 0); [done..|]. cbn [negb].
  unfold get_mod. destruct (Z.eqb_spec sym 0); [done|]. cbn [m_objs with_open]. rewrite Hm. cbn [need obind]. rewrite Hi.
  set (s1 := if c =? 0 then _ else _). cbn [negb Z.eqb obind].
  assert (∀ p v, m_strings s !! p = Some v → m_strings s1 !! p = Some v) as Hstr.
  { intros p v Hv. unfold s1. destruct (c =? 0); [done|]. cbn. rewrite lookup_insert_ne; [done|]. intros ->. congruence. }
  assert (m_list s1 = m_list s ∧ m_heap s1 = m_heap s) as [El Eh] by (unfold s1; by destruct (c =? 0)).
  cbn [m_objs with_mobjs]. rewrite lookup_insert_eq. cbn [need obind m_list with_mobjs m_heap md_name]. rewrite El, Hl, Eh. cbn [need obind].
  destruct (lrep_fresh _ _ _ _ _ Hrep Hfn Hfd) as [Hnx Hdx].
  pose proof (le_bytes_length 8 (md_name m)) as Hlen.
  destruct (list_add_ok (m_heap s) l xs (le_bytes 8 (md_name m)) 8 n d)
    as (h' & l' & -> & Hrep' & Hnew & _ & Hold); [done..| |]. { unfold blen. lia. }
  cbn [obind fst snd]. eexists _, l'. split; [done|]. split_and!; [done|done|]. apply Forall2_app.
  - eapply named_ext; [exact Hn| |done]. intros e He. cbn. apply Hold. by intros ->.
  - constructor; [|done]. exists (md_name m). split; [done|]. split; [|by apply Hstr].
    cbn [snd m_heap with_mlist]. rewrite Hnew, take_ge; [done|]. lia.
Qed.

(** A name is looked up in the list of modules in order and without regard to case; the
    result is the address of the eight bytes that were copied from the module, not of the module.  Loading
    a module appends such a copy: the module is found when no module before it has its
    name.  But the list is never created: with no list, loading a module and looking a
    name up dereference NULL.  A file that is not there, cannot be loaded or has no
    module is refused. *)
Theorem modules_listed (run : Z → modules → outcome modules) (s : modules) (p : Z) (path : string)
    (l : list_t) (xs : list (Z * Z)) (names : list string) :
  logs (m_proc s) → p ≠ 0 →
  (mrep s l xs names → ∀ name, module_find p name s = Ret (first_named xs names name)) ∧
  (mrep s l xs names → ∀ dl sym c n d m name,
    dl ≠ 0 → sym ≠ 0 → m_objs s !! sym = Some m → md_init m = 0 → 0 < md_name m < 2 ^ 64 →
    m_strings s !! md_name m = Some name → m_strings s !! c = None → n ≠ 0 → d ≠ 0 →
    h_nodes (m_heap s) !! n = None → h_data (m_heap s) !! d = None →
    ∃ s' l', module_load run true dl sym c n d path s = Ret (0, s') ∧ mrep s' l' (xs ++ [(n, d)]) (names ++ [name])) ∧
  (m_list s = None →
    (∀ name, module_find p name s = Stuck NullDeref) ∧
    (∀ dl sym c n d m, dl ≠ 0 → sym ≠ 0 → m_objs s !! sym = Some m → md_init m = 0 →
      module_load run true dl sym c n d path s = Stuck NullDeref)) ∧
  (∀ dl sym c n d, ∃ e1 e2,
    module_load run false dl sym c n d path s = Ret (ENOENT, with_mproc (emits e1 (m_proc s)) s) ∧
    module_load run true 0 sym c n d path s = Ret (EBADF, with_mproc (emits e2 (m_proc s)) s)).
Proof.
  intros Hl Hp. split_and!.
  - intros Hrep name. by apply (find_ok s l).
  - intros Hrep dl sym c n d m name. intros. by eapply load_ok.
  - intros Hnone. split; [intros name; unfold module_find; by rewrite Hnone|].
    intros dl sym c n d m Hdl Hsym Hm Hi. unfold module_load.
    destruct (Z.eqb_spec dl 0), (Z.eqb_spec sym 0); [done..|]. cbn [negb].
    unfold get_mod. destruct (Z.eqb_spec sym 0); [done|]. cbn [m_objs with_open]. rewrite Hm. cbn [need obind]. rewrite Hi.
    cbn [negb Z.eqb obind m_objs with_mobjs]. rewrite lookup_insert_eq. cbn [need obind].
    destruct (c =? 0); cbn [m_list with_mobjs with_strings with_open]; by rewrite Hnone.
  - intros dl sym c n d. unfold module_load. cbn [negb Z.eqb].
    destruct (log_mod_ok LOG_ERR ("Module " ++ path ++ " doesn't exist, skipping") s Hl) as [e1 ->].
    destruct (log_mod_ok LOG_ERR ("Failed dlopen()ing module " ++ path ++ ": ") s Hl) as [e2 ->]. by exists e1, e2.
Qed.

(** A list with a module, and two modules that can be loaded. *)
Definition ex_modules (l : option list_t) : modules :=
  ModState (Proc None false false "" []) l
    (Heap {[16 := DNode 32 0 0]} {[32 := le_bytes 8 500]})
    {[900 := Mod 600 0 0 0 0]} {[500 := "net"%string; 600 := "disk"%string]} ∅ 0.

Lemma ex_modules_rep : mrep (ex_modules (Some (ListT 1 16 16))) (ListT 1 16 16) [(16, 32)] ["net"%string].
Proof.
  split; [done|]. split.
  - split; cbn; try done; try apply NoDup_singleton. intros d ->%list_elem_of_singleton. split; [done|]. by eexists.
  - constructor; [|constructor]. exists 500. split; [lia|]. by split.
Qed.

Lemma modules_listed_witness :
  module_find 8 "NET" (ex_modules (Some (ListT 1 16 16))) = Ret 32 ∧
  (∃ s' l', module_load (λ _ s, Ret s) true 70 900 0 48 64 "disk.so" (ex_modules (Some (ListT 1 16 16))) = Ret (0, s') ∧
    mrep s' l' [(16, 32); (48, 64)] ["net"; "disk"]%string) ∧
  module_load (λ _ s, Ret s) true 70 900 0 48 64 "disk.so" (ex_modules None) = Stuck NullDeref.
Proof.
  destruct (modules_listed (λ _ s, Ret s) (ex_modules (Some (ListT 1 16 16))) 8 "disk.so" (ListT 1 16 16) [(16, 32)] ["net"%string] ltac:(by left) ltac:(done))
    as (Hfind & Hload & _).
  destruct (modules_listed (λ _ s, Ret s) (ex_modules None) 8 "disk.so" (ListT 1 16 16) [] [] ltac:(by left) ltac:(done))
    as (_ & _ & Hnone & _).
  split_and!.
  - exact (Hfind ex_modules_rep "NET"%string).
  - apply (Hload ex_modules_rep 70 900 0 48 64 (Mod 600 0 0 0 0)); reflexivity || (cbn; lia).
  - destruct (Hnone eq_refl) as [_ Hn]. apply (Hn 70 900 0 48 64 (Mod 600 0 0 0 0)); reflexivity || lia.
Defined.
