(* ===== verification/Api.v ===== *)
(** * Messages between threads (src/api.c, api.h)

    A message is an object of a heap of Balloc, with the addresses and the command as
    arrays and two dictionaries.  What the system gives for a new block, how many bytes
    can be read at the texts, and the allocations of the dictionaries are arguments. *)
From S2P Require Import Prelude CStd Dict DictFacts DictOps DictSpec Dlink DlinkSpec Balloc BallocFacts BallocOps BallocSpec Conf Proc ProcSpec Vfs.

Local Open Scope Z_scope.

Definition API_CMD_MAX : Z := 64.
Definition API_ADDR_MAX : Z := 64.
(** [sizeof(APImsg)]: three texts, the flags, the priority with its padding, two
    pointers. *)
Definition SZ_APIMSG : Z := 216.

Record api_msg := ApiMsg {
  sender : string;
  dest : string;
  cmd : string;
  msg_flags : Z;
  priority : Z;
  req : option dict;
  res : option dict
}.
Record api := Api { ap_proc : proc; ap_heaps : bstate; heap_api_msg : Z; ap_msgs : gmap Z api_msg }.
Definition with_aproc (v : proc) (s : api) : api := Api v (ap_heaps s) (heap_api_msg s) (ap_msgs s).
Definition with_aheaps (v : bstate) (s : api) : api := Api (ap_proc s) v (heap_api_msg s) (ap_msgs s).
Definition with_aheap (v : Z) (s : api) : api := Api (ap_proc s) (ap_heaps s) v (ap_msgs s).
Definition with_msgs (v : gmap Z api_msg) (s : api) : api := Api (ap_proc s) (ap_heaps s) (heap_api_msg s) v.

(** [n1], [n2], [n3]: how many bytes can be read at the three texts. *)
Definition api_create_message (o : os) (m1 m2 : mem) (n1 n2 n3 : Z) (from to command : string) (s : api)
    : outcome (Z * api) :=
  let! r := blockheap_alloc o (heap_api_msg s) (ap_heaps s) in
  let p := r.1 in
  let s := with_aheaps r.2 s in
  let! s :=
    if p =? 0 then
      let! pr := Log LOG_EMERG "out of memory attempting to create API message. halting!" (ap_proc s) in
      let! pr := signal_handler SIGTERM pr in
      Ret (with_aproc pr s)
    else Ret s in
  if p =? 0 then Stuck NullDeref
  else
    let! sender := copy_text API_ADDR_MAX n1 from in
    let! dest := copy_text API_ADDR_MAX n2 to in
    let! cmd := copy_text API_CMD_MAX n3 command in
    Ret (p, with_msgs (<[p := ApiMsg sender dest cmd 0 0 (dict_new m1) (dict_new m2)]> (ap_msgs s)) s).

(** The result of releasing the object is not used. *)
Definition api_destroy_message (p : Z) (s : api) : outcome (Z * api) :=
  let! m := if p =? 0 then Stuck NullDeref else need BadPointer (ap_msgs s !! p) in
  let! _ := dict_free (req m) in
  let! _ := dict_free (res m) in
  let! r := blockheap_free (heap_api_msg s) p (ap_heaps s) in
  Ret (0, with_msgs (delete p (ap_msgs s)) (with_aheaps r.2 s)).

Definition api_gc (s : api) : outcome (Z * api) :=
  let! r := blockheap_garbagecollect (heap_api_msg s) (ap_heaps s) in Ret (0, with_aheaps r.2 s).

(** [oh], [o], [readable]: the answers for the heap, its first block and its name. *)
Definition api_init (oh : option Z) (o : os) (readable : Z) (s : api) : outcome (Z * api) :=
  let! n := conf_int (ap_proc s) "tuning.heap.api-msg" 512 in
  let! r := blockheap_create oh o SZ_APIMSG n (Some "api messages"%string) readable (ap_heaps s) in
  Ret (0, with_aheap r.1 (with_aheaps r.2 s)).

Definition api_fini (s : api) : outcome (Z * api) :=
  let! r := blockheap_destroy (heap_api_msg s) (ap_heaps s) in
  Ret (0, with_aheap 0 (with_aheaps r.2 s)).

(** ** Messages as objects of the heap *)

(** The heap is well-formed and its objects in use are the messages, with well-formed
    dictionaries or none. *)
Record api_ok (s : api) (hp : blockheap) (abs : list ablk) : Prop := ApiOk {
  ao_heap : heap_ok (ap_heaps s) (heap_api_msg s) hp abs;
  ao_nodup : NoDup (live abs);
  ao_live : ∀ p, p ∈ live abs ↔ is_Some (ap_msgs s !! p);
  ao_dicts : ∀ p m, ap_msgs s !! p = Some m →
    (∀ d, req m = Some d ∨ res m = Some d → ∃ c, dict_ok d c)
}.

Lemma free_any d : (∀ x, d = Some x → ∃ c, dict_ok x c) → ∃ l, dict_free d = Ret l.
Proof.
  destruct d as [x|]; [|by exists []]. intros H. destruct (H x eq_refl) as [c Hc].
  destruct (free_refines x c Hc) as (tbl & l & _ & _ & -> & _). by eexists.
Qed.

Lemma new_empty mm d : mem_good mm → dict_new mm = Some d → dict_ok d ∅.
Proof.
  intros Hm. unfold dict_new. destruct (m_struct mm); [|done]. intros [= <-].
  destruct (new_ok (Mem true (m_calloc mm) (m_strdup_key mm) (m_strdup_val mm)) eq_refl (proj1 Hm _)) as (d & Hd & Hok & _).
  unfold dict_new in Hd. cbn in Hd. by injection Hd as <-.
Qed.

Lemma create_message_ok s hp abs o m1 m2 n1 n2 n3 from to command :
  api_ok s hp abs → os_good hp abs o → mem_good m1 → mem_good m2 → 64 ≤ n1 → 64 ≤ n2 → 64 ≤ n3 →
  ∃ p s' hp' abs', api_create_message o m1 m2 n1 n2 n3 from to command s = Ret (p, s') ∧ api_ok s' hp' abs' ∧
    (p ∉ live abs) ∧ live abs' ≡ₚ p :: live abs ∧
    ap_msgs s' = <[p := ApiMsg (str_take 64 from) (str_take 64 to) (str_take 64 command) 0 0 (dict_new m1) (dict_new m2)]> (ap_msgs s).
Proof.
  intros [Hok Hnd Hlive Hd] Ho Hm1 Hm2 H1 H2 H3.
  destruct (alloc_ok _ _ _ _ o Hok Ho) as (p & b & hp' & abs' & Ha & Hok' & (Hal & Hp & Hpos & _) & _).
  unfold api_create_message. rewrite Ha. cbn [obind fst snd]. destruct (Z.eqb_spec p 0); [lia|].
  unfold copy_text, API_ADDR_MAX, API_CMD_MAX. rewrite !(proj2 (Z.ltb_ge _ _)) by lia. cbn [obind].
  eexists p, _, hp', abs'. split; [done|]. split_and!; [|done|done|done]. split; [done|..]; cbn.
  - rewrite Hal. by constructor.
  - intros q. rewrite Hal, elem_of_cons, lookup_insert_is_Some, Hlive. destruct (decide (p = q)); naive_solver.
  - intros q m. rewrite lookup_insert_Some. intros [[<- <-]|[_ Hq]] d Hdd; [|by eapply Hd].
    exists ∅. cbn in Hdd. destruct Hdd; [by apply (new_empty m1)|by apply (new_empty m2)].
Qed.

Lemma destroy_message_ok s hp abs p :
  api_ok s hp abs → p ∈ live abs →
  ∃ s' hp' abs', api_destroy_message p s = Ret (0, s') ∧ api_ok s' hp' abs' ∧
    p :: live abs' ≡ₚ live abs ∧ ap_msgs s' = delete p (ap_msgs s).
Proof.
  intros [Hok Hnd Hlive Hd] Hp. destruct (proj1 (Hlive p) Hp) as [m Hm]. unfold api_destroy_message.
  destruct (Z.eqb_spec p 0) as [->|_].
  { exfalso. apply elem_of_live in Hp as (ab & k & Hab & Hk).
    destruct (live_header _ _ _ _ ab k 0 Hok Hab) as [Hz ?]; [apply elem_of_app; by right|]. unfold SZ_MEMBLOCK in Hz. lia. }
  rewrite Hm. cbn [need obind].
  destruct (free_any (req m)) as [l1 ->]; [intros x Hx; apply (Hd p m Hm); by left|].
  destruct (free_any (res m)) as [l2 ->]; [intros x Hx; apply (Hd p m Hm); by right|]. cbn [obind].
  destruct (free_ok _ _ _ _ _ Hok Hp) as (b & hp' & abs' & -> & Hok' & Hperm & _). cbn [obind snd].
  rewrite <- Hperm in Hnd. apply NoDup_cons in Hnd as [Hn Hnd].
  eexists _, hp', abs'. split; [done|]. split_and!; [|done|done]. split; [done|done|..]; cbn.
  - intros q. rewrite lookup_delete_is_Some, <- Hlive, <- Hperm, elem_of_cons. destruct (decide (p = q)); naive_solver.
  - intros q m'. rewrite lookup_delete_Some. intros [_ Hq]. by eapply Hd.
Qed.


(** The heap of the examples of Balloc, with its objects as messages. *)
Definition ex_api : api := Api (Proc None false false "" []) demo_heap 4096 ∅.

Lemma ex_api_ok : api_ok ex_api demo_hp [demo_blk].
Proof.
  split; [exact demo_ok|constructor| |].
  - intros p. split; [by intros ?%elem_of_nil|by intros [? ?]].
  - done.
Qed.

