(* ===== verification/Debugger.v ===== *)
(** * The symbol table of the debugger (src/debugger.c)

    The code under CONFIG_PROFILING is not compiled.  The buffer of a line is an array of
    768 bytes; [below] is the byte in front of it, [None] if reading it faults. *)
From S2P Require Import Prelude CStd CStdFacts Buf Term Conf Proc ProcSpec.
From Stdlib Require Import Ascii.

Local Open Scope Z_scope.

(** [rv]: the address of the entry.  [memset] clears the pointer and not the entry; a
    missing blank makes [strchr] search at an invalid address. *)
Definition debug_symtab_ent (rv : Z) (line : string) : outcome Z :=
  if rv =? 0 then Ret 0
  else
    let! ty := need BadPointer (snd <$> str_split " " line) in
    let! file := need BadPointer (snd <$> str_split " " ty) in
    Stuck NullDeref.

(** [buf], cleared and filled by [fgets]. *)
Definition SZ_BUF : nat := 768.
Definition line_buf (line : string) : list ascii :=
  chars_of line ++ replicate (SZ_BUF - String.length line) zero.

Fixpoint strlen (l : list ascii) : nat :=
  match l with
  | c :: l => if Ascii.eqb c zero then O else S (strlen l)
  | [] => O
  end.

Fixpoint skip_spaces (fuel : nat) (buf : list ascii) (skip : Z) : outcome Z :=
  match fuel with
  | O => Spin
  | S fuel =>
      let! c := bget buf skip in
      if Ascii.eqb c " " then skip_spaces fuel buf (skip + 1) else Ret skip
  end.

(** The [do ... while] loop from [end] on; in front of the buffer it goes on when the byte
    there is white space, and writes there. *)
Fixpoint trim_back (below : option ascii) (buf : list ascii) (n : nat) : outcome (list ascii * Z) :=
  let! buf := bset buf (Z.of_nat n) zero in
  match n with
  | O =>
      let! c := need OutOfBounds below in
      if is_trail c then Stuck OutOfBounds else Ret (buf, -1)
  | S n =>
      let! c := bget buf (Z.of_nat n) in
      if is_trail c then trim_back below buf n else Ret (buf, Z.of_nat n)
  end.

(** The text at [i]. *)
Definition text_at (buf : list ascii) (i : Z) : string :=
  let l := drop (Z.to_nat i) buf in String.string_of_list_ascii (take (strlen l) l).

(** One round; [skip] is never set back to the start of the buffer. *)
Definition symtab_line (below : option ascii) (line : string) (skip : Z) (p : proc) : outcome (Z * proc) :=
  let buf := line_buf line in
  let! skip := skip_spaces (S SZ_BUF) buf skip in
  let! r := trim_back below buf (strlen buf) in
  let '(buf, end_) := r in
  if end_ - skip <=? 0 then Ret (skip, p)
  else
    let! c := bget buf skip in
    let! d := bget buf (skip + 1) in
    if Ascii.eqb c "#" || (Ascii.eqb c "/" && Ascii.eqb d "/") || Ascii.eqb c ";" then Ret (skip, p)
    else let! p := Log LOG_DEBUG ("read symtab line: " ++ text_at buf skip) p in Ret (skip, p).

Fixpoint symtab_lines (below : option ascii) (lines : list string) (skip : Z) (p : proc) : outcome (Z * proc) :=
  match lines with
  | [] => Ret (skip, p)
  | b :: lines => let! r := symtab_line below b skip p in symtab_lines below lines r.1 r.2
  end.

(** NULL, or an address in the buffer of the call that has returned. *)
Inductive symtab_result := SymNull | SymFrame (i : Z).

(** [stat], [errno]: the answers to [file_exists]; [file]: the text, [None] when it cannot
    be opened.  [symbol] is not used. *)
Definition debug_symtab_lookup (below : option ascii) (stat errno : Z) (file : option string)
    (symbol : string) (symtab : option string) (p : proc) : outcome (symtab_result * proc) :=
  let! r :=
    match symtab with
    | None =>
        let! name := conf_str p "path.symtab" None in
        let! p := Log LOG_DEBUG ("symtab_lookup: Using default symtab from config: " ++ fmt_s name) p in
        let! st := conf_str p "path.symtab" (Some "dbg/jailfs.symtab"%string) in
        Ret (st, p)
    | Some name =>
        let! p := Log LOG_DEBUG ("symtab_lookup: Using symtab from caller: " ++ name) p in Ret (Some name, p)
    end in
  let '(st, p) := r in
  if negb (file_exists stat errno) then
    let! p := Log LOG_ERR ("symtab_lookup: Cannot find symtab: " ++ fmt_s st) p in Ret (SymNull, p)
  else
    match file with
    | None =>
        let! p := Log LOG_ERR ("symtab_lookup: Error reading from symtab " ++ fmt_s st) p in
        Stuck NullDeref
    | Some text =>
        let! r := symtab_lines below (read_lines (S (String.length text)) text) 0 p in
        Ret (SymFrame r.1, r.2)
    end.

Lemma line_buf_length line : (String.length line ≤ SZ_BUF)%nat → length (line_buf line) = SZ_BUF.
Proof.
  intros H. unfold line_buf, chars_of. rewrite length_app, length_replicate.
  replace (length (String.list_ascii_of_string line)) with (String.length line); [lia|].
  induction line as [|c line IH] in H |- *; [done|]. cbn in *. f_equal. apply IH. lia.
Qed.

Lemma strlen_app l k : (strlen (l ++ zero :: k) ≤ length l)%nat.
Proof. induction l as [|c l IH]; cbn; [lia|]. destruct (Ascii.eqb c zero); cbn; lia. Qed.

Lemma line_buf_split line : (String.length line ≤ LINE_MAX)%nat →
  length (line_buf line) = SZ_BUF ∧ line_buf line !! 767%nat = Some zero ∧ (strlen (line_buf line) ≤ LINE_MAX)%nat.
Proof.
  intros H. unfold LINE_MAX in *. assert (length (chars_of line) = String.length line) as Hl.
  { unfold chars_of. clear. induction line; cbn; auto. }
  split; [apply line_buf_length; unfold SZ_BUF; lia|]. unfold line_buf, SZ_BUF. split.
  - rewrite lookup_app_r by lia. apply lookup_replicate. split; [done|lia].
  - replace (768 - String.length line)%nat with (S (767 - String.length line)) by lia. cbn [replicate].
    etrans; [apply strlen_app|lia].
Qed.

Lemma symtab_spaces_ok fuel buf : length buf = SZ_BUF → buf !! 767%nat = Some zero → ∀ skip,
  0 ≤ skip ≤ 767 → (Z.to_nat (768 - skip) < fuel)%nat → ∃ k, skip_spaces fuel buf skip = Ret k ∧ skip ≤ k ≤ 767.
Proof.
  intros Hl Hz. induction fuel as [|fuel IH]; intros skip Hs Hf; [lia|]. cbn [skip_spaces].
  destruct (lookup_lt_is_Some_2 buf (Z.to_nat skip)) as [c Hc]; [rewrite Hl; unfold SZ_BUF; lia|].
  rewrite (bget_ok _ _ _ (proj1 Hs) Hc), bind_ret. destruct (Ascii.eqb_spec c " ") as [->|]; [|exists skip; split; [done|lia]].
  destruct (decide (skip = 767)) as [->|]; [by pose proof (eq_trans (eq_sym Hz) Hc)|].
  destruct (IH (skip + 1)) as (k & ? & ?); [lia|lia|]. exists k. split; [done|lia].
Qed.

Lemma buf_set {A} (b : list A) i v : 0 ≤ i < blen b → bset b i v = Ret (<[Z.to_nat i := v]> b).
Proof. intros H. unfold bset. by rewrite (proj2 (Z.leb_le _ _)), (proj2 (Z.ltb_lt _ _)) by lia. Qed.

(** Only the byte in front of the buffer can be missing. *)
Lemma trim_back_ok below n : ∀ buf, length buf = SZ_BUF → (n < SZ_BUF)%nat →
  (∃ c, below = Some c ∧ is_trail c = false) ∨ below = None →
  (∃ buf' e, trim_back below buf n = Ret (buf', e) ∧ length buf' = SZ_BUF ∧ -1 ≤ e < Z.of_nat n) ∨
  (below = None ∧ trim_back below buf n = Stuck OutOfBounds).
Proof.
  induction n as [|n IH]; intros buf Hl Hn Hb; cbn [trim_back];
    (rewrite buf_set by (unfold blen; rewrite Hl; lia)); rewrite bind_ret.
  - destruct Hb as [(c & -> & Hc)| ->]; [|by right]. left. rewrite need_Some, bind_ret, Hc.
    eexists _, _. split; [done|]. split; [by rewrite length_insert|lia].
  - destruct (lookup_lt_is_Some_2 (<[Z.to_nat (Z.of_nat (S n)):=zero]> buf) n) as [c Hc]; [rewrite length_insert; lia|].
    rewrite (bget_ok _ (Z.of_nat n) c) by (lia || by rewrite Nat2Z.id). rewrite bind_ret. destruct (is_trail c).
    + destruct (IH (<[Z.to_nat (Z.of_nat (S n)):=zero]> buf)) as [(b & e & -> & ? & ?)|[? ->]];
        [by rewrite length_insert|lia|done| |by right].
      left. eexists _, _. split; [done|]. split; [done|lia].
    + left. eexists _, _. split; [done|]. split; [by rewrite length_insert|lia].
Qed.

(** A round ends, with at most one message, or reads in front of the buffer. *)
Lemma symtab_line_ok below line skip p :
  (String.length line ≤ LINE_MAX)%nat → 0 ≤ skip ≤ 767 → logs p →
  (∃ c, below = Some c ∧ is_trail c = false) ∨ below = None →
  (∃ k es, symtab_line below line skip p = Ret (k, emits es p) ∧ skip ≤ k ≤ 767 ∧ (length es ≤ 1)%nat) ∨
  (below = None ∧ symtab_line below line skip p = Stuck OutOfBounds).
Proof.
  intros Hline Hs Hp Hb. destruct (line_buf_split line Hline) as (Hl & Hz & Hn). unfold symtab_line.
  destruct (symtab_spaces_ok (S SZ_BUF) _ Hl Hz skip Hs) as (k & -> & Hk); [unfold SZ_BUF; lia|]. rewrite bind_ret.
  destruct (trim_back_ok below (strlen (line_buf line)) (line_buf line) Hl) as [(buf & e & -> & Hl' & He)|[? ->]];
    [unfold LINE_MAX, SZ_BUF in *; lia|done| |by right].
  rewrite bind_ret. left. unfold LINE_MAX, SZ_BUF in *.
  destruct (Z.leb_spec (e - k) 0); [exists k, []; rewrite emits_nil; split_and!; [done|lia|lia|cbn; lia]|].
  destruct (lookup_lt_is_Some_2 buf (Z.to_nat k)) as [c Hc]; [lia|].
  destruct (lookup_lt_is_Some_2 buf (Z.to_nat (k + 1))) as [d Hd]; [lia|].
  rewrite (bget_ok _ k c), bind_ret, (bget_ok _ (k + 1) d), bind_ret by (lia || done).
  destruct (_ || _); [exists k, []; rewrite emits_nil; split_and!; [done|lia|lia|cbn; lia]|].
  rewrite Log_ok by done. rewrite bind_ret, emit_emits. exists k. eexists. split; [done|]. split; [lia|cbn; lia].
Qed.

Lemma read_lines_short fuel s : Forall (λ b, (String.length b ≤ LINE_MAX)%nat) (read_lines fuel s).
Proof.
  assert (∀ n s, (String.length (fgets n s).1.1 ≤ n)%nat) as Hg.
  { induction n as [|n IH]; intros [|c t]; cbn; try lia. destruct (Ascii.eqb c nl); cbn; [lia|].
    specialize (IH t). destruct (fgets n t) as [[b r] eof]. cbn in *. lia. }
  revert s. induction fuel as [|fuel IH]; intros s; [constructor|]. cbn [read_lines].
  specialize (Hg LINE_MAX s). destruct (fgets LINE_MAX s) as [[b r] eof]. constructor; [done|]. by destruct eof.
Qed.

(** The file is empty or its last line is ended. *)
Definition ends_nl (s : string) : Prop := s = EmptyString ∨ ∃ t, s = (t ++ String nl EmptyString)%string.

Lemma ends_nl_tail c s : ends_nl (String c s) → c ≠ nl → s ≠ EmptyString ∧ ends_nl s.
Proof.
  intros [?|[[|d t] Ht]] Hc; [done|cbn in Ht; by injection Ht as -> ->|]. cbn in Ht. injection Ht as -> ->.
  split; [by destruct t|]. right. by exists t.
Qed.

Lemma fgets_nl n s : ends_nl s → s ≠ EmptyString → n ≠ O →
  ∃ b r, fgets n s = (b, r, false) ∧ ends_nl r ∧ (String.length r < String.length s)%nat.
Proof.
  revert s. induction n as [|n IH]; intros [|c s] Hs Hne Hn; try done. cbn [fgets].
  destruct (Ascii.eqb_spec c nl) as [->|Hc].
  - eexists _, s. split; [done|]. split; [|cbn; lia]. destruct Hs as [?|[[|d t] Ht]]; [done| |]; cbn in Ht; injection Ht as ?; subst; [by left|].
    right. by exists t.
  - destruct (ends_nl_tail c s Hs Hc) as [Hne' Hs']. destruct n as [|n].
    + cbn. eexists _, s. split; [done|]. split; [done|cbn; lia].
    + destruct (IH s Hs' Hne') as (b & r & -> & ? & ?); [done|]. eexists _, r. split; [done|]. split; [done|cbn; lia].
Qed.

Lemma read_lines_nl fuel s : ends_nl s → (String.length s < fuel)%nat → EmptyString ∈ read_lines fuel s.
Proof.
  revert s. induction fuel as [|fuel IH]; intros s Hs Hf; [lia|]. cbn [read_lines].
  destruct s as [|c s]; [by left|].
  destruct (fgets_nl LINE_MAX (String c s) Hs) as (b & r & -> & Hr & Hlt); [done|done|]. right. apply IH; [done|]. cbn in *. lia.
Qed.

Lemma symtab_lines_ok c lines : is_trail c = false → ∀ skip p,
  Forall (λ b, (String.length b ≤ LINE_MAX)%nat) lines → 0 ≤ skip ≤ 767 → logs p →
  ∃ k es, symtab_lines (Some c) lines skip p = Ret (k, emits es p) ∧ 0 ≤ k ≤ 767.
Proof.
  intros Hc. induction lines as [|b lines IH]; intros skip p Hl Hs Hp; cbn [symtab_lines].
  - exists skip, []. rewrite emits_nil. by split; [|lia].
  - apply Forall_cons in Hl as [Hb Hl].
    destruct (symtab_line_ok (Some c) b skip p Hb Hs Hp) as [(k & es & -> & Hk & _)|[? _]]; [by left; exists c| |done].
    rewrite bind_ret. cbn [fst snd]. destruct (IH k (emits es p)) as (k' & es' & -> & ?); [done|lia|done|].
    rewrite emits_emits. by eexists _, _.
Qed.

(** An empty round reads in front of the buffer. *)
Lemma symtab_lines_stuck lines : ∀ skip p,
  Forall (λ b, (String.length b ≤ LINE_MAX)%nat) lines → EmptyString ∈ lines → 0 ≤ skip ≤ 767 → logs p →
  symtab_lines None lines skip p = Stuck OutOfBounds.
Proof.
  induction lines as [|b lines IH]; intros skip p Hl Hin Hs Hp; [by apply elem_of_nil in Hin|]. cbn [symtab_lines].
  apply Forall_cons in Hl as [Hb Hl].
  destruct (symtab_line_ok None b skip p Hb Hs Hp) as [(k & es & Hr & Hk & _)|[_ ->]]; [by right| |done].
  apply elem_of_cons in Hin as [<-|Hin]; [exfalso|rewrite Hr, bind_ret; cbn [fst snd]; apply IH; [done|done|lia|done]].
  unfold symtab_line in Hr. destruct (line_buf_split EmptyString Hb) as (Hlen & Hz & _).
  destruct (symtab_spaces_ok (S SZ_BUF) _ Hlen Hz skip Hs) as (k' & Hk' & _); [unfold SZ_BUF; lia|].
  rewrite Hk', bind_ret in Hr. change (strlen (line_buf EmptyString)) with O in Hr. cbn [trim_back] in Hr.
  rewrite buf_set in Hr by (unfold blen; rewrite Hlen; unfold SZ_BUF; lia). done.
Qed.

Lemma conf_str_total key def p : logs p → ∃ r, conf_str p key def = Ret r.
Proof.
  intros [H|(m & l & Hm & _)]; [|by rewrite (conf_str_ok _ _ _ _ Hm); eauto].
  unfold conf_str, dconf_get_str. rewrite H. by eexists.
Qed.

(** The messages about the table that is used. *)
Lemma lookup_start symtab p : logs p → ∃ st es,
  match symtab with
  | None =>
      let! name := conf_str p "path.symtab" None in
      let! p := Log LOG_DEBUG ("symtab_lookup: Using default symtab from config: " ++ fmt_s name) p in
      let! st := conf_str p "path.symtab" (Some "dbg/jailfs.symtab"%string) in
      Ret (st, p)
  | Some name =>
      let! p := Log LOG_DEBUG ("symtab_lookup: Using symtab from caller: " ++ name) p in Ret (Some name, p)
  end = Ret (st, emits es p).
Proof.
  intros Hp. destruct symtab as [name|].
  - rewrite Log_ok by done. rewrite bind_ret, emit_emits. by eexists _, _.
  - destruct (conf_str_total "path.symtab" None p Hp) as [r ->]. rewrite bind_ret, Log_ok by done.
    rewrite bind_ret, emit_emits. set (es := [_]).
    destruct (conf_str_total "path.symtab" (Some "dbg/jailfs.symtab"%string) (emits es p) Hp) as [st ->].
    by exists st, es.
Qed.

(** Looking a symbol up never finds one.  When the table is not there the result is
    NULL; when it cannot be opened, closing the file dereferences NULL; otherwise the whole table is read,
    the symbol is not used, and the result points into the buffer of the call that has
    returned.  A table whose last line is ended makes the last round read the byte in front of the
    buffer.  Parsing a line clears the pointer to the entry instead of the
    entry: it never gives one. *)
Theorem symtab_finds_nothing (below : option ascii) (stat errno : Z) (symbol : string) (symtab : option string) (p : proc) :
  logs p →
  (file_exists stat errno = false → ∀ file,
    ∃ es, debug_symtab_lookup below stat errno file symbol symtab p = Ret (SymNull, emits es p)) ∧
  (file_exists stat errno = true →
    debug_symtab_lookup below stat errno None symbol symtab p = Stuck NullDeref ∧
    (∀ text c, below = Some c → is_trail c = false →
      ∃ k es, debug_symtab_lookup below stat errno (Some text) symbol symtab p = Ret (SymFrame k, emits es p) ∧ 0 ≤ k ≤ 767) ∧
    (∀ text, below = None → ends_nl text →
      debug_symtab_lookup below stat errno (Some text) symbol symtab p = Stuck OutOfBounds)) ∧
  (∀ rv line, rv ≠ 0 → debug_symtab_ent rv line = Stuck NullDeref ∨ debug_symtab_ent rv line = Stuck BadPointer).
Proof.
  intros Hp. split; [|split].
  - intros Hf file. destruct (lookup_start symtab p Hp) as (st & es & Hst). unfold debug_symtab_lookup.
    rewrite Hst, bind_ret, Hf. cbn [negb]. rewrite Log_ok by done. rewrite bind_ret, emit_emits, emits_emits. by eexists.
  - intros Hf. destruct (lookup_start symtab p Hp) as (st & es & Hst). unfold debug_symtab_lookup.
    rewrite Hst, bind_ret, Hf. cbn [negb]. split; [by rewrite Log_ok by done|]. split.
    + intros text c -> Hc. rewrite bind_ret. destruct (symtab_lines_ok c (read_lines (S (String.length text)) text) Hc 0 (emits es p))
        as (k & es' & -> & Hk); [apply read_lines_short|lia|done|].
      rewrite bind_ret. cbn [fst snd]. rewrite emits_emits. by eexists _, _.
    + intros text -> Ht. rewrite bind_ret, symtab_lines_stuck; [done|apply read_lines_short| |lia|done].
      apply read_lines_nl; [done|lia].
  - intros rv line Hrv. unfold debug_symtab_ent. destruct (Z.eqb_spec rv 0); [done|].
    destruct (str_split " " line) as [[a b]|]; [|by right]. cbn [fmap option_fmap option_map need obind snd].
    destruct (str_split " " b) as [[a' b']|]; [by left|by right].
Qed.

Lemma symtab_finds_nothing_witness :
  (∃ k es, debug_symtab_lookup (Some "x"%char) 0 0 (Some "  Log T shell.c:160"%string) "Log" (Some "t"%string)
      (Proc None false false "" []) = Ret (SymFrame k, emits es (Proc None false false "" [])) ∧ 0 ≤ k ≤ 767) ∧
  debug_symtab_lookup None 0 0 (Some EmptyString) "Log" (Some "t"%string) (Proc None false false "" []) = Stuck OutOfBounds.
Proof.
  split.
  - destruct (symtab_finds_nothing (Some "x"%char) 0 0 "Log" (Some "t"%string) (Proc None false false "" []) ltac:(by left))
      as (_ & H & _).
    destruct (H eq_refl) as (_ & Hr & _). by apply (Hr "  Log T shell.c:160"%string "x"%char).
  - destruct (symtab_finds_nothing None 0 0 "Log" (Some "t"%string) (Proc None false false "" []) ltac:(by left))
      as (_ & H & _).
    destruct (H eq_refl) as (_ & _ & Hs). apply Hs; [done|by left].
Defined.
