(* ===== verification/World.v ===== *)
(** * The state of the program, its log and its timers (src/shell.c, cron.c, gc.c)

    The process, the block heaps by the name of their variable, the packages, the threads,
    the log, the timers and the signal handlers in one state.  An operation of a component runs on
    its part of the state, with the process of the whole. *)
From S2P Require Import Prelude CStd Store Dict Conf Timestr Dlink Balloc Proc Vfs Pkg Watch Fuse ShellHints List Threads Api.

Local Open Scope Z_scope.

(** A member of the log handle is unset until it is assigned: only one byte of the handle is
    cleared. *)
Inductive log_type := LogNone | LogSyslog | LogStdout | LogFile | LogFifo.
Inductive stream := NullStream | Stdout | Opened (path : string).
Record log_handle := LogHndl { lg_type : option log_type; lg_fp : option stream }.

(** The functions that timers call. *)
Inductive callback := CbGcAll | CbTick | CbPkgGc | CbVfsGc.
Record timer := Timer { tm_callback : callback; tm_after : Z; tm_repeat : Z }.

(** [w_loop]: the timers of the event loop, when there is one; [w_signals]: the flags of the
    signals that have the handler. *)
Record world := World {
  w_proc : proc;
  w_heaps : bstate;
  w_vars : gmap string Z;
  w_watch : watches;
  w_threads : threads;
  w_log : option log_handle;
  w_early : bool;
  w_loop : option (list timer);
  w_signals : gmap Z Z;
  w_born : Z;
  w_now : Z;
  w_lifetime : Z
}.
Definition set_proc (v : proc) (w : world) : world :=
  World v (w_heaps w) (w_vars w) (w_watch w) (w_threads w) (w_log w) (w_early w) (w_loop w) (w_signals w) (w_born w) (w_now w) (w_lifetime w).
Definition set_heaps (v : bstate) (w : world) : world :=
  World (w_proc w) v (w_vars w) (w_watch w) (w_threads w) (w_log w) (w_early w) (w_loop w) (w_signals w) (w_born w) (w_now w) (w_lifetime w).
Definition set_var (x : string) (v : Z) (w : world) : world :=
  World (w_proc w) (w_heaps w) (<[x := v]> (w_vars w)) (w_watch w) (w_threads w) (w_log w) (w_early w) (w_loop w) (w_signals w) (w_born w) (w_now w) (w_lifetime w).
Definition set_watch (v : watches) (w : world) : world :=
  World (w_proc w) (w_heaps w) (w_vars w) v (w_threads w) (w_log w) (w_early w) (w_loop w) (w_signals w) (w_born w) (w_now w) (w_lifetime w).
Definition set_threads (v : threads) (w : world) : world :=
  World (w_proc w) (w_heaps w) (w_vars w) (w_watch w) v (w_log w) (w_early w) (w_loop w) (w_signals w) (w_born w) (w_now w) (w_lifetime w).
Definition set_log (v : option log_handle) (w : world) : world :=
  World (w_proc w) (w_heaps w) (w_vars w) (w_watch w) (w_threads w) v (w_early w) (w_loop w) (w_signals w) (w_born w) (w_now w) (w_lifetime w).
Definition set_early (v : bool) (w : world) : world :=
  World (w_proc w) (w_heaps w) (w_vars w) (w_watch w) (w_threads w) (w_log w) v (w_loop w) (w_signals w) (w_born w) (w_now w) (w_lifetime w).
Definition set_loop (v : option (list timer)) (w : world) : world :=
  World (w_proc w) (w_heaps w) (w_vars w) (w_watch w) (w_threads w) (w_log w) (w_early w) v (w_signals w) (w_born w) (w_now w) (w_lifetime w).
Definition set_signals (v : gmap Z Z) (w : world) : world :=
  World (w_proc w) (w_heaps w) (w_vars w) (w_watch w) (w_threads w) (w_log w) (w_early w) (w_loop w) v (w_born w) (w_now w) (w_lifetime w).
Definition set_clock (born now : Z) (w : world) : world :=
  World (w_proc w) (w_heaps w) (w_vars w) (w_watch w) (w_threads w) (w_log w) (w_early w) (w_loop w) (w_signals w) born now (w_lifetime w).
Definition set_lifetime (v : Z) (w : world) : world :=
  World (w_proc w) (w_heaps w) (w_vars w) (w_watch w) (w_threads w) (w_log w) (w_early w) (w_loop w) (w_signals w) (w_born w) (w_now w) v.

(** The packages are part of the state of the watches. *)
Definition w_pkgs (w : world) : pkgs := x_pkgs (w_watch w).
Definition set_pkgs (v : pkgs) (w : world) : world := set_watch (with_pkgs v (w_watch w)) w.

(** A static pointer, NULL until it is set. *)
Definition var (x : string) (w : world) : Z := default 0 (w_vars w !! x).

(** ** Operations of the components *)
Definition on_proc (f : proc → outcome proc) (w : world) : outcome world :=
  let! p := f (w_proc w) in Ret (set_proc p w).
Definition on_heaps (f : bstate → outcome (Z * bstate)) (w : world) : outcome (Z * world) :=
  let! r := f (w_heaps w) in Ret (r.1, set_heaps r.2 w).
Definition on_pkgs {A} (f : pkgs → outcome (A * pkgs)) (w : world) : outcome (A * world) :=
  let! r := f (with_proc (w_proc w) (w_pkgs w)) in
  Ret (r.1, set_proc (k_proc r.2) (set_pkgs r.2 w)).
Definition on_watch {A} (f : watches → outcome (A * watches)) (w : world) : outcome (A * world) :=
  let! r := f (with_pkgs (with_proc (w_proc w) (w_pkgs w)) (w_watch w)) in
  Ret (r.1, set_proc (k_proc (x_pkgs r.2)) (set_watch r.2 w)).
Definition on_threads (f : threads → outcome (Z * threads)) (w : world) : outcome (Z * world) :=
  let! r := f (with_tproc (w_proc w) (w_threads w)) in
  Ret (r.1, set_proc (t_proc r.2) (set_threads r.2 w)).
Definition log_w (level : Z) (text : string) : world → outcome world := on_proc (Log level text).

(** [blockheap_create] for the pointer [x]; the program ends when it fails.  [h]: the addresses of
    the heap, of its block and of its memory, and how many bytes can be read at the name. *)
Record heap_answers := HeapAnswers { ha_heap : option Z; ha_block : os; ha_readable : Z }.
Definition create_heap (h : heap_answers) (x : string) (size n : Z) (name : string) (w : world) : outcome world :=
  let! r := on_heaps (blockheap_create (ha_heap h) (ha_block h) size n (Some name) (ha_readable h)) w in
  Ret (set_var x r.1 r.2).
Definition collect_heap (x : string) (w : world) : outcome world :=
  let! r := on_heaps (blockheap_garbagecollect (var x w)) w in Ret r.2.

(** ** The log *)

(** [mem_alloc(sizeof(Log))] gets one byte, the size of a function; the answers are the
    address and how many bytes can really be used behind it. *)
Definition SZ_LOG_TYPE : Z := 4.
Definition OFS_LOG_FP : Z := 8.
Definition put_type (usable : Z) (t : log_type) (w : world) : outcome world :=
  let! l := need NullDeref (w_log w) in
  if usable <? SZ_LOG_TYPE then Stuck OutOfBounds else Ret (set_log (Some (LogHndl (Some t) (lg_fp l))) w).
Definition put_fp (usable : Z) (f : stream) (w : world) : outcome world :=
  let! l := need NullDeref (w_log w) in
  if usable <? OFS_LOG_FP + 8 then Stuck OutOfBounds else Ret (set_log (Some (LogHndl (lg_type l) (Some f))) w).

(** [there]: is there a file of the name; [opens]: does [fopen] succeed. *)
Definition log_open (ptr usable : Z) (there opens : bool) (target : option string) (w : world) : outcome world :=
  if ptr =? 0 then Stuck NullDeref
  else
    let w := set_log (Some (LogHndl None None)) w in
    let! target := need NullDeref target in
    let path := str_drop 7 target in
    if strcaseeq target "syslog" then put_type usable LogSyslog w
    else if strcaseeq target "stdout" then
      let! w := put_type usable LogStdout w in put_fp usable Stdout w
    else if strncaseeq 7 target "fifo://" then
      let w := if there then set_proc (emit (EvUnlink path) (w_proc w)) w else w in
      if negb opens then
        let! w := put_fp usable NullStream w in
        let! w := log_w LOG_ERR ("Failed opening log fifo '" ++ path ++ "' ") w in
        put_fp usable Stdout w
      else let! w := put_fp usable (Opened path) w in put_type usable LogFifo w
    else if strncaseeq 7 target "file://" then
      if negb opens then
        let! w := put_fp usable NullStream w in
        let! w := log_w LOG_ERR ("failed opening log file '" ++ path ++ "' ") w in
        put_fp usable Stdout w
      else let! w := put_fp usable (Opened path) w in put_type usable LogFile w
    else Ret w.

(** [junk]: the type, when it was never set. *)
Definition log_close (junk : log_type) (w : world) : outcome world :=
  match w_log w with
  | None => Ret w
  | Some l =>
      let! _ :=
        match default junk (lg_type l) with
        | LogFile | LogFifo =>
            let! fp := need BadPointer (lg_fp l) in
            match fp with NullStream => Stuck NullDeref | _ => Ret tt end
        | _ => Ret tt
        end in
      Ret (set_log None w)
  end.

(** The early log is allocated by nothing else, and nothing is ever put into it: its position stays
    NULL. *)
Definition earlylog_init (ptr : Z) (w : world) : outcome (bool * world) :=
  if w_early w then
    let! w := log_w LOG_DEBUG "earlylog_init() called twice, why? check your code..." w in Ret (true, w)
  else if ptr =? 0 then Stuck NullDeref
  else Ret (true, set_early true w).
Definition earlylog_append (earlylog_p : Z) (line : string) (w : world) : outcome (Z * world) :=
  let! w := if negb (earlylog_p =? 0) then log_w LOG_SHELL ("early-log: " ++ line) w else Ret w in
  Ret (0, w).
Definition earlylog_fini (w : world) : world := set_early false w.

(** ** The handler and the exit (unix.c, main.c) *)
Definition dlink_fini (w : world) : outcome world :=
  let! r := on_heaps (blockheap_destroy (var "dlink_node_heap" w)) w in Ret r.2.

Definition goodbye_w (w : world) : outcome world :=
  let! _ := conf_str (w_proc w) "path.pid" None in
  let! w := log_w LOG_INFO "shutting down..." w in
  let w := set_proc (set_dying (w_proc w)) w in
  let! w := dlink_fini w in
  let! r := dconf_fini (pr_conf (w_proc w)) in
  let w := set_proc (set_conf r.2 (w_proc w)) w in
  let! w := on_proc pidfile_close w in
  Halt 0.
Definition raise_w (sig : Z) (w : world) : outcome world :=
  let! r := handle_signal sig (w_proc w) in
  let w := set_proc r.2 w in
  if r.1 then goodbye_w w else Ret w.

(** ** Garbage collection (gc.c) *)
Definition api_gc_w (w : world) : outcome (Z * world) :=
  let! r := api_gc (Api (w_proc w) (w_heaps w) (var "heap_api_msg" w) ∅) in Ret (r.1, set_heaps (ap_heaps r.2) w).
Definition vfs_gc_w (w : world) : outcome (Z * world) :=
  let! r := vfs_gc (Fuse (w_proc w) (w_heaps w) (var "heap_vfs_cache" w) (var "heap_vfs_handle" w)
                         (var "heap_vfs_inode" w) (var "heap_vfs_watch" w) []) in
  Ret (r.1, set_heaps (fu_heaps r.2) w).
Definition pkg_gc_w (now : Z) (w : world) : outcome (Z * world) :=
  let! r := on_pkgs (pkg_gc now (w_lifetime w)) w in
  let! w := collect_heap "heap_pkg_file" r.2 in
  let! w := collect_heap "heap_pkg" w in
  Ret (r.1, w).
Definition gc_all (now : Z) (w : world) : outcome (Z * world) :=
  let! a := api_gc_w w in
  let! b := on_heaps (shell_gc (var "heap_shell_hints" a.2)) a.2 in
  let! c := pkg_gc_w now b.2 in
  let! d := vfs_gc_w c.2 in
  let! w := collect_heap "dlink_node_heap" d.2 in
  Ret (a.1 + b.1 + c.1 + d.1, w).

(** ** Timers (cron.c) *)
Definition evt_init (w : world) : world := set_loop (Some []) w.

(** [ptr]: the address of the timer.  [name] is not used by the code. *)
Definition add_timer (ptr : Z) (t : timer) (w : world) : outcome world :=
  if ptr =? 0 then Stuck NullDeref
  else let! l := need NullDeref (w_loop w) in Ret (set_loop (Some (l ++ [t])) w).
Definition evt_timer_add_periodic (ptr : Z) (c : callback) (name : string) (interval : Z) : world → outcome world :=
  add_timer ptr (Timer c 0 (sint32 interval)).
Definition evt_timer_add_oneshot (ptr : Z) (c : callback) (name : string) (timeout : Z) : world → outcome world :=
  add_timer ptr (Timer c (sint32 timeout) 0).

Definition conf_period (key : string) (w : world) : outcome Z :=
  let! s := conf_str (w_proc w) key None in timestr_to_time s 60.

Definition cron_tick (time : Z) (w : world) : outcome world :=
  let w := set_clock (w_born w) time w in
  let! period := conf_period "tuning.timer.global_gc" w in
  if period =? 0 then Stuck DivByZero
  else if Z.rem (w_now w) period =? 1 then let! r := gc_all time w in Ret r.2
  else Ret w.

(** It always returns EXIT_FAILURE; nothing looks at it. *)
Definition cron_init (ptr : Z) (w : world) : outcome (Z * world) :=
  let! w := evt_timer_add_periodic ptr CbTick "tick" 1 w in
  let! w := log_w LOG_DEBUG "starting periodic task scheduler (cron)" w in
  Ret (1, w).
