(* ===== verification/Unix.v ===== *)
(** * Signals and limits (src/unix.c)

    The answers of the system calls are arguments.  [SignalSet] and [daemon_restart] are not
    used by the program. *)
From S2P Require Import Prelude CStd Proc World.

Local Open Scope Z_scope.

Definition SIGABRT : Z := 6.
Definition SIGUSR1 : Z := 10.
Definition SIGUSR2 : Z := 12.
Definition SIGPIPE : Z := 13.
Definition SIGCONT : Z := 18.
Definition SIGSTOP : Z := 19.
Definition SIGTSTP : Z := 20.
Definition SIGSYS : Z := 31.
Definition SA_ONSTACK : Z := 2 ^ 27.
Definition SA_RESETHAND : Z := 2 ^ 31.
Definition RLIM_INFINITY : Z := 2 ^ 64 - 1.

Definition signal_set : list Z :=
  [SIGHUP; SIGUSR1; SIGUSR2; SIGQUIT; SIGTERM; SIGPIPE; SIGCHLD; SIGSEGV; SIGCHLD].

(** [ok i]: does the [i]-th call of [sigaction] succeed.  The message has the position in the
    list, not the signal. *)
Fixpoint signal_loop (ok : nat → bool) (i : nat) (signals : list Z) (w : world) : outcome world :=
  match signals with
  | [] => Ret w
  | sig :: signals =>
      let! w :=
        if negb (sig =? 0) then
          let flags := if sig =? SIGSEGV then sint32 (Z.lor SA_ONSTACK SA_RESETHAND) else 0 in
          if ok i then Ret (set_signals (<[sig := flags]> (w_signals w)) w)
          else log_w LOG_ERR ("sigaction: signum:" ++ fmt_d (Z.of_nat i) ++ " ") w
        else Ret w in
      signal_loop ok (S i) signals w
  end.
Definition signal_init (ok : nat → bool) : world → outcome world := signal_loop ok 0 signal_set.

(** [for (i = 0; i <= n; i++)] over an array of [n] elements. *)
Fixpoint each_upto (arr : list Z) (i n : nat) (acc : list Z) : outcome (list Z) :=
  let! x := need OutOfBounds (arr !! i) in
  match n with
  | O => Ret (acc ++ [x])
  | S n => each_upto arr (S i) n (acc ++ [x])
  end.
Definition quiet_signals : list Z := [SIGABRT; SIGQUIT; SIGKILL; SIGTERM; SIGSYS].
Definition ignored_signals : list Z := [SIGCHLD; SIGPIPE; SIGHUP; SIGSTOP; SIGTSTP; SIGCONT].
(** The masked and the ignored signals. *)
Definition posix_signal_quiet : outcome (list Z * list Z) :=
  let! masked := each_upto quiet_signals 0 (length quiet_signals) [] in
  let! ignored := each_upto ignored_signals 0 (length ignored_signals) [] in
  Ret (masked, ignored).

(** A limit: the current value is never set ([junk]). *)
Record rlimit := RLimit { rl_resource : Z; rlim_cur : Z; rlim_max : Z }.
Definition RLIMIT_CORE : Z := 4.
Definition RLIMIT_NOFILE : Z := 7.
Definition enable_coredump (junk : Z) : rlimit := RLimit RLIMIT_CORE junk RLIM_INFINITY.
Definition unlimit_fds (junk : Z) : rlimit := RLimit RLIMIT_NOFILE junk RLIM_INFINITY.

Definition host_init (junk1 junk2 : Z) (ok : nat → bool) (w : world) : outcome (list rlimit * world) :=
  let limits := [enable_coredump junk1; unlimit_fds junk2] in
  let! w := signal_init ok w in
  Ret (limits, w).
