(* ===== verification/Main.v ===== *)
(** * The start-up and the life of the program (src/main.c)

    The steps of [main] in their order, on the state of the whole program, with what the
    system answers as an argument.  The event loop of libev runs the timers and the signal
    handler; what it runs is a list. *)
From S2P Require Import Prelude CStd Store Dict DictSpec Conf Timestr Balloc Proc Threads Api Debugger World Unix.
From Stdlib Require Import Ascii.

Local Open Scope Z_scope.

(** ** The parts that [main] starts *)

(** [sizeof]: dlink_node, pkg_handle, pkg_file_mapping. *)
Definition SZ_NODE : Z := 24.
Definition SZ_PKG : Z := 48.
Definition SZ_MAPPING : Z := 40.

Definition dlink_init (h : heap_answers) (w : world) : outcome world :=
  let! n := conf_int (w_proc w) "tuning.heap.node" 1024 in
  create_heap h "dlink_node_heap" SZ_NODE n "dlink_node" w.

(** The node is cleared already. *)
Definition dlink_create (o : os) (w : world) : outcome (Z * world) :=
  let! r := on_heaps (blockheap_alloc o (var "dlink_node_heap" w)) w in
  if r.1 =? 0 then Stuck NullDeref
  else if var "dlink_count" w =? 2 ^ 31 - 1 then Stuck SignedOverflow
  else Ret (r.1, set_var "dlink_count" (var "dlink_count" w + 1) r.2).
Definition dlink_free (m : Z) (w : world) : outcome world :=
  if var "dlink_count" w =? - 2 ^ 31 then Stuck SignedOverflow
  else
    let w := set_var "dlink_count" (var "dlink_count" w - 1) w in
    let! r := on_heaps (blockheap_free (var "dlink_node_heap" w) m) w in Ret r.2.

Definition api_init_w (h : heap_answers) (w : world) : outcome world :=
  let! r := api_init (ha_heap h) (ha_block h) (ha_readable h)
              (Api (w_proc w) (w_heaps w) (var "heap_api_msg" w) ∅) in
  Ret (set_var "heap_api_msg" (heap_api_msg r.2) (set_heaps (ap_heaps r.2) w)).

(** [timer]: the address of the timer. *)
Definition pkg_init (h1 h2 : heap_answers) (timer : Z) (w : world) : outcome world :=
  let! n := conf_int (w_proc w) "tuning.heap.pkg" 128 in
  let! w := create_heap h1 "heap_pkg" SZ_PKG n "pkg" w in
  let! n := conf_int (w_proc w) "tuning.heap.files" 128 in
  let! w := create_heap h2 "heap_pkg_file" SZ_MAPPING n "files" w in
  let! life := conf_period "tuning.timer.pkg_gc" w in
  let w := set_lifetime life w in
  evt_timer_add_periodic timer CbPkgGc "gc.pkg" life w.
Definition pkg_fini (w : world) : outcome world :=
  let! r := on_heaps (blockheap_destroy (var "heap_pkg" w)) w in
  let! r := on_heaps (blockheap_destroy (var "heap_pkg_file" r.2)) r.2 in Ret r.2.

Definition i18n_init (w : world) : outcome (Z * world) :=
  let! w := log_w LOG_INFO "Loading internationalization (i18n) support..." w in Ret (0, w).

(** The configuration that is read from a file; [below]: the byte in front of the buffer. *)
Definition load_conf (mm : mem) (now : Z) (below : option ascii) (file : option string) : outcome (option dict) :=
  @dconf_load (option dict) (dict_store mm now) below (m_strdup_key mm) (dict_new mm) file.
Definition i18n_load (mm : mem) (now : Z) (below : option ascii) (file : option string) (path : string) (w : world)
    : outcome (option dict * world) :=
  let! rv := load_conf mm now below file in
  match rv with
  | None => let! w := log_w LOG_EMERG ("Failed to load i18n data: " ++ path) w in Ret (None, w)
  | Some d => Ret (Some d, w)
  end.

(** ** Threads *)

(** [fn]: the address of a function. *)
Definition main_threads (fn : string → Z) : list (option string * Z * Z) := [
  (Some "db"%string, fn "thread_db_init"%string, fn "thread_db_fini"%string);
  (Some "vfs"%string, fn "thread_vfs_init"%string, fn "thread_vfs_fini"%string);
  (Some "cell"%string, fn "thread_cell_init"%string, fn "thread_cell_fini"%string);
  (Some "shell"%string, fn "thread_shell_init"%string, fn "thread_shell_fini"%string);
  (None, 0, 0)].
(** [abort] *)
Definition ABORTED : Z := 134.

Fixpoint thread_loop (ans : nat → thread_answers) (i : nat) (l : list (option string * Z * Z)) (w : world)
    : outcome world :=
  match l with
  | [] => Ret w
  | (name, init, fini) :: l =>
      let! w :=
        match name with
        | Some name =>
            if init =? 0 then Ret w
            else
              let! r := on_threads (thread_create (ans i) (var "main_threadpool" w) init fini name) w in
              if r.1 =? 0 then
                let! w := log_w LOG_ERR ("failed starting thread main:" ++ name) r.2 in
                Halt ABORTED
              else log_w LOG_INFO ("* started thread main:" ++ name) r.2
        | None => Ret w
        end in
      thread_loop ans (S i) l w
  end.

(** ** main *)

(** The answers, in the order in which [main] needs them. *)
Record boot := Boot {
  b_jaildir : option string;
  b_junk : Z * Z;
  b_sigaction : nat → bool;
  b_time : Z;
  b_api : heap_answers;
  b_mem : mem;
  b_below : option ascii;
  b_conf : option string;
  b_timers : Z * Z * Z;
  b_log : Z * Z * bool * bool;
  b_node : heap_answers;
  b_pkg : heap_answers * heap_answers;
  b_pidfile : Z * Z * Z * bool * Z;
  b_pool : Z * Z * bool * bool * bool;
  b_threads : nat → thread_answers;
  b_symtab : option ascii * Z * Z * option string
}.

(** A missing name is reported by [stat] as a bad address: the file counts as there. *)
Definition open_pidfile (path : option string) (a : Z * Z * Z * bool * Z) (w : world) : outcome (Z * world) :=
  let '(readable, stat, errno, opens, pid) := a in
  match path with
  | Some path =>
      let! r := pidfile_open path readable stat errno opens pid (w_proc w) in Ret (r.1, set_proc r.2 w)
  | None =>
      if negb (String.eqb (pr_pidname (w_proc w)) "") then
        let! w := log_w LOG_DEBUG "it seems you've called pidfile_open() more than once..." w in Ret (-1, w)
      else Ret (-1, w)
  end.

(** From the lock to the log.  Without a directory the usage is printed. *)
Definition start_core (b : boot) (version : string) (w : world) : outcome world :=
  let! w := log_w LOG_INFO ("jailfs: container filesystem " ++ version ++ " starting up...") w in
  let! w := log_w LOG_INFO "Copyright (C) 2012-2019 bigfluffy.cloud -- See LICENSE in distribution package for terms of use" w in
  if bool_decide (b_jaildir b = None) then Halt 1
  else
    let w := set_var "core_ready_m" 1 w in
    let! r := host_init (b_junk b).1 (b_junk b).2 (b_sigaction b) w in
    let w := set_clock (b_time b) (b_time b) r.2 in
    let! w := api_init_w (b_api b) w in
    let! d := load_conf (b_mem b) (b_time b) (b_below b) (b_conf b) in
    let w := set_proc (set_conf d (w_proc w)) w in
    let w := evt_init w in
    let! period := conf_period "tuning.timer.blockheap_gc" w in
    let! w := evt_timer_add_periodic (b_timers b).1.1 CbGcAll "gc.blockheap" period w in
    let! target := conf_str (w_proc w) "path.log" (Some "file://jailfs.log"%string) in
    log_open (b_log b).1.1.1 (b_log b).1.1.2 (b_log b).1.2 (b_log b).2 target w.

(** To the pid file. *)
Definition start_parts (b : boot) (w : world) : outcome world :=
  let! r := cron_init (b_timers b).1.2 w in
  let! r := i18n_init r.2 in
  let! w := dlink_init (b_node b) r.2 in
  let! w := pkg_init (b_pkg b).1 (b_pkg b).2 (b_timers b).2 w in
  let! path := conf_str (w_proc w) "path.pid" None in
  let! r := open_pidfile path (b_pidfile b) w in
  let w := r.2 in
  if negb (r.1 =? 0) then
    let! w := log_w LOG_EMERG "Failed opening PID file. Are we already running?" w in
    Halt 1
  else Ret w.

(** The threads, the symbol table, and the end of the barrier (Barrier.v). *)
Definition start_threads (fn : string → Z) (b : boot) (w : world) : outcome world :=
  let! level := conf_str (w_proc w) "log.level" (Some "debug"%string) in
  let! level := need NullDeref level in
  let! w :=
    if strcaseeq level "debug" then
      let! w := log_w LOG_WARNING "Log level is set to DEBUG. Please use info or lower in production" w in
      log_w LOG_WARNING "You can disable uninteresting debug sources by setting config:[general]/debug.* to false" w
    else Ret w in
  let! w := log_w LOG_INFO "Starting core threads..." w in
  let '(pool, l, attr, stack, dup) := b_pool b in
  let! r := on_threads (threadpool_init pool l attr stack dup "main") w in
  let w := set_var "main_threadpool" r.1 r.2 in
  let! w := thread_loop (b_threads b) 0 (main_threads fn) w in
  let '(below, stat, errno, file) := b_symtab b in
  let! s := debug_symtab_lookup below stat errno file "Log" None (w_proc w) in
  let w := set_proc s.2 w in
  let w := set_var "core_ready" 1 w in
  Ret (set_var "core_ready_m" 0 w).

Definition main_start (fn : string → Z) (b : boot) (version : string) (w : world) : outcome world :=
  let! w := start_core b version w in
  let! w := start_parts b w in
  start_threads fn b w.

(** The default action of a signal: it is ignored, or stops the program until it goes on (signal
    7), or ends it. *)
Definition harmless : list Z := [SIGCHLD; SIGCONT; SIGSTOP; SIGTSTP; 21; 22; 23; 28].

(** A signal arrives: its handler is called, if it has one; a handler with [SA_RESETHAND] is
    called once. *)
Definition deliver (sig : Z) (w : world) : outcome world :=
  match w_signals w !! sig with
  | Some flags => raise_w sig (if Z.testbit flags 31 then set_signals (delete sig (w_signals w)) w else w)
  | None => if bool_decide (sig ∈ harmless) then Ret w else Halt (128 + sig)
  end.

(** What libev does: it runs a timer that is due, or a signal arrives between two of them, or
    [ev_loop] returns to [main]. *)
Inductive loop_event := LoopTimer (c : callback) (time : Z) | LoopSignal (sig : Z) | LoopReturns.
Definition run_event (e : loop_event) (w : world) : outcome world :=
  match e with
  | LoopTimer CbGcAll time => let! r := gc_all time w in Ret r.2
  | LoopTimer CbTick time => cron_tick time w
  | LoopTimer CbPkgGc time => let! r := pkg_gc_w time w in Ret r.2
  | LoopTimer CbVfsGc time => let! r := vfs_gc_w w in Ret r.2
  | LoopSignal sig => deliver sig w
  | LoopReturns => Ret w
  end.

(** The flag is looked at between two calls of [ev_loop], not between the events; the end of
    the list is a state that still runs. *)
Fixpoint loop_rounds (l : list loop_event) (w : world) : outcome world :=
  match l with
  | [] => Ret w
  | LoopReturns :: l => if pr_dying (w_proc w) then Halt 0 else loop_rounds l w
  | e :: l => let! w := run_event e w in loop_rounds l w
  end.
Definition main_loop (l : list loop_event) (w : world) : outcome world :=
  if pr_dying (w_proc w) then Halt 0 else loop_rounds l w.

Definition main (fn : string → Z) (b : boot) (version : string) (l : list loop_event) (w : world) : outcome world :=
  let! w := main_start fn b version w in main_loop l w.
