(* ===== verification/MainSpec.v ===== *)
(** * The start-up of the program *)
From S2P Require Import Prelude CStd Store Dict DictFacts DictSpec Conf ConfSpec Timestr Dlink DlinkSpec Balloc BallocFacts BallocOps BallocSpec Heaps Proc ProcSpec Pkg PkgSpec List ListSpec Threads ThreadsSpec Api Debugger World Unix Main.
From Stdlib Require Import Ascii.

Local Open Scope Z_scope.

(** ** Settings *)
Definition setting (m : smap) (key : string) : option string := mjoin (m !! key).
Definition int_setting (m : smap) (key : string) (def : Z) : Z :=
  match setting m key with Some t => sint32 (sl_val (strtol0 t)) | None => def end.

Lemma conf_int_ok p m key def : conf_rep p m → conf_int p key def = Ret (int_setting m key def).
Proof.
  intros Hm. pose proof (conf_str_ok p m key None Hm) as H. unfold conf_str in H.
  unfold conf_int, dconf_get_int. rewrite H. unfold int_setting, setting. cbn [obind]. by destruct (mjoin (m !! key)).
Qed.

Lemma conf_period_ok key w m : conf_rep (w_proc w) m → conf_period key w = timestr_to_time (setting m key) 60.
Proof. intros Hm. unfold conf_period. by rewrite (conf_str_ok _ _ _ _ Hm). Qed.

Lemma log_w_ok level text w : logs (w_proc w) →
  ∃ es, log_w level text w = Ret (set_proc (emits es (w_proc w)) w).
Proof. intros Hl. unfold log_w, on_proc. rewrite Log_ok by done. rewrite bind_ret, emit_emits. by eexists. Qed.

(** ** Heaps *)

(** The answers give the heap [d], apart from the heaps [ds]. *)
Definition heap_fits (h : heap_answers) (name : string) (size n : Z) (ds : list hdesc) (d : hdesc) : Prop :=
  ∃ oh b e, ha_heap h = Some oh ∧ ha_block h = (Some b, Some e) ∧ 63 ≤ ha_readable h ∧
    heap_room ds size n oh b e ∧ d = new_heap name size n oh b e.

Lemma heap_created h size n name s ds d :
  heap_fits h name size n ds d → 0 < size < 2 ^ 32 → arena s ds → (length ds < 100)%nat →
  ∃ s', blockheap_create (ha_heap h) (ha_block h) size n (Some name) (ha_readable h) s = Ret (hd_at d, s') ∧
    arena s' (d :: ds).
Proof.
  intros (oh & b & e & -> & -> & Hr & Hroom & ->) Hs Ha Hlen.
  destruct (arena_create s ds size n oh b e name (ha_readable h) Ha) as (s' & -> & Ha' & _); [lia|done|done|lia|].
  by exists s'.
Qed.

Lemma create_heap_ok h x size n name w ds d :
  heap_fits h name size n ds d → 0 < size < 2 ^ 32 → arena (w_heaps w) ds → (length ds < 100)%nat →
  ∃ s', create_heap h x size n name w = Ret (set_var x (hd_at d) (set_heaps s' w)) ∧ arena s' (d :: ds).
Proof.
  intros Hf Hs Hl Hlen. destruct (heap_created h size n name _ ds d Hf Hs Hl Hlen) as (s' & H & ?).
  unfold create_heap, on_heaps. rewrite H. cbn [obind fst snd]. by exists s'.
Qed.

(** The variables of the heaps; each is NULL or one of the heaps that are there. *)
Definition heap_vars : list string := ["heap_api_msg"; "heap_shell_hints"; "heap_pkg"; "heap_pkg_file";
  "heap_vfs_cache"; "heap_vfs_handle"; "heap_vfs_inode"; "heap_vfs_watch"; "dlink_node_heap"]%string.
Definition vars_ok (ds : list hdesc) (w : world) : Prop :=
  ∀ x, x ∈ heap_vars → var x w = 0 ∨ var x w ∈ hd_at <$> ds.

Lemma vars_ext w w' ds : w_vars w' = w_vars w → vars_ok ds w → vars_ok ds w'.
Proof. intros E Hv x. unfold var. rewrite E. apply Hv. Qed.
Lemma vars_set ds d x w : vars_ok ds w → vars_ok (d :: ds) (set_var x (hd_at d) w).
Proof.
  intros Hv y Hy. unfold var. cbn. destruct (decide (x = y)) as [->|Hne].
  - rewrite lookup_insert_eq. right. left.
  - rewrite lookup_insert_ne by done. destruct (Hv y Hy) as [?|?]; [by left|]. right. by right.
Qed.
Lemma not_heap_var x : bool_decide (x ∉ heap_vars) → x ∉ heap_vars.
Proof. apply bool_decide_unpack. Qed.
Lemma vars_other ds v x w : vars_ok ds w → x ∉ heap_vars → vars_ok ds (set_var x v w).
Proof.
  intros Hv Hx y Hy. unfold var. cbn. rewrite lookup_insert_ne by (intros ->; done). by apply Hv.
Qed.

(** The packages, and the times at which they were opened. *)
Definition mild (t : Z) : Prop := - 2 ^ 62 ≤ t < 2 ^ 62.
Definition pkgs_ok (w : world) : Prop :=
  ∃ cs, rep (with_proc (w_proc w) (w_pkgs w)) cs ∧ Forall (λ c, mild (ph_otime c.2)) cs.

Lemma pkgs_proc p w : pkgs_ok w → logs p → pkgs_ok (set_proc p w).
Proof. intros (cs & Hr & Ho) Hl. exists cs. split; [|done]. exact (rep_proc p _ cs Hr Hl). Qed.

(** ** The handlers of the signals *)
Lemma signal_loop_ok ok signals : ∀ i w, logs (w_proc w) →
  ∃ es sigs, signal_loop ok i signals w = Ret (set_proc (emits es (w_proc w)) (set_signals sigs w)) ∧
    ((∀ j, ok j = true) → ∀ sig, sig ≠ 0 → sig ∈ signals ∨ is_Some (w_signals w !! sig) → is_Some (sigs !! sig)).
Proof.
  induction signals as [|sig signals IH]; intros i w Hl; cbn [signal_loop].
  - exists [], (w_signals w). rewrite emits_nil. split; [by destruct w|]. intros _ s _ [Hs|?]; [by apply elem_of_nil in Hs|done].
  - set (flags := if sig =? SIGSEGV then _ else _).
    assert (∃ es1 sg1, (if negb (sig =? 0) then
        if ok i then Ret (set_signals (<[sig := flags]> (w_signals w)) w)
        else log_w LOG_ERR ("sigaction: signum:" ++ fmt_d (Z.of_nat i) ++ " ") w
      else Ret w) = Ret (set_proc (emits es1 (w_proc w)) (set_signals sg1 w)) ∧
      (ok i = true → ∀ s, s ≠ 0 → s = sig ∨ is_Some (w_signals w !! s) → is_Some (sg1 !! s))) as (es1 & sg1 & -> & Hs1).
    { destruct (Z.eqb_spec sig 0) as [->|Hz]; cbn [negb].
      - exists [], (w_signals w). rewrite emits_nil. split; [by destruct w|]. naive_solver.
      - destruct (ok i).
        + exists [], (<[sig := flags]> (w_signals w)). rewrite emits_nil. split; [by destruct w|].
          intros _ s _ [->|Hs]; [rewrite lookup_insert_eq; by eexists|]. apply lookup_insert_is_Some. destruct (decide (sig = s)); auto.
        + destruct (log_w_ok LOG_ERR ("sigaction: signum:" ++ fmt_d (Z.of_nat i) ++ " ") w Hl) as [es ->].
          exists es, (w_signals w). split; [by destruct w|done]. }
    rewrite bind_ret. destruct (IH (S i) (set_proc (emits es1 (w_proc w)) (set_signals sg1 w))) as (es2 & sg2 & -> & Hs2); [done|].
    exists (es1 ++ es2), sg2. split; [cbn; by rewrite emits_emits|]. intros Hok s Hz [Hs|Hs].
    + apply elem_of_cons in Hs as [->|Hs]; apply Hs2; auto.
    + apply Hs2; auto.
Qed.

(** ** Stages of the start-up *)

(** The configuration, the heaps, the timers, the threads, the handlers and the pid file at some
    point of the start-up. *)
Record stage := Stage {
  sg_conf : smap;
  sg_heaps : list hdesc;
  sg_timers : list timer;
  sg_threads : threads;
  sg_signals : gmap Z Z;
  sg_pid : bool * string;
  sg_dying : bool
}.
Record at_stage (w : world) (g : stage) : Prop := AtStage {
  as_conf : conf_rep (w_proc w) (sg_conf g);
  as_level : ∃ level, sg_conf g !! "log.level"%string = Some (Some level);
  as_heaps : arena (w_heaps w) (sg_heaps g);
  as_vars : vars_ok (sg_heaps g) w;
  as_pkgs : pkgs_ok w;
  as_life : mild (w_lifetime w);
  as_loop : w_loop w = Some (sg_timers g);
  as_threads : w_threads w = sg_threads g;
  as_signals : w_signals w = sg_signals g;
  as_pid : (pr_pidfile (w_proc w), pr_pidname (w_proc w)) = sg_pid g;
  as_dying : pr_dying (w_proc w) = sg_dying g
}.

Definition with_sg_signals (sigs : gmap Z Z) (g : stage) : stage :=
  Stage (sg_conf g) (sg_heaps g) (sg_timers g) (sg_threads g) sigs (sg_pid g) (sg_dying g).

Lemma stage_logs w g : at_stage w g → logs (w_proc w).
Proof. intros Hs. destruct (as_level _ _ Hs) as [l Hl]. right. exists (sg_conf g), l. split; [apply Hs|done]. Qed.

(** Messages and variables do not matter. *)
Lemma stage_emits es w g : at_stage w g → at_stage (set_proc (emits es (w_proc w)) w) g.
Proof.
  intros Hs. pose proof (stage_logs _ _ Hs) as Hl. destruct Hs. split; try done. by apply pkgs_proc.
Qed.
Lemma stage_var x v w g : at_stage w g → x ∉ heap_vars → at_stage (set_var x v w) g.
Proof. intros [] Hx. split; try done. by apply vars_other. Qed.
Lemma stage_signals sigs w g : at_stage w g → at_stage (set_signals sigs w) (with_sg_signals sigs g).
Proof. intros []. by split. Qed.
#[local] Hint Resolve stage_emits stage_var : core.

Lemma stage_log level text w g : at_stage w g → ∃ w', log_w level text w = Ret w' ∧ at_stage w' g.
Proof. intros Hs. destruct (log_w_ok level text w (stage_logs _ _ Hs)) as [es ->]. eauto. Qed.

Lemma stage_timer ptr c name n w g : at_stage w g → ptr ≠ 0 →
  ∃ w', evt_timer_add_periodic ptr c name n w = Ret w' ∧
    at_stage w' (Stage (sg_conf g) (sg_heaps g) (sg_timers g ++ [Timer c 0 (sint32 n)]) (sg_threads g) (sg_signals g) (sg_pid g) (sg_dying g)).
Proof.
  intros [] Hp. unfold evt_timer_add_periodic, add_timer. destruct (Z.eqb_spec ptr 0); [done|].
  rewrite as_loop0, need_Some, bind_ret. eexists. split; [done|]. by split.
Qed.

Lemma stage_heap h x size n name w g d : at_stage w g → heap_fits h name size n (sg_heaps g) d → 0 < size < 2 ^ 32 →
  (length (sg_heaps g) < 100)%nat →
  ∃ w', create_heap h x size n name w = Ret w' ∧
    at_stage w' (Stage (sg_conf g) (d :: sg_heaps g) (sg_timers g) (sg_threads g) (sg_signals g) (sg_pid g) (sg_dying g)).
Proof.
  intros [] Hf Hs Hl. destruct (create_heap_ok h x size n name w (sg_heaps g) d) as (s' & -> & ?); try done.
  eexists. split; [done|]. split; try done. by apply vars_set.
Qed.

(** ** The exit *)

(** The heap of the nodes is destroyed, if there is one. *)
Lemma dlink_fini_ok w g : at_stage w g → ∃ s', dlink_fini w = Ret (set_heaps s' w).
Proof.
  intros Hs. unfold dlink_fini, on_heaps. destruct (as_vars _ _ Hs "dlink_node_heap"%string) as [->|(pre & d & post & E & <-)%at_split].
  - by apply (bool_decide_unpack _).
  - exists (w_heaps w). done.
  - pose proof (as_heaps _ _ Hs) as Ha. rewrite E in Ha.
    destruct (arena_destroy _ pre d post Ha) as (s' & -> & _). rewrite !bind_ret. by exists s'.
Qed.

(** The program is about to end; the handler has set the flag already. *)
Definition doomed (w : world) : world := set_proc (set_dying (w_proc w)) w.

Lemma goodbye_w_ok w g : at_stage w g → fst (sg_pid g) = true → goodbye_w (doomed w) = Halt 0.
Proof.
  intros Hs Hp. unfold goodbye_w. assert (conf_rep (w_proc (doomed w)) (sg_conf g)) as Hc by exact (as_conf _ _ Hs).
  rewrite (conf_str_ok _ _ _ _ Hc), bind_ret.
  destruct (log_w_ok LOG_INFO "shutting down..." (doomed w) (stage_logs _ _ Hs)) as [es ->]. rewrite bind_ret.
  pose proof (stage_emits es w g Hs) as Hs1.
  change (set_proc (emits es (w_proc (doomed w))) (doomed w)) with (doomed (set_proc (emits es (w_proc w)) w)).
  set (w1 := set_proc (emits es (w_proc w)) w) in *. clearbody w1.
  change (set_proc (set_dying (w_proc (doomed w1))) (doomed w1)) with (set_proc (set_dying (w_proc w1)) w1).
  destruct (dlink_fini_ok w1 g Hs1) as [s' Hf].
  assert (dlink_fini (set_proc (set_dying (w_proc w1)) w1) = Ret (set_heaps s' (set_proc (set_dying (w_proc w1)) w1))) as ->.
  { unfold dlink_fini, on_heaps in *. cbn [w_heaps set_proc] in *. change (var "dlink_node_heap" (set_proc _ w1)) with (var "dlink_node_heap" w1).
    destruct (blockheap_destroy _ _) as [[r s]| | |]; try discriminate Hf. cbn [obind snd] in Hf |- *.
    injection Hf as Hf. by rewrite Hf. }
  rewrite bind_ret. cbn [w_proc set_heaps set_proc pr_conf set_dying].
  destruct (as_conf _ _ Hs1) as (d & Hd & Hok). rewrite Hd.
  destruct (free_refines d _ Hok) as (tbl & l & _ & _ & Hfree & _). unfold dconf_fini. rewrite Hfree, !bind_ret. cbn [snd].
  unfold on_proc, pidfile_close. pose proof (as_pid _ _ Hs1) as Hpid.
  cbn [w_proc set_heaps set_proc pr_pidfile set_conf set_dying].
  assert (pr_pidfile (w_proc w1) = true) as -> by (rewrite <- Hpid in Hp; exact Hp). cbn [negb].
  rewrite Log_ok by (by left). done.
Qed.

(** The signals whose handler says goodbye, and those for which it sets the flag only. *)
Definition says_goodbye (sig : Z) : bool := (sig =? SIGTERM) || (sig =? SIGKILL).
Definition dies (sig : Z) : bool := (sig =? SIGQUIT) || (sig =? SIGSEGV).

Lemma raise_goodbye sig w g : at_stage w g → fst (sg_pid g) = true → says_goodbye sig = true → raise_w sig w = Halt 0.
Proof.
  intros Hs Hp Hg. unfold raise_w, handle_signal. rewrite Log_ok by exact (stage_logs _ _ Hs). rewrite !bind_ret.
  pose proof (goodbye_w_ok _ _ (stage_emits [message LOG_WARNING ("Caught signal " ++ fmt_d sig)] w g Hs) Hp) as H.
  unfold says_goodbye in Hg. destruct (Z.eqb_spec sig SIGTERM) as [->|]; [exact H|]. cbn [orb] in Hg.
  apply Z.eqb_eq in Hg as ->. exact H.
Qed.

(** ** The log *)
Lemma put_type_ok usable t w l : w_log w = Some l → 16 ≤ usable →
  put_type usable t w = Ret (set_log (Some (LogHndl (Some t) (lg_fp l))) w).
Proof.
  intros Hw Hu. unfold put_type, SZ_LOG_TYPE. rewrite Hw. cbn [need obind]. by rewrite (proj2 (Z.ltb_ge _ _)) by lia.
Qed.
Lemma put_fp_ok usable f w l : w_log w = Some l → 16 ≤ usable →
  put_fp usable f w = Ret (set_log (Some (LogHndl (lg_type l) (Some f))) w).
Proof.
  intros Hw Hu. unfold put_fp, OFS_LOG_FP. rewrite Hw. cbn [need obind]. by rewrite (proj2 (Z.ltb_ge _ _)) by lia.
Qed.

Lemma stage_set_log l w g : at_stage w g → at_stage (set_log l w) g.
Proof. intros []. by split. Qed.
#[local] Hint Resolve stage_set_log : core.

(** A failing open is reported, and the messages go to the output. *)
Lemma log_open_fails usable text w l g : at_stage w g → w_log w = Some l → 16 ≤ usable →
  ∃ w', (let! w := put_fp usable NullStream w in
         let! w := log_w LOG_ERR text w in put_fp usable World.Stdout w) = Ret w' ∧ at_stage w' g.
Proof.
  intros Hs Hl Hu. rewrite (put_fp_ok _ _ _ _ Hl Hu), bind_ret.
  destruct (log_w_ok LOG_ERR text (set_log (Some (LogHndl (lg_type l) (Some NullStream))) w) (stage_logs _ _ Hs)) as [es ->].
  rewrite bind_ret, (put_fp_ok _ _ _ (LogHndl (lg_type l) (Some NullStream))) by done. eexists. split; [done|].
  exact (stage_emits es _ _ (stage_set_log (Some (LogHndl (lg_type l) (Some World.Stdout))) _ _ Hs)).
Qed.

Lemma stage_log_open ptr usable there opens target w g : at_stage w g → ptr ≠ 0 → 16 ≤ usable →
  ∃ w', log_open ptr usable there opens (Some target) w = Ret w' ∧ at_stage w' g.
Proof.
  intros Hs Hp Hu. unfold log_open. destruct (Z.eqb_spec ptr 0); [done|]. rewrite need_Some, bind_ret.
  set (w0 := set_log (Some (LogHndl None None)) w).
  assert (∀ es t f, ∃ w', (let! w := put_fp usable f (set_proc (emits es (w_proc w0)) w0) in put_type usable t w) = Ret w' ∧
    at_stage w' g) as Hopen.
  { intros es t f. rewrite (put_fp_ok _ _ _ (LogHndl None None)), bind_ret by done.
    rewrite (put_type_ok _ _ _ (LogHndl None (Some f))) by done. eexists. split; [done|].
    exact (stage_emits es _ _ (stage_set_log (Some (LogHndl (Some t) (Some f))) _ _ Hs)). }
  destruct (strcaseeq target "syslog").
  { rewrite (put_type_ok _ _ _ (LogHndl None None)) by done. eexists. split; [done|]. destruct Hs; by split. }
  destruct (strcaseeq target "stdout").
  { rewrite (put_type_ok _ _ _ (LogHndl None None)), bind_ret by done.
    rewrite (put_fp_ok _ _ _ (LogHndl (Some LogStdout) None)) by done. eexists. split; [done|]. destruct Hs; by split. }
  destruct (strncaseeq 7 target "fifo://"); [|destruct (strncaseeq 7 target "file://")].
  - set (w1 := if there then _ else _).
    assert (∃ es, w1 = set_proc (emits es (w_proc w0)) w0) as [es ->].
    { unfold w1. destruct there; [by eexists|]. exists []. rewrite emits_nil. by destruct w. }
    destruct opens; cbn [negb]; [apply Hopen|]. apply (log_open_fails _ _ _ (LogHndl None None)); [|done|done].
    exact (stage_emits es _ _ (stage_set_log (Some (LogHndl None None)) _ _ Hs)).
  - destruct opens; cbn [negb].
    + destruct (Hopen [] LogFile (Opened (str_drop 7 target))) as (w' & H & ?). rewrite emits_nil in H. by exists w'.
    + apply (log_open_fails _ _ _ (LogHndl None None)); [|done|done]. destruct Hs; by split.
  - exists w0. split; [done|]. destruct Hs; by split.
Qed.

(** ** From the lock to the log *)

Lemma load_conf_items mm now c items :
  mem_good mm → m_struct mm = true → is_trail c = false → Forall item_ok items → Z.of_nat (length items) < 2 ^ 27 →
  ∃ d, load_conf mm now (Some c) (Some (config_text items)) = Ret (Some d) ∧
    dict_ok d (foldl item_step (None, ∅) items).2.
Proof.
  intros Hm Hs Hc Hi Hn. unfold load_conf. rewrite (proj1 (proj2 Hm)).
  destruct (@load_items (option dict) (dict_store mm now) (dict_lawful mm now Hm) c Hc (dict_new mm) 0 ∅ items)
    as (n' & cp & -> & (d & -> & Hd & _) & _); [by apply new_rep|done|cbn; lia|].
  by exists d.
Qed.

Definition loaded (items : list item) : smap := (foldl item_step (None, ∅) items).2.

(** What a start-up that succeeds needs first: a directory, memory, a configuration with the level
    of the log, a duration that can be read, and memory for the timer. *)
Record core_answers (b : boot) (items : list item) (h1 : hdesc) (t1 : Z) : Prop := CoreAnswers {
  ca_dir : b_jaildir b ≠ None;
  ca_mem : mem_good (b_mem b);
  ca_struct : m_struct (b_mem b) = true;
  ca_below : ∃ c, b_below b = Some c ∧ is_trail c = false;
  ca_conf : b_conf b = Some (config_text items);
  ca_items : Forall item_ok items;
  ca_length : Z.of_nat (length items) < 2 ^ 27;
  ca_level : ∃ level, loaded items !! "log.level"%string = Some (Some level);
  ca_period : timestr_to_time (setting (loaded items) "tuning.timer.blockheap_gc") 60 = Ret t1;
  ca_api : heap_fits (b_api b) "api messages" SZ_APIMSG 512 [] h1;
  ca_timer : (b_timers b).1.1 ≠ 0
}.

(** The program before [main]: nothing is set. *)
Record at_rest (w : world) : Prop := AtRest {
  ar_conf : pr_conf (w_proc w) = None;
  ar_pid : (pr_pidfile (w_proc w), pr_pidname (w_proc w)) = (false, ""%string);
  ar_alive : pr_dying (w_proc w) = false;
  ar_heaps : arena (w_heaps w) [];
  ar_vars : vars_ok [] w;
  ar_pkgs : rep (with_proc (w_proc w) (w_pkgs w)) [];
  ar_life : mild (w_lifetime w);
  ar_pools : h_nodes (t_heap (w_threads w)) = ∅ ∧ h_data (t_heap (w_threads w)) = ∅ ∧ t_calls (w_threads w) = []
}.

Lemma start_core_log b version items h1 t1 w : at_rest w → core_answers b items h1 t1 →
  ∃ w' sigs, start_core b version w =
      log_open (b_log b).1.1.1 (b_log b).1.1.2 (b_log b).1.2 (b_log b).2 (setting (loaded items) "path.log") w' ∧
    at_stage w' (Stage (loaded items) [h1] [Timer CbGcAll 0 (sint32 t1)] (w_threads w) sigs (false, ""%string) false) ∧
    ((∀ j, b_sigaction b j = true) → ∀ sig, sig ∈ signal_set → is_Some (sigs !! sig)).
Proof.
  intros [Hconf Hpid Hlive Hheaps Hvars Hpkgs Hlife _] [Hdir Hmem Hstruct (c & Hbelow & Hc) Hfile Hitems Hlen Hlevel Hper Hapi Htim].
  unfold start_core.
  destruct (log_w_ok LOG_INFO ("jailfs: container filesystem " ++ version ++ " starting up...") w) as [es1 ->]; [by left|].
  rewrite bind_ret.
  match goal with |- context [log_w LOG_INFO ?t ?w1] => destruct (log_w_ok LOG_INFO t w1) as [es2 ->]; [by left|] end.
  rewrite bind_ret, bool_decide_eq_false_2 by done. unfold host_init.
  match goal with |- context [signal_init ?ok ?w2] => destruct (signal_loop_ok ok signal_set 0 w2) as (es3 & sigs & Hsig & Hsigs); [by left|] end.
  unfold signal_init. rewrite Hsig. clear Hsig. rewrite !bind_ret. cbn [fst snd]. unfold api_init_w, api_init. cbn [ap_proc ap_heaps heap_api_msg with_aheap with_aheaps].
  match goal with |- context [conf_int ?p _ _] => assert (conf_int p "tuning.heap.api-msg" 512 = Ret 512) as -> end.
  { unfold conf_int, dconf_get_int, dconf_get_str. cbn. by rewrite Hconf. }
  rewrite bind_ret. 
  match goal with |- context [blockheap_create _ _ _ _ _ _ ?s] =>
    destruct (heap_created (b_api b) SZ_APIMSG 512 "api messages" s [] h1 Hapi) as (s' & -> & Hs'); [unfold SZ_APIMSG; lia|done|cbn; lia|] end.
  rewrite !bind_ret. cbn [fst snd ap_heaps with_aheap with_aheaps heap_api_msg]. rewrite Hbelow, Hfile.
  destruct (load_conf_items (b_mem b) (b_time b) c items Hmem Hstruct Hc Hitems Hlen) as (d & -> & Hd). rewrite !bind_ret.
  match goal with |- context [evt_init ?w3] =>
    assert (at_stage (evt_init w3) (Stage (loaded items) [h1] [] (w_threads w) sigs (false, ""%string) false)) as Hst end.
  { split; cbn; try done; [by exists d| |].
    - apply (vars_ext (set_var "heap_api_msg" (hd_at h1) (set_var "core_ready_m" 1 w))); [done|].
      apply vars_set, vars_other; [done|]. by apply not_heap_var.
    - exists []. split; [|constructor]. refine (rep_proc _ _ _ Hpkgs _). right.
      destruct Hlevel as [lv Hlv]. exists (loaded items), lv. split; [by exists d|done]. }
  match goal with |- context [conf_period _ ?w4] => set (w5 := w4) in * end. clearbody w5.
  rewrite (conf_period_ok _ _ _ (as_conf _ _ Hst)). cbn [sg_conf]. rewrite Hper, bind_ret.
  destruct (stage_timer (b_timers b).1.1 CbGcAll "gc.blockheap" t1 w5 _ Hst Htim) as (w6 & -> & Hst6). rewrite bind_ret.
  rewrite (conf_str_ok _ _ _ _ (as_conf _ _ Hst6)). cbn [sg_conf]. rewrite bind_ret.
  exists w6, sigs. split; [done|]. split; [exact Hst6|]. intros Hok sig Hin. apply Hsigs; [done| |by left].
  clear -Hin. intros ->. revert Hin. apply (bool_decide_unpack _). by vm_compute.
Qed.

(** ** To the pid file *)
Record parts_answers (b : boot) (m : smap) (h1 h2 h3 h4 : hdesc) (t2 : Z) (path : string) : Prop := PartsAnswers {
  pa_timers : (b_timers b).1.2 ≠ 0 ∧ (b_timers b).2 ≠ 0;
  pa_node : heap_fits (b_node b) "dlink_node" SZ_NODE (int_setting m "tuning.heap.node" 1024) [h1] h2;
  pa_pkg : heap_fits (b_pkg b).1 "pkg" SZ_PKG (int_setting m "tuning.heap.pkg" 128) [h2; h1] h3;
  pa_files : heap_fits (b_pkg b).2 "files" SZ_MAPPING (int_setting m "tuning.heap.files" 128) [h3; h2; h1] h4;
  pa_period : timestr_to_time (setting m "tuning.timer.pkg_gc") 60 = Ret t2;
  pa_mild : mild t2;
  pa_path : setting m "path.pid" = Some path
}.

Lemma open_pidfile_ok path readable stat errno pid w g :
  at_stage w g → sg_pid g = (false, ""%string) → file_exists stat errno = false → PATH_MAX ≤ readable →
  ∃ w', open_pidfile (Some path) (readable, stat, errno, true, pid) w = Ret (0, w') ∧
    at_stage w' (Stage (sg_conf g) (sg_heaps g) (sg_timers g) (sg_threads g) (sg_signals g) (true, path) (sg_dying g)).
Proof.
  intros Hs Hg He Hr. unfold open_pidfile, pidfile_open. pose proof (as_pid _ _ Hs) as Hp. rewrite Hg in Hp. injection Hp as Hp1 Hp2.
  rewrite Hp2, He. cbn [negb String.eqb]. cbn [pr_pidfile set_pid negb obind].
  destruct (Z.ltb_spec readable PATH_MAX); [lia|].
  rewrite Log_ok by (by destruct (stage_logs _ _ Hs); [left|right]). rewrite !bind_ret. cbn [fst snd].
  eexists. split; [done|]. pose proof (stage_logs _ _ Hs) as Hl. destruct Hs. split; try done.
  apply pkgs_proc; [done|]. by destruct Hl; [left|right].
Qed.

Lemma start_parts_pid b w g h1 h2 h3 h4 t2 path :
  at_stage w g → sg_heaps g = [h1] → parts_answers b (sg_conf g) h1 h2 h3 h4 t2 path →
  ∃ w', start_parts b w =
      (let! r := open_pidfile (Some path) (b_pidfile b) w' in
       if negb (r.1 =? 0) then
         let! w := log_w LOG_EMERG "Failed opening PID file. Are we already running?" r.2 in
         Halt 1
       else Ret r.2) ∧
    at_stage w' (Stage (sg_conf g) [h4; h3; h2; h1] (sg_timers g ++ [Timer CbTick 0 1; Timer CbPkgGc 0 (sint32 t2)])
                       (sg_threads g) (sg_signals g) (sg_pid g) (sg_dying g)).
Proof.
  intros Hs Hh [[Ht1 Ht2] Hnode Hpkg Hfiles Hper Hmild Hpath].
  unfold start_parts, cron_init.
  destruct (stage_timer (b_timers b).1.2 CbTick "tick" 1 w g Hs Ht1) as (w1 & -> & Hs1). rewrite bind_ret.
  destruct (stage_log LOG_DEBUG "starting periodic task scheduler (cron)" w1 _ Hs1) as (w2 & -> & Hs2). rewrite !bind_ret. cbn [fst snd].
  unfold i18n_init. destruct (stage_log LOG_INFO "Loading internationalization (i18n) support..." w2 _ Hs2) as (w3 & -> & Hs3).
  rewrite !bind_ret. cbn [fst snd]. unfold dlink_init.
  rewrite (conf_int_ok _ _ _ _ (as_conf _ _ Hs3)), bind_ret. cbn [sg_conf].
  destruct (stage_heap (b_node b) "dlink_node_heap" SZ_NODE (int_setting (sg_conf g) "tuning.heap.node" 1024) "dlink_node" w3 _ h2 Hs3)
    as (w4 & -> & Hs4); [by cbn [sg_heaps]; rewrite Hh|unfold SZ_NODE; lia|cbn [sg_heaps]; rewrite Hh; cbn; lia|].
  rewrite bind_ret. cbn [sg_conf sg_heaps sg_timers sg_threads sg_signals sg_pid] in Hs4. rewrite Hh in Hs4. unfold pkg_init.
  rewrite (conf_int_ok _ _ _ _ (as_conf _ _ Hs4)), bind_ret. cbn [sg_conf].
  destruct (stage_heap (b_pkg b).1 "heap_pkg" SZ_PKG (int_setting (sg_conf g) "tuning.heap.pkg" 128) "pkg" w4 _ h3 Hs4 Hpkg)
    as (w5 & -> & Hs5); [unfold SZ_PKG; lia|cbn; lia|].
  rewrite bind_ret. cbn [sg_conf sg_heaps sg_timers sg_threads sg_signals sg_pid] in Hs5.
  rewrite (conf_int_ok _ _ _ _ (as_conf _ _ Hs5)), bind_ret. cbn [sg_conf].
  destruct (stage_heap (b_pkg b).2 "heap_pkg_file" SZ_MAPPING (int_setting (sg_conf g) "tuning.heap.files" 128) "files" w5 _ h4 Hs5 Hfiles)
    as (w6 & -> & Hs6); [unfold SZ_MAPPING; lia|cbn; lia|].
  rewrite bind_ret. cbn [sg_conf sg_heaps sg_timers sg_threads sg_signals sg_pid] in Hs6.
  rewrite (conf_period_ok _ _ _ (as_conf _ _ Hs6)). cbn [sg_conf]. rewrite Hper, bind_ret.
  assert (at_stage (set_lifetime t2 w6) (Stage (sg_conf g) [h4; h3; h2; h1] (sg_timers g ++ [Timer CbTick 0 (sint32 1)]) (sg_threads g) (sg_signals g) (sg_pid g) (sg_dying g)))
    as Hs7 by (destruct Hs6; by split).
  destruct (stage_timer (b_timers b).2 CbPkgGc "gc.pkg" t2 _ _ Hs7 Ht2) as (w8 & -> & Hs8). rewrite bind_ret.
  rewrite (conf_str_ok _ _ _ _ (as_conf _ _ Hs8)). cbn [sg_conf]. unfold setting in Hpath. rewrite Hpath, bind_ret.
  exists w8. split; [done|]. cbn [sg_conf sg_heaps sg_timers sg_threads sg_signals sg_pid] in Hs8. by rewrite <- (assoc_L app) in Hs8.
Qed.

(** ** Threads *)
Lemma pool_rep_proc pr s p ids : pool_rep s p ids → logs pr → pool_rep (with_tproc pr s) p ids.
Proof. intros [Hp _ Hr] Hl. by split. Qed.

Lemma stage_threads T es w g : at_stage w g →
  at_stage (set_proc (emits es (w_proc w)) (set_threads T w))
    (Stage (sg_conf g) (sg_heaps g) (sg_timers g) T (sg_signals g) (sg_pid g) (sg_dying g)).
Proof.
  intros Hs. pose proof (stage_logs _ _ Hs). destruct Hs. split; try done. exact (pkgs_proc (emits es (w_proc w)) w as_pkgs0 H).
Qed.

(** The answers from [i] on are for [n] threads with the identifiers [ids], apart from each
    other. *)
Definition threads_fit (ans : nat → thread_answers) (i : nat) (ids : list Z) (T : threads) : Prop :=
  (∀ j id, ids !! j = Some id → a_created (ans (i + j)%nat) = Some id ∧ fresh_thread (ans (i + j)%nat) T) ∧
  (∀ j k, (j < length ids)%nat → (k < length ids)%nat → j ≠ k →
    a_node (ans (i + j)%nat) ≠ a_node (ans (i + k)%nat) ∧ a_value (ans (i + j)%nat) ≠ a_value (ans (i + k)%nat)).

(** What creating the threads [l] calls. *)
Fixpoint thread_calls (l : list (string * Z * Z)) (ids : list Z) : list call :=
  match l, ids with
  | (name, init, _) :: l, id :: ids => CallCreate id init :: CallName id (snprintf 15 name) :: thread_calls l ids
  | _, _ => []
  end.
Lemma thread_loop_ok ans l : ∀ i ids old w g p,
  at_stage w g → var "main_threadpool" w = p → pool_rep (with_tproc (w_proc w) (sg_threads g)) p old →
  length ids = length l → threads_fit ans i ids (sg_threads g) → Forall (λ x, x.1.2 ≠ 0) l →
  ∃ w' T, thread_loop ans i (((λ x, (Some x.1.1, x.1.2, x.2)) <$> l) ++ [(None, 0, 0)]) w = Ret w' ∧
    at_stage w' (Stage (sg_conf g) (sg_heaps g) (sg_timers g) T (sg_signals g) (sg_pid g) (sg_dying g)) ∧
    pool_rep (with_tproc (w_proc w') T) p (old ++ ids) ∧ t_calls T = t_calls (sg_threads g) ++ thread_calls l ids ∧
    w_vars w' = w_vars w.
Proof.
  induction l as [|[[name init] fini] l IH]; intros i ids old w g p Hs Hv Hpool Hlen [Hfit Hdist] Hinit; cbn [fmap list_fmap app thread_loop].
  - rewrite bind_ret. destruct ids; [|done]. exists w, (sg_threads g). split; [done|]. cbn [thread_calls].
    rewrite !app_nil_r. split_and!; [|done|done|done]. by destruct Hs, g.
  - destruct ids as [|id ids]; [done|]. injection Hlen as Hlen. apply Forall_cons in Hinit as [Hi Hinit]. cbn in Hi.
    cbn [fst snd]. destruct (Z.eqb_spec init 0); [done|]. destruct (Hfit 0%nat id eq_refl) as [Hc Hf]. rewrite Nat.add_0_r in Hc, Hf.
    destruct (thread_made (ans i) p init fini name _ old id Hpool Hf Hc) as (T & attr & Hcr & Hpool' & _ & Hcalls & [es Hproc] & Hfresh).
    unfold on_threads. rewrite (as_threads _ _ Hs), Hv. cbn [fst snd]. rewrite Hcr, !bind_ret. cbn [fst snd].
    destruct Hf as (Hnz & _). destruct (Z.eqb_spec (a_thread (ans i)) 0); [done|]. rewrite Hproc. cbn [t_proc with_tproc].
    pose proof (stage_threads T es w g Hs) as Hs'.
    destruct (log_w_ok LOG_INFO ("* started thread main:" ++ name) _ (stage_logs _ _ Hs')) as [es2 ->]. rewrite bind_ret.
    pose proof (stage_emits es2 _ _ Hs') as Hs2.
    destruct (IH (S i) ids (old ++ [id]) _ _ p Hs2) as (w' & T' & -> & Hst & Hp' & Hc' & Hv'); try done.
    + apply (pool_rep_proc _ _ _ _ Hpool'). exact (stage_logs _ _ Hs2).
    + split.
      * intros j jd Hj. destruct (Hfit (S j) jd Hj) as [H1 H2]. rewrite Nat.add_succ_r in H1, H2. split; [exact H1|].
        apply Hfresh; [exact H2|..]; destruct (Hdist (S j) 0%nat) as [H3 H4]; try (cbn; lia);
          [by apply lookup_lt_Some in Hj; cbn; lia| |by apply lookup_lt_Some in Hj; cbn; lia|];
          by rewrite Nat.add_succ_r, Nat.add_0_r in H3, H4.
      * intros j k Hj Hk Hjk. destruct (Hdist (S j) (S k)) as [H3 H4]; [cbn; lia|cbn; lia|lia|].
        by rewrite !Nat.add_succ_r in H3, H4.
    + exists w', T'. split; [done|]. split; [exact Hst|]. rewrite <- (assoc_L app) in Hp'. split; [exact Hp'|].
      split; [|exact Hv']. rewrite Hc'. cbn [sg_threads]. rewrite Hcalls. cbn [thread_calls]. by rewrite <- (assoc_L app).
Qed.

(** The symbol table is not there, or can be read. *)
Definition symtab_fits (a : option ascii * Z * Z * option string) : Prop :=
  let '(below, stat, errno, file) := a in
  file_exists stat errno = false ∨ is_Some file ∧ ∃ c, below = Some c ∧ is_trail c = false.

Lemma symtab_returns below stat errno file symbol symtab p :
  symtab_fits (below, stat, errno, file) → logs p →
  ∃ r es, debug_symtab_lookup below stat errno file symbol symtab p = Ret (r, emits es p).
Proof.
  intros Hf Hp. destruct (lookup_start symtab p Hp) as (st & es & Hst). unfold debug_symtab_lookup. rewrite Hst, bind_ret.
  destruct (file_exists stat errno) eqn:E; cbn [negb].
  - destruct Hf as [?|([text ->] & c & -> & Hc)]; [congruence|].
    destruct (symtab_lines_ok c (read_lines (S (String.length text)) text) Hc 0 (emits es p)) as (k & es' & -> & Hk);
      [apply read_lines_short|lia|done|].
    rewrite bind_ret. cbn [fst snd]. rewrite emits_emits. by eexists _, _.
  - rewrite Log_ok by done. rewrite bind_ret, emit_emits, emits_emits. by eexists _, _.
Qed.

Definition core_threads (fn : string → Z) : list (string * Z * Z) := [
  ("db", fn "thread_db_init", fn "thread_db_fini"); ("vfs", fn "thread_vfs_init", fn "thread_vfs_fini");
  ("cell", fn "thread_cell_init", fn "thread_cell_fini"); ("shell", fn "thread_shell_init", fn "thread_shell_fini")]%string.

(** The answers for the pool at [p] and its threads. *)
Definition pool_fits (b : boot) (p : Z) (ids : list Z) (T : threads) : Prop :=
  (∃ l stack dup, b_pool b = (p, l, true, stack, dup) ∧ p ≠ 0 ∧ l ≠ 0) ∧
  length ids = 4%nat ∧ threads_fit (b_threads b) 0 ids T ∧ t_calls T = [].

Lemma start_threads_ok fn b w g p ids :
  at_stage w g → pool_fits b p ids (sg_threads g) → (∀ name, fn name ≠ 0) → symtab_fits (b_symtab b) →
  ∃ w' T, start_threads fn b w = Ret w' ∧ var "core_ready" w' = 1 ∧ var "core_ready_m" w' = 0 ∧
    at_stage w' (Stage (sg_conf g) (sg_heaps g) (sg_timers g) T (sg_signals g) (sg_pid g) (sg_dying g)) ∧
    pool_rep (with_tproc (w_proc w') T) p ids ∧ t_calls T = thread_calls (core_threads fn) ids.
Proof.
  intros Hs ((l & stack & dup & Hpool & Hp & Hl) & Hlen & Hfit & Hcalls) Hfn Hsym. unfold start_threads.
  rewrite (conf_str_ok _ _ _ _ (as_conf _ _ Hs)). destruct (as_level _ _ Hs) as [level Hlevel]. rewrite Hlevel, bind_ret.
  cbn [mjoin option_join]. rewrite need_Some, bind_ret.
  match goal with |- context [if strcaseeq level "debug" then ?a else Ret w] =>
    assert (∃ w1, (if strcaseeq level "debug" then a else Ret w) = Ret w1 ∧ at_stage w1 g) as (w1 & -> & Hs1) end.
  { destruct (strcaseeq level "debug"); [|by exists w].
    destruct (stage_log LOG_WARNING "Log level is set to DEBUG. Please use info or lower in production" w g Hs) as (w1 & -> & Hs1).
    rewrite bind_ret. by apply stage_log. }
  rewrite bind_ret. destruct (stage_log LOG_INFO "Starting core threads..." w1 g Hs1) as (w2 & -> & Hs2). rewrite bind_ret, Hpool.
  destruct (init_ok p l true stack dup "main" (with_tproc (w_proc w2) (sg_threads g)) (stage_logs _ _ Hs2) Hp Hl)
    as (r & T0 & Hinit & _ & Hheap & Hcall & [es Hproc] & -> & Hrep).
  unfold on_threads at 1. rewrite (as_threads _ _ Hs2), Hinit, !bind_ret. cbn [fst snd]. rewrite Hproc. cbn [t_proc with_tproc].
  pose proof (stage_var "main_threadpool" p _ _ (stage_threads T0 es w2 g Hs2) (not_heap_var "main_threadpool" I)) as Hs3.
  destruct (thread_loop_ok (b_threads b) (core_threads fn) 0 ids [] _ _ p Hs3) as (w4 & T & Hloop & Hs4 & Hrep4 & Hcalls4 & Hvars).
  { unfold var. cbn. by rewrite lookup_insert_eq. }
  { apply (pool_rep_proc _ _ _ _ Hrep). exact (stage_logs _ _ Hs3). }
  { done. }
  { destruct Hfit as [H1 H2]. split; [|done]. intros j id Hj. destruct (H1 j id Hj) as [? (? & ? & ? & ? & ?)]. split; [done|].
    cbn [sg_threads]. unfold fresh_thread. by rewrite Hheap. }
  { unfold core_threads. by repeat (constructor; [apply Hfn|]). }
  change (main_threads fn) with (((λ x, (Some x.1.1, x.1.2, x.2)) <$> core_threads fn) ++ [(None, 0, 0)]). rewrite Hloop, bind_ret.
  destruct (b_symtab b) as [[[below stat] errno] file].
  destruct (symtab_returns below stat errno file "Log" None (w_proc w4) Hsym (stage_logs _ _ Hs4)) as (sr & es4 & ->).
  rewrite bind_ret. cbn [fst snd]. eexists _, T. split; [done|].
  split; [unfold var; cbn; by rewrite lookup_insert_ne, lookup_insert_eq by done|].
  split; [unfold var; cbn; by rewrite lookup_insert_eq|]. split_and!.
  - apply stage_var; [apply stage_var|]; [exact (stage_emits es4 _ _ Hs4)|by apply not_heap_var..].
  - apply (pool_rep_proc _ _ _ _ Hrep4). exact (stage_logs _ _ (stage_emits es4 _ _ Hs4)).
  - rewrite Hcalls4. cbn [sg_threads]. rewrite Hcall. cbn [t_calls with_tproc]. by rewrite Hcalls.
Qed.

(** Everything the start-up needs from the system, but for the pid file. *)
Record boot_answers (fn : string → Z) (b : boot) (items : list item) (w : world) (p : Z) (h1 h2 h3 h4 : hdesc)
    (t1 t2 : Z) (ids : list Z) (path : string) : Prop := BootAnswers {
  ba_rest : at_rest w;
  ba_core : core_answers b items h1 t1;
  ba_parts : parts_answers b (loaded items) h1 h2 h3 h4 t2 path;
  ba_pool : pool_fits b p ids (w_threads w);
  ba_fn : ∀ name, fn name ≠ 0;
  ba_symtab : symtab_fits (b_symtab b);
  ba_target : is_Some (setting (loaded items) "path.log");
  ba_log : (b_log b).1.1.1 ≠ 0 ∧ 16 ≤ (b_log b).1.1.2
}.

(** The timers of the start-up. *)
Definition start_timers (t1 t2 : Z) : list timer :=
  [Timer CbGcAll 0 (sint32 t1); Timer CbTick 0 1; Timer CbPkgGc 0 (sint32 t2)].

(** To the point where the pid file is opened. *)
Lemma main_to_pid fn b version items w p h1 h2 h3 h4 t1 t2 ids path :
  boot_answers fn b items w p h1 h2 h3 h4 t1 t2 ids path →
  ∃ w' sigs, main_start fn b version w =
      (let! w' := (let! r := open_pidfile (Some path) (b_pidfile b) w' in
                   if negb (r.1 =? 0) then
                     let! w := log_w LOG_EMERG "Failed opening PID file. Are we already running?" r.2 in
                     Halt 1
                   else Ret r.2) in
       start_threads fn b w') ∧
    at_stage w' (Stage (loaded items) [h4; h3; h2; h1] (start_timers t1 t2) (w_threads w) sigs (false, ""%string) false) ∧
    ((∀ j, b_sigaction b j = true) → ∀ sig, sig ∈ signal_set → is_Some (sigs !! sig)).
Proof.
  intros [Hrest Hcore Hparts Hpool Hfn Hsym [target Htarget] [Hlog1 Hlog2]].
  destruct (start_core_log b version items h1 t1 w Hrest Hcore) as (w0 & sigs & H1 & Hs0 & Hsigs). rewrite Htarget in H1.
  destruct (stage_log_open (b_log b).1.1.1 (b_log b).1.1.2 (b_log b).1.2 (b_log b).2 target w0 _ Hs0 Hlog1 Hlog2) as (w1 & H0 & Hs1).
  rewrite H0 in H1. clear H0.
  destruct (start_parts_pid b w1 _ h1 h2 h3 h4 t2 path Hs1 eq_refl Hparts) as (w2 & H2 & Hs2).
  unfold main_start. rewrite H1, bind_ret, H2. by exists w2, sigs.
Qed.

(** The start-up succeeds when there is no pid file. *)
Lemma main_start_ok fn b version items w p h1 h2 h3 h4 t1 t2 ids path readable stat errno pid :
  boot_answers fn b items w p h1 h2 h3 h4 t1 t2 ids path →
  b_pidfile b = (readable, stat, errno, true, pid) → PATH_MAX ≤ readable → file_exists stat errno = false →
  ∃ w' T sigs, main_start fn b version w = Ret w' ∧
    at_stage w' (Stage (loaded items) [h4; h3; h2; h1] (start_timers t1 t2) T sigs (true, path) false) ∧
    var "core_ready" w' = 1 ∧ var "core_ready_m" w' = 0 ∧
    pool_rep (with_tproc (w_proc w') T) p ids ∧ t_calls T = thread_calls (core_threads fn) ids ∧
    ((∀ j, b_sigaction b j = true) → ∀ sig, sig ∈ signal_set → is_Some (sigs !! sig)).
Proof.
  intros Hb Hpf Hr He. destruct (main_to_pid fn b version _ _ _ _ _ _ _ _ _ _ _ Hb) as (w2 & sigs & -> & Hs2 & Hsigs).
  rewrite Hpf. destruct (open_pidfile_ok path readable stat errno pid w2 _ Hs2 eq_refl He Hr) as (w3 & -> & Hs3).
  rewrite bind_ret. cbn [fst snd]. change (negb (0 =? 0)) with false. cbn iota. rewrite bind_ret.
  destruct (start_threads_ok fn b w3 _ p ids Hs3 (ba_pool _ _ _ _ _ _ _ _ _ _ _ _ _ Hb) (ba_fn _ _ _ _ _ _ _ _ _ _ _ _ _ Hb)
    (ba_symtab _ _ _ _ _ _ _ _ _ _ _ _ _ Hb)) as (w4 & T & -> & Hready & Hlock & Hs4 & Hrep & Hcalls).
  by exists w4, T, sigs.
Qed.


(** ** An example *)
Definition ex_items : list item :=
  [ISection "general"; IEntry "log.level" "info"; IEntry "path.log" "file://jail.log"; IEntry "path.pid" "jail.pid";
   IEntry "tuning.heap.node" "4"; IEntry "tuning.heap.pkg" "4"; IEntry "tuning.heap.files" "4"].

Lemma ex_items_ok : Forall item_ok ex_items.
Proof.
  assert (∀ k v, word k → plain k → word v →
    (String.length (k ++ "=" ++ v) <? LINE_MAX)%nat = true → entry_ok k v) as He.
  { intros k v Hk Hp Hv Hl. split_and!; [done|done|done|]. by apply Nat.ltb_lt. }
  assert (∀ t, no_nl t = true → (String.length t <? LINE_MAX)%nat = true → line_ok t) as Ht.
  { intros t Hn Hl. split; [done|]. by apply Nat.ltb_lt. }
  unfold ex_items. repeat apply Forall_cons_2; try apply Forall_nil_2; cbn [item_ok];
    solve [apply Ht; reflexivity | apply He; repeat split; discriminate || reflexivity].
Qed.

Definition ex_proc : proc := Proc None false false "" [].
Definition ex_world : world :=
  World ex_proc empty_state ∅ (Watch.Watches (Pkg.Pkgs ex_proc ∅ dl_empty ∅ ∅ 1 false [] []) ∅ dl_empty ∅ 0)
    (Threads ex_proc ∅ ∅ (Heap ∅ ∅) ∅ []) None false None ∅ 0 0 0.
Definition ex_heap (k : Z) : heap_answers :=
  HeapAnswers (Some (k * 2 ^ 24 + 8)) (Some (k * 2 ^ 24 + 1024), Some (k * 2 ^ 24 + 4096)) 64.
Definition ex_thread (i : nat) : thread_answers :=
  ThreadAnswers (1000 + 64 * Z.of_nat i) (2000 + 64 * Z.of_nat i) (3000 + 64 * Z.of_nat i) (Some (7 + Z.of_nat i)) 0.
Definition ex_boot : boot :=
  Boot (Some "jail"%string) (0, 0) (λ _, true) 100 (ex_heap 1) mem_ok (Some "x"%char) (Some (config_text ex_items))
    (11, 12, 13) (14, 24, false, true) (ex_heap 2) (ex_heap 3, ex_heap 4) (5000, 2, 0, true, 77)
    (21, 22, true, true, true) ex_thread (Some "x"%char, 2, 0, None).

(** The heap number [k] of the example; heaps of this size are apart from each other. *)
Definition ex_desc (k : Z) (name : string) (size n : Z) : hdesc :=
  new_heap name size n (k * 2 ^ 24 + 8) (k * 2 ^ 24 + 1024) (k * 2 ^ 24 + 4096).
Definition ex_small (size n : Z) : bool :=
  (0 <? pad_size size) && (0 <? n) && (n <? 2 ^ 20) && (asize (pad_size size) n <? 2 ^ 23).
Definition ex_other (k : Z) (o : hdesc) : Prop :=
  ∃ j name size n, o = ex_desc j name size n ∧ ex_small size n = true ∧ 0 < j ∧ j ≠ k.

Lemma ex_heap_fits k name size n ds :
  0 < k → ex_small size n = true → Forall (ex_other k) ds →
  heap_fits (ex_heap k) name size n ds (ex_desc k name size n).
Proof.
  assert (∀ size n, ex_small size n = true → 0 < pad_size size ∧ 0 < n < 2 ^ 20 ∧ asize (pad_size size) n < 2 ^ 23) as Hsm.
  { intros sz m Hs. unfold ex_small in Hs. repeat (apply andb_prop in Hs as [Hs ?]). lia. }
  intros Hk Hs Hds. destruct (Hsm _ _ Hs) as (? & ? & ?). rewrite Forall_forall in Hds.
  exists (k * 2 ^ 24 + 8), (k * 2 ^ 24 + 1024), (k * 2 ^ 24 + 4096). split_and!; [done|done|done| |done]. split.
  - lia.
  - split; [lia|by intros ?%elem_of_nil|lia|by intros a ?%elem_of_nil|cbn [length]; lia].
  - unfold params_ok. lia.
  - apply Forall_singleton. cbn [new_blk ab_elems]. unfold in_region. lia.
  - intros o Ho. destruct (Hds o Ho) as (j & name' & size' & n' & -> & Hs' & Hj & Hne).
    destruct (Hsm _ _ Hs') as (? & ? & ?). split_and!.
    + intros x y ->%list_elem_of_singleton ->%list_elem_of_singleton. cbn [new_blk ab_elems ab_addr hd_esz hd_cnt ex_desc new_heap hd_heap bh_elemSize bh_elemsPerBlock]. lia.
    + cbn. lia.
    + apply Forall_singleton. cbn [new_blk ab_elems ex_desc new_heap hd_at]. unfold in_region. lia.
    + apply Forall_singleton. cbn [new_blk ab_elems hd_esz hd_cnt ex_desc new_heap hd_heap bh_elemSize bh_elemsPerBlock hd_at]. unfold in_region. lia.
Qed.

Definition ex_api : hdesc := ex_desc 1 "api messages" SZ_APIMSG 512.
Definition ex_node : hdesc := ex_desc 2 "dlink_node" SZ_NODE 4.
Definition ex_pkg : hdesc := ex_desc 3 "pkg" SZ_PKG 4.
Definition ex_files : hdesc := ex_desc 4 "files" SZ_MAPPING 4.

Lemma ex_others k : 4 < k → Forall (ex_other k) [ex_files; ex_pkg; ex_node; ex_api].
Proof. intros Hk. repeat constructor; eexists _, _, _, _; (split; [reflexivity|]); (split; [by vm_compute|lia]). Qed.

Lemma ex_core : core_answers ex_boot ex_items ex_api 60.
Proof.
  split; [done|apply mem_ok_good|done|by exists "x"%char|done|apply ex_items_ok|done|by exists "info"%string|reflexivity| |done].
  by apply ex_heap_fits.
Qed.

Lemma ex_parts : parts_answers ex_boot (loaded ex_items) ex_api ex_node ex_pkg ex_files 60 "jail.pid".
Proof.
  split; [done| | | |done|by split|done]; (apply ex_heap_fits; [done|by vm_compute|]);
    repeat constructor; eexists _, _, _, _; (split; [reflexivity|]); (split; [by vm_compute|lia]).
Qed.

Lemma ex_pool_fits : pool_fits ex_boot 21 [7; 8; 9; 10] (w_threads ex_world).
Proof.
  split; [by exists 22, true, true|]. split; [done|]. split; [|done]. split.
  - intros j id Hj. assert (id = 7 + Z.of_nat j) as -> by (do 4 (destruct j as [|j]; [by simplify_eq/=|]); done).
    split; [done|]. split_and!; cbn; lia || done.
  - intros j k _ _ Hjk. split; cbn; lia.
Qed.

Lemma ex_world_rest : at_rest ex_world.
Proof.
  split; [done..|apply ex_arena_empty| | |by split|done].
  - intros x _. left. unfold var. cbn. by rewrite lookup_empty.
  - split; [split; [apply dll_nil|done|by intros c ?%elem_of_nil|constructor]|by intros c ?%elem_of_nil|constructor|by left].
Qed.

Lemma ex_answers : boot_answers (λ _, 5) ex_boot ex_items ex_world 21 ex_api ex_node ex_pkg ex_files 60 60 [7; 8; 9; 10] "jail.pid".
Proof.
  split; [apply ex_world_rest|apply ex_core|apply ex_parts|apply ex_pool_fits|done|by left|by eexists|done].
Qed.

