(* ===== verification/Cell.v ===== *)
(** * Cells (src/cell.c)

    The start of the jailed program by the thread of the cell, in the process itself.  What the
    kernel answers is an argument; the error numbers at the end of messages are left out. *)
From S2P Require Import Prelude CStd Dict DictFacts DictSpec Conf Proc ProcSpec.

Local Open Scope Z_scope.

(** [CLONE_NEWIPC|CLONE_NEWNET|CLONE_NEWNS|CLONE_NEWPID|CLONE_NEWUTS|CLONE_FILES|CLONE_FS|CLONE_SYSVSEM] *)
Definition CLONE_OPTIONS : Z := fold_right Z.lor 0 [2 ^ 27; 2 ^ 30; 2 ^ 17; 2 ^ 29; 2 ^ 26; 2 ^ 10; 2 ^ 9; 2 ^ 18].

Definition jail_drop_privs (p : proc) : outcome (Z * proc) :=
  let! p := Log LOG_INFO "[cell] dropping privileges..." p in Ret (0, p).

(** Only the directory is changed, to the root. *)
Definition jail_chroot (path : option string) (p : proc) : outcome (Z * proc) :=
  let! p := Log LOG_INFO ("[cell] jail_chroot(): bound root to vfs at " ++ fmt_s path) p in Ret (0, p).

(** [unshare], [sethost]: do the calls succeed; [oldhost]: the host name. *)
Definition jail_namespace_init (unshare sethost : bool) (oldhost : string) (p : proc) : outcome (Z * proc) :=
  let! hostname := conf_str p "jail.hostname" None in
  let! p :=
    if negb unshare then
      let! p := Log LOG_EMERG "unshare: " p in signal_handler SIGTERM p
    else Ret p in
  let! p := Log LOG_INFO ("[cell] setting hostname " ++ fmt_s hostname ++ " (old: " ++ oldhost ++ ")") p in
  let! _ := need NullDeref hostname in
  let! p := if negb sethost then Log LOG_NOTICE "[cell] failed to set hostname: " p else Ret p in
  let! p := Log LOG_DEBUG ("[cell] isolated from parent namespaces successfully (" ++ fmt_u CLONE_OPTIONS ++ ")") p in
  Ret (0, p).

Definition jail_env_init (p : proc) : outcome proc := Log LOG_DEBUG "[cell] setting default environment" p.

(** [execv] replaces the whole program when it succeeds: it is not called in a child. *)
Inductive launched := Replaced (cmd : string) | NotStarted (p : proc).
Definition jail_container_launch (exec : bool) (p : proc) : outcome launched :=
  let! init_cmd := conf_str p "init.cmd" (Some "/init.sh"%string) in
  Ret (match init_cmd with
       | Some cmd => if exec then Replaced cmd else NotStarted p
       | None => NotStarted p
       end).

Definition inmate_init (unshare sethost : bool) (oldhost : string) (p : proc) : outcome proc :=
  let! r := jail_namespace_init unshare sethost oldhost p in Ret r.2.

(** A round of the loop: is the program dying, does [execv] succeed.  The end of the list is a
    state that still runs. *)
Fixpoint cell_loop (rounds : list (bool * bool)) (p : proc) : outcome launched :=
  match rounds with
  | [] => Ret (NotStarted p)
  | (dying, exec) :: rounds =>
      if dying then Ret (NotStarted p)
      else
        let! p := jail_env_init p in
        let! p := Log LOG_INFO "[cell] init: a new inmate has arrived in the cell." p in
        let! l := jail_container_launch exec p in
        match l with
        | Replaced cmd => Ret (Replaced cmd)
        | NotStarted p =>
            let! p := Log LOG_INFO "[cell] cell has exceeded maximum TTL and is being restarted." p in
            cell_loop rounds p
        end
  end.

(** Behind [thread_entry] (Barrier.v). *)
Definition thread_cell_init (rounds : list (bool * bool)) (p : proc) : outcome launched :=
  let! p := Log LOG_INFO "[cell] Preparing the jail cell for use..." p in
  let! path := conf_str p "path.mountpoint" None in
  let! r := jail_chroot path p in
  cell_loop rounds r.2.

(** ** What the thread does *)

(** The messages of a round without a start. *)
Definition round_messages : list event := [
  message LOG_DEBUG "[cell] setting default environment";
  message LOG_INFO "[cell] init: a new inmate has arrived in the cell.";
  message LOG_INFO "[cell] cell has exceeded maximum TTL and is being restarted."].

Lemma cell_loop_waits m n p : conf_rep p m → logs p → m !! "init.cmd"%string = None →
  cell_loop (replicate n (false, true)) p = Ret (NotStarted (emits (mjoin (replicate n round_messages)) p)).
Proof.
  intros Hm Hl Hc. revert p Hm Hl. induction n as [|n IH]; intros p Hm Hl; cbn [replicate cell_loop mjoin list_join].
  - by rewrite emits_nil.
  - unfold jail_env_init. rewrite Log_ok by done. rewrite bind_ret, Log_ok by done. rewrite bind_ret.
    unfold jail_container_launch.
    match goal with |- context [conf_str ?q _ _] => rewrite (conf_str_ok q m _ _ Hm), Hc end.
    cbn [mjoin option_join]. rewrite !bind_ret, Log_ok by done. rewrite bind_ret, !emit_emits, !emits_emits.
    rewrite IH by done. by rewrite emits_emits.
Qed.

Lemma thread_cell_loop m rounds p : conf_rep p m → logs p →
  ∃ es, thread_cell_init rounds p = cell_loop rounds (emits es p).
Proof.
  intros Hm Hl. unfold thread_cell_init, jail_chroot. rewrite Log_ok by done. rewrite bind_ret.
  match goal with |- context [conf_str ?q _ _] => rewrite (conf_str_ok q m _ _ Hm) end. rewrite bind_ret, Log_ok by done.
  rewrite !bind_ret. cbn [snd]. rewrite !emit_emits, !emits_emits. by eexists.
Qed.

(** Without a command in the configuration nothing is ever started, the default is not used; with one,
    starting it replaces the program. *)
Theorem cell_starts p m n : conf_rep p m → logs p →
  (m !! "init.cmd"%string = None → ∃ es, thread_cell_init (replicate n (false, true)) p = Ret (NotStarted (emits es p))) ∧
  (∀ cmd, m !! "init.cmd"%string = Some (Some cmd) → thread_cell_init [(false, true)] p = Ret (Replaced cmd)).
Proof.
  intros Hm Hl. split.
  - intros Hc. destruct (thread_cell_loop m (replicate n (false, true)) p Hm Hl) as [es ->].
    rewrite (cell_loop_waits m n) by done. rewrite emits_emits. by eexists.
  - intros cmd Hc. destruct (thread_cell_loop m [(false, true)] p Hm Hl) as [es ->]. cbn [cell_loop].
    unfold jail_env_init. rewrite Log_ok by done. rewrite bind_ret, Log_ok by done. rewrite bind_ret.
    unfold jail_container_launch.
    match goal with |- context [conf_str ?q _ _] => rewrite (conf_str_ok q m _ _ Hm), Hc end. done.
Qed.
