(* ===== verification/VfsThread.v ===== *)
(** * The thread of the file system (src/vfs.c, file-magic.c)

    What the thread does behind [thread_entry] (Barrier.v), on the state of the whole program: its
    heaps, the file that keeps the cache directory, the mounts, the timer, and the watches and
    the scan of the package directories.  libfuse and libmagic are called, [vfs_fuse_init] is not. *)
From S2P Require Import Prelude CStd Store Dict DictSpec Conf Balloc Proc Vfs Pkg Watch World.

Local Open Scope Z_scope.

(** [sizeof]: vfs_cache_entry, vfs_handle_t, vfs_watch_t, pkg_inode. *)
Definition SZ_CACHE : Z := 8320.
Definition SZ_HANDLE : Z := 4120.
Definition SZ_WATCH : Z := 4104.
Definition SZ_INODE : Z := 40.

Definition mimetype_init (w : world) : outcome world :=
  let! _ := conf_bool (w_proc w) "debug.vfs.mime" 0 in
  log_w LOG_INFO "[vfs] file magic (mime-type) services started succesfully" w.

(** The reply is cleared; the arguments of the message are one short ([junk]), so that a number is taken
    for the path. *)
Record vfs_lookup_reply := LookupReply { seq : Z; status : Z; lr_pkgid : Z; fileid : Z }.
Definition vfs_resolve_path (ptr junk : Z) (path : string) (w : world) : outcome (vfs_lookup_reply * world) :=
  if ptr =? 0 then Stuck NullDeref
  else
    let! debug := conf_bool (w_proc w) "debug.vfs" 0 in
    let! w :=
      if debug =? 1 then
        log_w LOG_DEBUG ("vfs:resolve_path((null)): seq<0> status<0> pkg<0> file<" ++ fmt_d junk ++ ">") w
      else Ret w in
    Ret (LookupReply 0 0 0 0, w).

(** The answers: the four heaps, [stat] and [errno] for the file, does the mount succeed, the
    timer, do the options get added, and those for the watches and the scan. *)
Record vfs_answers := VfsAnswers {
  va_cache : heap_answers;
  va_handle : heap_answers;
  va_watch : heap_answers;
  va_inode : heap_answers;
  va_keepme : Z * Z;
  va_mount : bool;
  va_timer : Z;
  va_options : bool;
  va_ifd : Z;
  va_err : string;
  va_readable : string → Z;
  va_new : nat → Z * Z * Z;
  va_pkg : string → answers;
  va_opendir : string → option (list string);
  va_is_dir : string → bool
}.

Definition is_tmpfs (w : world) : outcome bool :=
  let! t := conf_str (w_proc w) "cache.type" None in
  let! t := need NullDeref t in
  Ret (strcaseeq "tmpfs" t).

Definition vfs_heaps (a : vfs_answers) (w : world) : outcome world :=
  let! n := conf_int (w_proc w) "tuning.heap.files" 1024 in
  let! w := create_heap (va_cache a) "heap_vfs_cache" SZ_CACHE n "cache entries" w in
  let! n := conf_int (w_proc w) "tuning.heap.vfs_handle" 128 in
  let! w := create_heap (va_handle a) "heap_vfs_handle" SZ_HANDLE n "vfs_handle" w in
  let! n := conf_int (w_proc w) "tuning.heap.vfs_watch" 32 in
  let! w := create_heap (va_watch a) "heap_vfs_watch" SZ_WATCH n "vfs_watch" w in
  let! n := conf_int (w_proc w) "tuning.heap.inode" 128 in
  create_heap (va_inode a) "heap_vfs_inode" SZ_INODE n "pkg" w.

(** The file .keepme of the cache directory, and the mount of the cache. *)
Definition vfs_cache_dir (a : vfs_answers) (cache : option string) (w : world) : outcome world :=
  let tmppath := snprintf 4095 (fmt_s cache ++ "/.keepme") in
  let w := if file_exists (va_keepme a).1 (va_keepme a).2 then set_proc (emit (EvUnlink tmppath) (w_proc w)) w else w in
  let! tmpfs := is_tmpfs w in
  match tmpfs, cache with
  | true, Some cache =>
      if negb (va_mount a) then
        let! w := log_w LOG_ERR ("mounting tmpfs on cache-dir " ++ cache ++ " failed: ") w in Halt 1
      else Ret w
  | _, _ => Ret w
  end.

Definition vfs_watch_init_w (a : vfs_answers) (w : world) : outcome world :=
  let! r := on_watch (vfs_watch_init (va_ifd a) (va_err a) (va_readable a) (va_new a)) w in Ret r.2.
Definition vfs_dir_walk_w (a : vfs_answers) (w : world) : outcome world :=
  let! r := on_pkgs (λ k, let! r := vfs_dir_walk (va_pkg a) (va_opendir a) (va_is_dir a) (va_readable a) (0, k) in
                          Ret (r.1, r.2.2)) w in
  Ret r.2.

(** To the loop that waits; [mm]: the memory for [cache_dict], which the thread does not use. *)
Definition thread_vfs_init (mm : mem) (a : vfs_answers) (w : world) : outcome (option dict * world) :=
  let! cache := conf_str (w_proc w) "path.cache" None in
  let cache_dict := dict_new mm in
  let! w := vfs_heaps a w in
  let! w := vfs_cache_dir a cache w in
  let! period := conf_int (w_proc w) "tuning.timer.vfs_gc" 1200 in
  let! w := evt_timer_add_periodic (va_timer a) CbVfsGc "gc:vfs" period w in
  let! mountpoint := conf_str (w_proc w) "path.mountpoint" None in
  let! w :=
    match mountpoint with
    | None => let! w := log_w LOG_EMERG "mountpoint not configured. exiting!" w in raise_w SIGTERM w
    | Some _ => Ret w
    end in
  let! w := mimetype_init w in
  let! _ := conf_str (w_proc w) "jail.name" None in
  let! w :=
    if negb (va_options a) then
      let! w := log_w LOG_EMERG "Failed to set FUSE options." w in raise_w SIGTERM w
    else Ret w in
  let! inotify := conf_bool (w_proc w) "pkgdir.inotify" 0 in
  let! w := if inotify =? 1 then vfs_watch_init_w a w else Ret w in
  let! prescan := conf_bool (w_proc w) "pkgdir.prescan" 0 in
  let! w := if prescan =? 1 then vfs_dir_walk_w a w else Ret w in
  Ret (cache_dict, w).

(** The heap of the handles is not destroyed. *)
Definition destroy_heap (x : string) (w : world) : outcome world :=
  let! r := on_heaps (blockheap_destroy (var x w)) w in Ret r.2.
Definition thread_vfs_fini (cache_dict : option dict) (w : world) : outcome world :=
  let! _ := conf_str (w_proc w) "path.mountpoint" None in
  let! tmpfs := is_tmpfs w in
  let! _ := if tmpfs then conf_str (w_proc w) "path.cache" None else Ret None in
  let! _ := dict_free cache_dict in
  let! w := destroy_heap "heap_vfs_cache" w in
  let! w := destroy_heap "heap_vfs_inode" w in
  destroy_heap "heap_vfs_watch" w.
