(* ===== verification/VfsThreadSpec.v ===== *)
(** * The thread of the file system on a started program *)
From S2P Require Import Prelude CStd Store Dict DictFacts DictSpec Conf Timestr Dlink DlinkSpec Balloc BallocFacts BallocOps BallocSpec Heaps Proc ProcSpec Vfs Pkg Watch Fuse Threads World Main MainSpec VfsThread.

Local Open Scope Z_scope.

(** The four heaps fit behind those that are there. *)
Record vfs_fits (a : vfs_answers) (m : smap) (hs : list hdesc) (h1 h2 h3 h4 : hdesc) : Prop := VfsFits {
  vf_cache : heap_fits (va_cache a) "cache entries" SZ_CACHE (int_setting m "tuning.heap.files" 1024) hs h1;
  vf_handle : heap_fits (va_handle a) "vfs_handle" SZ_HANDLE (int_setting m "tuning.heap.vfs_handle" 128) (h1 :: hs) h2;
  vf_watch : heap_fits (va_watch a) "vfs_watch" SZ_WATCH (int_setting m "tuning.heap.vfs_watch" 32) (h2 :: h1 :: hs) h3;
  vf_inode : heap_fits (va_inode a) "pkg" SZ_INODE (int_setting m "tuning.heap.inode" 128) (h3 :: h2 :: h1 :: hs) h4
}.

Lemma vfs_heaps_ok a w g h1 h2 h3 h4 :
  at_stage w g → vfs_fits a (sg_conf g) (sg_heaps g) h1 h2 h3 h4 → (length (sg_heaps g) < 90)%nat →
  ∃ w', vfs_heaps a w = Ret w' ∧
    at_stage w' (Stage (sg_conf g) (h4 :: h3 :: h2 :: h1 :: sg_heaps g) (sg_timers g) (sg_threads g) (sg_signals g) (sg_pid g) (sg_dying g)).
Proof.
  intros Hs [H1 H2 H3 H4] Hlen. unfold vfs_heaps.
  rewrite (conf_int_ok _ _ _ _ (as_conf _ _ Hs)), bind_ret.
  destruct (stage_heap (va_cache a) "heap_vfs_cache" SZ_CACHE _ "cache entries" w g h1 Hs H1) as (w1 & -> & Hs1); [unfold SZ_CACHE; lia|lia|].
  rewrite bind_ret, (conf_int_ok _ _ _ _ (as_conf _ _ Hs1)), bind_ret. cbn [sg_conf].
  destruct (stage_heap (va_handle a) "heap_vfs_handle" SZ_HANDLE _ "vfs_handle" w1 _ h2 Hs1 H2) as (w2 & -> & Hs2); [unfold SZ_HANDLE; lia|cbn; lia|].
  rewrite bind_ret, (conf_int_ok _ _ _ _ (as_conf _ _ Hs2)), bind_ret. cbn [sg_conf].
  destruct (stage_heap (va_watch a) "heap_vfs_watch" SZ_WATCH _ "vfs_watch" w2 _ h3 Hs2 H3) as (w3 & -> & Hs3); [unfold SZ_WATCH; lia|cbn; lia|].
  rewrite bind_ret, (conf_int_ok _ _ _ _ (as_conf _ _ Hs3)), bind_ret. cbn [sg_conf].
  destruct (stage_heap (va_inode a) "heap_vfs_inode" SZ_INODE _ "pkg" w3 _ h4 Hs3 H4) as (w4 & -> & Hs4); [unfold SZ_INODE; lia|cbn; lia|].
  by exists w4.
Qed.

Lemma stage_unlink path w g : at_stage w g → at_stage (set_proc (emit (EvUnlink path) (w_proc w)) w) g.
Proof. rewrite emit_emits. apply stage_emits. Qed.

Lemma conf_bool_none p m key def : conf_rep p m → m !! key = None → conf_bool p key def = Ret def.
Proof.
  intros Hm Hk. pose proof (conf_str_ok p m key None Hm) as H. unfold conf_str in H.
  unfold conf_bool, dconf_get_bool. by rewrite H, Hk.
Qed.

(** The cache directory: with a type, and when its mount succeeds or is not asked for. *)
Lemma cache_dir_ok a cache w g :
  at_stage w g →
  match setting (sg_conf g) "cache.type" with
  | None => vfs_cache_dir a cache w = Stuck NullDeref
  | Some type =>
      if strcaseeq "tmpfs" type && bool_decide (is_Some cache) && negb (va_mount a)
      then vfs_cache_dir a cache w = Halt 1
      else ∃ w', vfs_cache_dir a cache w = Ret w' ∧ at_stage w' g
  end.
Proof.
  intros Hs. unfold vfs_cache_dir. set (path := snprintf _ _). set (w2 := if file_exists _ _ then _ else _).
  assert (at_stage w2 g) as Hs2 by (unfold w2; destruct (file_exists _ _); [by exact (stage_unlink _ _ _ Hs)|exact Hs]).
  clearbody w2. unfold is_tmpfs. rewrite (conf_str_ok _ _ _ _ (as_conf _ _ Hs2)), bind_ret. unfold setting.
  destruct (mjoin (sg_conf g !! "cache.type"%string)) as [type|]; [|done]. rewrite need_Some, !bind_ret.
  destruct (strcaseeq "tmpfs" type); cbn [andb]; [|by exists w2].
  destruct cache as [c|]; cycle 1.
  { rewrite bool_decide_eq_false_2 by (by intros [? ?]). by exists w2. }
  rewrite bool_decide_eq_true_2 by (by eexists). cbn [andb].
  destruct (va_mount a); cbn [negb]; [by exists w2|].
  destruct (log_w_ok LOG_ERR ("mounting tmpfs on cache-dir " ++ c ++ " failed: ") w2 (stage_logs _ _ Hs2)) as [es ->]. done.
Qed.

(** On a started program whose configuration has the mount point and the type of the cache, the thread
    creates its four heaps, adds its timer and goes on to its loop; without the type it
    dereferences NULL, and a cache that cannot be mounted ends the program. *)
Theorem vfs_thread_starts a mm w g h1 h2 h3 h4 mountpoint type :
  at_stage w g → vfs_fits a (sg_conf g) (sg_heaps g) h1 h2 h3 h4 → (length (sg_heaps g) < 90)%nat →
  va_timer a ≠ 0 → va_options a = true → setting (sg_conf g) "path.mountpoint" = Some mountpoint →
  sg_conf g !! "pkgdir.inotify"%string = None → sg_conf g !! "pkgdir.prescan"%string = None →
  (setting (sg_conf g) "cache.type" = Some type → strcaseeq "tmpfs" type = false ∨ va_mount a = true →
   ∃ w', thread_vfs_init mm a w = Ret (dict_new mm, w') ∧
     at_stage w' (Stage (sg_conf g) (h4 :: h3 :: h2 :: h1 :: sg_heaps g)
       (sg_timers g ++ [Timer CbVfsGc 0 (sint32 (int_setting (sg_conf g) "tuning.timer.vfs_gc" 1200))])
       (sg_threads g) (sg_signals g) (sg_pid g) (sg_dying g))) ∧
  (setting (sg_conf g) "cache.type" = None → thread_vfs_init mm a w = Stuck NullDeref) ∧
  (∀ cache, setting (sg_conf g) "cache.type" = Some type → strcaseeq "tmpfs" type = true → va_mount a = false →
    setting (sg_conf g) "path.cache" = Some cache → thread_vfs_init mm a w = Halt 1).
Proof.
  intros Hs Hf Hlen Htim Hopt Hmp Hino Hpre. unfold thread_vfs_init.
  rewrite (conf_str_ok _ _ _ _ (as_conf _ _ Hs)), bind_ret.
  destruct (vfs_heaps_ok a w g h1 h2 h3 h4 Hs Hf Hlen) as (w1 & -> & Hs1). rewrite bind_ret.
  pose proof (cache_dir_ok a (mjoin (sg_conf g !! "path.cache"%string)) w1 _ Hs1) as Hcache. cbn [sg_conf] in Hcache.
  split_and!.
  - intros Ht Hor. rewrite Ht in Hcache.
    assert (strcaseeq "tmpfs" type && bool_decide (is_Some (mjoin (sg_conf g !! "path.cache"%string))) && negb (va_mount a) = false) as E.
    { destruct Hor as [-> | ->]; [done|]. by rewrite andb_false_r. }
    rewrite E in Hcache. destruct Hcache as (w2 & -> & Hs2).
    rewrite bind_ret, (conf_int_ok _ _ _ _ (as_conf _ _ Hs2)), bind_ret. cbn [sg_conf].
    destruct (stage_timer (va_timer a) CbVfsGc "gc:vfs" (int_setting (sg_conf g) "tuning.timer.vfs_gc" 1200) w2 _ Hs2 Htim) as (w3 & -> & Hs3).
    rewrite bind_ret, (conf_str_ok _ _ _ _ (as_conf _ _ Hs3)). cbn [sg_conf]. unfold setting in Hmp. rewrite Hmp, !bind_ret.
    unfold mimetype_init. destruct (conf_bool_total "debug.vfs.mime" 0 (w_proc w3) (stage_logs _ _ Hs3)) as [b ->]. rewrite bind_ret.
    destruct (stage_log LOG_INFO "[vfs] file magic (mime-type) services started succesfully" w3 _ Hs3) as (w4 & -> & Hs4).
    rewrite bind_ret, (conf_str_ok _ _ _ _ (as_conf _ _ Hs4)), bind_ret, Hopt. cbn [negb]. rewrite bind_ret.
    rewrite (conf_bool_none _ _ _ _ (as_conf _ _ Hs4)), bind_ret by done. change (0 =? 1) with false. cbn iota. rewrite bind_ret.
    rewrite (conf_bool_none _ _ _ _ (as_conf _ _ Hs4)), bind_ret by done. change (0 =? 1) with false. cbn iota. rewrite bind_ret.
    by exists w4.
  - intros Ht. rewrite Ht in Hcache. by rewrite Hcache.
  - intros cache Ht Htm Hm Hc. rewrite Ht, Htm, Hm in Hcache. unfold setting in Hc. rewrite Hc in Hcache.
    rewrite bool_decide_eq_true_2 in Hcache by (by eexists). cbn [andb negb] in Hcache. rewrite Hc, Hcache. done.
Qed.

(** ** The end of the thread *)
Lemma destroy_heap_ok x w ds :
  arena (w_heaps w) ds → var x w ∈ hd_at <$> ds →
  ∃ s' ds', destroy_heap x w = Ret (set_heaps s' w) ∧ arena s' ds' ∧
    (∀ h, h ∈ hd_at <$> ds → h ≠ var x w → h ∈ hd_at <$> ds') ∧ st_heaps s' = delete (var x w) (st_heaps (w_heaps w)).
Proof.
  intros Ha (pre & d & post & -> & E)%at_split. destruct (arena_destroy _ pre d post Ha) as (s' & Hd & Ha' & Hh & _).
  exists s', (pre ++ post). rewrite <- E. unfold destroy_heap, on_heaps. rewrite <- E, Hd, !bind_ret. cbn [fst snd].
  split_and!; [done|done| |done]. intros h. rewrite !fmap_app, fmap_cons, !elem_of_app, elem_of_cons. tauto.
Qed.

(** The end of the thread destroys the heaps of the cache, the inodes and the watches, but their variables and the
    timer stay: the next collection of the file system works on a heap that is gone. *)
Theorem vfs_end_dangles cache_dict l w g type :
  at_stage w g → setting (sg_conf g) "cache.type" = Some type → dict_free cache_dict = Ret l →
  (∀ x, x ∈ ["heap_vfs_cache"; "heap_vfs_inode"; "heap_vfs_watch"]%string → var x w ≠ 0) →
  NoDup ((λ x, var x w) <$> ["heap_vfs_cache"; "heap_vfs_inode"; "heap_vfs_watch"]%string) →
  ∃ w', thread_vfs_fini cache_dict w = Ret w' ∧ (∃ ds, arena (w_heaps w') ds) ∧ vfs_gc_w w' = Stuck BadPointer.
Proof.
  intros Hs Ht Hd Hnz Hnd. cbn in Hnd. rewrite !NoDup_cons, !not_elem_of_cons in Hnd.
  destruct Hnd as ((N1 & N2 & _) & (N3 & _) & _).
  assert (∀ x, x ∈ heap_vars → var x w ≠ 0 → var x w ∈ hd_at <$> sg_heaps g) as Hin.
  { intros x Hx Hne. by destruct (as_vars _ _ Hs x Hx). }
  assert (∀ x, bool_decide (x ∈ heap_vars) → x ∈ heap_vars) as Hvar by (intros x; apply bool_decide_unpack).
  unfold thread_vfs_fini. rewrite (conf_str_ok _ _ _ _ (as_conf _ _ Hs)), bind_ret. unfold is_tmpfs.
  rewrite (conf_str_ok _ _ _ _ (as_conf _ _ Hs)), bind_ret. unfold setting in Ht. rewrite Ht, need_Some, !bind_ret.
  match goal with |- context [if ?b then conf_str ?p ?k ?d else _] => assert (∃ r, (if b then conf_str p k d else Ret None) = Ret r) as [r ->] end.
  { destruct (strcaseeq _ _); [rewrite (conf_str_ok _ _ _ _ (as_conf _ _ Hs))|]; by eexists. }
  rewrite bind_ret, Hd, bind_ret.
  destruct (destroy_heap_ok "heap_vfs_cache" w _ (as_heaps _ _ Hs)) as (s1 & ds1 & -> & Ha1 & Hk1 & Hh1);
    [apply Hin; [by apply Hvar|apply Hnz; left]|]. rewrite bind_ret.
  destruct (destroy_heap_ok "heap_vfs_inode" (set_heaps s1 w) ds1 Ha1) as (s2 & ds2 & -> & Ha2 & Hk2 & Hh2);
    [apply Hk1; [apply Hin; [by apply Hvar|apply Hnz; right; left]|exact (not_eq_sym N1)]|]. rewrite bind_ret.
  destruct (destroy_heap_ok "heap_vfs_watch" (set_heaps s2 (set_heaps s1 w)) ds2 Ha2) as (s3 & ds3 & -> & Ha3 & _ & Hh3).
  { apply Hk2; [apply Hk1; [apply Hin; [by apply Hvar|apply Hnz; right; right; left]|exact (not_eq_sym N2)]|exact (not_eq_sym N3)]. }
  eexists. split; [done|]. split; [by exists ds3|].
  unfold vfs_gc_w, vfs_gc, collect. cbn [heap_vfs_cache fu_heaps].
  change (var "heap_vfs_cache" (set_heaps s3 _)) with (var "heap_vfs_cache" w).
  change (w_heaps (set_heaps s3 _)) with s3. unfold blockheap_garbagecollect.
  destruct (Z.eqb_spec (var "heap_vfs_cache" w) 0) as [E|_]; [by destruct (Hnz "heap_vfs_cache"%string); [left|]|].
  assert (st_heaps s3 !! var "heap_vfs_cache" w = None) as Hnone.
  { rewrite Hh3. cbn [w_heaps set_heaps]. rewrite Hh2. cbn [w_heaps set_heaps]. rewrite Hh1.
    rewrite !lookup_delete_None. right. right. by left. }
  unfold get_heap. destruct (Z.eqb_spec (var "heap_vfs_cache" w) 0); [by destruct (Hnz "heap_vfs_cache"%string); [left|]|].
  by rewrite Hnone.
Qed.
