(* ===== verification/ShellThread.v ===== *)
(** * The thread of the shell (src/shell.c)

    The thread with the heap of its hints on the state of the whole program; what it does with
    the lines is [thread_shell] (Shell.v).  [thread_entry] is in Barrier.v. *)
From S2P Require Import Prelude CStd Dict DictFacts DictSpec Conf Timestr Dlink DlinkSpec Balloc BallocFacts BallocOps BallocSpec Heaps Buf Term Linenoise LinenoiseSpec Proc ProcSpec ShellHints World Main MainSpec.
From S2P Require Shell ShellSpec.
From Stdlib Require Import Ascii.
Import Shell ShellSpec.

Local Open Scope Z_scope.

(** [h]: the answers for the heap; [opens]: can the history be written; [file]: the history file;
    [lines]: what the line editor returns. *)
Definition thread_shell_init (h : heap_answers) (mm : mem) (now : Z) (past : option keypair) (opens : bool)
    (file : option (list ascii)) (lines : list (option string)) (s : shell) (w : world)
    : outcome (shell * list (list ascii) * list ascii * world) :=
  let! w := create_heap h "heap_shell_hints" SHELL_HINT_MAX 32 "shell hints" w in
  let! r := thread_shell mm now past opens file lines (Shell.set_proc (w_proc w) s) in
  let '(s, history, file) := r in
  Ret (s, history, file, World.set_proc (sh_proc s) w).

(** [junk]: the type of the log, when it was never set. *)
Definition thread_shell_fini (opens : bool) (junk : log_type) (history : list (list ascii)) (file : list ascii) (w : world)
    : outcome (list ascii * world) :=
  let file := default file (linenoiseHistorySave opens history).2 in
  let! w := log_close junk w in
  let! r := on_heaps (blockheap_destroy (var "heap_shell_hints" w)) w in
  Ret (file, r.2).

(** ** What the thread does on a started program *)

Lemma session_proc mp dump hmax opens lines : ∀ st,
  ∃ es, sh_proc (foldl (step_session mp dump hmax opens) st lines).1.1 = emits es (sh_proc st.1.1).
Proof.
  induction lines as [|line lines IH]; intros [[s h] file]; cbn [foldl]; [exists []; by rewrite emits_nil|].
  destruct (IH (step_session mp dump hmax opens (s, h, file) line)) as [es ->].
  unfold step_session. destruct (_ =? -1); cbn [fst]; rewrite apply_effect_proc, emits_emits; by eexists.
Qed.

(** The messages of the start, and then the loop. *)
Lemma thread_shell_loop mm now past opens lines s m :
  conf_rep (sh_proc s) m → logs (sh_proc s) → 1 ≤ int_setting m "shell.history-length" 100 →
  ∃ es, thread_shell mm now past opens None lines s =
    shell_loop mm now past (int_setting m "shell.history-length" 100) opens lines
      (shell_level_set "main" (says es s)) [] [].
Proof.
  intros Hm Hl Hn. unfold thread_shell. rewrite (conf_int_ok _ _ _ _ Hm), bind_ret.
  unfold linenoiseHistorySetMaxLen. set (n := int_setting _ _ _) in *. destruct (Z.ltb_spec n 1); [lia|].
  change (blen (@nil (list ascii))) with 0. destruct (Z.ltb_spec n 0); [lia|].
  change (linenoiseHistoryLoad n None []) with (Ret (-1, @nil (list ascii))). rewrite bind_ret, log_shell_ok by done.
  rewrite bind_ret. match goal with |- context [conf_str ?p _ _] => rewrite (conf_str_ok p m _ _ Hm) end.
  rewrite bind_ret, log_shell_ok by done. rewrite bind_ret, log_shell_ok by done. rewrite bind_ret, !says_says. by eexists.
Qed.

Lemma stage_proc p es w g : at_stage w g → p = emits es (w_proc w) → at_stage (World.set_proc p w) g.
Proof. intros Hs ->. by apply stage_emits. Qed.

(** On a started program with an open pid file, without a history file: the thread adds the heap of its
    hints and ends the program when a line asks for it; otherwise it leaves the program as it was but for
    messages, with a history without repetitions that is not longer than its setting. *)
Theorem shell_thread_runs h mm now past opens lines s w g oh :
  at_stage w g → fst (sg_pid g) = true → sg_dying g = false → heap_fits h "shell hints" SHELL_HINT_MAX 32 (sg_heaps g) oh → (length (sg_heaps g) < 100)%nat →
  dict_mem mm → 1 ≤ int_setting (sg_conf g) "shell.history-length" 100 →
  if existsb quits (commands lines)
  then thread_shell_init h mm now (Some past) opens None lines s w = Halt 0
  else ∃ s' hist file w', thread_shell_init h mm now (Some past) opens None lines s w = Ret (s', hist, file, w') ∧
    at_stage w' (Stage (sg_conf g) (oh :: sg_heaps g) (sg_timers g) (sg_threads g) (sg_signals g) (sg_pid g) (sg_dying g)) ∧
    no_repeat hist ∧ blen hist ≤ int_setting (sg_conf g) "shell.history-length" 100.
Proof.
  intros Hs Hpid Halive Hf Hlen Hmm Hn. unfold thread_shell_init.
  destruct (stage_heap h "heap_shell_hints" SHELL_HINT_MAX 32 "shell hints" w g oh Hs Hf) as (w1 & -> & Hs1);
    [unfold SHELL_HINT_MAX; lia|lia|]. rewrite bind_ret.
  set (s1 := Shell.set_proc (w_proc w1) s). pose proof Hs1 as [Hc [lvl Hlvl] _ _ _ _ _ _ _ Hp Hd]. cbn [sg_conf sg_pid sg_dying] in *. rewrite Halive in Hd.
  destruct (thread_shell_loop mm now (Some past) opens lines s1 (sg_conf g) Hc (stage_logs _ _ Hs1) Hn) as [es ->].
  set (start := shell_level_set "main" (says es s1)). set (n := int_setting _ _ _) in *.
  assert (pr_pidfile (sh_proc start) = true) as Hp' by (cbn; rewrite <- Hp in Hpid; exact Hpid).
  destruct (ready_conf past (sh_proc start) (sg_conf g) lvl Hc Hlvl Hp') as (l & _ & _ & Hr).
  destruct (first_quit lines) as [[-> Hq]|(-> & pre & line & post & -> & Hline & Hq)].
  - rewrite (shell_loop_ok mm now (Some past) _ _ n opens lines start [] [] Hmm Hr Hd Hq).
    destruct (session_proc (mjoin (sg_conf g !! "path.mountpoint"%string)) ((λ e, dump_line e.1 e.2) <$> l) n opens (commands lines)
      (start, [], [])) as [es' Hes].
    assert (session_inv n opens start [] [] 0 (start, [], [])) as Hinv.
    { destruct (level_set_prompt "main" (says es s1)) as [H1 H2]. unfold start, session_inv.
      rewrite H1, H2. rewrite snprintf_short by (cbn; lia). split_and!; try done; [by left|cbn; lia|change (0 ≤ n); lia|by right]. }
    apply (session_ok (mjoin (sg_conf g !! "path.mountpoint"%string)) ((λ e, dump_line e.1 e.2) <$> l) n opens start [] []
      (commands lines)) in Hinv; [|lia].
    destruct (foldl _ _ _) as [[s' hist] file]. cbn [fst] in Hes. destruct Hinv as (_ & _ & _ & _ & _ & Hnr & Hmax & _). rewrite bind_ret.
    exists s', hist, file, (World.set_proc (sh_proc s') w1). split; [done|]. split; [|done].
    eapply stage_proc; [exact Hs1|]. rewrite Hes. cbn. by rewrite emits_emits.
  - by rewrite (shell_loop_quits mm now (Some past) _ _ n opens pre line post start [] [] Hmm Hr Hd Hq Hline).
Qed.
