(* ===== verification/Terminal.v ===== *)
(** * The terminal (src/linenoise.c, src/kilo.c)

    Raw mode, and the size of the terminal from the system or from the terminal's own
    answers.  Both editors have functions and static state of the same names: the modules
    [Line] and [Editor].  The flags are those of Linux. *)
From S2P Require Import Prelude CStd CStdFacts Term Proc.
From Stdlib Require Import Ascii.

Local Open Scope Z_scope.

(** ** The modes *)

(** [tcflag_t] is 32 bits. *)
Record termios := Termios {
  c_iflag : Z;
  c_oflag : Z;
  c_cflag : Z;
  c_lflag : Z;
  c_vmin : Z;
  c_vtime : Z
}.
Definition BRKINT : Z := 2 ^ 1.
Definition INPCK : Z := 2 ^ 4.
Definition ISTRIP : Z := 2 ^ 5.
Definition ICRNL : Z := 2 ^ 8.
Definition IXON : Z := 2 ^ 10.
Definition OPOST : Z := 1.
Definition CS8 : Z := 2 ^ 4 + 2 ^ 5.
Definition ISIG : Z := 1.
Definition ICANON : Z := 2 ^ 1.
Definition ECHO : Z := 2 ^ 3.
Definition IEXTEN : Z := 2 ^ 15.

(** The terminal: is it one, its modes, the modes to go back to, is it raw, how many handlers are
    registered for the exit, and what was written. *)
Record term_state := TermState {
  isatty : bool;
  attrs : termios;
  orig_termios : termios;
  rawmode : bool;
  exit_handlers : nat;
  written : list ascii
}.
Definition with_attrs (v : termios) (s : term_state) : term_state :=
  TermState (isatty s) v (orig_termios s) (rawmode s) (exit_handlers s) (written s).
Definition with_orig (v : termios) (s : term_state) : term_state :=
  TermState (isatty s) (attrs s) v (rawmode s) (exit_handlers s) (written s).
Definition with_raw (v : bool) (s : term_state) : term_state :=
  TermState (isatty s) (attrs s) (orig_termios s) v (exit_handlers s) (written s).
Definition with_handlers (v : nat) (s : term_state) : term_state :=
  TermState (isatty s) (attrs s) (orig_termios s) (rawmode s) v (written s).
Definition write (text : list ascii) (s : term_state) : term_state :=
  TermState (isatty s) (attrs s) (orig_termios s) (rawmode s) (exit_handlers s) (written s ++ text).

(** [x &= ~m] *)
Definition clear_bits (x m : Z) : Z := Z.land x (wrap32 (Z.lnot m)).
Definition raw_modes (vmin vtime : Z) (t : termios) : termios :=
  Termios (clear_bits (c_iflag t) (Z.lor (Z.lor (Z.lor (Z.lor BRKINT ICRNL) INPCK) ISTRIP) IXON))
    (clear_bits (c_oflag t) OPOST)
    (Z.lor (c_cflag t) CS8)
    (clear_bits (c_lflag t) (Z.lor (Z.lor (Z.lor ECHO ICANON) IEXTEN) ISIG))
    vmin vtime.

(** ** Answers of the terminal *)

(** The bytes that are read, [None] where nothing comes in time; the end of the list is the end of
    the file. *)
Definition answers := list (option ascii).

Fixpoint read_answer (n : nat) (buf : list ascii) (inp : answers) : list ascii * answers :=
  match n, inp with
  | O, _ | _, [] => (buf, inp)
  | S _, None :: inp => (buf, inp)
  | S n, Some c :: inp => if Ascii.eqb c "R" then (buf, inp) else read_answer n (buf ++ [c]) inp
  end.

(** [%d] of [sscanf]: [None] when there is no number; one that does not fit an [int] is undefined. *)
Definition scan_int (s : string) : outcome (option (Z * string)) :=
  let '(neg, s) := read_sign (skip_space s) in
  let '(v, rest, any) := read_digits 10 s 0 false in
  let v := if (neg : bool) then - v else v in
  if negb any then Ret None
  else if (- 2 ^ 31 <=? v) && (v <? 2 ^ 31) then Ret (Some (v, rest))
  else Stuck SignedOverflow.
(** [sscanf(s, "%d;%d", ...) == 2] *)
Definition scan_position (s : string) : outcome (option (Z * Z)) :=
  let! r := scan_int s in
  match r with
  | Some (rows, String sep s) =>
      if Ascii.eqb sep ";" then
        let! r := scan_int s in
        match r with Some (cols, _) => Ret (Some (rows, cols)) | None => Ret None end
      else Ret None
  | _ => Ret None
  end.

(** The text in the buffer, up to the NUL. *)
Definition buffer_text (buf : list ascii) : string :=
  let s := String.string_of_list_ascii buf in
  match str_split NUL s with Some (text, _) => text | None => s end.

Definition parse_answer (buf : list ascii) : outcome (option (Z * Z)) :=
  match buf with
  | e :: b :: text =>
      if negb (uchar e =? 27) || negb (Ascii.eqb b "[") then Ret None else scan_position (buffer_text text)
  | _ => Ret None
  end.

(** An escape sequence as a string. *)
Definition escape (text : string) : string := String (ascii_of_nat 27) text.

(** The size of the buffers of the answer and of the sequence that restores the cursor. *)
Definition SZ_ANSWER : nat := 32.

(** What both [getCursorPosition]s do; [ok]: is the whole question written. *)
Definition ask_position (ok : bool) (inp : answers) (s : term_state)
    : outcome (option (Z * Z) * answers * term_state) :=
  if negb ok then Ret (None, inp, s)
  else
    let s := write (esc "[6n") s in
    let '(buf, inp) := read_answer (SZ_ANSWER - 1) [] inp in
    let! p := parse_answer buf in
    Ret (p, inp, s).

Module Line.
(** [get], [set_]: do [tcgetattr] and [tcsetattr] succeed.  The handler for the exit is
    registered once. *)
Definition enableRawMode (get set_ : bool) (s : term_state) : Z * term_state :=
  if negb (isatty s) then (-1, s)
  else
    let s := if (exit_handlers s =? 0)%nat then with_handlers 1 s else s in
    if negb get then (-1, s)
    else
      let s := with_orig (attrs s) s in
      let raw := raw_modes 1 0 (orig_termios s) in
      if negb set_ then (-1, s) else (0, with_raw true (with_attrs raw s)).

Definition disableRawMode (set_ : bool) (s : term_state) : term_state :=
  if rawmode s && set_ then with_raw false (with_attrs (orig_termios s) s) else s.

(** The history is released too, and not reset. *)
Definition linenoiseAtExit (set_ : bool) (s : term_state) : term_state := disableRawMode set_ s.

(** The cursor's column, or -1. *)
Definition getCursorPosition (ok : bool) (inp : answers) (s : term_state) : outcome (Z * answers * term_state) :=
  let! r := ask_position ok inp s in
  let '(p, inp, s) := r in
  Ret (match p with Some (_, cols) => cols | None => -1 end, inp, s).

(** [ws]: the columns that the system knows; [ok]: do the four calls of [write] succeed. *)
Definition getColumns (ws : option Z) (ok : bool * bool * bool * bool) (inp : answers) (s : term_state)
    : outcome (Z * answers * term_state) :=
  let '(ok1, ok2, ok3, ok4) := ok in
  if match ws with Some col => col =? 0 | None => true end then
    let! r := getCursorPosition ok1 inp s in
    let '(start, inp, s) := r in
    if start =? -1 then Ret (80, inp, s)
    else if negb ok2 then Ret (80, inp, s)
    else
      let s := write (esc "[999C") s in
      let! r := getCursorPosition ok3 inp s in
      let '(cols, inp, s) := r in
      if cols =? -1 then Ret (80, inp, s)
      else if start <? cols then
        if cols - start <? 2 ^ 31 then
          let seq := snprintf SZ_ANSWER (escape ("[" ++ fmt_d (cols - start) ++ "D")) in
          Ret (cols, inp, if ok4 then write (chars_of seq) s else s)
        else Stuck SignedOverflow
      else Ret (cols, inp, s)
  else Ret (default 0 ws, inp, s).

(** [term]: the variable TERM. *)
Definition unsupported_term : list string := ["dumb"; "cons25"; "emacs"].
Definition isUnsupportedTerm (term : option string) : bool :=
  match term with
  | None => false
  | Some term => existsb (strcaseeq term) unsupported_term
  end.

(** A line for every key until the last four spell quit; [quit] are the last four. *)
Definition key_line (c : ascii) : list ascii :=
  chars_of "'" ++ [if isprint c then c else "?"%char] ++
  chars_of ("' " ++ fmt_02x (schar c) ++ " (" ++ fmt_d (schar c) ++ ") (type quit to exit)") ++ [LF; CR].
Fixpoint key_codes (quit inp : list ascii) (s : term_state) : outcome (list ascii * term_state) :=
  match inp with
  | [] => Spin
  | c :: inp =>
      let quit := drop 1 quit ++ [c] in
      if bool_decide (quit = chars_of "quit") then Ret (inp, s) else key_codes quit inp (write (key_line c) s)
  end.
Definition linenoisePrintKeyCodes (get set_ off : bool) (inp : list ascii) (s : term_state)
    : outcome (list ascii * term_state) :=
  let s := write (chars_of "Linenoise key codes debugging mode." ++ [LF] ++
                  chars_of "Press keys to see scan codes. Type 'quit' at any time to exit." ++ [LF]) s in
  let '(r, s) := enableRawMode get set_ s in
  if r =? -1 then Ret (inp, s)
  else let! r := key_codes (replicate 4 SP) inp s in Ret (r.1, disableRawMode off r.2).
End Line.

Module Editor.
(** The result of [tcsetattr] is not looked at; a handler is registered every time. *)
Definition disableRawMode (set_ : bool) (s : term_state) : term_state :=
  if rawmode s then with_raw false (if set_ then with_attrs (orig_termios s) s else s) else s.

Definition enableRawMode (get set_ : bool) (s : term_state) : Z * term_state :=
  if rawmode s then (0, s)
  else if negb (isatty s) then (-1, s)
  else
    let s := with_handlers (S (exit_handlers s)) s in
    if negb get then (-1, s)
    else
      let s := with_orig (attrs s) s in
      let raw := raw_modes 0 1 (orig_termios s) in
      if negb set_ then (-1, s) else (0, with_raw true (with_attrs raw s)).

Definition editorAtExit (set_ : bool) (filename : option string) (s : term_state) : term_state :=
  let s := disableRawMode set_ s in
  let s := write (esc "[H" ++ esc "[2J") s in
  write (chars_of ("Finished editing file " ++ fmt_s filename) ++ [LF]) s.

Definition getCursorPosition (ok : bool) (inp : answers) (s : term_state)
    : outcome (option (Z * Z) * answers * term_state) := ask_position ok inp s.

(** [ws]: the rows and columns that the system knows. *)
Definition getWindowSize (ws : option (Z * Z)) (ok : bool * bool * bool * bool) (inp : answers) (s : term_state)
    : outcome (option (Z * Z) * answers * term_state) :=
  let '(ok1, ok2, ok3, ok4) := ok in
  if match ws with Some (_, col) => col =? 0 | None => true end then
    let! r := getCursorPosition ok1 inp s in
    let '(orig, inp, s) := r in
    match orig with
    | None => Ret (None, inp, s)
    | Some (orig_row, orig_col) =>
        if negb ok2 then Ret (None, inp, s)
        else
          let s := write (esc "[999C" ++ esc "[999B") s in
          let! r := getCursorPosition ok3 inp s in
          let '(size, inp, s) := r in
          match size with
          | None => Ret (None, inp, s)
          | Some size =>
              let seq := snprintf SZ_ANSWER (escape ("[" ++ fmt_d orig_row ++ ";" ++ fmt_d orig_col ++ "H")) in
              Ret (Some size, inp, if ok4 then write (chars_of seq) s else s)
          end
    end
  else Ret (ws, inp, s).
End Editor.

(** ** Raw mode *)

Lemma clear_bits_spec x m i : 0 ≤ m < 2 ^ 32 → 0 ≤ i < 32 →
  Z.testbit (clear_bits x m) i = Z.testbit x i && negb (Z.testbit m i).
Proof.
  intros Hm Hi. unfold clear_bits, wrap32. rewrite Z.land_spec, Z.mod_pow2_bits_low, Z.lnot_spec by lia. done.
Qed.

(** A mask of 32 bits by its bits. *)
Lemma mask_bits (m : Z) (l : list Z) (i : Z) :
  forallb (λ k, Bool.eqb (Z.testbit m (Z.of_nat k)) (bool_decide (Z.of_nat k ∈ l))) (seq 0 32) = true →
  0 ≤ i < 32 → Z.testbit m i = bool_decide (i ∈ l).
Proof.
  intros Hf Hi. rewrite forallb_forall in Hf. specialize (Hf (Z.to_nat i)). rewrite Z2Nat.id in Hf by lia.
  apply Bool.eqb_prop, Hf, in_seq. lia.
Qed.

(** Entering raw mode and leaving it gives the terminal its modes back, in both editors; only the listed bits
    change.  Entering it twice is nothing in the text editor; in the line editor it loses the first modes. *)
Theorem raw_mode_restores (s : term_state) (i : Z) :
  isatty s = true → rawmode s = false → 0 ≤ i < 32 →
  (∃ s1, Line.enableRawMode true true s = (0, s1) ∧ attrs s1 = raw_modes 1 0 (attrs s) ∧
    attrs (Line.disableRawMode true s1) = attrs s ∧ rawmode (Line.disableRawMode true s1) = false ∧
    ∃ s2, Line.enableRawMode true true s1 = (0, s2) ∧ attrs (Line.disableRawMode true s2) = raw_modes 1 0 (attrs s)) ∧
  (∃ s1, Editor.enableRawMode true true s = (0, s1) ∧ attrs s1 = raw_modes 0 1 (attrs s) ∧
    attrs (Editor.disableRawMode true s1) = attrs s ∧ rawmode (Editor.disableRawMode true s1) = false ∧
    Editor.enableRawMode true true s1 = (0, s1)) ∧
  Z.testbit (c_lflag (raw_modes 1 0 (attrs s))) i = Z.testbit (c_lflag (attrs s)) i && negb (bool_decide (i ∈ [0; 1; 3; 15])) ∧
  Z.testbit (c_iflag (raw_modes 1 0 (attrs s))) i = Z.testbit (c_iflag (attrs s)) i && negb (bool_decide (i ∈ [1; 4; 5; 8; 10])) ∧
  Z.testbit (c_oflag (raw_modes 1 0 (attrs s))) i = Z.testbit (c_oflag (attrs s)) i && negb (bool_decide (i ∈ [0])) ∧
  Z.testbit (c_cflag (raw_modes 1 0 (attrs s))) i = Z.testbit (c_cflag (attrs s)) i || bool_decide (i ∈ [4; 5]).
Proof.
  intros Ht Hr Hi. destruct s as [tty attrs0 orig raw hs out]. cbn in Ht, Hr. subst. split_and!.
  - destruct hs as [|hs]; cbn; eexists; split_and!; try done; cbn; eexists; by split.
  - by eexists.
  - cbn [c_lflag raw_modes]. rewrite clear_bits_spec by done. f_equal. f_equal. apply mask_bits; [by vm_compute|done].
  - cbn [c_iflag raw_modes]. rewrite clear_bits_spec by done. f_equal. f_equal. apply mask_bits; [by vm_compute|done].
  - cbn [c_oflag raw_modes]. rewrite clear_bits_spec by done. f_equal. f_equal. apply mask_bits; [by vm_compute|done].
  - cbn [c_cflag raw_modes]. rewrite Z.lor_spec. f_equal. apply mask_bits; [by vm_compute|done].
Qed.

(** ** The answers are read back *)

Lemma write_write a b s : write b (write a s) = write (a ++ b) s.
Proof. unfold write. cbn. by rewrite app_assoc. Qed.

Lemma write_nil s : write [] s = s.
Proof. destruct s. unfold write. cbn. by rewrite app_nil_r. Qed.

Lemma snprintf_whole n text : (String.length text < n)%nat → snprintf n text = text.
Proof. intros H. unfold snprintf. apply take_all_str. lia. Qed.

Lemma scan_int_fmt_d n r : 0 ≤ n < 2 ^ 31 → stops10 r = true → scan_int (fmt_d n ++ r) = Ret (Some (n, r)).
Proof.
  intros Hn Hr. unfold scan_int, fmt_d. destruct (Z.ltb_spec n 0); [lia|].
  destruct (fmt_u_ok n ltac:(lia)) as (Hd & Ha & (c & ds & E & _) & _).
  assert (isdigit c = true) as Hc by (rewrite E in Ha; cbn in Ha; by apply andb_true_iff in Ha as [? _]).
  destruct (isdigit_props c Hc) as (Hsp & Hm & Hp & _).
  assert (skip_space (fmt_u n ++ r) = (fmt_u n ++ r)%string) as ->.
  { rewrite E. str. cbn [skip_space]. by rewrite Hsp. }
  assert (read_sign (fmt_u n ++ r) = (false, (fmt_u n ++ r)%string)) as ->.
  { rewrite E. str. cbn [read_sign]. by rewrite Hm, Hp. }
  rewrite Hd, (read_stop r), Z.mul_0_l, Z.add_0_l by done. cbn [negb].
  destruct (Z.leb_spec (- 2 ^ 31) n), (Z.ltb_spec n (2 ^ 31)); try lia. done.
Qed.

Lemma read_answer_text n text buf inp : Forall (λ c, Ascii.eqb c "R" = false) text → (length text < n)%nat →
  read_answer n buf ((Some <$> text) ++ Some "R"%char :: inp) = (buf ++ text, inp).
Proof.
  revert n buf. induction text as [|c text IH]; intros n buf Hf Hn; (destruct n as [|n]; [cbn in Hn; lia|]); cbn.
  - by rewrite app_nil_r.
  - apply Forall_cons in Hf as [-> Hf]. rewrite IH by (done || (cbn in Hn; lia)). by rewrite <- app_assoc.
Qed.

Lemma chars_length s : length (chars_of s) = String.length s.
Proof. unfold chars_of. induction s as [|c s IH]; cbn; congruence. Qed.

Lemma chars_forall (P : ascii → bool) (Q : ascii → Prop) s :
  (∀ c, P c = true → Q c) → str_all P s = true → Forall Q (chars_of s).
Proof.
  intros HPQ. induction s as [|c s IH]; intros Hs; [constructor|]. cbn in Hs. apply andb_true_iff in Hs as [Hc Hs].
  constructor; [by apply HPQ|by apply IH].
Qed.

(** The characters of an answer. *)
Definition answer_char (c : ascii) : bool := decchar c || Ascii.eqb c ";" || Ascii.eqb c "[".
Lemma answer_chars rows cols : str_all answer_char ("[" ++ fmt_d rows ++ ";" ++ fmt_d cols) = true.
Proof.
  rewrite !str_all_app. cbn [str_all]. change (answer_char "[") with true. change (answer_char ";") with true. cbn [andb].
  rewrite !(str_all_impl decchar answer_char); [done|..]; try apply fmt_d_chars;
    intros c Hc; unfold answer_char; by rewrite Hc.
Qed.
Lemma answer_char_other c : answer_char c = true → Ascii.eqb c "R" = false ∧ Ascii.eqb c NUL = false.
Proof. by destruct c as [[] [] [] [] [] [] [] []]. Qed.

(** The answer for a position. *)
Definition position_answer (rows cols : Z) : answers :=
  (Some <$> esc ("[" ++ fmt_d rows ++ ";" ++ fmt_d cols)) ++ [Some "R"%char].

Lemma scan_position_ok rows cols : 0 ≤ rows < 2 ^ 31 → 0 ≤ cols < 2 ^ 31 →
  scan_position (fmt_d rows ++ ";" ++ fmt_d cols) = Ret (Some (rows, cols)).
Proof.
  intros Hr Hc. unfold scan_position. rewrite scan_int_fmt_d by done. rewrite bind_ret.
  change (";" ++ fmt_d cols)%string with (String ";" (fmt_d cols)). change (Ascii.eqb ";" ";") with true. cbn iota.
  rewrite <- (app_nil_str (fmt_d cols)). by rewrite scan_int_fmt_d, bind_ret.
Qed.

Lemma parse_answer_ok rows cols : 0 ≤ rows < 2 ^ 31 → 0 ≤ cols < 2 ^ 31 →
  parse_answer (esc ("[" ++ fmt_d rows ++ ";" ++ fmt_d cols)) = Ret (Some (rows, cols)).
Proof.
  intros Hr Hc. unfold parse_answer.
  change (esc ("[" ++ fmt_d rows ++ ";" ++ fmt_d cols))
    with (ascii_of_nat 27 :: "["%char :: chars_of (fmt_d rows ++ ";" ++ fmt_d cols)).
  change (uchar (ascii_of_nat 27) =? 27) with true. change (Ascii.eqb "[" "[") with true. cbn [negb orb].
  unfold buffer_text, chars_of. rewrite String.string_of_list_ascii_of_string, str_split_none; [by apply scan_position_ok|].
  pose proof (answer_chars rows cols) as Ha. rewrite str_all_app in Ha. apply andb_true_iff in Ha as [_ Ha].
  eapply str_all_impl; [|exact Ha]. intros c Hx. apply answer_char_other in Hx as [_ ->]. done.
Qed.

Lemma answer_length rows cols : 0 ≤ rows < 2 ^ 31 → 0 ≤ cols < 2 ^ 31 →
  (length (esc ("[" ++ fmt_d rows ++ ";" ++ fmt_d cols)) < SZ_ANSWER - 1)%nat.
Proof.
  intros Hr Hc. pose proof (fmt_d_length rows 10 ltac:(lia) ltac:(lia)). pose proof (fmt_d_length cols 10 ltac:(lia) ltac:(lia)).
  unfold esc, SZ_ANSWER, chars_of. cbn [length]. rewrite chars_length, !length_app_str. cbn [String.length]. lia.
Qed.

Lemma ask_position_ok rows cols inp s : 0 ≤ rows < 2 ^ 31 → 0 ≤ cols < 2 ^ 31 →
  ask_position true (position_answer rows cols ++ inp) s = Ret (Some (rows, cols), inp, write (esc "[6n") s).
Proof.
  intros Hr Hc. unfold ask_position, position_answer. cbn [negb]. rewrite <- app_assoc. cbn [app].
  rewrite read_answer_text; [|apply Forall_cons; split; [done|]|by apply answer_length].
  - cbn [app]. by rewrite parse_answer_ok.
  - eapply chars_forall; [|apply answer_chars]. intros c Hx. by apply answer_char_other.
Qed.

(** A terminal that answers the questions for its position with positive numbers is understood by both
    editors: the line editor gets its columns and goes back by as many as it went; the text editor gets
    its size and goes back to where the cursor was.  No sequence is cut.  Without an answer the
    line editor takes 80 columns and the text editor fails. *)
Theorem size_is_read (r1 c1 r2 c2 : Z) (rest : answers) (s : term_state) :
  0 ≤ r1 < 2 ^ 31 → 0 ≤ c1 < 2 ^ 31 → 0 ≤ r2 < 2 ^ 31 → 0 ≤ c2 < 2 ^ 31 →
  Line.getColumns None (true, true, true, true) (position_answer r1 c1 ++ position_answer r2 c2 ++ rest) s =
    Ret (c2, rest, write (esc "[6n" ++ esc "[999C" ++ esc "[6n" ++
      (if c1 <? c2 then esc ("[" ++ fmt_d (c2 - c1) ++ "D") else [])) s) ∧
  Editor.getWindowSize None (true, true, true, true) (position_answer r1 c1 ++ position_answer r2 c2 ++ rest) s =
    Ret (Some (r2, c2), rest, write (esc "[6n" ++ (esc "[999C" ++ esc "[999B") ++ esc "[6n" ++
      esc ("[" ++ fmt_d r1 ++ ";" ++ fmt_d c1 ++ "H")) s) ∧
  Line.getColumns None (true, true, true, true) [] s = Ret (80, [], write (esc "[6n") s) ∧
  Editor.getWindowSize None (true, true, true, true) [] s = Ret (None, [], write (esc "[6n") s).
Proof.
  intros Hr1 Hc1 Hr2 Hc2. split_and!; [| |done|done].
  - unfold Line.getColumns, Line.getCursorPosition. rewrite ask_position_ok by done. cbn [obind negb].
    destruct (Z.eqb_spec c1 (-1)); [lia|]. rewrite ask_position_ok by done. cbn [obind].
    destruct (Z.eqb_spec c2 (-1)); [lia|]. destruct (Z.ltb_spec c1 c2).
    + destruct (Z.ltb_spec (c2 - c1) (2 ^ 31)); [|lia]. rewrite snprintf_whole; [by rewrite !write_write|].
      pose proof (fmt_d_length (c2 - c1) 10 ltac:(lia) ltac:(lia)). unfold escape, SZ_ANSWER. cbn [String.length].
      rewrite !length_app_str. cbn [String.length]. lia.
    + by rewrite !write_write, app_nil_r.
  - unfold Editor.getWindowSize, Editor.getCursorPosition. rewrite ask_position_ok by done. cbn [obind negb].
    rewrite ask_position_ok by done. cbn [obind]. rewrite snprintf_whole; [by rewrite !write_write|].
    pose proof (fmt_d_length r1 10 ltac:(lia) ltac:(lia)). pose proof (fmt_d_length c1 10 ltac:(lia) ltac:(lia)).
    unfold escape, SZ_ANSWER. cbn [String.length]. rewrite !length_app_str. cbn [String.length]. lia.
Qed.

(** ** Key codes *)

(** The last four keys behind [m] of the keys [pre]. *)
Definition window (quit pre : list ascii) (m : nat) : list ascii := take 4 (drop m (quit ++ pre)).

Lemma window_S q quit c pre m : length quit = 3%nat →
  window (q :: quit) (c :: pre) (S m) = window (quit ++ [c]) pre m.
Proof. intros Hq. unfold window. cbn [app drop]. by rewrite <- app_assoc. Qed.

Lemma key_codes_step q quit c inp s : length quit = 3%nat →
  Line.key_codes (q :: quit) (c :: inp) s =
    if bool_decide (window (q :: quit) (c :: inp) 1 = chars_of "quit") then Ret (inp, s)
    else Line.key_codes (quit ++ [c]) inp (write (Line.key_line c) s).
Proof.
  intros Hq. rewrite window_S by done. unfold window. rewrite drop_0, take_app_length' by (rewrite length_app; cbn; lia). done.
Qed.

Lemma window_first q quit c inp inp' : length quit = 3%nat →
  window (q :: quit) (c :: inp) 1 = window (q :: quit) (c :: inp') 1.
Proof.
  intros Hq. rewrite !window_S by done. unfold window. rewrite !drop_0.
  by rewrite !take_app_length' by (rewrite length_app; cbn; lia).
Qed.

(** The display of key codes ends behind the first quit in the keys, with a line for every key before its
    last one; without a quit it never ends. *)
Theorem key_codes_end (pre rest : list ascii) (c : ascii) : ∀ (quit : list ascii) (s : term_state),
  length quit = 4%nat → (∀ m, (0 < m ≤ length pre)%nat → window quit pre m ≠ chars_of "quit") →
  (window quit (pre ++ [c]) (S (length pre)) = chars_of "quit" →
    Line.key_codes quit (pre ++ c :: rest) s = Ret (rest, write (mjoin (Line.key_line <$> pre)) s)) ∧
  Line.key_codes quit pre s = Spin.
Proof.
  induction pre as [|d pre IH]; intros quit s Hq Hpre; (destruct quit as [|q quit]; [done|]); injection Hq as Hq.
  - split; [|done]. intros Hw. cbn [app length] in *. rewrite key_codes_step by done.
    rewrite (window_first q quit c rest []), Hw, bool_decide_eq_true_2 by done. cbn. by rewrite write_nil.
  - destruct (IH (quit ++ [d]) (write (Line.key_line d) s)) as [IH1 IH2].
    { rewrite length_app. cbn. lia. }
    { intros m Hm. rewrite <- (window_S q) by done. apply Hpre. cbn. lia. }
    assert (∀ inp, window (q :: quit) (d :: inp) 1 ≠ chars_of "quit") as Hd.
    { intros inp. rewrite (window_first q quit d inp pre) by done. apply Hpre. cbn. lia. }
    split.
    + intros Hw. cbn [app]. rewrite key_codes_step by done. rewrite bool_decide_eq_false_2 by done.
      rewrite IH1; [cbn; by rewrite write_write|]. rewrite <- (window_S q) by done. exact Hw.
    + rewrite key_codes_step by done. by rewrite bool_decide_eq_false_2.
Qed.
