(* ===== verification/LoopSpec.v ===== *)
(** * The event loop keeps the program running

    From a started program, whatever timers are due and signals arrive: no step of the
    loop gets stuck, the objects in use of all heaps stay, and the program ends exactly at the
    first signal that says goodbye, or when the loop of libev returns to a dying program. *)
From S2P Require Import Prelude CStd Store Dict Conf Timestr Dlink DlinkSpec Balloc BallocFacts BallocOps BallocSpec Heaps Proc ProcSpec Pkg PkgSpec ShellHints Fuse Threads Api World Main MainSpec.

Local Open Scope Z_scope.

(** ** The heaps during a collection *)
Definition with_sg_heaps (ds : list hdesc) (g : stage) : stage :=
  Stage (sg_conf g) ds (sg_timers g) (sg_threads g) (sg_signals g) (sg_pid g) (sg_dying g).

(** The program goes on as before, with the same objects in use and their contents; only
    unused blocks of the heaps may be gone. *)
Definition settles (w : world) (g : stage) (w' : world) : Prop :=
  ∃ ds, at_stage w' (with_sg_heaps ds g) ∧ hd_at <$> ds = hd_at <$> sg_heaps g ∧
    objs ds = objs (sg_heaps g) ∧ st_bytes (w_heaps w') = st_bytes (w_heaps w).

Lemma settles_refl w g : at_stage w g → settles w g w.
Proof. intros Hs. exists (sg_heaps g). by destruct g. Qed.

(** A part of the program that returns [k w'], its state [w'] settled. *)
Definition returns {A} (k : world → A) (m : outcome A) (w : world) (g : stage) : Prop :=
  ∃ w', m = Ret (k w') ∧ settles w g w'.

Lemma returns_bind {A B} (k : world → A) (k' : world → B) m f w g :
  returns k m w g →
  (∀ w1 g1, at_stage w1 g1 → sg_conf g1 = sg_conf g → returns k' (f (k w1)) w1 g1) →
  returns k' (let! x := m in f x) w g.
Proof.
  intros (w1 & -> & ds & Hs & Ha & Ho & Hb) Hf. rewrite bind_ret.
  destruct (Hf w1 _ Hs eq_refl) as (w2 & -> & ds' & Hs' & Ha' & Ho' & Hb'). exists w2. split; [done|].
  exists ds'. split; [exact Hs'|]. split; [by rewrite Ha', <- Ha|]. split; [by rewrite Ho', <- Ho|congruence].
Qed.

Lemma returns_ret {A} (k : world → A) w g : at_stage w g → returns k (Ret (k w)) w g.
Proof. intros Hs. exists w. split; [done|by apply settles_refl]. Qed.

(** Only the heaps matter. *)
Lemma settles_heaps w g w' : at_stage w g → settles w g w' → settles w g (set_heaps (w_heaps w') w).
Proof.
  intros Hs (ds & Hs' & Ha & Ho & Hb). exists ds. split; [|done].
  pose proof (as_heaps _ _ Hs') as Har. destruct Hs. split; try done.
  intros y Hy. cbn [with_sg_heaps sg_heaps]. rewrite Ha. by apply as_vars.
Qed.

(** Collecting the heap of a variable, or nothing when the variable is NULL. *)
Lemma var_collects x w g :
  at_stage w g → x ∈ heap_vars →
  ∃ r s', blockheap_garbagecollect (var x w) (w_heaps w) = Ret (r, s') ∧ settles w g (set_heaps s' w).
Proof.
  intros Hs Hx. destruct (as_vars _ _ Hs x Hx) as [->|(pre & d & post & E & <-)%at_split].
  { exists 1, (w_heaps w). split; [done|]. destruct w. by apply settles_refl. }
  pose proof (as_heaps _ _ Hs) as Ha. rewrite E in Ha.
  destruct (arena_gc _ pre d post Ha) as (s' & d' & -> & Ha' & Hc & Hb & _).
  exists 0, s'. split; [done|]. exists (pre ++ d' :: post).
  assert (hd_at <$> pre ++ d' :: post = hd_at <$> sg_heaps g) as Eat.
  { rewrite E, !fmap_app. cbn. by rewrite (proj1 Hc). }
  split; [|split; [done|split; [|exact Hb]]].
  - destruct Hs. split; try done. intros y Hy. cbn [with_sg_heaps sg_heaps]. rewrite Eat. by apply as_vars.
  - rewrite E, !objs_app, !objs_cons, (collected_live _ _ Hc). by rewrite (proj1 Hc).
Qed.

Ltac heap_var := apply (bool_decide_unpack _); vm_compute; exact I.

Lemma collect_heap_returns x w g : at_stage w g → x ∈ heap_vars → returns id (collect_heap x w) w g.
Proof.
  intros Hs Hx. destruct (var_collects x w g Hs Hx) as (r & s' & Hgc & Hse).
  unfold collect_heap, on_heaps. rewrite Hgc, !bind_ret. by eexists.
Qed.

Lemma api_gc_returns w g : at_stage w g → returns (pair 0) (api_gc_w w) w g.
Proof.
  intros Hs. destruct (var_collects "heap_api_msg" w g Hs) as (r & s' & Hgc & Hse); [heap_var|].
  unfold api_gc_w, api_gc. cbn [heap_api_msg ap_heaps]. rewrite Hgc, !bind_ret. by eexists.
Qed.

Lemma shell_gc_returns w g : at_stage w g → returns (pair 0) (on_heaps (shell_gc (var "heap_shell_hints" w)) w) w g.
Proof.
  intros Hs. destruct (var_collects "heap_shell_hints" w g Hs) as (r & s' & Hgc & Hse); [heap_var|].
  unfold on_heaps, shell_gc. rewrite Hgc, !bind_ret. by eexists.
Qed.

(** The packages whose time is over are released; nothing else of the state changes. *)
Lemma pkgs_returns now w g : at_stage w g → returns (pair 0) (on_pkgs (pkg_gc now (w_lifetime w)) w) w g.
Proof.
  intros Hs. destruct (as_pkgs _ _ Hs) as (cs & Hr & Ho). pose proof (as_life _ _ Hs) as Hl.
  destruct (collect_ok now (w_lifetime w) _ cs Hr) as (k & Hgc & Hr' & [Hp _ _ _ _] & _).
  { eapply Forall_impl; [exact Ho|]. intros c Hc. unfold in_range, mild in *. lia. }
  unfold on_pkgs. rewrite Hgc, bind_ret. cbn [fst snd]. rewrite Hp. eexists. split; [done|].
  exists (sg_heaps g). split; [|done].
  assert (pkgs_ok (set_proc (w_proc w) (set_pkgs k w))) as Hk.
  { exists (collected now (w_lifetime w) cs). split.
    - apply rep_proc; [exact Hr'|exact (stage_logs _ _ Hs)].
    - rewrite Forall_forall in Ho |- *. intros c [_ Hc]%list_elem_of_filter. by apply Ho. }
  change (k_proc (with_proc (w_proc w) (w_pkgs w))) with (w_proc w). destruct Hs. by split.
Qed.

Lemma pkg_gc_returns now w g : at_stage w g → returns (pair 0) (pkg_gc_w now w) w g.
Proof.
  intros Hs. unfold pkg_gc_w. eapply returns_bind; [by apply pkgs_returns|]. intros w1 g1 Hs1 _. cbn [fst snd].
  eapply returns_bind; [apply collect_heap_returns; [done|heap_var]|]. intros w2 g2 Hs2 _.
  eapply returns_bind; [apply collect_heap_returns; [done|heap_var]|]. intros w3 g3 Hs3 _. by apply returns_ret.
Qed.

(** The heaps of the file system, on the part of the state that it has. *)
Definition as_fuse (w : world) : fuse :=
  Fuse.Fuse (w_proc w) (w_heaps w) (var "heap_vfs_cache" w) (var "heap_vfs_handle" w)
            (var "heap_vfs_inode" w) (var "heap_vfs_watch" w) [].

Lemma fuse_collects x heap w g : at_stage w g → x ∈ heap_vars → heap (as_fuse w) = var x w →
  returns as_fuse (collect heap (as_fuse w)) w g.
Proof.
  intros Hs Hx E. destruct (var_collects x w g Hs Hx) as (r & s' & Hgc & Hse).
  unfold collect. rewrite E. change (fu_heaps (as_fuse w)) with (w_heaps w). rewrite Hgc, bind_ret.
  by exists (set_heaps s' w).
Qed.

Lemma vfs_gc_returns w g : at_stage w g → returns (pair 0) (vfs_gc_w w) w g.
Proof.
  intros Hs.
  assert (returns (λ w, (0, as_fuse w)) (vfs_gc (as_fuse w)) w g) as (w' & Hgc & Hse).
  { unfold vfs_gc.
    eapply returns_bind; [apply (fuse_collects "heap_vfs_cache"); [done|heap_var|done]|]. intros w1 g1 Hs1 _.
    eapply returns_bind; [apply (fuse_collects "heap_vfs_handle"); [done|heap_var|done]|]. intros w2 g2 Hs2 _.
    eapply returns_bind; [apply (fuse_collects "heap_vfs_inode"); [done|heap_var|done]|]. intros w3 g3 Hs3 _.
    eapply returns_bind; [apply (fuse_collects "heap_vfs_watch"); [done|heap_var|done]|]. intros w4 g4 Hs4 _.
    by apply (returns_ret (λ w, (0, as_fuse w))). }
  unfold vfs_gc_w. fold (as_fuse w). rewrite Hgc, bind_ret. cbn [fst snd].
  eexists. split; [done|]. exact (settles_heaps _ _ _ Hs Hse).
Qed.

(** All heaps and all packages. *)
Lemma gc_all_returns now w g : at_stage w g → returns (pair 0) (gc_all now w) w g.
Proof.
  intros Hs. unfold gc_all.
  eapply returns_bind; [by apply api_gc_returns|]. intros w1 g1 Hs1 _. cbn [fst snd].
  eapply returns_bind; [by apply shell_gc_returns|]. intros w2 g2 Hs2 _. cbn [fst snd].
  eapply returns_bind; [by apply pkg_gc_returns|]. intros w3 g3 Hs3 _. cbn [fst snd].
  eapply returns_bind; [by apply vfs_gc_returns|]. intros w4 g4 Hs4 _. cbn [fst snd].
  eapply returns_bind; [apply collect_heap_returns; [done|heap_var]|]. intros w5 g5 Hs5 _. by apply (returns_ret (pair 0)).
Qed.

(** ** The events *)

(** The period of the collection that the timer [cron_tick] runs. *)
Definition gc_period (m : smap) : Prop :=
  ∃ t, timestr_to_time (setting m "tuning.timer.global_gc") 60 = Ret t ∧ t ≠ 0.

Lemma tick_returns time w g : at_stage w g → gc_period (sg_conf g) → returns id (cron_tick time w) w g.
Proof.
  intros Hs (t & Ht & Hnz). unfold cron_tick. set (w0 := set_clock _ _ w).
  assert (at_stage w0 g) as Hs0 by (destruct Hs; by split).
  assert (∀ k : world → world, ∀ m, returns k m w0 g → returns k m w g) as Hfrom by done.
  rewrite (conf_period_ok _ _ _ (as_conf _ _ Hs0)), Ht, bind_ret. destruct (Z.eqb_spec t 0); [done|].
  apply Hfrom. clear Hfrom. clearbody w0. destruct (_ =? 1); [|by apply (returns_ret id)].
  eapply returns_bind; [by apply gc_all_returns|]. intros w1 g1 Hs1 _. by apply (returns_ret id).
Qed.

Lemma timer_returns c time w g : at_stage w g → gc_period (sg_conf g) → returns id (run_event (LoopTimer c time) w) w g.
Proof.
  intros Hs Hp. destruct c; cbn [run_event]; [|by apply tick_returns|..];
    (eapply returns_bind; [first [by apply gc_all_returns|by apply pkg_gc_returns|by apply vfs_gc_returns]|]);
    intros w1 g1 Hs1 _; by apply (returns_ret id).
Qed.

(** The status with which an event ends the program: TERM and KILL say goodbye in the handler, a
    signal without a handler has its default action, and the flag is read when [ev_loop] returns. *)
Definition ends (g : stage) (e : loop_event) : option Z :=
  match e with
  | LoopTimer _ _ => None
  | LoopSignal sig =>
      match sg_signals g !! sig with
      | Some _ => if says_goodbye sig then Some 0 else None
      | None => if bool_decide (sig ∈ harmless) then None else Some (128 + sig)
      end
  | LoopReturns => if sg_dying g then Some 0 else None
  end.

Definition with_sg_dying (b : bool) (g : stage) : stage :=
  Stage (sg_conf g) (sg_heaps g) (sg_timers g) (sg_threads g) (sg_signals g) (sg_pid g) b.

(** What an event that does not end the program changes of it. *)
Definition after (e : loop_event) (g : stage) : stage :=
  match e with
  | LoopSignal sig =>
      match sg_signals g !! sig with
      | Some flags =>
          with_sg_dying (sg_dying g || dies sig) (if Z.testbit flags 31 then with_sg_signals (delete sig (sg_signals g)) g else g)
      | None => g
      end
  | _ => g
  end.
Fixpoint ended (g : stage) (l : list loop_event) : option Z :=
  match l with
  | [] => None
  | e :: l => match ends g e with Some status => Some status | None => ended (after e g) l end
  end.

(** Without a return of [ev_loop] the flag does not matter. *)
Lemma after_dying e b g : ∃ b', after e (with_sg_dying b g) = with_sg_dying b' (after e g).
Proof.
  destruct e as [c time|sig|]; cbn [after]; [by exists b| |by exists b]. cbn [with_sg_dying sg_signals].
  destruct (_ !! sig) as [flags|]; [|by exists b]. exists (b || dies sig). by destruct (Z.testbit flags 31).
Qed.
Lemma ended_flag l : LoopReturns ∉ l → ∀ b g, ended (with_sg_dying b g) l = ended g l.
Proof.
  induction l as [|e l IH]; intros Hl b g; [done|]. apply not_elem_of_cons in Hl as [He Hl]. cbn [ended].
  assert (ends (with_sg_dying b g) e = ends g e) as -> by by destruct e.
  destruct (after_dying e b g) as [b' ->]. destruct (ends g e); [done|]. by apply IH.
Qed.

(** The events of a handler that does not say goodbye contain no release of the pid file. *)
Lemma handler_dies sig p : logs p → dies sig = true →
  ∃ es, handle_signal sig p = Ret (false, set_dying (emits es p)) ∧ ∀ path, EvUnlink path ∉ es.
Proof.
  intros Hl Hs. unfold handle_signal. rewrite Log_ok, bind_ret by done. unfold dies in Hs.
  destruct (Z.eqb_spec sig SIGQUIT) as [->|].
  - eexists [_]. split; [reflexivity|]. intros path [H|H%elem_of_nil]%elem_of_cons; [discriminate H|done].
  - cbn [orb] in Hs. apply Z.eqb_eq in Hs as ->. eexists ([_] ++ [_]). split; [rewrite <- emits_emits; reflexivity|].
    intros path [H|[H|H%elem_of_nil]%elem_of_cons]%elem_of_cons; [discriminate H..|done].
Qed.

Lemma handler_goes_on sig p : logs p → says_goodbye sig = false → dies sig = false →
  ∃ es, handle_signal sig p = Ret (false, emits es p).
Proof.
  intros Hl Hg Hd. unfold handle_signal. rewrite Log_ok, bind_ret by done. unfold says_goodbye, dies in *.
  apply orb_false_iff in Hg as [Ht Hk], Hd as [Hq Hs]. rewrite Ht, Hk, Hq, Hs. cbn [orb].
  destruct (sig =? SIGHUP); [|destruct (sig =? SIGCHLD)].
  - unfold conf_reload. rewrite Log_ok, !bind_ret by done. rewrite !emit_emits, !emits_emits. by eexists.
  - rewrite !emit_emits, !emits_emits. by eexists.
  - rewrite !emit_emits. by eexists.
Qed.

Lemma handler_settles sig w g : at_stage w g → says_goodbye sig = false →
  ∃ es, raise_w sig w = Ret (set_proc ((if dies sig then set_dying else id) (emits es (w_proc w))) w) ∧
    (dies sig = true → ∀ path, EvUnlink path ∉ es).
Proof.
  intros Hs Hg. unfold raise_w. destruct (dies sig) eqn:Hd.
  - destruct (handler_dies sig _ (stage_logs _ _ Hs) Hd) as (es & -> & Hno). rewrite bind_ret. by exists es.
  - destruct (handler_goes_on sig _ (stage_logs _ _ Hs) Hg Hd) as [es ->]. rewrite bind_ret. by exists es.
Qed.

Lemma stage_dying w g : at_stage w g → at_stage (set_proc (set_dying (w_proc w)) w) (with_sg_dying true g).
Proof. intros Hs. pose proof (stage_logs _ _ Hs) as Hl. destruct Hs. split; try done. by apply pkgs_proc. Qed.

Lemma handled sig w g : at_stage w g → says_goodbye sig = false →
  ∃ w', raise_w sig w = Ret w' ∧ at_stage w' (with_sg_dying (sg_dying g || dies sig) g) ∧ w_heaps w' = w_heaps w.
Proof.
  intros Hs He. destruct (handler_settles sig w g Hs He) as (es & -> & _). eexists. split; [done|]. split; [|done].
  destruct (dies sig); [rewrite orb_true_r|rewrite orb_false_r].
  - exact (stage_dying _ _ (stage_emits es _ _ Hs)).
  - destruct g. exact (stage_emits es _ _ Hs).
Qed.

(** An event that does not end the program. *)
Lemma event_goes_on e w g : at_stage w g → gc_period (sg_conf g) → ends g e = None →
  ∃ w', run_event e w = Ret w' ∧ settles w (after e g) w'.
Proof.
  intros Hs Hp He. destruct e as [c time|sig|]; cbn [ends run_event after] in *; [by apply timer_returns| |].
  - unfold deliver. rewrite (as_signals _ _ Hs). destruct (sg_signals g !! sig) as [flags|].
    + destruct (says_goodbye sig) eqn:Hg; [done|].
      destruct (Z.testbit flags 31).
      * destruct (handled sig _ _ (stage_signals (delete sig (sg_signals g)) _ _ Hs) Hg) as (w' & -> & Hs' & Hh).
        exists w'. split; [done|]. exists (sg_heaps g). by rewrite Hh.
      * destruct (handled sig _ _ Hs Hg) as (w' & -> & Hs' & Hh). exists w'. split; [done|]. exists (sg_heaps g). by rewrite Hh.
    + destruct (bool_decide _); [|done]. exists w. split; [done|]. by apply settles_refl.
  - exists w. split; [done|]. by apply settles_refl.
Qed.

Lemma loop_step e l w g : at_stage w g → fst (sg_pid g) = true →
  loop_rounds (e :: l) w = match ends g e with Some status => Halt status | None => let! w := run_event e w in loop_rounds l w end.
Proof.
  intros Hs Hp. destruct e as [c time|sig|]; cbn [loop_rounds ends run_event]; [done| |].
  - unfold deliver. rewrite (as_signals _ _ Hs). destruct (sg_signals g !! sig) as [flags|].
    + destruct (says_goodbye sig) eqn:Eg; [|done].
      destruct (Z.testbit flags 31); [|by rewrite (raise_goodbye _ _ _ Hs Hp Eg)].
      by rewrite (raise_goodbye _ _ _ (stage_signals _ _ _ Hs) Hp Eg).
    + by destruct (bool_decide _).
  - rewrite (as_dying _ _ Hs). by destruct (sg_dying g).
Qed.

(** The heaps do not matter for the events, which leave the configuration and the pid file. *)
Lemma after_frame e g : sg_conf (after e g) = sg_conf g ∧ sg_heaps (after e g) = sg_heaps g ∧ sg_pid (after e g) = sg_pid g.
Proof. destruct e as [c time|sig|]; [done| |done]. cbn [after]. destruct (_ !! sig) as [flags|]; [by destruct (Z.testbit flags 31)|done]. Qed.
Lemma after_heaps e ds g : after e (with_sg_heaps ds g) = with_sg_heaps ds (after e g).
Proof.
  destruct e as [c time|sig|]; [done| |done]. cbn [after]. cbn [with_sg_heaps sg_signals].
  destruct (_ !! sig) as [flags|]; [by destruct (Z.testbit flags 31)|done].
Qed.
Lemma ended_heaps l : ∀ ds g, ended (with_sg_heaps ds g) l = ended g l.
Proof.
  induction l as [|e l IH]; intros ds g; [done|]. cbn [ended]. rewrite after_heaps, IH.
  assert (ends (with_sg_heaps ds g) e = ends g e) as -> by by destruct e. done.
Qed.
Lemma foldl_heaps l : ∀ ds ds' g, with_sg_heaps ds' (foldl (flip after) (with_sg_heaps ds g) l) = with_sg_heaps ds' (foldl (flip after) g l).
Proof.
  induction l as [|e l IH]; intros ds ds' g; [done|]. cbn [foldl]. unfold flip at 2 4. by rewrite after_heaps, IH.
Qed.


(** Events of a run that goes on, although a signal to quit arrives, and of one that ends. *)
Definition ex_quiet : list loop_event :=
  [LoopTimer CbGcAll 100; LoopSignal SIGQUIT; LoopTimer CbTick 61; LoopTimer CbPkgGc 70; LoopTimer CbVfsGc 80].
Definition ex_quits : list loop_event := [LoopTimer CbTick 121; LoopSignal SIGQUIT; LoopTimer CbTick 122; LoopReturns].

Lemma ex_runs g flags : sg_signals g !! SIGQUIT = Some flags →
  ended g ex_quiet = None ∧ ended g ex_quits = Some 0 ∧ sg_dying (foldl (flip after) g ex_quiet) = true.
Proof.
  intros Hf. unfold ex_quiet, ex_quits, flip. cbn [foldl ended ends after]. rewrite Hf.
  change (says_goodbye SIGQUIT) with false. change (dies SIGQUIT) with true. cbn [with_sg_dying sg_dying]. by rewrite orb_true_r.
Qed.

