(* ===== verification/Services.v ===== *)
(** * Waiting threads, libfuse and the restart (src/database.c, vfs.c, unix.c)

    The loop in which the threads of the database and of the file system wait, the functions of
    the database without effect, the calls of libfuse and the restart of the program. *)
From S2P Require Import Prelude CStd Conf Proc ProcSpec Dlink Balloc BallocFacts Heaps PkgSpec Threads World Main MainSpec Fuse VfsThread VfsThreadSpec.

Local Open Scope Z_scope.

(** ** Waiting *)

(** [dying i]: what the flag shows at turn [i]; the result is the number of naps of three seconds. *)
Fixpoint wait_loop (fuel : nat) (dying : nat → bool) (i : nat) : outcome nat :=
  match fuel with
  | O => Spin
  | S fuel => if dying i then Ret i else wait_loop fuel dying (S i)
  end.
(** Behind [thread_entry] (Barrier.v); it returns NULL. *)
Definition thread_db_init (fuel : nat) (dying : nat → bool) : outcome (Z * nat) :=
  let! naps := wait_loop fuel dying 0 in Ret (0, naps).

Lemma wait_loop_ends dying k : ∀ fuel i, (k < fuel)%nat → dying (i + k)%nat = true → (∀ j, (j < k)%nat → dying (i + j)%nat = false) →
  wait_loop fuel dying i = Ret (i + k)%nat.
Proof.
  induction k as [|k IH]; intros [|fuel] i Hf Hd Hn; try lia; cbn [wait_loop].
  - rewrite Nat.add_0_r in *. by rewrite Hd.
  - pose proof (Hn 0%nat ltac:(lia)) as H0. rewrite Nat.add_0_r in H0. rewrite H0, (IH fuel (S i)); [f_equal; lia|lia| |].
    + by rewrite Nat.add_succ_l, <- Nat.add_succ_r.
    + intros j Hj. rewrite Nat.add_succ_l, <- Nat.add_succ_r. apply Hn. lia.
Qed.

(** The thread ends at the first turn at which the program is dying, and only then. *)
Theorem db_thread_waits dying fuel k :
  dying k = true → (∀ j, (j < k)%nat → dying j = false) →
  ((k < fuel)%nat → thread_db_init fuel dying = Ret (0, k)) ∧ ((fuel ≤ k)%nat → thread_db_init fuel dying = Spin).
Proof.
  intros Hk Hn. unfold thread_db_init. split; intros Hf.
  - by rewrite (wait_loop_ends dying k fuel 0).
  - assert (∀ f i, (i + f ≤ k)%nat → wait_loop f dying i = Spin) as H; [|by rewrite H].
    induction f as [|f IH]; intros i Hi; [done|]. cbn [wait_loop]. rewrite Hn by lia. apply IH. lia.
Qed.

(** ** Functions of the database that do nothing *)
Definition db_file_add (pkg : Z) (path : string) (type : Z) (uid gid : Z) (owner group : string)
    (size offset ctime mode : Z) (perm : string) : Z := 0.
Definition db_file_remove (pkg : Z) (path : string) : Z := 0.

(** ** libfuse *)
Inductive fuse_call := SessionDestroy | Unmount | FreeArgs | Receive (size : Z) | Process (len : Z) | SessionReset.

(** Is there a session, a channel; were the arguments allocated. *)
Definition vfs_fuse_fini (sess chan : Z) (allocated : bool) : list fuse_call :=
  (if negb (sess =? 0) then [SessionDestroy] else []) ++
  (if negb (chan =? 0) then [Unmount] else []) ++
  (if allocated then [FreeArgs] else []).

(** [chan]: what [fuse_mount] returns; the session is not created by the code that is compiled. *)
Definition vfs_fuse_init (cwd : string) (mountpoint : option string) (chan : Z) (w : world) : outcome (Z * world) :=
  let! w := log_w LOG_DEBUG ("mountpoint: (" ++ cwd ++ ")" ++ fmt_s mountpoint) w in
  if chan =? 0 then
    let! w := log_w LOG_EMERG "FUSE: mount error" w in
    let w := World.set_proc (set_dying (w_proc w)) w in
    let! w := raise_w SIGTERM w in Ret (chan, w)
  else Ret (chan, w).

(** A mount that fails ends the started program, with 0. *)
Theorem fuse_mount_fails cwd mountpoint w g :
  at_stage w g → fst (sg_pid g) = true →
  vfs_fuse_init cwd mountpoint 0 w = Halt 0 ∧
  ∀ chan, chan ≠ 0 → ∃ w', vfs_fuse_init cwd mountpoint chan w = Ret (chan, w') ∧ at_stage w' g.
Proof.
  intros Hs Hp. unfold vfs_fuse_init.
  destruct (stage_log LOG_DEBUG ("mountpoint: (" ++ cwd ++ ")" ++ fmt_s mountpoint) w g Hs) as (w1 & -> & Hs1). rewrite !bind_ret.
  split.
  - destruct (stage_log LOG_EMERG "FUSE: mount error" w1 g Hs1) as (w2 & -> & Hs2). rewrite bind_ret.
    unfold raise_w, handle_signal. rewrite Log_ok by exact (stage_logs _ _ Hs2). rewrite !bind_ret. cbn [fst snd].
    pose proof (goodbye_w_ok _ _ (stage_emits [message LOG_WARNING ("Caught signal " ++ fmt_d SIGTERM)] w2 g Hs2) Hp) as H.
    assert (∀ r : world, goodbye_w r = Halt 0 → (let! w := goodbye_w r in Ret (0, w)) = Halt 0) as Hend by (intros r ->; done).
    exact (Hend _ H).
  - intros chan Hc. destruct (Z.eqb_spec chan 0); [done|]. by exists w1.
Qed.

(** A request of the kernel on a session of libfuse (the function is not registered by the code that is
    compiled).  [bufsize]: the size of the channel's buffer; [buf]: what [malloc] returns; [res]: the length of
    the request or a negative error.  [mem_alloc] clears what it allocates, also when there is nothing. *)
Definition EINTR : Z := 4.
Definition vfs_fuse_read_cb (bufsize buf res : Z) (w : world) : outcome (list fuse_call * world) :=
  let! buf := if (buf =? 0) && negb (bufsize =? 0) then Stuck NullDeref else Ret buf in
  if buf =? 0 then
    let! w := log_w LOG_EMERG ("fuse: failed to allocate read buffer" ++ String (Ascii.ascii_of_nat 10) "") w in
    Ret ([], World.set_proc (set_dying (w_proc w)) w)
  else
    Ret ([Receive bufsize] ++ (if negb ((res =? - EINTR) || (res <=? 0)) then [Process res] else []) ++ [SessionReset], w).

(** Without memory it crashes before it could end the program; otherwise the program goes on, and exactly a
    request that has arrived is processed. *)
Theorem fuse_request bufsize buf res w :
  0 < bufsize →
  vfs_fuse_read_cb bufsize buf res w =
    if buf =? 0 then Stuck NullDeref
    else Ret (Receive bufsize :: (if 0 <? res then [Process res; SessionReset] else [SessionReset]), w).
Proof.
  intros Hb. unfold vfs_fuse_read_cb. rewrite (proj2 (Z.eqb_neq bufsize 0)) by lia. cbn [negb]. rewrite andb_true_r.
  destruct (buf =? 0) eqn:E; [done|]. rewrite bind_ret, E.
  destruct (Z.ltb_spec 0 res); [rewrite (proj2 (Z.leb_gt res 0)) by lia|rewrite (proj2 (Z.leb_le res 0)) by lia].
  - rewrite orb_false_r. unfold EINTR. by rewrite (proj2 (Z.eqb_neq _ _)) by lia.
  - by rewrite orb_true_r.
Qed.

(** ** The restart *)

(** [exec]: does [execv] replace the program; [err]: its error.  Otherwise the exit status is -1, as a byte. *)
Inductive restarted := Restarted (argv : list string).
Definition daemon_restart (argc : Z) (argv : option (list string)) (exec : bool) (err : string) (p : proc) : outcome restarted :=
  match argv with
  | Some argv =>
      if argc =? -1 then Halt 255
      else if exec then Ret (Restarted argv)
      else let! p := Log LOG_ERR ("Couldn't restart server: " ++ err) p in Halt 255
  | None => Halt 255
  end.

Lemma restart_never_returns argc argv err p : logs p → daemon_restart argc argv false err p = Halt 255.
Proof.
  intros Hl. unfold daemon_restart. destruct argv as [argv|]; [|done]. destruct (argc =? -1); [done|].
  by rewrite Log_ok by done.
Qed.
